(** * The polygon-model interpreter of DXX-Rebirth (similar/3d/interp.cpp)

    A shallow embedding of the bytecode interpreter: the model buffer is a
    list of bytes, a pointer into it is a byte offset, and every function of
    interp.cpp is a function of a state-and-error monad over the program's
    mutable world (buffer, point list, canvas, view globals, nest counter,
    relocation chunks).  State objects ([g3_poly_get_color_state], ...) are
    records threaded through the handlers; the template parameter [State] of
    [dispatch_polymodel_op] and [iterate_polymodel] is a record of handlers. *)

From Stdlib Require Import ZArith List Lia Bool.
Import ListNotations.
Open Scope Z_scope.

(** ** Fixed-width integers *)

Definition to_uint16 (z : Z) : Z := z mod 65536.
Definition to_int16 (z : Z) : Z :=
  let u := z mod 65536 in if u <? 32768 then u else u - 65536.
Definition to_uint32 (z : Z) : Z := z mod 4294967296.
Definition to_int32 (z : Z) : Z :=
  let u := z mod 4294967296 in if u <? 2147483648 then u else u - 4294967296.

(** Arithmetic on [fix] (maths.h: a 32-bit signed integer), with its
    wrap-around to 32 bits written out.  Division by the constants 3 and 4
    of this file truncates towards zero and cannot leave the range, so it
    is [Z.quot] as it stands. *)
Definition fix_neg (a : Z) : Z := to_int32 (- a).
Definition fix_add (a b : Z) : Z := to_int32 (a + b).
Definition fix_mul (a b : Z) : Z := to_int32 (a * b).

(** Modelled from the spec: byteutil.h is not among the sources; SWAPSHORT
    and SWAPINT reverse the bytes of a 16-bit and of a 32-bit value (the
    spec's "swapping multi-byte fields for foreign byte order").  Both work
    on the unsigned representation. *)
Definition SWAPSHORT (x : Z) : Z :=
  let u := to_uint16 x in (u mod 256) * 256 + u / 256.
Definition SWAPINT (x : Z) : Z :=
  let u := to_uint32 x in
  (u mod 256) * 16777216 + ((u / 256) mod 256) * 65536
  + ((u / 65536) mod 256) * 256 + u / 16777216.

(** ** Geometry records (vecmat.h, 3d.h: three or two [fix] fields each) *)

Record vms_vector := { vx : Z; vy : Z; vz : Z }.
Record vms_angvec := { ang_p : Z; ang_b : Z; ang_h : Z }.
Record g3s_uvl := { uvl_u : Z; uvl_v : Z; uvl_l : Z }.
Record g3s_lrgb := { lr : Z; lg : Z; lb : Z }.

Definition sizeof_vms_vector : Z := 12.
Definition sizeof_g3s_uvl : Z := 12.
Definition f1_0 : Z := 65536.
Definition zero_angles : vms_angvec := {| ang_p := 0; ang_b := 0; ang_h := 0 |}.

(** ** Opcodes *)

Definition OP_EOF : Z := 0.
Definition OP_DEFPOINTS : Z := 1.
Definition OP_FLATPOLY : Z := 2.
Definition OP_TMAPPOLY : Z := 3.
Definition OP_SORTNORM : Z := 4.
Definition OP_RODBM : Z := 5.
Definition OP_SUBCALL : Z := 6.
Definition OP_DEFP_START : Z := 7.
Definition OP_GLOW : Z := 8.

(** ** Build configuration and external collaborators

    The preprocessor switches of the file, the constants it takes from
    headers that are not among the sources, and the 3D-math and colour
    routines it calls but does not define. *)

Inductive Build := DXX_BUILD_DESCENT_I | DXX_BUILD_DESCENT_II.

Class Config := {
  build : Build;
  NDEBUG : bool;                 (* Assert expands to nothing when set *)
  DXX_WORDS_BIGENDIAN : bool;    (* byte order of the host *)
  MAX_POINTS_PER_POLY : Z;
  MAX_CHUNKS : Z;
  g3s_point : Type;              (* a rotated point *)
  g3_view : Type;                (* View_matrix, View_position, instance stack *)
  gr_find_closest_color_15bpp : Z -> Z;
  g3_check_normal_facing : g3_view -> vms_vector -> vms_vector -> Z;
  g3_rotate_point : g3_view -> vms_vector -> g3s_point;
  g3_start_instance_angles : g3_view -> vms_vector -> vms_angvec -> g3_view;
  g3_done_instance : g3_view -> g3_view;
  View_matrix_fvec : g3_view -> vms_vector;
  vm_vec_dot : vms_vector -> vms_vector -> Z;
  fixmul : Z -> Z -> Z
}.

(** Calls into the rasterizer, recorded in call order.  A bitmap argument
    [*model_bitmaps[i]] is recorded as its index [i]. *)
Inductive draw_call {C : Config} :=
| g3_draw_poly (nv : Z) (pts : list g3s_point) (color : Z)
| g3_check_and_draw_poly (pts : list g3s_point) (color : Z)
| g3_draw_tmap (nv : Z) (pts : list g3s_point) (uvl : list g3s_uvl)
               (lrgb : list g3s_lrgb) (bitmap : Z)
| g3_draw_rod_tmap (bitmap : Z) (bot : g3s_point) (bot_width : Z)
                   (top : g3s_point) (top_width : Z) (light : g3s_lrgb).

(** A relocation chunk (polyobj.h): base addresses are byte offsets. *)
Record chunk := {
  old_base : Z; new_base : Z; offset : Z; correction : Z
}.

(** ** The world and the monad *)

Record world {C : Config} := {
  mem : list Z;                        (* the model buffer, one byte each *)
  Interp_point_list : list g3s_point;
  canvas : list draw_call;             (* newest call first *)
  view : g3_view;
  nest_count : Z;
  chunk_list : list chunk              (* chunk_list[0 .. *no_chunks) *)
}.

(** What a read or write outside an object is: undefined behaviour in the
    source, a [Fault] here, told apart by the object that was missed. *)
Inductive fault :=
  OutOfBuffer | OutOfPointList | OutOfGlowTable | OutOfAngles | OutOfNewPoints.

Inductive error :=
| Throw                (* std::runtime_error("invalid polygon model") *)
| AssertFail           (* a failed Assert of a debug build *)
| Fault (f : fault)
| OutOfFuel.           (* the model's recursion budget ran out *)

Inductive outcome (A : Type) := Val (a : A) | Err (e : error).
Arguments Val {A} a.
Arguments Err {A} e.

Section Monad.
Context {C : Config}.

(** A computation keeps the world it reached also when it fails: the
    buffer is mutated in place and an exception does not undo it. *)
Definition M (A : Type) : Type := world -> outcome A * world.

Definition ret {A} (a : A) : M A := fun s => (Val a, s).
Definition fail {A} (e : error) : M A := fun s => (Err e, s).
Definition bind {A B} (m : M A) (f : A -> M B) : M B :=
  fun s => match m s with
           | (Val a, s') => f a s'
           | (Err e, s') => (Err e, s')
           end.
Definition gets {A} (f : world -> A) : M A := fun s => (Val (f s), s).
Definition modify (f : world -> world) : M unit := fun s => (Val tt, f s).
Definition lift {A} (f : fault) (o : option A) : M A :=
  match o with Some a => ret a | None => fail (Fault f) end.
End Monad.

Declare Scope interp_scope.
Delimit Scope interp_scope with interp.
Notation "x <- c1 ;; c2" := (bind c1 (fun x => c2))
  (at level 100, c1 at next level, right associativity) : interp_scope.
Notation "' pat <- c1 ;; c2" := (bind c1 (fun x => match x with pat => c2 end))
  (at level 100, pat pattern, c1 at next level, right associativity) : interp_scope.
Notation "c1 ;;; c2" := (bind c1 (fun _ => c2))
  (at level 100, right associativity) : interp_scope.
Open Scope interp_scope.

(** ** The model buffer *)

Section Memory.
Context {C : Config}.

Definition set_mem (m : list Z) (s : world) : world :=
  {| mem := m; Interp_point_list := Interp_point_list s; canvas := canvas s;
     view := view s; nest_count := nest_count s; chunk_list := chunk_list s |}.
Definition set_points (l : list g3s_point) (s : world) : world :=
  {| mem := mem s; Interp_point_list := l; canvas := canvas s;
     view := view s; nest_count := nest_count s; chunk_list := chunk_list s |}.
Definition set_canvas (c : list draw_call) (s : world) : world :=
  {| mem := mem s; Interp_point_list := Interp_point_list s; canvas := c;
     view := view s; nest_count := nest_count s; chunk_list := chunk_list s |}.
Definition set_view (v : g3_view) (s : world) : world :=
  {| mem := mem s; Interp_point_list := Interp_point_list s; canvas := canvas s;
     view := v; nest_count := nest_count s; chunk_list := chunk_list s |}.
Definition set_nest_count (n : Z) (s : world) : world :=
  {| mem := mem s; Interp_point_list := Interp_point_list s; canvas := canvas s;
     view := view s; nest_count := n; chunk_list := chunk_list s |}.
Definition set_chunk_list (l : list chunk) (s : world) : world :=
  {| mem := mem s; Interp_point_list := Interp_point_list s; canvas := canvas s;
     view := view s; nest_count := nest_count s; chunk_list := l |}.

(** Element [i] of an array object, [None] outside of it. *)
Definition at_index {A} (l : list A) (i : Z) : option A :=
  if i <? 0 then None else nth_error l (Z.to_nat i).
Definition put_index {A} (l : list A) (i : Z) (a : A) : option (list A) :=
  if (0 <=? i) && (i <? Z.of_nat (length l))
  then Some (firstn (Z.to_nat i) l ++ a :: skipn (S (Z.to_nat i)) l)
  else None.

(** The value of the two or four bytes at an address, in host order. *)
Definition join16 (b0 b1 : Z) : Z :=
  if DXX_WORDS_BIGENDIAN then b0 * 256 + b1 else b1 * 256 + b0.
Definition split16 (v : Z) : Z * Z :=
  let u := to_uint16 v in
  if DXX_WORDS_BIGENDIAN then (u / 256, u mod 256) else (u mod 256, u / 256).
Definition load16 (m : list Z) (a : Z) : option Z :=
  match at_index m a, at_index m (a + 1) with
  | Some b0, Some b1 => Some (join16 b0 b1)
  | _, _ => None
  end.
Definition store16 (m : list Z) (a v : Z) : option (list Z) :=
  let (b0, b1) := split16 v in
  match put_index m a b0 with
  | Some m1 => put_index m1 (a + 1) b1
  | None => None
  end.
Definition load32 (m : list Z) (a : Z) : option Z :=
  match load16 m a, load16 m (a + 2) with
  | Some h0, Some h1 =>
      Some (if DXX_WORDS_BIGENDIAN then h0 * 65536 + h1 else h1 * 65536 + h0)
  | _, _ => None
  end.
Definition store32 (m : list Z) (a v : Z) : option (list Z) :=
  let u := to_uint32 v in
  let (h0, h1) := if DXX_WORDS_BIGENDIAN
                  then (u / 65536, u mod 65536) else (u mod 65536, u / 65536) in
  match store16 m a h0 with
  | Some m1 => store16 m1 (a + 2) h1
  | None => None
  end.

(** [w(p)]: the [int16_t] at [p]. *)
Definition w (p : Z) : M Z :=
  m <- gets mem ;; lift OutOfBuffer (option_map to_int16 (load16 m p)).
(** [*wp(p) = v]. *)
Definition set_wp (p v : Z) : M unit :=
  m <- gets mem ;; m' <- lift OutOfBuffer (store16 m p v) ;; modify (set_mem m').
(** [*fp(p)]: the [fix] at [p], and [*fp(p) = v]. *)
Definition fp (p : Z) : M Z :=
  m <- gets mem ;; lift OutOfBuffer (option_map to_int32 (load32 m p)).
Definition set_fp (p v : Z) : M unit :=
  m <- gets mem ;; m' <- lift OutOfBuffer (store32 m p v) ;; modify (set_mem m').
(** [*vp(p)]: the [vms_vector] at [p]. *)
Definition vp (p : Z) : M vms_vector :=
  x <- fp p ;; y <- fp (p + 4) ;; z <- fp (p + 8) ;;
  ret {| vx := x; vy := y; vz := z |}.
(** The [g3s_uvl] at [p]. *)
Definition uvlp (p : Z) : M g3s_uvl :=
  u <- fp p ;; v <- fp (p + 4) ;; l <- fp (p + 8) ;;
  ret {| uvl_u := u; uvl_v := v; uvl_l := l |}.

(** Modelled from the spec: byteutil.h is not among the sources.
    INTEL_SHORT converts between host order and the little-endian order of
    the files; GET_INTEL_SHORT reads a little-endian 16-bit value bytewise. *)
Definition INTEL_SHORT (x : Z) : Z :=
  if DXX_WORDS_BIGENDIAN then SWAPSHORT x else to_uint16 x.
Definition GET_INTEL_SHORT (p : Z) : M Z :=
  m <- gets mem ;;
  match at_index m p, at_index m (p + 1) with
  | Some b0, Some b1 => ret (b1 * 256 + b0)
  | _, _ => fail (Fault OutOfBuffer)
  end.

(** [Assert(c)]: nothing in an NDEBUG build, the condition is not even
    evaluated there. *)
Definition Assert (c : M bool) : M unit :=
  if NDEBUG then ret tt
  else b <- c ;; if b then ret tt else fail AssertFail.

End Memory.

(** ** The dispatcher *)

(** The static interface a [State] class offers to the two templates.
    [get_raw_opcode] and [op_default] are those of [interpreter_base] in
    every state class of the file. *)
Record State_ops {C : Config} (S : Type) := {
  translate_opcode : Z -> Z -> M Z;
  get_op_subcount : Z -> M Z;
  op_defpoints : Z -> Z -> S -> M S;
  op_defp_start : Z -> Z -> S -> M S;
  op_flatpoly : Z -> Z -> S -> M S;
  op_tmappoly : Z -> Z -> S -> M S;
  op_sortnorm : Z -> S -> M S;
  op_rodbm : Z -> S -> M S;
  op_subcall : Z -> S -> M S;
  op_glow : Z -> S -> M S
}.
Arguments translate_opcode {C S} _ _ _.
Arguments get_op_subcount {C S} _ _.
Arguments op_defpoints {C S} _ _ _ _.
Arguments op_defp_start {C S} _ _ _ _.
Arguments op_flatpoly {C S} _ _ _ _.
Arguments op_tmappoly {C S} _ _ _ _.
Arguments op_sortnorm {C S} _ _ _.
Arguments op_rodbm {C S} _ _ _.
Arguments op_subcall {C S} _ _ _.
Arguments op_glow {C S} _ _ _.

Section Dispatch.
Context {C : Config}.

(** [interpreter_base] *)
Definition get_raw_opcode (p : Z) : M Z :=
  v <- w p ;; ret (to_uint16 v).
Definition base_translate_opcode (p op : Z) : M Z := ret op.
Definition base_get_op_subcount (p : Z) : M Z :=
  v <- w (p + 2) ;; ret (to_uint16 v).
Definition op_default : M unit := fail Throw.

(** The [interpreter_ignore_op_*] mixins. *)
Definition ignore_op2 {S} (p n : Z) (st : S) : M S := ret st.
Definition ignore_op1 {S} (p : Z) (st : S) : M S := ret st.

Definition dispatch_polymodel_op {S} (ops : State_ops S) (p : Z) (st : S) (op : Z)
  : M (Z * S) :=
  if op =? OP_DEFPOINTS then
    n <- get_op_subcount ops p ;;
    let record_size := n * sizeof_vms_vector + 4 in
    st' <- op_defpoints ops p n st ;;
    ret (record_size, st')
  else if op =? OP_DEFP_START then
    n <- get_op_subcount ops p ;;
    let record_size := n * sizeof_vms_vector + 8 in
    st' <- op_defp_start ops p n st ;;
    ret (record_size, st')
  else if op =? OP_FLATPOLY then
    n <- get_op_subcount ops p ;;
    let record_size := 30 + (Z.land n (Z.lnot 1) + 1) * 2 in
    st' <- op_flatpoly ops p n st ;;
    ret (record_size, st')
  else if op =? OP_TMAPPOLY then
    n <- get_op_subcount ops p ;;
    let record_size := 30 + (Z.land n (Z.lnot 1) + 1) * 2 + n * 12 in
    st' <- op_tmappoly ops p n st ;;
    ret (record_size, st')
  else if op =? OP_SORTNORM then
    let record_size := 32 in
    st' <- op_sortnorm ops p st ;;
    ret (record_size, st')
  else if op =? OP_RODBM then
    let record_size := 36 in
    st' <- op_rodbm ops p st ;;
    ret (record_size, st')
  else if op =? OP_SUBCALL then
    let record_size := 20 in
    st' <- op_subcall ops p st ;;
    ret (record_size, st')
  else if op =? OP_GLOW then
    let record_size := 4 in
    st' <- op_glow ops p st ;;
    ret (record_size, st')
  else
    op_default ;;; ret (2, st).

(** One turn of the [for] loop of [iterate_polymodel]: [None] when the
    raw opcode is [OP_EOF], the advanced cursor otherwise. *)
Definition iterate_step {S} (ops : State_ops S) (p : Z) (st : S)
  : M (option (Z * S)) :=
  op <- get_raw_opcode p ;;
  if op =? OP_EOF then ret None
  else
    op' <- translate_opcode ops p op ;;
    '(sz, st') <- dispatch_polymodel_op ops p st op' ;;
    ret (Some (p + sz, st')).

Fixpoint iterate_polymodel {S} (fuel : nat) (ops : State_ops S) (p : Z) (st : S)
  : M (Z * S) :=
  match fuel with
  | O => fail OutOfFuel
  | Datatypes.S fuel' =>
      r <- iterate_step ops p st ;;
      match r with
      | None => ret (p, st)
      | Some (p', st') => iterate_polymodel fuel' ops p' st'
      end
  end.

End Dispatch.

(** ** [g3_poly_get_color_state]: a representative colour *)

Record g3_poly_get_color_state := { color : Z }.

Section ColorProbe.
Context {C : Config}.

Definition color_op_flatpoly (p nv : Z) (st : g3_poly_get_color_state)
  : M g3_poly_get_color_state :=
  if nv >? MAX_POINTS_PER_POLY then ret st
  else
    v <- vp (p + 4) ;; norm <- vp (p + 16) ;; vw <- gets view ;;
    if g3_check_normal_facing vw v norm >? 0 then
      c <- w (p + 28) ;;
      ret {| color := match build with
                      | DXX_BUILD_DESCENT_I => c
                      | DXX_BUILD_DESCENT_II => gr_find_closest_color_15bpp c
                      end |}
    else ret st.

Definition color_op_sortnorm (g3_poly_get_color : Z -> M Z) (p : Z)
  (st : g3_poly_get_color_state) : M g3_poly_get_color_state :=
  v <- vp (p + 16) ;; norm <- vp (p + 4) ;; vw <- gets view ;;
  let facing := g3_check_normal_facing vw v norm >? 0 in
  off <- (if facing then w (p + 28) else w (p + 30)) ;;
  c <- g3_poly_get_color (p + off) ;;
  ret {| color := c |}.

Definition color_op_subcall (g3_poly_get_color : Z -> M Z) (p : Z)
  (st : g3_poly_get_color_state) : M g3_poly_get_color_state :=
  match build with
  | DXX_BUILD_DESCENT_I =>
      off <- w (p + 16) ;;
      c <- g3_poly_get_color (p + off) ;;
      ret {| color := c |}
  | DXX_BUILD_DESCENT_II => ret st
  end.

Definition g3_poly_get_color_ops (g3_poly_get_color : Z -> M Z)
  : State_ops g3_poly_get_color_state :=
  {| translate_opcode := base_translate_opcode;
     get_op_subcount := base_get_op_subcount;
     op_defpoints := ignore_op2;
     op_defp_start := ignore_op2;
     op_flatpoly := color_op_flatpoly;
     op_tmappoly := ignore_op2;
     op_sortnorm := color_op_sortnorm g3_poly_get_color;
     op_rodbm := ignore_op1;
     op_subcall := color_op_subcall g3_poly_get_color;
     op_glow := ignore_op1 |}.

Fixpoint g3_poly_get_color (fuel : nat) (p : Z) : M Z :=
  match fuel with
  | O => fail OutOfFuel
  | S fuel' =>
      '(_, st) <- iterate_polymodel fuel'
                    (g3_poly_get_color_ops (g3_poly_get_color fuel')) p
                    {| color := 0 |} ;;
      ret (color st)
  end.

End ColorProbe.

(** ** [g3_interpreter_draw_base] *)

(** The [const] members of the draw states.  [anim_angles] is a null
    pointer ([None]) or an array of angles; [model_bitmaps] is left out,
    a bitmap being recorded by its index. *)
Record draw_args := {
  anim_angles : option (list vms_angvec);
  model_light : g3s_lrgb
}.

Section DrawBase.
Context {C : Config}.
Variable args : draw_args.

Definition draw (c : draw_call) : M unit :=
  modify (fun s => set_canvas (c :: canvas s) s).

(** [rotate_point_list(&Interp_point_list[dest], src, n)]; [src k] reads
    the [k]-th vector of the source array. *)
Fixpoint rotate_point_list (n : nat) (dest : Z) (src : Z -> M vms_vector) (k : Z)
  : M unit :=
  match n with
  | O => ret tt
  | S n' =>
      v <- src k ;; vw <- gets view ;; pl <- gets Interp_point_list ;;
      pl' <- lift OutOfPointList (put_index pl (dest + k) (g3_rotate_point vw v)) ;;
      modify (set_points pl') ;;;
      rotate_point_list n' dest src (k + 1)
  end.
Definition rotate (i : Z) (src : Z -> M vms_vector) (n : Z) : M unit :=
  rotate_point_list (Z.to_nat n) i src 0.

(** The vectors of the buffer from address [a] on. *)
Definition vectors_at (a : Z) (k : Z) : M vms_vector := vp (a + k * sizeof_vms_vector).
(** The vectors of the array [new_points]. *)
Definition vectors_of (new_points : list vms_vector) (k : Z) : M vms_vector :=
  lift OutOfNewPoints (at_index new_points k).

(** [prepare_point_list<N>(nv, p)]: entries [i .. i + nv) of the index
    table at [p + 30], each looked up in the point list. *)
Fixpoint prepare_point_list_from (nv : nat) (p i : Z) : M (list g3s_point) :=
  match nv with
  | O => ret []
  | S nv' =>
      idx <- w (p + 30 + i * 2) ;;
      pl <- gets Interp_point_list ;;
      pt <- lift OutOfPointList (at_index pl idx) ;;
      rest <- prepare_point_list_from nv' p (i + 1) ;;
      ret (pt :: rest)
  end.
Definition prepare_point_list (nv p : Z) : M (list g3s_point) :=
  prepare_point_list_from (Z.to_nat nv) p 0.

Definition get_noglow_light (p : Z) : M g3s_lrgb :=
  norm <- vp (p + 16) ;; vw <- gets view ;;
  let negdot := fix_neg (vm_vec_dot (View_matrix_fvec vw) norm) in
  let color := fix_add (Z.quot f1_0 4) (Z.quot (fix_mul negdot 3) 4) in
  ret {| lr := fixmul color (lr (model_light args));
         lg := fixmul color (lg (model_light args));
         lb := fixmul color (lb (model_light args)) |}.

Definition base_op_defpoints (src : Z -> M vms_vector) (n : Z) : M unit :=
  rotate 0 src n.
Definition base_op_defp_start (p : Z) (src : Z -> M vms_vector) (n : Z) : M unit :=
  i <- w (p + 4) ;; rotate i src n.

Definition get_sortnorm_offsets (p : Z) : M (Z * Z) :=
  a0 <- w (p + 30) ;; b0 <- w (p + 28) ;;
  let a := to_uint16 a0 in
  let b := to_uint16 b0 in
  v <- vp (p + 16) ;; norm <- vp (p + 4) ;; vw <- gets view ;;
  ret (if g3_check_normal_facing vw v norm >? 0 then (a, b) else (b, a)).

Definition base_op_rodbm (p : Z) : M unit :=
  bot <- vp (p + 20) ;; vw <- gets view ;;
  let rod_bot_p := g3_rotate_point vw bot in
  top <- vp (p + 4) ;;
  let rod_top_p := g3_rotate_point vw top in
  let rodbm_light := {| lr := f1_0; lg := f1_0; lb := f1_0 |} in
  bm <- w (p + 2) ;; bw <- w (p + 16) ;; tw <- w (p + 32) ;;
  draw (g3_draw_rod_tmap bm rod_bot_p bw rod_top_p tw rodbm_light).

Definition base_op_subcall
  (g3_draw_polygon_model : option (list Z) -> Z -> M unit)
  (p : Z) (glow_values : option (list Z)) : M unit :=
  v <- vp (p + 4) ;;
  ang <- match anim_angles args with
         | Some angles => i <- w (p + 2) ;; lift OutOfAngles (at_index angles i)
         | None => ret zero_angles
         end ;;
  modify (fun s => set_view (g3_start_instance_angles (view s) v ang) s) ;;;
  off <- w (p + 16) ;;
  g3_draw_polygon_model glow_values (p + off) ;;;
  modify (fun s => set_view (g3_done_instance (view s)) s).

(** The [n] texture coordinates behind the index table of a textured
    polygon with [nv] points. *)
Fixpoint uvl_list_from (n : nat) (p nv i : Z) (f : g3s_uvl -> g3s_uvl)
  : M (list g3s_uvl) :=
  match n with
  | O => ret []
  | S n' =>
      u <- uvlp (p + 30 + (Z.land nv (Z.lnot 1) + 1) * 2 + i * sizeof_g3s_uvl) ;;
      rest <- uvl_list_from n' p nv (i + 1) f ;;
      ret (f u :: rest)
  end.

End DrawBase.

(** ** [g3_draw_polygon_model_state]: the static renderer *)

Record g3_draw_polygon_model_state := {
  glow_values : option (list Z);     (* null, or the glow table *)
  glow_num : Z                       (* unsigned *)
}.

Section StaticDraw.
Context {C : Config}.
Variable args : draw_args.

(** The test [glow_values && glow_num < glow_values->size() &&
    glow_values->at(glow_num) == v] of the source, evaluated left to right:
    the table is indexed only behind the two guards. *)
Definition glow_value_is (st : g3_draw_polygon_model_state) (v : Z) : M bool :=
  match glow_values st with
  | None => ret false
  | Some gv =>
      if glow_num st <? Z.of_nat (length gv) then
        g <- lift OutOfGlowTable (at_index gv (glow_num st)) ;;
        ret (g =? v)
      else ret false
  end.

Definition draw_op_defpoints (p n : Z) (st : g3_draw_polygon_model_state)
  : M g3_draw_polygon_model_state :=
  base_op_defpoints (vectors_at (p + 4)) n ;;; ret st.
Definition draw_op_defp_start (p n : Z) (st : g3_draw_polygon_model_state)
  : M g3_draw_polygon_model_state :=
  base_op_defp_start p (vectors_at (p + 8)) n ;;; ret st.

Definition draw_op_flatpoly (p nv : Z) (st : g3_draw_polygon_model_state)
  : M g3_draw_polygon_model_state :=
  if nv >? MAX_POINTS_PER_POLY then ret st
  else
    v <- vp (p + 4) ;; norm <- vp (p + 16) ;; vw <- gets view ;;
    if g3_check_normal_facing vw v norm >? 0 then
      hidden <- match build with
                | DXX_BUILD_DESCENT_I => ret false
                | DXX_BUILD_DESCENT_II => glow_value_is st (-3)
                end ;;
      if hidden then ret st
      else
        color <- match build with
                 | DXX_BUILD_DESCENT_I => c <- w (p + 28) ;; ret (c mod 256)
                 | DXX_BUILD_DESCENT_II =>
                     white <- glow_value_is st (-2) ;;
                     if white then ret 255
                     else c <- w (p + 28) ;;
                          ret (gr_find_closest_color_15bpp c mod 256)
                 end ;;
        point_list <- prepare_point_list nv p ;;
        draw (g3_draw_poly nv point_list color) ;;;
        ret st
    else ret st.

Definition get_glow_light (c : Z) : g3s_lrgb := {| lr := c; lg := c; lb := c |}.

Definition draw_op_tmappoly (p nv : Z) (st : g3_draw_polygon_model_state)
  : M g3_draw_polygon_model_state :=
  if nv >? MAX_POINTS_PER_POLY then ret st
  else
    v <- vp (p + 4) ;; norm <- vp (p + 16) ;; vw <- gets view ;;
    if negb (g3_check_normal_facing vw v norm >? 0) then ret st
    else
      '(light, st') <-
        match glow_values st with
        | Some gv =>
            if glow_num st <? Z.of_nat (length gv) then
              g <- lift OutOfGlowTable (at_index gv (glow_num st)) ;;
              ret (get_glow_light g,
                   {| glow_values := glow_values st; glow_num := to_uint32 (-1) |})
            else l <- get_noglow_light args p ;; ret (l, st)
        | None => l <- get_noglow_light args p ;; ret (l, st)
        end ;;
      let average_light :=
        Z.quot (fix_add (fix_add (lr light) (lg light)) (lb light)) 3 in
      uvl_list <- uvl_list_from (Z.to_nat nv) p nv 0
                    (fun u => {| uvl_u := uvl_u u; uvl_v := uvl_v u;
                                 uvl_l := average_light |}) ;;
      let lrgb_list := repeat light (Z.to_nat nv) in
      point_list <- prepare_point_list nv p ;;
      bm <- w (p + 28) ;;
      draw (g3_draw_tmap nv point_list uvl_list lrgb_list bm) ;;;
      ret st'.

Definition draw_op_sortnorm
  (g3_draw_polygon_model : option (list Z) -> Z -> M unit)
  (p : Z) (st : g3_draw_polygon_model_state) : M g3_draw_polygon_model_state :=
  '(a, b) <- get_sortnorm_offsets p ;;
  g3_draw_polygon_model (glow_values st) (p + a) ;;;
  g3_draw_polygon_model (glow_values st) (p + b) ;;;
  ret st.

Definition draw_op_rodbm (p : Z) (st : g3_draw_polygon_model_state)
  : M g3_draw_polygon_model_state :=
  base_op_rodbm p ;;; ret st.

Definition draw_op_subcall
  (g3_draw_polygon_model : option (list Z) -> Z -> M unit)
  (p : Z) (st : g3_draw_polygon_model_state) : M g3_draw_polygon_model_state :=
  base_op_subcall args g3_draw_polygon_model p (glow_values st) ;;; ret st.

Definition draw_op_glow (p : Z) (st : g3_draw_polygon_model_state)
  : M g3_draw_polygon_model_state :=
  v <- w (p + 2) ;;
  ret {| glow_values := glow_values st; glow_num := to_uint32 v |}.

Definition g3_draw_polygon_model_ops
  (g3_draw_polygon_model : option (list Z) -> Z -> M unit)
  : State_ops g3_draw_polygon_model_state :=
  {| translate_opcode := base_translate_opcode;
     get_op_subcount := base_get_op_subcount;
     op_defpoints := draw_op_defpoints;
     op_defp_start := draw_op_defp_start;
     op_flatpoly := draw_op_flatpoly;
     op_tmappoly := draw_op_tmappoly;
     op_sortnorm := draw_op_sortnorm g3_draw_polygon_model;
     op_rodbm := draw_op_rodbm;
     op_subcall := draw_op_subcall g3_draw_polygon_model;
     op_glow := draw_op_glow |}.

Fixpoint g3_draw_polygon_model (fuel : nat) (glvalues : option (list Z)) (p : Z)
  : M unit :=
  match fuel with
  | O => fail OutOfFuel
  | S fuel' =>
      iterate_polymodel fuel'
        (g3_draw_polygon_model_ops (g3_draw_polygon_model fuel')) p
        {| glow_values := glvalues; glow_num := to_uint32 (Z.lnot 0) |} ;;;
      ret tt
  end.

End StaticDraw.

(** ** [g3_draw_morphing_model_state]: the morphing renderer

    Its only own member, [new_points], is constant; the state carried
    through the handlers is empty. *)

Section MorphDraw.
Context {C : Config}.
Variable args : draw_args.
Variable new_points : list vms_vector.

Definition morph_op_defpoints (p n : Z) (st : unit) : M unit :=
  base_op_defpoints (vectors_of new_points) n.
Definition morph_op_defp_start (p n : Z) (st : unit) : M unit :=
  base_op_defp_start p (vectors_of new_points) n.

(** The [for (ntris = nv - 2; ntris; ntris--)] loop; [p0] and [p1] are
    [point_list[0]] and [point_list[1]]. *)
Fixpoint morph_flatpoly_loop (fuel : nat) (p color ntris i : Z) (p0 p1 : g3s_point)
  : M unit :=
  if ntris =? 0 then ret tt
  else
    match fuel with
    | O => fail OutOfFuel
    | S fuel' =>
        idx <- w (p + 30 + i * 2) ;;
        pl <- gets Interp_point_list ;;
        p2 <- lift OutOfPointList (at_index pl idx) ;;
        draw (g3_check_and_draw_poly [p0; p1; p2] color) ;;;
        morph_flatpoly_loop fuel' p color (ntris - 1) (i + 1) p0 p2
    end.

Definition morph_op_flatpoly (fuel : nat) (p nv : Z) (st : unit) : M unit :=
  c <- w (p + 28) ;;
  let color := c mod 256 in
  point_list <- prepare_point_list 2 p ;;
  match point_list with
  | [p0; p1] => morph_flatpoly_loop fuel p color (to_int32 (nv - 2)) 2 p0 p1
  | _ => ret tt
  end.

Definition morph_op_tmappoly (p nv : Z) (st : unit) : M unit :=
  if nv >? MAX_POINTS_PER_POLY then ret tt
  else
    light <- get_noglow_light args p ;;
    let lrgb_list := repeat light (Z.to_nat nv) in
    uvl_list <- uvl_list_from (Z.to_nat nv) p nv 0 (fun u => u) ;;
    point_list <- prepare_point_list nv p ;;
    bm <- w (p + 28) ;;
    draw (g3_draw_tmap nv point_list uvl_list lrgb_list bm).

Definition morph_op_sortnorm (g3_draw_morphing_model : Z -> M unit) (p : Z)
  (st : unit) : M unit :=
  '(a, b) <- get_sortnorm_offsets p ;;
  g3_draw_morphing_model (p + a) ;;;
  g3_draw_morphing_model (p + b).

Definition morph_op_rodbm (p : Z) (st : unit) : M unit := base_op_rodbm p.

(** The sub-model of a morphing model is drawn by the static renderer,
    with no glow table. *)
Definition morph_op_subcall
  (g3_draw_polygon_model : option (list Z) -> Z -> M unit) (p : Z) (st : unit)
  : M unit :=
  base_op_subcall args g3_draw_polygon_model p None.

Definition g3_draw_morphing_model_ops (fuel : nat)
  (g3_draw_morphing_model : Z -> M unit) : State_ops unit :=
  {| translate_opcode := base_translate_opcode;
     get_op_subcount := base_get_op_subcount;
     op_defpoints := morph_op_defpoints;
     op_defp_start := morph_op_defp_start;
     op_flatpoly := morph_op_flatpoly fuel;
     op_tmappoly := morph_op_tmappoly;
     op_sortnorm := morph_op_sortnorm g3_draw_morphing_model;
     op_rodbm := morph_op_rodbm;
     op_subcall := morph_op_subcall (g3_draw_polygon_model args fuel);
     op_glow := ignore_op1 |}.

Fixpoint g3_draw_morphing_model (fuel : nat) (p : Z) : M unit :=
  match fuel with
  | O => fail OutOfFuel
  | S fuel' =>
      iterate_polymodel fuel'
        (g3_draw_morphing_model_ops fuel' (g3_draw_morphing_model fuel')) p tt ;;;
      ret tt
  end.

End MorphDraw.

(** ** [init_model_sub_state]: the load-time scan *)

Record init_model_sub_state := { highest_texture_num : Z }.

Section InitScan.
Context {C : Config}.

Definition init_op_flatpoly (p nv : Z) (st : init_model_sub_state)
  : M init_model_sub_state :=
  Assert (ret (nv >? 2)) ;;;
  match build with
  | DXX_BUILD_DESCENT_I =>
      c <- w (p + 28) ;;
      set_wp (p + 28) (to_int16 (gr_find_closest_color_15bpp c)) ;;;
      ret st
  | DXX_BUILD_DESCENT_II => ret st
  end.

Definition init_op_tmappoly (p nv : Z) (st : init_model_sub_state)
  : M init_model_sub_state :=
  Assert (ret (nv >? 2)) ;;;
  t <- w (p + 28) ;;
  if t >? highest_texture_num st then
    t' <- w (p + 28) ;; ret {| highest_texture_num := t' |}
  else ret st.

Definition init_op_sortnorm (init_model_sub : Z -> Z -> M Z) (p : Z)
  (st : init_model_sub_state) : M init_model_sub_state :=
  front <- w (p + 28) ;;
  h <- init_model_sub (p + front) (highest_texture_num st) ;;
  back <- w (p + 30) ;;
  h' <- init_model_sub (p + back) h ;;
  ret {| highest_texture_num := h' |}.

Definition init_op_subcall (init_model_sub : Z -> Z -> M Z) (p : Z)
  (st : init_model_sub_state) : M init_model_sub_state :=
  off <- w (p + 16) ;;
  h <- init_model_sub (p + off) (highest_texture_num st) ;;
  ret {| highest_texture_num := h |}.

Definition init_model_sub_ops (init_model_sub : Z -> Z -> M Z)
  : State_ops init_model_sub_state :=
  {| translate_opcode := base_translate_opcode;
     get_op_subcount := base_get_op_subcount;
     op_defpoints := ignore_op2;
     op_defp_start := ignore_op2;
     op_flatpoly := init_op_flatpoly;
     op_tmappoly := init_op_tmappoly;
     op_sortnorm := init_op_sortnorm init_model_sub;
     op_rodbm := ignore_op1;
     op_subcall := init_op_subcall init_model_sub;
     op_glow := ignore_op1 |}.

(** [++nest_count < 1000] *)
Definition bump_nest_count : M bool :=
  n <- gets nest_count ;;
  modify (set_nest_count (n + 1)) ;;;
  ret (n + 1 <? 1000).

Fixpoint init_model_sub (fuel : nat) (p : Z) (highest : Z) : M Z :=
  match fuel with
  | O => fail OutOfFuel
  | S fuel' =>
      Assert bump_nest_count ;;;
      '(_, st) <- iterate_polymodel fuel'
                    (init_model_sub_ops (init_model_sub fuel')) p
                    {| highest_texture_num := highest |} ;;
      ret (highest_texture_num st)
  end.

Definition g3_init_polygon_model (fuel : nat) (model_ptr : Z) : M Z :=
  (if NDEBUG then ret tt else modify (set_nest_count 0)) ;;;
  init_model_sub fuel model_ptr (-1).

End InitScan.

(** ** [swap_polygon_model_data_state]: the byte-order pass

    This class exists in builds with [DXX_WORDS_BIGENDIAN] only. *)

Section ByteSwap.
Context {C : Config}.

(** A [uint_fast32_t] holds 32 bits at least; 32 are taken here. *)
Definition to_uint_fast32 (z : Z) : Z := to_uint32 z.

Definition short_swap (a : Z) : M unit :=
  v <- w a ;; set_wp a (SWAPSHORT v).
Definition fix_swap (a : Z) : M unit :=
  v <- fp a ;; set_fp a (SWAPINT v).
Definition vms_vector_swap (a : Z) : M unit :=
  fix_swap a ;;; fix_swap (a + 4) ;;; fix_swap (a + 8).

(** [for (i = 0; i != n; ++i) body(i)] for an unsigned [n]. *)
Fixpoint for_count (n : nat) (i : Z) (body : Z -> M unit) : M unit :=
  match n with
  | O => ret tt
  | S n' => body i ;;; for_count n' (i + 1) body
  end.
Definition for_upto (n : Z) (body : Z -> M unit) : M unit :=
  for_count (Z.to_nat n) 0 body.

(** [return *wp(p) = INTEL_SHORT(op)]: the value returned is that of the
    [int16_t] stored. *)
Definition swap_translate_opcode (p op : Z) : M Z :=
  let v := INTEL_SHORT op in
  set_wp p v ;;; ret (to_uint_fast32 (to_int16 v)).
Definition swap_get_op_subcount (p : Z) : M Z :=
  v <- w (p + 2) ;; ret (SWAPSHORT v).

Definition swap_op_defpoints (p n : Z) (st : unit) : M unit :=
  set_wp (p + 2) n ;;;
  for_upto n (fun i => vms_vector_swap ((p + 4) + i * sizeof_vms_vector)).

Definition swap_op_defp_start (p n : Z) (st : unit) : M unit :=
  set_wp (p + 2) n ;;;
  short_swap (p + 4) ;;;
  for_upto n (fun i => vms_vector_swap ((p + 8) + i * sizeof_vms_vector)).

Definition swap_op_flatpoly (p n : Z) (st : unit) : M unit :=
  set_wp (p + 2) n ;;;
  vms_vector_swap (p + 4) ;;;
  vms_vector_swap (p + 16) ;;;
  short_swap (p + 28) ;;;
  for_upto n (fun i => short_swap (p + 30 + i * 2)).

Definition swap_op_tmappoly (p n : Z) (st : unit) : M unit :=
  set_wp (p + 2) n ;;;
  vms_vector_swap (p + 4) ;;;
  vms_vector_swap (p + 16) ;;;
  for_upto n (fun i =>
    let uvl_val := (p + 30 + (Z.land n (Z.lnot 1) + 1) * 2) + i * sizeof_g3s_uvl in
    fix_swap uvl_val ;;; fix_swap (uvl_val + 4)) ;;;
  short_swap (p + 28) ;;;
  for_upto n (fun i => short_swap (p + 30 + i * 2)).

Definition swap_op_sortnorm (swap_polygon_model_data : Z -> M unit) (p : Z)
  (st : unit) : M unit :=
  vms_vector_swap (p + 4) ;;;
  vms_vector_swap (p + 16) ;;;
  short_swap (p + 28) ;;;
  short_swap (p + 30) ;;;
  front <- w (p + 28) ;;
  swap_polygon_model_data (p + front) ;;;
  back <- w (p + 30) ;;
  swap_polygon_model_data (p + back).

Definition swap_op_rodbm (p : Z) (st : unit) : M unit :=
  vms_vector_swap (p + 20) ;;;
  vms_vector_swap (p + 4) ;;;
  short_swap (p + 2) ;;;
  fix_swap (p + 16) ;;;
  fix_swap (p + 32).

Definition swap_op_subcall (swap_polygon_model_data : Z -> M unit) (p : Z)
  (st : unit) : M unit :=
  short_swap (p + 2) ;;;
  vms_vector_swap (p + 4) ;;;
  short_swap (p + 16) ;;;
  off <- w (p + 16) ;;
  swap_polygon_model_data (p + off).

Definition swap_op_glow (p : Z) (st : unit) : M unit := short_swap (p + 2).

Definition swap_polygon_model_data_ops (swap_polygon_model_data : Z -> M unit)
  : State_ops unit :=
  {| translate_opcode := swap_translate_opcode;
     get_op_subcount := swap_get_op_subcount;
     op_defpoints := swap_op_defpoints;
     op_defp_start := swap_op_defp_start;
     op_flatpoly := swap_op_flatpoly;
     op_tmappoly := swap_op_tmappoly;
     op_sortnorm := swap_op_sortnorm swap_polygon_model_data;
     op_rodbm := swap_op_rodbm;
     op_subcall := swap_op_subcall swap_polygon_model_data;
     op_glow := swap_op_glow |}.

Fixpoint swap_polygon_model_data (fuel : nat) (data : Z) : M unit :=
  match fuel with
  | O => fail OutOfFuel
  | S fuel' =>
      iterate_polymodel fuel'
        (swap_polygon_model_data_ops (swap_polygon_model_data fuel')) data tt ;;;
      ret tt
  end.

End ByteSwap.

(** ** [get_chunks_state]: the relocation scan

    This class exists in builds with [DXX_WORDS_NEED_ALIGNMENT] only.  The
    caller's array [chunk_list] is taken to be large enough; [*no_chunks]
    is the length of the list collected so far. *)

Section ChunkCollect.
Context {C : Config}.

Definition add_chunk (old_base new_base offset : Z) : M unit :=
  Assert (l <- gets chunk_list ;; ret (Z.of_nat (length l) + 1 <? MAX_CHUNKS)) ;;;
  modify (fun s => set_chunk_list
    (chunk_list s ++ [{| old_base := old_base; new_base := new_base;
                         offset := offset; correction := 0 |}]) s).

Definition chunks_translate_opcode (p op : Z) : M Z := ret (INTEL_SHORT op).
Definition chunks_get_op_subcount (p : Z) : M Z :=
  v <- GET_INTEL_SHORT (p + 2) ;; ret (to_uint16 v).

Definition chunks_op_sortnorm (data new_data p : Z) (st : unit) : M unit :=
  add_chunk p (p - data + new_data) 28 ;;;
  add_chunk p (p - data + new_data) 30.
Definition chunks_op_subcall (data new_data p : Z) (st : unit) : M unit :=
  add_chunk p (p - data + new_data) 16.

Definition get_chunks_ops (data new_data : Z) : State_ops unit :=
  {| translate_opcode := chunks_translate_opcode;
     get_op_subcount := chunks_get_op_subcount;
     op_defpoints := ignore_op2;
     op_defp_start := ignore_op2;
     op_flatpoly := ignore_op2;
     op_tmappoly := ignore_op2;
     op_sortnorm := chunks_op_sortnorm data new_data;
     op_rodbm := ignore_op1;
     op_subcall := chunks_op_subcall data new_data;
     op_glow := ignore_op1 |}.

(** The loop of [get_chunks] makes no nested call: [fuel] bounds the
    number of records only. *)
Definition get_chunks (fuel : nat) (data new_data : Z) : M Z :=
  '(p, _) <- iterate_polymodel fuel (get_chunks_ops data new_data) data tt ;;
  ret (p + 2 - data).

End ChunkCollect.

(** ** The record layout table *)

Inductive Opcode :=
| EndOfStream | DefinePoints | DefinePointsWithStart | FlatPolygon
| TexturedPolygon | SortByNormal | RodBitmap | SubmodelCall | Glow.

Definition opcode_tag (o : Opcode) : Z :=
  match o with
  | EndOfStream => OP_EOF
  | DefinePoints => OP_DEFPOINTS
  | DefinePointsWithStart => OP_DEFP_START
  | FlatPolygon => OP_FLATPOLY
  | TexturedPolygon => OP_TMAPPOLY
  | SortByNormal => OP_SORTNORM
  | RodBitmap => OP_RODBM
  | SubmodelCall => OP_SUBCALL
  | Glow => OP_GLOW
  end.

(** The opcodes whose record carries a vertex count at offset 2. *)
Definition counted (o : Opcode) : bool :=
  match o with
  | DefinePoints | DefinePointsWithStart | FlatPolygon | TexturedPolygon => true
  | _ => false
  end.

(** The least odd number that is not below [n]. *)
Definition round_up_odd (n : Z) : Z := if Z.odd n then n else n + 1.

(** The layout table in the words of the specification (section 4.1). *)
Definition spec_length (o : Opcode) (n : Z) : Z :=
  match o with
  | EndOfStream => 2
  | DefinePoints => 4 + n * 12
  | DefinePointsWithStart => 8 + n * 12
  | FlatPolygon => 30 + (round_up_odd n + 1) * 2
  | TexturedPolygon => 30 + (round_up_odd n + 1) * 2 + n * 12
  | SortByNormal => 32
  | RodBitmap => 36
  | SubmodelCall => 20
  | Glow => 4
  end.

(** The same table with the index table of a polygon holding
    [round_up_odd n] entries, which is what the dispatcher computes. *)
Definition layout_length (o : Opcode) (n : Z) : Z :=
  match o with
  | EndOfStream => 2
  | DefinePoints => 4 + n * 12
  | DefinePointsWithStart => 8 + n * 12
  | FlatPolygon => 30 + round_up_odd n * 2
  | TexturedPolygon => 30 + round_up_odd n * 2 + n * 12
  | SortByNormal => 32
  | RodBitmap => 36
  | SubmodelCall => 20
  | Glow => 4
  end.

(** ** Sample configuration and buffers *)

Definition sample_dot (a b : vms_vector) : Z := vx a * vx b + vy a * vy b + vz a * vz b.

Definition sample_config (b : Build) (ndebug big_endian : bool) : Config :=
  {| build := b;
     NDEBUG := ndebug;
     DXX_WORDS_BIGENDIAN := big_endian;
     MAX_POINTS_PER_POLY := 25;
     MAX_CHUNKS := 100;
     g3s_point := vms_vector;
     g3_view := list vms_vector;
     gr_find_closest_color_15bpp := fun c => c mod 256;
     g3_check_normal_facing := fun _ v norm => sample_dot v norm;
     g3_rotate_point := fun _ v => v;
     g3_start_instance_angles := fun vw v _ => v :: vw;
     g3_done_instance := fun vw => tl vw;
     View_matrix_fvec := fun _ => {| vx := 0; vy := 0; vz := - f1_0 |};
     vm_vec_dot := sample_dot;
     fixmul := fun a b => Z.quot (a * b) f1_0 |}.

Definition sample_world {C : Config} (m : list Z) (pts : list g3s_point) (vw : g3_view)
  : world :=
  {| mem := m; Interp_point_list := pts; canvas := []; view := vw;
     nest_count := 0; chunk_list := [] |}.

(** Little-endian encodings of a 16-bit and of a 32-bit value. *)
Definition le16 (v : Z) : list Z := [to_uint16 v mod 256; to_uint16 v / 256].
Definition le32 (v : Z) : list Z :=
  le16 (to_uint32 v mod 65536) ++ le16 (to_uint32 v / 65536).
Definition le_vec (x y z : Z) : list Z := le32 x ++ le32 y ++ le32 z.

(** A flat polygon record of [nv] points with index table [idx] (padded by
    the caller), anchor [(0,0,1)] and normal [(0,0,nz)]. *)
Definition flatpoly_record (nv nz colour : Z) (idx : list Z) : list Z :=
  le16 OP_FLATPOLY ++ le16 nv ++ le_vec 0 0 1 ++ le_vec 0 0 nz ++ le16 colour
  ++ flat_map le16 idx.

(** A textured polygon record: as above, with texture index and one
    [(u, v, l)] triple per point. *)
Definition tmappoly_record (nv nz tex : Z) (idx : list Z) (uvl : list (Z * Z * Z))
  : list Z :=
  le16 OP_TMAPPOLY ++ le16 nv ++ le_vec 0 0 1 ++ le_vec 0 0 nz ++ le16 tex
  ++ flat_map le16 idx
  ++ flat_map (fun t => match t with (u, v, l) => le_vec u v l end) uvl.

Definition sortnorm_record (nz front back : Z) : list Z :=
  le16 OP_SORTNORM ++ le16 0 ++ le_vec 0 0 1 ++ le_vec 0 0 nz
  ++ le16 front ++ le16 back.

Definition subcall_record (sub off : Z) : list Z :=
  le16 OP_SUBCALL ++ le16 sub ++ le_vec 0 0 0 ++ le16 off ++ le16 0.

Definition glow_record (i : Z) : list Z := le16 OP_GLOW ++ le16 i.
Definition eof_record : list Z := le16 OP_EOF.

Definition sample_points : list vms_vector :=
  map (fun k => {| vx := Z.of_nat k; vy := 0; vz := 0 |}) (seq 0 48).

(** ** Traversals and well-formed buffers *)

Section Traversal.
Context {C : Config}.

(** The cursor positions (with state and world) one traversal goes
    through: the reflexive-transitive closure of the loop's turn. *)
Inductive reaches {S} (ops : State_ops S)
  : Z -> S -> world -> Z -> S -> world -> Prop :=
| reaches_here p st s : reaches ops p st s p st s
| reaches_turn p st s p1 st1 s1 p2 st2 s2 :
    iterate_step ops p st s = (Val (Some (p1, st1)), s1) ->
    reaches ops p1 st1 s1 p2 st2 s2 ->
    reaches ops p st s p2 st2 s2.

End Traversal.

Definition byte (b : Z) : Prop := 0 <= b < 256.

(** The 16-bit value at an address in the byte order of the files. *)
Definition file16 (m : list Z) (a : Z) : option Z :=
  match at_index m a, at_index m (a + 1) with
  | Some b0, Some b1 => Some (b1 * 256 + b0)
  | _, _ => None
  end.




(** ** Model hierarchies *)

(** A model as the interpreter walks it: a record and what follows it,
    with the sub-models a SortByNormal or SubmodelCall record branches to
    and the signed offsets that lead there. *)
Inductive model :=
| End_of_stream
| Define_points (n : Z) (rest : model)
| Define_points_with_start (n : Z) (rest : model)
| Flat_polygon (nv : Z) (rest : model)
| Textured_polygon (nv tex : Z) (rest : model)
| Sort_by_normal (front_off back_off : Z) (front back rest : model)
| Rod_bitmap (rest : model)
| Submodel_call (off : Z) (sub rest : model)
| Glow_marker (rest : model).

Section Decoding.
Context {C : Config}.

(** The tag and the signed 16-bit fields of a record, as
    [interpreter_base] and [w] read them. *)
Definition tag_at (m : list Z) (a : Z) : option Z :=
  option_map (fun v => to_uint16 (to_int16 v)) (load16 m a).
Definition short_at (m : list Z) (a : Z) : option Z :=
  option_map to_int16 (load16 m a).

Inductive decodes (m : list Z) : Z -> model -> Prop :=
| dec_eof p :
    tag_at m p = Some OP_EOF ->
    decodes m p End_of_stream
| dec_defpoints p n rest :
    tag_at m p = Some OP_DEFPOINTS -> tag_at m (p + 2) = Some n ->
    decodes m (p + layout_length DefinePoints n) rest ->
    decodes m p (Define_points n rest)
| dec_defp_start p n rest :
    tag_at m p = Some OP_DEFP_START -> tag_at m (p + 2) = Some n ->
    decodes m (p + layout_length DefinePointsWithStart n) rest ->
    decodes m p (Define_points_with_start n rest)
| dec_flatpoly p nv rest :
    tag_at m p = Some OP_FLATPOLY -> tag_at m (p + 2) = Some nv ->
    decodes m (p + layout_length FlatPolygon nv) rest ->
    decodes m p (Flat_polygon nv rest)
| dec_tmappoly p nv tex rest :
    tag_at m p = Some OP_TMAPPOLY -> tag_at m (p + 2) = Some nv ->
    short_at m (p + 28) = Some tex ->
    decodes m (p + layout_length TexturedPolygon nv) rest ->
    decodes m p (Textured_polygon nv tex rest)
| dec_sortnorm p fo bo front back rest :
    tag_at m p = Some OP_SORTNORM ->
    short_at m (p + 28) = Some fo -> short_at m (p + 30) = Some bo ->
    decodes m (p + fo) front -> decodes m (p + bo) back ->
    decodes m (p + layout_length SortByNormal 0) rest ->
    decodes m p (Sort_by_normal fo bo front back rest)
| dec_rodbm p rest :
    tag_at m p = Some OP_RODBM ->
    decodes m (p + layout_length RodBitmap 0) rest ->
    decodes m p (Rod_bitmap rest)
| dec_subcall p off sub rest :
    tag_at m p = Some OP_SUBCALL ->
    short_at m (p + 16) = Some off ->
    decodes m (p + off) sub ->
    decodes m (p + layout_length SubmodelCall 0) rest ->
    decodes m p (Submodel_call off sub rest)
| dec_glow p rest :
    tag_at m p = Some OP_GLOW ->
    decodes m (p + layout_length Glow 0) rest ->
    decodes m p (Glow_marker rest).

End Decoding.

(** The texture indices of the TexturedPolygon records of a hierarchy, in
    the order of the scan. *)
Fixpoint texture_indices (t : model) : list Z :=
  match t with
  | End_of_stream => []
  | Define_points _ rest | Define_points_with_start _ rest
  | Flat_polygon _ rest | Rod_bitmap rest | Glow_marker rest => texture_indices rest
  | Textured_polygon _ tex rest => tex :: texture_indices rest
  | Sort_by_normal _ _ front back rest =>
      texture_indices front ++ texture_indices back ++ texture_indices rest
  | Submodel_call _ sub rest => texture_indices sub ++ texture_indices rest
  end.

(** The greatest of [-1] and of them: the highest of them when one is
    [-1] at least, [-1] when there is none or all are below it. *)
Definition max_texture_index (t : model) : Z :=
  fold_right Z.max (-1) (texture_indices t).

(** Records and end tags of a hierarchy: a budget for the scan. *)
Fixpoint model_size (t : model) : nat :=
  match t with
  | End_of_stream => 1
  | Define_points _ rest | Define_points_with_start _ rest
  | Flat_polygon _ rest | Textured_polygon _ _ rest
  | Rod_bitmap rest | Glow_marker rest => S (model_size rest)
  | Sort_by_normal _ _ front back rest =>
      S (model_size front + model_size back + model_size rest)
  | Submodel_call _ sub rest => S (model_size sub + model_size rest)
  end.

(** The nested calls of [init_model_sub] a hierarchy causes. *)
Fixpoint nested_calls (t : model) : Z :=
  match t with
  | End_of_stream => 0
  | Define_points _ rest | Define_points_with_start _ rest
  | Flat_polygon _ rest | Textured_polygon _ _ rest
  | Rod_bitmap rest | Glow_marker rest => nested_calls rest
  | Sort_by_normal _ _ front back rest =>
      2 + nested_calls front + nested_calls back + nested_calls rest
  | Submodel_call _ sub rest => 1 + nested_calls sub + nested_calls rest
  end.

(** Every polygon of the hierarchy has three points or more. *)
Fixpoint polygons_ok (t : model) : Prop :=
  match t with
  | End_of_stream => True
  | Define_points _ rest | Define_points_with_start _ rest
  | Rod_bitmap rest | Glow_marker rest => polygons_ok rest
  | Flat_polygon nv rest | Textured_polygon nv _ rest => 2 < nv /\ polygons_ok rest
  | Sort_by_normal _ _ front back rest =>
      polygons_ok front /\ polygons_ok back /\ polygons_ok rest
  | Submodel_call _ sub rest => polygons_ok sub /\ polygons_ok rest
  end.

(** What the Asserts of a debug build ask of a hierarchy scanned when
    [nest_count] is [n]. *)
Definition asserts_hold {C : Config} (t : model) (n : Z) : Prop :=
  NDEBUG = true \/ (polygons_ok t /\ n + nested_calls t < 1000).

(** Sample instances: a Descent II release build on a little-endian
    host, its debug build, a Descent I build, and a big-endian host. *)
Definition d2_config : Config := sample_config DXX_BUILD_DESCENT_II true false.
Definition d2_debug_config : Config := sample_config DXX_BUILD_DESCENT_II false false.
Definition be_config : Config := sample_config DXX_BUILD_DESCENT_II true true.

Definition white_light : g3s_lrgb := {| lr := f1_0; lg := f1_0; lb := f1_0 |}.
Definition sample_args : draw_args :=
  {| anim_angles := None; model_light := white_light |}.

(** A front-facing triangle of colour 7, then the end tag. *)
Definition flat3_buffer : list Z := flatpoly_record 3 1 7 [0; 1; 2] ++ eof_record.
Definition flat3_world : @world d2_config :=
  @sample_world d2_config flat3_buffer sample_points [].

(** A record of the unknown opcode 9. *)
Definition bad_opcode_buffer : list Z := le16 9 ++ le16 0 ++ eof_record.
Definition bad_opcode_world : @world d2_config :=
  @sample_world d2_config bad_opcode_buffer sample_points [].

Definition Opcode_eq (a b : Opcode) : {a = b} + {a <> b}.
Proof. decide equality. Defined.

(** A glow marker, a triangle, the end tag. *)
Definition two_record_buffer : list Z :=
  glow_record 5 ++ flatpoly_record 3 1 7 [0; 1; 2] ++ eof_record.

Definition all_bytes (m : list Z) : bool :=
  forallb (fun b => (0 <=? b) && (b <? 256)) m.

(** A front-facing flat polygon of 40 points, then the end tag. *)
Definition big_flatpoly_buffer : list Z :=
  flatpoly_record 40 1 7 (map Z.of_nat (seq 0 41)) ++ eof_record.
Definition big_flatpoly_world : @world d2_config :=
  @sample_world d2_config big_flatpoly_buffer sample_points [].

(** A computation that never reads outside the glow table. *)
Definition glow_table_safe {C : Config} {A} (m : M A) : Prop :=
  forall s, fst (m s) <> Err (Fault OutOfGlowTable).

(** A glow marker with index 0, a front-facing triangle of colour 7, the
    end tag; to be drawn with a glow table that hides surface 0. *)
Definition hidden_flat_buffer : list Z :=
  glow_record 0 ++ flatpoly_record 3 1 7 [0; 1; 2] ++ eof_record.
Definition hidden_flat_world : @world d2_config :=
  @sample_world d2_config hidden_flat_buffer sample_points [].

(** A glow marker with index 5, then a front-facing textured triangle. *)
Definition glow_tmap_buffer : list Z :=
  glow_record 5
  ++ tmappoly_record 3 1 2 [0; 1; 2] [(1, 2, 3); (4, 5, 6); (7, 8, 9)]
  ++ eof_record.
Definition glow_tmap_world : @world d2_config :=
  @sample_world d2_config glow_tmap_buffer sample_points [].

(** A triangle that faces away from the viewer, then the end tag. *)
Definition back3_buffer : list Z := flatpoly_record 3 (-1) 7 [0; 1; 2] ++ eof_record.
Definition back3_world : @world d2_config :=
  @sample_world d2_config back3_buffer sample_points [].

(** A handler that keeps a property of the state object. *)
Definition preserves {C : Config} {S} (I : S -> Prop) (m : M S) : Prop :=
  forall s st' s', m s = (Val st', s') -> I st'.

Definition handler_safe {C : Config} {S} (I : S -> Prop) (m : M S) : Prop :=
  glow_table_safe m /\ preserves I m.

(** A state class all of whose handlers are glow-table safe and keep [I]. *)
Definition ops_safe {C : Config} {S} (I : S -> Prop) (ops : State_ops S) : Prop :=
  (forall p op, glow_table_safe (translate_opcode ops p op))
  /\ (forall p, glow_table_safe (get_op_subcount ops p))
  /\ (forall p n st, I st -> handler_safe I (op_defpoints ops p n st))
  /\ (forall p n st, I st -> handler_safe I (op_defp_start ops p n st))
  /\ (forall p n st, I st -> handler_safe I (op_flatpoly ops p n st))
  /\ (forall p n st, I st -> handler_safe I (op_tmappoly ops p n st))
  /\ (forall p st, I st -> handler_safe I (op_sortnorm ops p st))
  /\ (forall p st, I st -> handler_safe I (op_rodbm ops p st))
  /\ (forall p st, I st -> handler_safe I (op_subcall ops p st))
  /\ (forall p st, I st -> handler_safe I (op_glow ops p st)).

(** The glow cursor is an [unsigned]. *)
Definition glow_num_unsigned (st : g3_draw_polygon_model_state) : Prop :=
  0 <= glow_num st.

(** A position that does not lie in the buffer. *)
Definition outside (m : list Z) (a : Z) : Prop :=
  a < 0 \/ Z.of_nat (length m) <= a.

(** A SubmodelCall record whose offset, 1000, leads far behind the buffer. *)
Definition wild_subcall_buffer : list Z := subcall_record 0 1000 ++ eof_record.
Definition wild_subcall_world : @world d2_config :=
  @sample_world d2_config wild_subcall_buffer sample_points [].

(** A glow marker and the end tag, in the byte order of the files, on a
    big-endian host. *)
Definition glow_only_buffer : list Z := glow_record 5 ++ eof_record.
Definition glow_only_world : @world be_config :=
  @sample_world be_config glow_only_buffer sample_points [].

(** The value of [nest_count] after [k] more calls of [init_model_sub]:
    the counter exists in debug builds only. *)
Definition nest_after {C : Config} (n k : Z) : Z :=
  if NDEBUG then n else n + k.

(** What the Asserts ask when [init_model_sub] is entered on a hierarchy
    with [nest_count] at [n]: the entry itself counts. *)
Definition entry_asserts_hold {C : Config} (t : model) (n : Z) : Prop :=
  NDEBUG = true \/ (polygons_ok t /\ n + 1 + nested_calls t < 1000).

(** The running maximum after the scan of a hierarchy entered with [h]. *)
Definition scan_result (t : model) (h : Z) : Z :=
  fold_left Z.max (texture_indices t) h.

(** A hierarchy with the texture indices 3, 7 and 1.  At 0 a
    SortByNormal record whose front branch, at 54, holds a textured
    triangle with texture 3 and whose back branch, at 128, holds one with
    texture 7; at 32 a SubmodelCall record whose sub-model, at 202, holds
    one with texture 1; at 52 the end tag of the top level. *)
Definition textured_triangle (tex : Z) : list Z :=
  tmappoly_record 3 1 tex [0; 1; 2] [(0, 0, 0); (0, 0, 0); (0, 0, 0)].
Definition nested_buffer : list Z :=
  sortnorm_record 1 54 128 ++ subcall_record 0 170 ++ eof_record
  ++ textured_triangle 3 ++ eof_record
  ++ textured_triangle 7 ++ eof_record
  ++ textured_triangle 1 ++ eof_record.
Definition nested_model : model :=
  Sort_by_normal 54 128
    (Textured_polygon 3 3 End_of_stream)
    (Textured_polygon 3 7 End_of_stream)
    (Submodel_call 170 (Textured_polygon 3 1 End_of_stream) End_of_stream).
Definition nested_world : @world d2_debug_config :=
  @sample_world d2_debug_config nested_buffer sample_points [].

(** A textured triangle whose normal is [(0, 0, 20000)], and the end tag:
    three times the dot product with the view direction of the sample
    configuration does not fit 32 bits. *)
Definition steep_normal_buffer : list Z :=
  tmappoly_record 3 20000 2 [0; 1; 2] [(1, 2, 3); (4, 5, 6); (7, 8, 9)]
  ++ eof_record.
Definition steep_normal_world : @world d2_config :=
  @sample_world d2_config steep_normal_buffer sample_points [].

(** One textured triangle whose texture field holds 0xFFFB, which [w]
    reads as [-5], and the end tag. *)
Definition negative_texture_buffer : list Z := textured_triangle (-5) ++ eof_record.
Definition negative_texture_model : model := Textured_polygon 3 (-5) End_of_stream.
Definition negative_texture_world : @world d2_config :=
  @sample_world d2_config negative_texture_buffer sample_points [].

(** The addresses the scan of a hierarchy decoded at [p] reads to find
    its way: tags, counts, texture indices and branch offsets. *)
Fixpoint scan_reads (t : model) (p : Z) : list Z :=
  match t with
  | End_of_stream => [p; p + 1]
  | Define_points n rest =>
      [p; p + 1; p + 2; p + 3] ++ scan_reads rest (p + layout_length DefinePoints n)
  | Define_points_with_start n rest =>
      [p; p + 1; p + 2; p + 3]
      ++ scan_reads rest (p + layout_length DefinePointsWithStart n)
  | Flat_polygon nv rest =>
      [p; p + 1; p + 2; p + 3] ++ scan_reads rest (p + layout_length FlatPolygon nv)
  | Textured_polygon nv _ rest =>
      [p; p + 1; p + 2; p + 3; p + 28; p + 29]
      ++ scan_reads rest (p + layout_length TexturedPolygon nv)
  | Sort_by_normal fo bo front back rest =>
      [p; p + 1; p + 28; p + 29; p + 30; p + 31]
      ++ scan_reads front (p + fo) ++ scan_reads back (p + bo)
      ++ scan_reads rest (p + layout_length SortByNormal 0)
  | Rod_bitmap rest => [p; p + 1] ++ scan_reads rest (p + layout_length RodBitmap 0)
  | Submodel_call off sub rest =>
      [p; p + 1; p + 16; p + 17]
      ++ scan_reads sub (p + off)
      ++ scan_reads rest (p + layout_length SubmodelCall 0)
  | Glow_marker rest => [p; p + 1] ++ scan_reads rest (p + layout_length Glow 0)
  end.

(** The addresses it writes: in the Descent I build the colour field of
    every flat polygon, in the Descent II build none. *)
Fixpoint scan_writes {C : Config} (t : model) (p : Z) : list Z :=
  match t with
  | End_of_stream => []
  | Define_points n rest => scan_writes rest (p + layout_length DefinePoints n)
  | Define_points_with_start n rest =>
      scan_writes rest (p + layout_length DefinePointsWithStart n)
  | Flat_polygon nv rest =>
      match build with
      | DXX_BUILD_DESCENT_I => [p + 28; p + 29]
      | DXX_BUILD_DESCENT_II => []
      end ++ scan_writes rest (p + layout_length FlatPolygon nv)
  | Textured_polygon nv _ rest =>
      scan_writes rest (p + layout_length TexturedPolygon nv)
  | Sort_by_normal fo bo front back rest =>
      scan_writes front (p + fo) ++ scan_writes back (p + bo)
      ++ scan_writes rest (p + layout_length SortByNormal 0)
  | Rod_bitmap rest => scan_writes rest (p + layout_length RodBitmap 0)
  | Submodel_call off sub rest =>
      scan_writes sub (p + off)
      ++ scan_writes rest (p + layout_length SubmodelCall 0)
  | Glow_marker rest => scan_writes rest (p + layout_length Glow 0)
  end.

(** No colour field the scan rewrites lies over a field it reads: the
    records of the hierarchy do not overlap that way.  Nothing is asked of a
    Descent II build. *)
Definition scan_separate {C : Config} (t : model) (p : Z) : Prop :=
  forall a, In a (scan_writes t p) -> ~ In a (scan_reads t p).

Definition scan_separateb {C : Config} (t : model) (p : Z) : bool :=
  forallb (fun a => negb (existsb (Z.eqb a) (scan_reads t p))) (scan_writes t p).

(** [m'] is [m] but for the bytes at the addresses [W]. *)
Definition changed_only (W : list Z) (m m' : list Z) : Prop :=
  length m' = length m /\ forall a, ~ In a W -> at_index m' a = at_index m a.

(** The scan of the records of [t] from [p] on succeeds, by the loop of
    [iterate_polymodel] with budget [loop_fuel], nested calls being given
    [rec_fuel]. *)
Definition loop_scans {C : Config} (t : model) : Prop :=
  forall p loop_fuel rec_fuel h s,
    decodes (mem s) p t ->
    scan_separate t p ->
    asserts_hold t (nest_count s) ->
    (model_size t <= loop_fuel)%nat ->
    (model_size t <= rec_fuel)%nat ->
    exists pend s',
      iterate_polymodel loop_fuel (init_model_sub_ops (init_model_sub rec_fuel)) p
        {| highest_texture_num := h |} s
      = (Val (pend, {| highest_texture_num := scan_result t h |}), s')
      /\ changed_only (scan_writes t p) (mem s) (mem s')
      /\ nest_count s' = nest_after (nest_count s) (nested_calls t).

(** The same for a call of [init_model_sub] with budget [fuel]. *)
Definition call_scans {C : Config} (t : model) : Prop :=
  forall p fuel h s,
    decodes (mem s) p t ->
    scan_separate t p ->
    entry_asserts_hold t (nest_count s) ->
    (model_size t < fuel)%nat ->
    exists s',
      init_model_sub fuel p h s = (Val (scan_result t h), s')
      /\ changed_only (scan_writes t p) (mem s) (mem s')
      /\ nest_count s' = nest_after (nest_count s) (1 + nested_calls t).

(** ** What a pass may touch *)

(** Whatever its outcome, the computation leaves the world in relation [Q]
    to the world it started in. *)
Definition respects {C : Config} (Q : world -> world -> Prop) {A} (m : M A) : Prop :=
  forall s, Q s (snd (m s)).

Definition ops_respect {C : Config} {S} (Q : world -> world -> Prop)
  (ops : State_ops S) : Prop :=
  (forall p op, respects Q (translate_opcode ops p op))
  /\ (forall p, respects Q (get_op_subcount ops p))
  /\ (forall p n st, respects Q (op_defpoints ops p n st))
  /\ (forall p n st, respects Q (op_defp_start ops p n st))
  /\ (forall p n st, respects Q (op_flatpoly ops p n st))
  /\ (forall p n st, respects Q (op_tmappoly ops p n st))
  /\ (forall p st, respects Q (op_sortnorm ops p st))
  /\ (forall p st, respects Q (op_rodbm ops p st))
  /\ (forall p st, respects Q (op_subcall ops p st))
  /\ (forall p st, respects Q (op_glow ops p st)).

(** The renderers: calls are added to the canvas, points are replaced in
    the point list, the view changes; nothing else does. *)
Definition drawn_only {C : Config} (s s' : world) : Prop :=
  mem s' = mem s
  /\ nest_count s' = nest_count s
  /\ chunk_list s' = chunk_list s
  /\ length (Interp_point_list s') = length (Interp_point_list s)
  /\ exists calls, canvas s' = calls ++ canvas s.

(** The load-time scan: the nest counter changes and, in the Descent I
    build, bytes of the buffer; the buffer keeps its length. *)
Definition scanned_only {C : Config} (s s' : world) : Prop :=
  length (mem s') = length (mem s)
  /\ (build = DXX_BUILD_DESCENT_II -> mem s' = mem s)
  /\ Interp_point_list s' = Interp_point_list s
  /\ canvas s' = canvas s
  /\ view s' = view s
  /\ chunk_list s' = chunk_list s.

(** A chunk as the relocation scan of [data], to be moved to [new_data],
    records it. *)
Definition chunk_of (data new_data : Z) (c : chunk) : Prop :=
  correction c = 0
  /\ (offset c = 16 \/ offset c = 28 \/ offset c = 30)
  /\ new_base c - old_base c = new_data - data.

(** The relocation scan: chunks are appended to the list. *)
Definition chunks_only {C : Config} (data new_data : Z) (s s' : world) : Prop :=
  mem s' = mem s
  /\ Interp_point_list s' = Interp_point_list s
  /\ canvas s' = canvas s
  /\ view s' = view s
  /\ nest_count s' = nest_count s
  /\ exists added, chunk_list s' = chunk_list s ++ added
                   /\ Forall (chunk_of data new_data) added.

(** The byte-order pass: bytes of the buffer change, its length does not. *)
Definition swapped_only {C : Config} (s s' : world) : Prop :=
  length (mem s') = length (mem s)
  /\ Interp_point_list s' = Interp_point_list s
  /\ canvas s' = canvas s
  /\ view s' = view s
  /\ nest_count s' = nest_count s
  /\ chunk_list s' = chunk_list s.

(** Every handler of a state class that returns keeps the property [I] of
    the state object. *)
Definition ops_preserve {C : Config} {S} (I : S -> Prop) (ops : State_ops S) : Prop :=
  (forall p n st, I st -> preserves I (op_defpoints ops p n st))
  /\ (forall p n st, I st -> preserves I (op_defp_start ops p n st))
  /\ (forall p n st, I st -> preserves I (op_flatpoly ops p n st))
  /\ (forall p n st, I st -> preserves I (op_tmappoly ops p n st))
  /\ (forall p st, I st -> preserves I (op_sortnorm ops p st))
  /\ (forall p st, I st -> preserves I (op_rodbm ops p st))
  /\ (forall p st, I st -> preserves I (op_subcall ops p st))
  /\ (forall p st, I st -> preserves I (op_glow ops p st)).

(** The running maximum of a scan entered with [h]: not below [h], and
    above it only as far as a 16-bit texture index goes. *)
Definition highest_from (h : Z) (st : init_model_sub_state) : Prop :=
  h <= highest_texture_num st <= Z.max h 32767.

(** A SubmodelCall record that branches to itself, then the end tag. *)
Definition self_call_buffer : list Z := subcall_record 0 0 ++ eof_record.
Definition self_call_world : @world d2_config :=
  @sample_world d2_config self_call_buffer sample_points [].
Definition self_call_debug_world : @world d2_debug_config :=
  @sample_world d2_debug_config self_call_buffer sample_points [].

(** A flat polygon of two points, then the end tag. *)
Definition thin_flat_buffer : list Z := flatpoly_record 2 1 7 [0; 1; 0] ++ eof_record.
Definition thin_flat_world : @world d2_debug_config :=
  @sample_world d2_debug_config thin_flat_buffer sample_points [].

(** A SortByNormal record whose two offsets are negative, then the end
    tag. *)
Definition backward_sortnorm_buffer : list Z :=
  sortnorm_record 1 (-4) (-2) ++ eof_record.
Definition backward_sortnorm_world : @world d2_config :=
  @sample_world d2_config backward_sortnorm_buffer sample_points [].

(** A DefinePointsWithStart record of the [start] index and vectors
    given. *)
Definition defp_start_record (start : Z) (vs : list (Z * Z * Z)) : list Z :=
  le16 OP_DEFP_START ++ le16 (Z.of_nat (length vs)) ++ le16 start ++ le16 0
  ++ flat_map (fun t => match t with (x, y, z) => le_vec x y z end) vs.

(** Two points defined from index 2 on, and two defined from index 47 on,
    the last but one of a point list of 48. *)
Definition defp_start_buffer : list Z :=
  defp_start_record 2 [(10, 20, 30); (40, 50, 60)] ++ eof_record.
Definition defp_start_world : @world d2_config :=
  @sample_world d2_config defp_start_buffer sample_points [].
Definition defp_overrun_buffer : list Z :=
  defp_start_record 47 [(10, 20, 30); (40, 50, 60)] ++ eof_record.
Definition defp_overrun_world : @world d2_config :=
  @sample_world d2_config defp_overrun_buffer sample_points [].
Definition two_vectors (j : Z) : vms_vector :=
  if j =? 0 then {| vx := 10; vy := 20; vz := 30 |}
  else {| vx := 40; vy := 50; vz := 60 |}.

(** The point list after the points [start .. start + n) have been
    defined from the vectors [vec 0 .. vec (n - 1)]: those entries hold the
    rotated vectors, the others are as before. *)
Definition points_defined {C : Config} (start n : Z) (vec : Z -> vms_vector)
  (s s' : world) : Prop :=
  exists pl,
    s' = set_points pl s
    /\ length pl = length (Interp_point_list s)
    /\ (forall j, 0 <= j < n ->
          at_index pl (start + j) = Some (g3_rotate_point (view s) (vec j)))
    /\ (forall x, ~ start <= x < start + n ->
          at_index pl x = at_index (Interp_point_list s) x).

(** The triangles of the fan over the points [p0; p1; rest]: each one
    joins [p0] to two neighbours. *)
Fixpoint fan {A} (p0 p1 : A) (rest : list A) : list (list A) :=
  match rest with
  | [] => []
  | p2 :: rest' => [p0; p1; p2] :: fan p0 p2 rest'
  end.

(** [stream m p rs]: from [p] on, the buffer holds, in the byte order of
    the files, the records [rs], each given by its opcode and its count (0
    for an opcode that has none), and then the EndOfStream tag. *)
Inductive stream (m : list Z) : Z -> list (Opcode * Z) -> Prop :=
| stream_eof p :
    file16 m p = Some OP_EOF ->
    stream m p []
| stream_record p o n rs :
    file16 m p = Some (opcode_tag o) ->
    o <> EndOfStream ->
    (if counted o then file16 m (p + 2) = Some n else n = 0) ->
    stream m (p + layout_length o n) rs ->
    stream m p ((o, n) :: rs).

Definition stream_length (rs : list (Opcode * Z)) : Z :=
  fold_right (fun r acc => layout_length (fst r) (snd r) + acc) 0 rs.

(** The chunks of a record at [p]: one for each of its branch fields. *)
Definition record_chunks (data new_data p : Z) (o : Opcode) : list chunk :=
  let at_field off :=
    {| old_base := p; new_base := p - data + new_data; offset := off;
       correction := 0 |} in
  match o with
  | SortByNormal => [at_field 28; at_field 30]
  | SubmodelCall => [at_field 16]
  | _ => []
  end.

(** Those of the records [rs] that begin at [p], in the order of the
    records. *)
Fixpoint stream_chunks (data new_data p : Z) (rs : list (Opcode * Z)) : list chunk :=
  match rs with
  | [] => []
  | (o, n) :: rs' =>
      record_chunks data new_data p o
      ++ stream_chunks data new_data (p + layout_length o n) rs'
  end.

(** The [n] bytes from [a] on stand in reverse order in [m']; the rest of
    [m'] is [m]. *)
Definition bytes_reversed (a n : Z) (m m' : list Z) : Prop :=
  length m' = length m
  /\ (forall i, 0 <= i < n -> at_index m' (a + i) = at_index m (a + (n - 1 - i)))
  /\ (forall x, ~ a <= x < a + n -> at_index m' x = at_index m x).

(** Each of the [k] four-byte words from [a] on stands in [m'] with its
    bytes in reverse order; the rest of [m'] is [m]. *)
Definition words_reversed (a k : Z) (m m' : list Z) : Prop :=
  length m' = length m
  /\ (forall j i, 0 <= j < k -> 0 <= i < 4 ->
        at_index m' (a + 4 * j + i) = at_index m (a + 4 * j + (3 - i)))
  /\ (forall x, ~ a <= x < a + 4 * k -> at_index m' x = at_index m x).

(** The scan of the records of [t] from [p] on fails an Assert, and so
    does a call of [init_model_sub]. *)
Definition loop_rejects {C : Config} (t : model) : Prop :=
  forall p loop_fuel rec_fuel h s,
    decodes (mem s) p t ->
    scan_separate t p ->
    ~ polygons_ok t ->
    nest_count s + nested_calls t < 1000 ->
    (model_size t <= loop_fuel)%nat ->
    (model_size t <= rec_fuel)%nat ->
    fst (iterate_polymodel loop_fuel (init_model_sub_ops (init_model_sub rec_fuel)) p
           {| highest_texture_num := h |} s)
    = Err AssertFail.

Definition call_rejects {C : Config} (t : model) : Prop :=
  forall p fuel h s,
    decodes (mem s) p t ->
    scan_separate t p ->
    ~ polygons_ok t ->
    nest_count s + 1 + nested_calls t < 1000 ->
    (model_size t < fuel)%nat ->
    fst (init_model_sub fuel p h s) = Err AssertFail.

(** ** The fields the byte-order pass swaps *)

(** A set of fields, each given by its address and its width in bytes. *)
Definition field_set := Z -> Z -> Prop.

(** [m'] is [m] with the bytes of every field of [F] in reverse order. *)
Definition fields_reversed (F : field_set) (m m' : list Z) : Prop :=
  length m' = length m
  /\ (forall a w i, F a w -> 0 <= i < w ->
        at_index m' (a + i) = at_index m (a + (w - 1 - i)))
  /\ (forall x, (forall a w, F a w -> ~ a <= x < a + w) ->
        at_index m' x = at_index m x).

(** No field of [F1] overlaps a field of [F2]. *)
Definition separated (F1 F2 : field_set) : Prop :=
  forall a w a' w', F1 a w -> F2 a' w' -> a + w <= a' \/ a' + w' <= a.

Definition no_field : field_set := fun _ _ => False.
Definition one_field (a w : Z) : field_set := fun b v => b = a /\ v = w.
Definition both_fields (F1 F2 : field_set) : field_set :=
  fun a w => F1 a w \/ F2 a w.
(** The three [fix] members of the [vms_vector] at [a]. *)
Definition vector_fields (a : Z) : field_set :=
  fun b w => w = 4 /\ (b = a \/ b = a + 4 \/ b = a + 8).
(** The fields [Fi j] for [lo <= j < hi]. *)
Definition indexed_fields (lo hi : Z) (Fi : Z -> field_set) : field_set :=
  fun a w => exists j, lo <= j < hi /\ Fi j a w.

(** The multi-byte fields behind the tag of the record with opcode [o]
    and count [n] at [p], in the order in which the byte-order pass takes
    them: the padding entry of an index table and the [l] member of a
    texture coordinate are none. *)
Definition body_fields (p : Z) (o : Opcode) (n : Z) : field_set :=
  match o with
  | EndOfStream => no_field
  | DefinePoints =>
      both_fields (one_field (p + 2) 2)
        (indexed_fields 0 n (fun i => vector_fields (p + 4 + i * 12)))
  | DefinePointsWithStart =>
      both_fields (one_field (p + 2) 2)
        (both_fields (one_field (p + 4) 2)
           (indexed_fields 0 n (fun i => vector_fields (p + 8 + i * 12))))
  | FlatPolygon =>
      both_fields (one_field (p + 2) 2)
        (both_fields (vector_fields (p + 4))
           (both_fields (vector_fields (p + 16))
              (both_fields (one_field (p + 28) 2)
                 (indexed_fields 0 n (fun i => one_field (p + 30 + i * 2) 2)))))
  | TexturedPolygon =>
      both_fields (one_field (p + 2) 2)
        (both_fields (vector_fields (p + 4))
           (both_fields (vector_fields (p + 16))
              (both_fields
                 (indexed_fields 0 n
                    (fun i =>
                       both_fields
                         (one_field (p + 30 + round_up_odd n * 2 + i * 12) 4)
                         (one_field (p + 30 + round_up_odd n * 2 + i * 12 + 4) 4)))
                 (both_fields (one_field (p + 28) 2)
                    (indexed_fields 0 n (fun i => one_field (p + 30 + i * 2) 2))))))
  | SortByNormal =>
      both_fields (vector_fields (p + 4))
        (both_fields (vector_fields (p + 16))
           (both_fields (one_field (p + 28) 2) (one_field (p + 30) 2)))
  | RodBitmap =>
      both_fields (vector_fields (p + 20))
        (both_fields (vector_fields (p + 4))
           (both_fields (one_field (p + 2) 2)
              (both_fields (one_field (p + 16) 4) (one_field (p + 32) 4))))
  | SubmodelCall =>
      both_fields (one_field (p + 2) 2)
        (both_fields (vector_fields (p + 4)) (one_field (p + 16) 2))
  | Glow => one_field (p + 2) 2
  end.

(** The fields of the record: its tag and those behind it. *)
Definition record_fields (p : Z) (o : Opcode) (n : Z) : field_set :=
  both_fields (one_field p 2) (body_fields p o n).

(** Those of the records [rs] that begin at [p]. *)
Fixpoint stream_fields (p : Z) (rs : list (Opcode * Z)) : field_set :=
  match rs with
  | [] => no_field
  | (o, n) :: rs' =>
      both_fields (record_fields p o n)
        (stream_fields (p + layout_length o n) rs')
  end.

(** A record that branches to no other. *)
Definition leaf_record (r : Opcode * Z) : Prop :=
  fst r <> SortByNormal /\ fst r <> SubmodelCall.

(** On a buffer of bytes that holds the fields of [F], the computation
    reverses the bytes of each of them and does nothing else. *)
Definition performs {C : Config} (c : M unit) (F : field_set) : Prop :=
  forall s,
    Forall byte (mem s) ->
    (forall a w, F a w -> 0 <= a /\ a + w <= Z.of_nat (length (mem s))) ->
    exists m',
      c s = (Val tt, set_mem m' s)
      /\ fields_reversed F (mem s) m'
      /\ Forall byte m'.

(** What follows the store of the count in the handlers of the pass. *)
Definition after_count {C : Config} (p : Z) (o : Opcode) (n : Z) : M unit :=
  match o with
  | DefinePoints =>
      for_upto n (fun i => vms_vector_swap ((p + 4) + i * sizeof_vms_vector))
  | DefinePointsWithStart =>
      short_swap (p + 4) ;;;
      for_upto n (fun i => vms_vector_swap ((p + 8) + i * sizeof_vms_vector))
  | FlatPolygon =>
      vms_vector_swap (p + 4) ;;;
      vms_vector_swap (p + 16) ;;;
      short_swap (p + 28) ;;;
      for_upto n (fun i => short_swap (p + 30 + i * 2))
  | TexturedPolygon =>
      vms_vector_swap (p + 4) ;;;
      vms_vector_swap (p + 16) ;;;
      for_upto n (fun i =>
        let uvl_val := (p + 30 + (Z.land n (Z.lnot 1) + 1) * 2) + i * sizeof_g3s_uvl in
        fix_swap uvl_val ;;; fix_swap (uvl_val + 4)) ;;;
      short_swap (p + 28) ;;;
      for_upto n (fun i => short_swap (p + 30 + i * 2))
  | _ => ret tt
  end.

(** The fields it swaps. *)
Definition after_count_fields (p : Z) (o : Opcode) (n : Z) : field_set :=
  match o with
  | DefinePoints => indexed_fields 0 n (fun i => vector_fields (p + 4 + i * 12))
  | DefinePointsWithStart =>
      both_fields (one_field (p + 4) 2)
        (indexed_fields 0 n (fun i => vector_fields (p + 8 + i * 12)))
  | FlatPolygon =>
      both_fields (vector_fields (p + 4))
        (both_fields (vector_fields (p + 16))
           (both_fields (one_field (p + 28) 2)
              (indexed_fields 0 n (fun i => one_field (p + 30 + i * 2) 2))))
  | TexturedPolygon =>
      both_fields (vector_fields (p + 4))
        (both_fields (vector_fields (p + 16))
           (both_fields
              (indexed_fields 0 n
                 (fun i =>
                    both_fields
                      (one_field (p + 30 + round_up_odd n * 2 + i * 12) 4)
                      (one_field (p + 30 + round_up_odd n * 2 + i * 12 + 4) 4)))
              (both_fields (one_field (p + 28) 2)
                 (indexed_fields 0 n (fun i => one_field (p + 30 + i * 2) 2)))))
  | _ => no_field
  end.

(** The 32-bit value at an address in the byte order of the files. *)
Definition file32 (m : list Z) (a : Z) : option Z :=
  match file16 m a, file16 m (a + 2) with
  | Some lo, Some hi => Some (hi * 65536 + lo)
  | _, _ => None
  end.

(** Every field of [F] reads from [m'] in host order as it reads from [m]
    in the byte order of the files. *)
Definition host_reads_file {C : Config} (F : field_set) (m m' : list Z) : Prop :=
  (forall a, F a 2 -> load16 m' a = file16 m a)
  /\ (forall a, F a 4 -> load32 m' a = file32 m a).

(** The glow marker and the triangle of [two_record_buffer] on a
    big-endian host, before the byte-order pass. *)
Definition two_record_be_world : @world be_config :=
  @sample_world be_config two_record_buffer sample_points [].

(** ** Hierarchies in the byte order of the files *)

(** The signed 16-bit value at an address in the byte order of the
    files. *)
Definition file_short (m : list Z) (a : Z) : option Z :=
  option_map to_int16 (file16 m a).

(** [file_decodes m p t]: the buffer holds the hierarchy [t] at [p] in the
    byte order of the files, as [decodes] has it in host order. *)
Inductive file_decodes (m : list Z) : Z -> model -> Prop :=
| fdec_eof p :
    file16 m p = Some OP_EOF ->
    file_decodes m p End_of_stream
| fdec_defpoints p n rest :
    file16 m p = Some OP_DEFPOINTS -> file16 m (p + 2) = Some n ->
    file_decodes m (p + layout_length DefinePoints n) rest ->
    file_decodes m p (Define_points n rest)
| fdec_defp_start p n rest :
    file16 m p = Some OP_DEFP_START -> file16 m (p + 2) = Some n ->
    file_decodes m (p + layout_length DefinePointsWithStart n) rest ->
    file_decodes m p (Define_points_with_start n rest)
| fdec_flatpoly p nv rest :
    file16 m p = Some OP_FLATPOLY -> file16 m (p + 2) = Some nv ->
    file_decodes m (p + layout_length FlatPolygon nv) rest ->
    file_decodes m p (Flat_polygon nv rest)
| fdec_tmappoly p nv tex rest :
    file16 m p = Some OP_TMAPPOLY -> file16 m (p + 2) = Some nv ->
    file_short m (p + 28) = Some tex ->
    file_decodes m (p + layout_length TexturedPolygon nv) rest ->
    file_decodes m p (Textured_polygon nv tex rest)
| fdec_sortnorm p fo bo front back rest :
    file16 m p = Some OP_SORTNORM ->
    file_short m (p + 28) = Some fo -> file_short m (p + 30) = Some bo ->
    file_decodes m (p + fo) front -> file_decodes m (p + bo) back ->
    file_decodes m (p + layout_length SortByNormal 0) rest ->
    file_decodes m p (Sort_by_normal fo bo front back rest)
| fdec_rodbm p rest :
    file16 m p = Some OP_RODBM ->
    file_decodes m (p + layout_length RodBitmap 0) rest ->
    file_decodes m p (Rod_bitmap rest)
| fdec_subcall p off sub rest :
    file16 m p = Some OP_SUBCALL ->
    file_short m (p + 16) = Some off ->
    file_decodes m (p + off) sub ->
    file_decodes m (p + layout_length SubmodelCall 0) rest ->
    file_decodes m p (Submodel_call off sub rest)
| fdec_glow p rest :
    file16 m p = Some OP_GLOW ->
    file_decodes m (p + layout_length Glow 0) rest ->
    file_decodes m p (Glow_marker rest).

(** The fields of a hierarchy decoded at [p]. *)
Fixpoint tree_fields (p : Z) (t : model) : field_set :=
  match t with
  | End_of_stream => no_field
  | Define_points n rest =>
      both_fields (record_fields p DefinePoints n)
        (tree_fields (p + layout_length DefinePoints n) rest)
  | Define_points_with_start n rest =>
      both_fields (record_fields p DefinePointsWithStart n)
        (tree_fields (p + layout_length DefinePointsWithStart n) rest)
  | Flat_polygon nv rest =>
      both_fields (record_fields p FlatPolygon nv)
        (tree_fields (p + layout_length FlatPolygon nv) rest)
  | Textured_polygon nv _ rest =>
      both_fields (record_fields p TexturedPolygon nv)
        (tree_fields (p + layout_length TexturedPolygon nv) rest)
  | Sort_by_normal fo bo front back rest =>
      both_fields (record_fields p SortByNormal 0)
        (both_fields (tree_fields (p + fo) front)
           (both_fields (tree_fields (p + bo) back)
              (tree_fields (p + layout_length SortByNormal 0) rest)))
  | Rod_bitmap rest =>
      both_fields (record_fields p RodBitmap 0)
        (tree_fields (p + layout_length RodBitmap 0) rest)
  | Submodel_call off sub rest =>
      both_fields (record_fields p SubmodelCall 0)
        (both_fields (tree_fields (p + off) sub)
           (tree_fields (p + layout_length SubmodelCall 0) rest))
  | Glow_marker rest =>
      both_fields (record_fields p Glow 0)
        (tree_fields (p + layout_length Glow 0) rest)
  end.

(** The extents of its records and end tags: start and length each. *)
Fixpoint tree_extents (p : Z) (t : model) : list (Z * Z) :=
  match t with
  | End_of_stream => [(p, 2)]
  | Define_points n rest =>
      (p, layout_length DefinePoints n)
      :: tree_extents (p + layout_length DefinePoints n) rest
  | Define_points_with_start n rest =>
      (p, layout_length DefinePointsWithStart n)
      :: tree_extents (p + layout_length DefinePointsWithStart n) rest
  | Flat_polygon nv rest =>
      (p, layout_length FlatPolygon nv)
      :: tree_extents (p + layout_length FlatPolygon nv) rest
  | Textured_polygon nv _ rest =>
      (p, layout_length TexturedPolygon nv)
      :: tree_extents (p + layout_length TexturedPolygon nv) rest
  | Sort_by_normal fo bo front back rest =>
      (p, layout_length SortByNormal 0)
      :: tree_extents (p + fo) front ++ tree_extents (p + bo) back
      ++ tree_extents (p + layout_length SortByNormal 0) rest
  | Rod_bitmap rest =>
      (p, layout_length RodBitmap 0)
      :: tree_extents (p + layout_length RodBitmap 0) rest
  | Submodel_call off sub rest =>
      (p, layout_length SubmodelCall 0)
      :: tree_extents (p + off) sub
      ++ tree_extents (p + layout_length SubmodelCall 0) rest
  | Glow_marker rest =>
      (p, layout_length Glow 0) :: tree_extents (p + layout_length Glow 0) rest
  end.

(** Two extents that share no byte, and a list of extents no two of which
    share one: the records of the hierarchy do not overlap. *)
Definition extents_apart (x y : Z * Z) : Prop :=
  fst x + snd x <= fst y \/ fst y + snd y <= fst x.
Fixpoint apart (l : list (Z * Z)) : Prop :=
  match l with
  | [] => True
  | x :: l' => Forall (extents_apart x) l' /\ apart l'
  end.
Fixpoint apartb (l : list (Z * Z)) : bool :=
  match l with
  | [] => true
  | x :: l' =>
      forallb (fun y => (fst x + snd x <=? fst y) || (fst y + snd y <=? fst x)) l'
      && apartb l'
  end.

(** No extent of [l1] overlaps one of [l2]. *)
Definition cross (l1 l2 : list (Z * Z)) : Prop :=
  forall x y, In x l1 -> In y l2 -> extents_apart x y.

(** The byte at [x] lies in one of the extents. *)
Definition covered (l : list (Z * Z)) (x : Z) : Prop :=
  exists e, In e l /\ fst e <= x < fst e + snd e.
(** The field lies within one of the extents. *)
Definition held (l : list (Z * Z)) (a w : Z) : Prop :=
  exists e, In e l /\ fst e <= a /\ a + w <= fst e + snd e.

(** The pass converts the records of [t] from [p] on, by the loop of
    [iterate_polymodel] with budget [loop_fuel], nested calls being given
    [rec_fuel]: it swaps their fields, and the hierarchy then decodes in
    host order. *)
Definition loop_converts {C : Config} (t : model) : Prop :=
  forall p loop_fuel rec_fuel s,
    Forall byte (mem s) ->
    file_decodes (mem s) p t ->
    apart (tree_extents p t) ->
    (model_size t <= loop_fuel)%nat ->
    (model_size t <= rec_fuel)%nat ->
    exists pend m',
      iterate_polymodel loop_fuel
        (swap_polygon_model_data_ops (swap_polygon_model_data rec_fuel)) p tt s
      = (Val (pend, tt), set_mem m' s)
      /\ fields_reversed (tree_fields p t) (mem s) m'
      /\ Forall byte m'
      /\ decodes m' p t.

(** The same for a call of [swap_polygon_model_data] with budget [fuel]. *)
Definition call_converts {C : Config} (t : model) : Prop :=
  forall p fuel s,
    Forall byte (mem s) ->
    file_decodes (mem s) p t ->
    apart (tree_extents p t) ->
    (model_size t < fuel)%nat ->
    exists m',
      swap_polygon_model_data fuel p s = (Val tt, set_mem m' s)
      /\ fields_reversed (tree_fields p t) (mem s) m'
      /\ Forall byte m'
      /\ decodes m' p t.

(** The hierarchy of [nested_buffer] on a big-endian host, before the
    byte-order pass. *)
Definition nested_be_world : @world be_config :=
  @sample_world be_config nested_buffer sample_points [].

(** * Properties *)

(** ** The monad *)

Section MonadFacts.
Context {C : Config}.

Lemma bind_val {A B} (m : M A) (f : A -> M B) s a s1 :
  m s = (Val a, s1) -> bind m f s = f a s1.
Proof. intros H. unfold bind. now rewrite H. Qed.

Lemma bind_err {A B} (m : M A) (f : A -> M B) s e s1 :
  m s = (Err e, s1) -> bind m f s = (Err e, s1).
Proof. intros H. unfold bind. now rewrite H. Qed.

Lemma bind_val_inv {A B} (m : M A) (f : A -> M B) s b s' :
  bind m f s = (Val b, s') ->
  exists a s1, m s = (Val a, s1) /\ f a s1 = (Val b, s').
Proof.
  unfold bind. destruct (m s) as [[a | e] s1]; intros H.
  - now exists a, s1.
  - discriminate.
Qed.

Lemma ret_val_inv {A} (a b : A) s s' :
  ret a s = (Val b, s') -> a = b /\ s = s'.
Proof. unfold ret. intros H. injection H as -> ->. auto. Qed.

Lemma ret_pair_inv {A B} (a a' : A) (b b' : B) s s' :
  ret (a, b) s = (Val (a', b'), s') -> a = a' /\ b = b' /\ s = s'.
Proof.
  intros H. apply ret_val_inv in H. destruct H as [E ->].
  split; [exact (f_equal fst E)|split; [exact (f_equal snd E)|reflexivity]].
Qed.

(** Reads leave the world alone. *)
Lemma w_world p s : snd (w p s) = s.
Proof.
  unfold w, bind, gets, lift. destruct (option_map _ _); reflexivity.
Qed.

Lemma w_short_at p s v :
  short_at (mem s) p = Some v -> w p s = (Val v, s).
Proof.
  unfold w, short_at, bind, gets, lift. intros ->. reflexivity.
Qed.

Lemma w_val_inv p s v s' :
  w p s = (Val v, s') -> s' = s /\ short_at (mem s) p = Some v.
Proof.
  unfold w, short_at, bind, gets, lift.
  destruct (option_map _ _); cbn; intros H; inversion H; auto.
Qed.

Lemma get_raw_opcode_tag_at p s v :
  tag_at (mem s) p = Some v -> get_raw_opcode p s = (Val v, s).
Proof.
  unfold get_raw_opcode, tag_at, w, bind, gets, lift.
  destruct (load16 (mem s) p); cbn; intros H; inversion H; reflexivity.
Qed.

Lemma get_raw_opcode_inv p s r s' :
  get_raw_opcode p s = (r, s') ->
  s' = s /\
  match r with
  | Val v => tag_at (mem s) p = Some v
  | Err e => e = Fault OutOfBuffer /\ load16 (mem s) p = None
  end.
Proof.
  unfold get_raw_opcode, tag_at, w, bind, gets, lift.
  destruct (load16 (mem s) p); cbn; intros H; inversion H; auto.
Qed.

Lemma base_get_op_subcount_tag_at p s n :
  tag_at (mem s) (p + 2) = Some n -> base_get_op_subcount p s = (Val n, s).
Proof. apply get_raw_opcode_tag_at. Qed.

End MonadFacts.

(** ** Arithmetic of the layout *)

Lemma land_lnot_1 n : Z.land n (Z.lnot 1) + 1 = round_up_odd n.
Proof.
  unfold round_up_odd.
  rewrite <- Z.ldiff_land.
  change 1 with (Z.ones 1) at 1.
  rewrite Z.ldiff_ones_r by lia.
  rewrite Z.shiftr_div_pow2, Z.shiftl_mul_pow2 by lia.
  change (2 ^ 1) with 2.
  pose proof (Z.div_mod n 2 ltac:(lia)) as Hd.
  pose proof (Zmod_odd n) as Ho.
  destruct (Z.odd n); lia.
Qed.

Lemma round_up_odd_is_odd n : Z.odd (round_up_odd n) = true.
Proof.
  unfold round_up_odd. destruct (Z.odd n) eqn:E; [exact E|].
  rewrite Z.odd_add. rewrite E. reflexivity.
Qed.

Lemma round_up_odd_least n k :
  n <= k -> Z.odd k = true -> n <= round_up_odd n <= k.
Proof.
  unfold round_up_odd. intros Hle Hk.
  destruct (Z.odd n) eqn:E; [lia|].
  assert (n <> k) by (intros ->; congruence). lia.
Qed.

Lemma layout_length_even o n : o <> EndOfStream -> Z.even (layout_length o n) = true.
Proof.
  intros Ho. rewrite Zeven_mod. apply Z.eqb_eq.
  destruct o; try congruence; unfold layout_length;
    apply Z.mod_divide; try lia;
    [ exists (2 + n * 6) | exists (4 + n * 6) | exists (15 + round_up_odd n)
    | exists (15 + round_up_odd n + n * 6) | exists 16 | exists 18 | exists 10
    | exists 2 ]; lia.
Qed.

(** ** The dispatcher *)

Section DispatchFacts.
Context {C : Config} {S : Type}.
Variable ops : State_ops S.

Ltac reduce_tag_in H :=
  unfold dispatch_polymodel_op in H;
  cbv [opcode_tag OP_EOF OP_DEFPOINTS OP_FLATPOLY OP_TMAPPOLY OP_SORTNORM
       OP_RODBM OP_SUBCALL OP_DEFP_START OP_GLOW Z.eqb Pos.eqb] in H;
  cbv beta iota in H.

Ltac bind_inv H :=
  repeat match type of H with
  | bind _ _ _ = (Val _, _) =>
      let a := fresh "a" in let s1 := fresh "s" in
      let H1 := fresh "H" in
      apply bind_val_inv in H; destruct H as (a & s1 & H1 & H)
  | ret (_, _) _ = (Val (_, _), _) =>
      apply ret_pair_inv in H; destruct H as (<- & <- & <-)
  | ret _ _ = (Val _, _) =>
      apply ret_val_inv in H; destruct H as [<- <-]
  end.

Lemma dispatch_val_inv o p st s sz st' s' :
  o <> EndOfStream ->
  dispatch_polymodel_op ops p st (opcode_tag o) s = (Val (sz, st'), s') ->
  if counted o
  then exists n s1, get_op_subcount ops p s = (Val n, s1) /\ sz = layout_length o n
  else sz = layout_length o 0.
Proof.
  intros Ho H.
  destruct o; try congruence; reduce_tag_in H; cbn [counted]; bind_inv H;
    unfold layout_length, sizeof_vms_vector;
    try (eexists; eexists; split; [eassumption|rewrite ?land_lnot_1; lia]); lia.
Qed.

Lemma iterate_step_eof p st s :
  get_raw_opcode p s = (Val OP_EOF, s) ->
  iterate_step ops p st s = (Val None, s).
Proof.
  intros H. unfold iterate_step. rewrite (bind_val _ _ _ _ _ H). reflexivity.
Qed.

Lemma iterate_polymodel_eof fuel p st s :
  get_raw_opcode p s = (Val OP_EOF, s) ->
  iterate_polymodel (Datatypes.S fuel) ops p st s = (Val (p, st), s).
Proof.
  intros H. cbn [iterate_polymodel].
  rewrite (bind_val _ _ _ _ _ (iterate_step_eof p st s H)). reflexivity.
Qed.

Lemma iterate_polymodel_turn fuel p st s p1 st1 s1 :
  iterate_step ops p st s = (Val (Some (p1, st1)), s1) ->
  iterate_polymodel (Datatypes.S fuel) ops p st s
  = iterate_polymodel fuel ops p1 st1 s1.
Proof.
  intros H. cbn [iterate_polymodel].
  rewrite (bind_val _ _ _ _ _ H). reflexivity.
Qed.

End DispatchFacts.

(** ** Record lengths *)

Section RecordLengths.
Context {C : Config}.

(** C1 (as amended).  Whatever the state class, when the dispatcher
    returns from a record of a known opcode the length it returns is that of
    the layout table: 4 + 12n, 8 + 12n, 30 + 2 round_up_odd(n),
    30 + 2 round_up_odd(n) + 12n for the counted opcodes, with n the count
    the state class read, and 32, 36, 20, 4 for the others.  The relocation
    scan, whose handlers for the other six opcodes are empty, does return
    these lengths there; and it counts two bytes for a buffer that holds the
    end tag only. *)
Theorem dispatch_record_length :
  (forall S (ops : State_ops S) o p st s sz st' s',
     o <> EndOfStream ->
     dispatch_polymodel_op ops p st (opcode_tag o) s = (Val (sz, st'), s') ->
     if counted o
     then exists n s1,
            get_op_subcount ops p s = (Val n, s1) /\ sz = layout_length o n
     else sz = layout_length o 0)
  /\ (forall data new_data o p n s,
        o <> EndOfStream -> o <> SortByNormal -> o <> SubmodelCall ->
        (if counted o then chunks_get_op_subcount p s = (Val n, s) else n = 0) ->
        dispatch_polymodel_op (get_chunks_ops data new_data) p tt (opcode_tag o) s
        = (Val (layout_length o n, tt), s))
  /\ (forall data new_data fuel s,
        get_raw_opcode data s = (Val OP_EOF, s) ->
        get_chunks (Datatypes.S fuel) data new_data s = (Val 2, s)).
Proof.
  split; [|split].
  - intros S ops o p st s sz st' s' Ho H.
    exact (dispatch_val_inv ops o p st s sz st' s' Ho H).
  - intros data new_data o p n s Ho Hs Hc Hn.
    destruct o; try congruence; cbn [counted] in Hn;
      unfold dispatch_polymodel_op;
      cbv [opcode_tag OP_EOF OP_DEFPOINTS OP_FLATPOLY OP_TMAPPOLY OP_SORTNORM
           OP_RODBM OP_SUBCALL OP_DEFP_START OP_GLOW Z.eqb Pos.eqb];
      cbv beta iota; cbn [get_chunks_ops get_op_subcount op_defpoints
        op_defp_start op_flatpoly op_tmappoly op_rodbm op_glow];
      try (rewrite (bind_val _ _ _ _ _ Hn));
      unfold ignore_op2, ignore_op1, bind, ret, layout_length, sizeof_vms_vector;
      rewrite ?land_lnot_1; subst;
      match goal with
      | |- (Val (?a, _), _) = (Val (?b, _), _) => replace a with b by lia
      end; reflexivity.
  - intros data new_data fuel s H.
    unfold get_chunks.
    rewrite (bind_val _ _ _ _ _ (iterate_polymodel_eof _ fuel data tt s H)).
    unfold ret. replace (data + 2 - data) with 2 by lia. reflexivity.
Qed.

End RecordLengths.

(** C1, the claim as worded fails: for a flat polygon of three points the
    dispatcher advances by 36 bytes, the table of the specification
    gives 38. *)
Lemma dispatch_record_length_differs_from_spec :
  @dispatch_polymodel_op d2_config unit (@get_chunks_ops d2_config 0 0) 0 tt
     (opcode_tag FlatPolygon) flat3_world
  = (Val (36, tt), flat3_world)
  /\ spec_length FlatPolygon 3 = 38.
Proof. split; vm_compute; reflexivity. Qed.

Lemma dispatch_record_length_witness :
  FlatPolygon <> EndOfStream
  /\ @dispatch_polymodel_op d2_config unit (@get_chunks_ops d2_config 0 0) 0 tt
       (opcode_tag FlatPolygon) flat3_world
     = (Val (36, tt), flat3_world)
  /\ exists n s1,
       @get_op_subcount d2_config unit (@get_chunks_ops d2_config 0 0) 0 flat3_world
       = (Val n, s1)
       /\ 36 = layout_length FlatPolygon n.
Proof.
  assert (Ho : FlatPolygon <> EndOfStream) by discriminate.
  assert (Hd : @dispatch_polymodel_op d2_config unit (@get_chunks_ops d2_config 0 0)
                 0 tt (opcode_tag FlatPolygon) flat3_world
               = (Val (36, tt), flat3_world)) by (vm_compute; reflexivity).
  split; [exact Ho|split; [exact Hd|]].
  exact (proj1 (@dispatch_record_length d2_config) unit
           (@get_chunks_ops d2_config 0 0) FlatPolygon 0 tt flat3_world 36 tt
           flat3_world Ho Hd).
Defined.

(** ** Unknown opcodes *)

Section UnknownOpcode.
Context {C : Config}.

Lemma dispatch_unknown {S} (ops : State_ops S) p st op s :
  ~ (1 <= op <= 8) ->
  dispatch_polymodel_op ops p st op s = (Err Throw, s).
Proof.
  intros H. unfold dispatch_polymodel_op.
  unfold OP_DEFPOINTS, OP_DEFP_START, OP_FLATPOLY, OP_TMAPPOLY, OP_SORTNORM,
    OP_RODBM, OP_SUBCALL, OP_GLOW.
  repeat match goal with
  | |- context [?a =? ?b] => destruct (Z.eqb_spec a b); [lia|]
  end.
  reflexivity.
Qed.

(** C3.  Whatever the state class: when the tag the loop reads is not the
    end tag and the opcode the state class makes of it is none of 1..8, the
    dispatcher throws "invalid polygon model" and so does the traversal, in
    the world the opcode translation left; no length is returned. *)
Theorem unknown_opcode_throws :
  forall S (ops : State_ops S) fuel p st s op op' s1,
    get_raw_opcode p s = (Val op, s) ->
    op <> OP_EOF ->
    translate_opcode ops p op s = (Val op', s1) ->
    ~ (1 <= op' <= 8) ->
    dispatch_polymodel_op ops p st op' s1 = (Err Throw, s1)
    /\ iterate_step ops p st s = (Err Throw, s1)
    /\ iterate_polymodel (Datatypes.S fuel) ops p st s = (Err Throw, s1).
Proof.
  intros S ops fuel p st s op op' s1 Hraw Hne Htr Hun.
  assert (Hd := dispatch_unknown ops p st op' s1 Hun).
  assert (Hs : iterate_step ops p st s = (Err Throw, s1)).
  { unfold iterate_step. rewrite (bind_val _ _ _ _ _ Hraw).
    destruct (Z.eqb_spec op OP_EOF) as [E|_]; [contradiction|].
    rewrite (bind_val _ _ _ _ _ Htr).
    now rewrite (bind_err _ _ _ _ _ Hd). }
  split; [exact Hd|split; [exact Hs|]].
  cbn [iterate_polymodel]. now rewrite (bind_err _ _ _ _ _ Hs).
Qed.

(** The entry points of the four state classes that take the opcode as it
    is read pass the exception on. *)
Lemma entry_points_throw fuel p s op :
  get_raw_opcode p s = (Val op, s) -> 8 < op ->
  fst (g3_poly_get_color (2 + fuel) p s) = Err Throw
  /\ (forall args gv, fst (g3_draw_polygon_model args (2 + fuel) gv p s) = Err Throw)
  /\ (forall args np, fst (g3_draw_morphing_model args np (2 + fuel) p s) = Err Throw)
  /\ (NDEBUG = true -> forall h, fst (init_model_sub (2 + fuel) p h s) = Err Throw).
Proof.
  intros Hraw Hop.
  assert (Hne : op <> OP_EOF) by (unfold OP_EOF; lia).
  assert (Hun : ~ (1 <= op <= 8)) by lia.
  assert (Htr : forall S (ops : State_ops S),
             translate_opcode ops = base_translate_opcode ->
             forall st, iterate_polymodel (Datatypes.S fuel) ops p st s = (Err Throw, s)).
  { intros S ops E st.
    apply (unknown_opcode_throws S ops fuel p st s op op s Hraw Hne); [|exact Hun].
    rewrite E. reflexivity. }
  change (2 + fuel)%nat with (Datatypes.S (Datatypes.S fuel)).
  repeat split.
  - cbn [g3_poly_get_color]. erewrite bind_err; [reflexivity|apply Htr; reflexivity].
  - intros args gv. cbn [g3_draw_polygon_model].
    erewrite bind_err; [reflexivity|apply Htr; reflexivity].
  - intros args np. cbn [g3_draw_morphing_model].
    erewrite bind_err; [reflexivity|apply Htr; reflexivity].
  - intros Hnd h. cbn [init_model_sub]. unfold Assert. rewrite Hnd.
    unfold bind at 1. cbn [ret].
    erewrite bind_err; [reflexivity|apply Htr; reflexivity].
Qed.

End UnknownOpcode.

Lemma unknown_opcode_throws_witness :
  @get_raw_opcode d2_config 0 bad_opcode_world = (Val 9, bad_opcode_world)
  /\ 9 <> OP_EOF
  /\ @translate_opcode d2_config _
       (@init_model_sub_ops d2_config (@init_model_sub d2_config 1)) 0 9
       bad_opcode_world = (Val 9, bad_opcode_world)
  /\ ~ (1 <= 9 <= 8)
  /\ @iterate_polymodel d2_config _ 1
       (@init_model_sub_ops d2_config (@init_model_sub d2_config 1)) 0
       {| highest_texture_num := -1 |} bad_opcode_world
     = (Err Throw, bad_opcode_world).
Proof.
  assert (H1 : @get_raw_opcode d2_config 0 bad_opcode_world
               = (Val 9, bad_opcode_world)) by (vm_compute; reflexivity).
  assert (H2 : 9 <> OP_EOF) by (unfold OP_EOF; lia).
  assert (H3 : @translate_opcode d2_config _
                 (@init_model_sub_ops d2_config (@init_model_sub d2_config 1)) 0 9
                 bad_opcode_world = (Val 9, bad_opcode_world)) by reflexivity.
  assert (H4 : ~ (1 <= 9 <= 8)) by lia.
  repeat (split; [assumption|]).
  exact (proj2 (proj2 (@unknown_opcode_throws d2_config _ _ 0 0
           {| highest_texture_num := -1 |} bad_opcode_world 9 9 bad_opcode_world
           H1 H2 H3 H4))).
Defined.

(** ** Alignment of the cursor *)

Section Alignment.
Context {C : Config}.

Lemma known_opcode op :
  1 <= op <= 8 -> exists o, o <> EndOfStream /\ op = opcode_tag o.
Proof.
  intros H.
  assert (E : op = 1 \/ op = 2 \/ op = 3 \/ op = 4 \/ op = 5 \/ op = 6
              \/ op = 7 \/ op = 8) by lia.
  destruct E as [-> | [-> | [-> | [-> | [-> | [-> | [-> | ->]]]]]]];
    [ exists DefinePoints | exists FlatPolygon | exists TexturedPolygon
    | exists SortByNormal | exists RodBitmap | exists SubmodelCall
    | exists DefinePointsWithStart | exists Glow ];
    (split; [discriminate|reflexivity]).
Qed.

Lemma dispatch_val_known {S} (ops : State_ops S) p st op s r s' :
  dispatch_polymodel_op ops p st op s = (Val r, s') -> 1 <= op <= 8.
Proof.
  intros H.
  destruct (Z_le_dec 1 op) as [H1|H1]; [destruct (Z_le_dec op 8) as [H2|H2]|];
    try lia;
    rewrite dispatch_unknown in H by lia; discriminate.
Qed.

Lemma dispatch_size_even {S} (ops : State_ops S) p st op s sz st' s' :
  dispatch_polymodel_op ops p st op s = (Val (sz, st'), s') ->
  Z.even sz = true.
Proof.
  intros H.
  destruct (known_opcode op (dispatch_val_known ops p st op s _ s' H))
    as (o & Ho & ->).
  pose proof (dispatch_val_inv ops o p st s sz st' s' Ho H) as Hs.
  destruct (counted o).
  - destruct Hs as (n & s1 & _ & ->). now apply layout_length_even.
  - subst sz. now apply layout_length_even.
Qed.

Lemma iterate_step_advance {S} (ops : State_ops S) p st s p1 st1 s1 :
  iterate_step ops p st s = (Val (Some (p1, st1)), s1) ->
  exists sz, p1 = p + sz /\ Z.even sz = true.
Proof.
  unfold iterate_step. intros H.
  apply bind_val_inv in H. destruct H as (op & s2 & _ & H).
  destruct (op =? OP_EOF).
  - apply ret_val_inv in H. destruct H as [H _]. discriminate.
  - apply bind_val_inv in H. destruct H as (op' & s3 & _ & H).
    apply bind_val_inv in H. destruct H as ([sz st'] & s4 & Hd & H).
    apply ret_val_inv in H. destruct H as [H _].
    exists sz. split.
    + congruence.
    + exact (dispatch_size_even ops p st op' s3 sz st' s4 Hd).
Qed.

Lemma reaches_even {S} (ops : State_ops S) p st s p' st' s' :
  reaches ops p st s p' st' s' -> Z.even p = true -> Z.even p' = true.
Proof.
  induction 1 as [|p st s p1 st1 s1 p2 st2 s2 Hstep _ IH]; intros Hp.
  - exact Hp.
  - apply IH.
    destruct (iterate_step_advance ops p st s p1 st1 s1 Hstep) as (sz & -> & Hsz).
    rewrite Z.even_add, Hp, Hsz. reflexivity.
Qed.

Lemma iterate_polymodel_reaches {S} (ops : State_ops S) fuel :
  forall p st s pe ste se,
    iterate_polymodel fuel ops p st s = (Val (pe, ste), se) ->
    reaches ops p st s pe ste se.
Proof.
  induction fuel as [|fuel IH]; intros p st s pe ste se H.
  - discriminate.
  - cbn [iterate_polymodel] in H.
    apply bind_val_inv in H. destruct H as (r & s1 & Hstep & H).
    destruct r as [[p1 st1]|].
    + eapply reaches_turn; [exact Hstep|]. now apply IH.
    + apply ret_pair_inv in H. destruct H as (<- & <- & <-).
      pose proof Hstep as Hs1. unfold iterate_step in Hs1.
      apply bind_val_inv in Hs1. destruct Hs1 as (op & s2 & Hraw & Hs1).
      apply get_raw_opcode_inv in Hraw. destruct Hraw as [-> _].
      destruct (op =? OP_EOF).
      * apply ret_val_inv in Hs1. destruct Hs1 as [_ ->]. constructor.
      * apply bind_val_inv in Hs1. destruct Hs1 as (op' & s3 & _ & Hs1).
        apply bind_val_inv in Hs1. destruct Hs1 as ([sz st'] & s4 & _ & Hs1).
        apply ret_val_inv in Hs1. destruct Hs1 as [Hs1 _]. discriminate.
Qed.

(** C10.  The length the dispatcher returns for a record is even whatever
    the opcode, the count and the state class; so from an even position a
    traversal only reaches even positions, the one it returns included. *)
Theorem cursor_stays_aligned :
  (forall S (ops : State_ops S) p st op s sz st' s',
     dispatch_polymodel_op ops p st op s = (Val (sz, st'), s') ->
     Z.even sz = true)
  /\ (forall o n, o <> EndOfStream -> Z.even (layout_length o n) = true)
  /\ (forall S (ops : State_ops S) p st s p' st' s',
        Z.even p = true ->
        reaches ops p st s p' st' s' -> Z.even p' = true)
  /\ (forall S (ops : State_ops S) fuel p st s pe ste se,
        Z.even p = true ->
        iterate_polymodel fuel ops p st s = (Val (pe, ste), se) ->
        reaches ops p st s pe ste se /\ Z.even pe = true).
Proof.
  split; [|split; [|split]].
  - intros S ops p st op s sz st' s'. apply dispatch_size_even.
  - intros o n Ho. now apply layout_length_even.
  - intros S ops p st s p' st' s' Hp Hr. exact (reaches_even ops _ _ _ _ _ _ Hr Hp).
  - intros S ops fuel p st s pe ste se Hp H.
    pose proof (iterate_polymodel_reaches ops fuel _ _ _ _ _ _ H) as Hr.
    split; [exact Hr|]. exact (reaches_even ops _ _ _ _ _ _ Hr Hp).
Qed.

End Alignment.

Lemma cursor_stays_aligned_witness :
  Z.even 0 = true
  /\ @iterate_polymodel d2_config unit 2 (@get_chunks_ops d2_config 0 0) 0 tt
       flat3_world = (Val (36, tt), flat3_world)
  /\ Z.even 36 = true.
Proof.
  assert (H0 : Z.even 0 = true) by reflexivity.
  assert (H1 : @iterate_polymodel d2_config unit 2 (@get_chunks_ops d2_config 0 0)
                 0 tt flat3_world = (Val (36, tt), flat3_world))
    by (vm_compute; reflexivity).
  split; [exact H0|split; [exact H1|]].
  exact (proj2 (proj2 (proj2 (proj2 (@cursor_stays_aligned d2_config))) unit
           (@get_chunks_ops d2_config 0 0) 2%nat 0 tt flat3_world 36 tt
           flat3_world H0 H1)).
Defined.

(** ** Traversal of a well-formed buffer *)

Section WellFormed.
Context {C : Config}.

Lemma at_index_byte (m : list Z) a b :
  Forall byte m -> at_index m a = Some b -> 0 <= b < 256.
Proof.
  intros Hm. unfold at_index. destruct (a <? 0); [discriminate|].
  intros H. apply nth_error_In in H.
  rewrite Forall_forall in Hm. exact (Hm b H).
Qed.

Lemma to_uint16_to_int16 z : to_uint16 (to_int16 z) = z mod 65536.
Proof.
  unfold to_uint16, to_int16.
  pose proof (Z.mod_pos_bound z 65536 ltac:(lia)) as Hb.
  destruct (z mod 65536 <? 32768).
  - now rewrite Z.mod_mod by lia.
  - rewrite <- (Z.mod_add _ 1 65536) by lia.
    replace (z mod 65536 - 65536 + 1 * 65536) with (z mod 65536) by lia.
    now rewrite Z.mod_mod by lia.
Qed.

(** How the relocation scan reads a tag: zero as zero, and any other in
    the byte order of the files, whatever the host. *)
Lemma chunks_tag m s p v :
  mem s = m -> Forall byte m -> file16 m p = Some v ->
  exists r, get_raw_opcode p s = (Val r, s)
            /\ (r = 0 <-> v = 0)
            /\ chunks_translate_opcode p r s = (Val v, s).
Proof.
  intros Hm Hb. unfold file16.
  destruct (at_index m p) as [b0|] eqn:E0; [|discriminate].
  destruct (at_index m (p + 1)) as [b1|] eqn:E1; [|discriminate].
  intros Hv. injection Hv as <-.
  pose proof (at_index_byte m p b0 Hb E0) as H0.
  pose proof (at_index_byte m (p + 1) b1 Hb E1) as H1.
  exists (join16 b0 b1).
  assert (Hj : 0 <= join16 b0 b1 < 65536)
    by (unfold join16; destruct DXX_WORDS_BIGENDIAN; lia).
  split; [|split].
  - unfold get_raw_opcode, w, bind, gets, lift, load16. rewrite Hm, E0, E1.
    cbn [option_map ret]. rewrite to_uint16_to_int16.
    rewrite Z.mod_small by lia. reflexivity.
  - unfold join16. destruct DXX_WORDS_BIGENDIAN; lia.
  - unfold chunks_translate_opcode, ret, INTEL_SHORT, SWAPSHORT, to_uint16.
    rewrite (Z.mod_small (join16 b0 b1)) by lia.
    unfold join16. destruct DXX_WORDS_BIGENDIAN.
    + replace ((b0 * 256 + b1) mod 256) with b1
        by (rewrite Z.add_comm, Z.mod_add by lia; now rewrite Z.mod_small by lia).
      replace ((b0 * 256 + b1) / 256) with b0
        by (rewrite Z.add_comm, Z.div_add by lia;
            rewrite Z.div_small by lia; reflexivity).
      reflexivity.
    + reflexivity.
Qed.

Lemma chunks_count m s p n :
  mem s = m -> Forall byte m -> file16 m (p + 2) = Some n ->
  chunks_get_op_subcount p s = (Val n, s).
Proof.
  intros Hm Hb. unfold file16.
  destruct (at_index m (p + 2)) as [b0|] eqn:E0; [|discriminate].
  destruct (at_index m (p + 2 + 1)) as [b1|] eqn:E1; [|discriminate].
  intros Hv. injection Hv as <-.
  pose proof (at_index_byte m _ b0 Hb E0) as H0.
  pose proof (at_index_byte m _ b1 Hb E1) as H1.
  unfold chunks_get_op_subcount, GET_INTEL_SHORT, bind, gets.
  rewrite Hm, E0, E1. unfold ret, to_uint16.
  rewrite Z.mod_small by lia. reflexivity.
Qed.


Lemma chunks_dispatch_ignored data new_data o p n s :
  o <> EndOfStream -> o <> SortByNormal -> o <> SubmodelCall ->
  (if counted o then chunks_get_op_subcount p s = (Val n, s) else n = 0) ->
  dispatch_polymodel_op (get_chunks_ops data new_data) p tt (opcode_tag o) s
  = (Val (layout_length o n, tt), s).
Proof.
  intros Ho Hs Hc Hn.
  destruct o; try congruence; cbn [counted] in Hn;
    unfold dispatch_polymodel_op;
    cbv [opcode_tag OP_EOF OP_DEFPOINTS OP_FLATPOLY OP_TMAPPOLY OP_SORTNORM
         OP_RODBM OP_SUBCALL OP_DEFP_START OP_GLOW Z.eqb Pos.eqb];
    cbv beta iota; cbn [get_chunks_ops get_op_subcount op_defpoints
      op_defp_start op_flatpoly op_tmappoly op_rodbm op_glow];
    try (rewrite (bind_val _ _ _ _ _ Hn));
    unfold ignore_op2, ignore_op1, bind, ret, layout_length, sizeof_vms_vector;
    rewrite ?land_lnot_1; subst;
    match goal with
    | |- (Val (?a, _), _) = (Val (?b, _), _) => replace a with b by lia
    end; reflexivity.
Qed.



End WellFormed.


Lemma all_bytes_Forall m : all_bytes m = true -> Forall byte m.
Proof.
  unfold all_bytes. rewrite forallb_forall, Forall_forall.
  intros H b Hb. specialize (H b Hb). unfold byte. lia.
Qed.


(** ** Polygons with too many points *)

Ltac bind_inv H :=
  repeat match type of H with
  | bind _ _ _ = (Val _, _) =>
      let a := fresh "a" in let s1 := fresh "s" in
      let H1 := fresh "H" in
      apply bind_val_inv in H; destruct H as (a & s1 & H1 & H)
  | ret (_, _) _ = (Val (_, _), _) =>
      apply ret_pair_inv in H; destruct H as (<- & <- & <-)
  | ret _ _ = (Val _, _) =>
      apply ret_val_inv in H; destruct H as [<- <-]
  end.

Section Oversized.
Context {C : Config}.

Lemma gets_val_inv {A} (f : world -> A) s a s' :
  gets f s = (Val a, s') -> a = f s /\ s' = s.
Proof. unfold gets. intros H. injection H as <- <-. auto. Qed.

Lemma lift_val_inv {A} f (o : option A) s a s' :
  lift f o s = (Val a, s') -> o = Some a /\ s' = s.
Proof.
  unfold lift. destruct o; unfold ret, fail; intros H; [|discriminate].
  injection H as <- <-. auto.
Qed.

Lemma prepare_point_list_from_world n : forall p i s r s',
  prepare_point_list_from n p i s = (r, s') -> s' = s.
Proof.
  induction n as [|n IH]; intros p i s r s' H; cbn [prepare_point_list_from] in H.
  - unfold ret in H. now injection H as _ <-.
  - unfold bind at 1 in H. destruct (w _ s) as [[idx|e] s1] eqn:Ew.
    2:{ pose proof (w_world (p + 30 + i * 2) s) as Hw. rewrite Ew in Hw.
        cbn in Hw. injection H as _ <-. exact Hw. }
    pose proof (w_world (p + 30 + i * 2) s) as Hw. rewrite Ew in Hw.
    cbn in Hw. subst s1.
    unfold bind at 1, gets at 1 in H.
    unfold bind at 1 in H.
    destruct (at_index (Interp_point_list s) idx) as [pt|]; cbn [lift ret fail] in H.
    2:{ now injection H as _ <-. }
    unfold bind at 1 in H.
    destruct (prepare_point_list_from n p (i + 1) s) as [[rest|e] s2] eqn:Er.
    + apply IH in Er. subst s2. unfold ret in H. now injection H as _ <-.
    + apply IH in Er. subst s2. now injection H as _ <-.
Qed.

Lemma prepare_point_list_from_length n : forall p i s pts s',
  prepare_point_list_from n p i s = (Val pts, s') -> length pts = n.
Proof.
  induction n as [|n IH]; intros p i s pts s' H; cbn [prepare_point_list_from] in H.
  - apply ret_val_inv in H. destruct H as [<- _]. reflexivity.
  - bind_inv H. cbn [length]. f_equal. eapply IH. eassumption.
Qed.

Lemma morph_flatpoly_loop_val fuel : forall p color ntris i p0 p1 s s',
  morph_flatpoly_loop fuel p color ntris i p0 p1 s = (Val tt, s') ->
  0 <= ntris
  /\ mem s' = mem s
  /\ Z.of_nat (length (canvas s')) = Z.of_nat (length (canvas s)) + ntris.
Proof.
  induction fuel as [|fuel IH]; intros p color ntris i p0 p1 s s' H.
  - cbn [morph_flatpoly_loop] in H.
    destruct (Z.eqb_spec ntris 0) as [->|Hn]; [|discriminate].
    apply ret_val_inv in H. destruct H as [_ <-].
    repeat split; [lia|lia].
  - cbn [morph_flatpoly_loop] in H.
    destruct (Z.eqb_spec ntris 0) as [->|Hn].
    + apply ret_val_inv in H. destruct H as [_ <-].
      repeat split; [lia|lia].
    + apply bind_val_inv in H. destruct H as (idx & s1 & Hw & H).
      apply w_val_inv in Hw. destruct Hw as [-> _].
      apply bind_val_inv in H. destruct H as (pl & s1 & Hg & H).
      apply gets_val_inv in Hg. destruct Hg as [-> ->].
      apply bind_val_inv in H. destruct H as (p2 & s1 & Hl & H).
      apply lift_val_inv in Hl. destruct Hl as [_ ->].
      apply bind_val_inv in H. destruct H as ([] & s1 & Hd & H).
      unfold draw, modify in Hd. injection Hd as <-.
      apply IH in H. destruct H as (H1 & H2 & H3).
      cbn [set_canvas mem canvas length] in H2, H3.
      repeat split; [lia|exact H2|lia].
Qed.

Lemma base_get_op_subcount_range p s n s' :
  base_get_op_subcount p s = (Val n, s') -> 0 <= n < 65536.
Proof.
  unfold base_get_op_subcount. intros H.
  apply bind_val_inv in H. destruct H as (v & s1 & _ & H).
  apply ret_val_inv in H. destruct H as [<- _].
  unfold to_uint16. apply Z.mod_pos_bound. lia.
Qed.

Lemma to_int32_small z : -2147483648 <= z < 2147483648 -> to_int32 z = z.
Proof.
  intros H. unfold to_int32.
  destruct (Z_lt_dec z 0) as [Hn|Hn].
  - replace (z mod 4294967296) with (z + 4294967296).
    + destruct (Z.ltb_spec (z + 4294967296) 2147483648); lia.
    + symmetry. rewrite <- (Z.mod_add z 1 4294967296) by lia.
      apply Z.mod_small. lia.
  - rewrite Z.mod_small by lia.
    destruct (Z.ltb_spec z 2147483648); lia.
Qed.

End Oversized.

(** ** The facing test of flat polygons *)

Section Facing.
Context {C : Config}.

Lemma glow_value_is_world st a s r s' :
  glow_value_is st a s = (r, s') -> s' = s.
Proof.
  unfold glow_value_is. destruct (glow_values st) as [gv|].
  - destruct (glow_num st <? Z.of_nat (length gv)).
    + unfold bind, lift. destruct (at_index gv (glow_num st));
        cbn; intros H; now injection H as _ <-.
    + unfold ret. intros H. now injection H as _ <-.
  - unfold ret. intros H. now injection H as _ <-.
Qed.

Lemma glow_value_is_total st a a' s b :
  glow_value_is st a s = (Val b, s) ->
  exists b', glow_value_is st a' s = (Val b', s).
Proof.
  unfold glow_value_is. destruct (glow_values st) as [gv|].
  - destruct (glow_num st <? Z.of_nat (length gv)).
    + unfold bind, lift. destruct (at_index gv (glow_num st)); cbn.
      * intros _. eexists. reflexivity.
      * discriminate.
    + intros _. eexists. reflexivity.
  - intros _. eexists. reflexivity.
Qed.

(** C9 (as amended).  The colour probe and the static renderer skip a
    flat polygon of more than MAX_POINTS_PER_POLY points whatever its
    facing.  For the others both apply the same test to the same two
    vectors: when its value is not positive both leave state and world as
    they were; when it is positive the colour probe records the colour, and
    the static renderer draws the polygon, unless, in the Descent II build,
    the glow table holds -3 at the glow cursor: then it draws nothing. *)
Theorem flatpoly_facing_decision :
  (forall p nv cst dst s,
     MAX_POINTS_PER_POLY < nv ->
     (color_op_flatpoly p nv cst s = (Val cst, s)
      /\ draw_op_flatpoly p nv dst s = (Val dst, s)))
  /\ (forall p nv cst dst s v norm,
        nv <= MAX_POINTS_PER_POLY ->
        vp (p + 4) s = (Val v, s) ->
        vp (p + 16) s = (Val norm, s) ->
        (g3_check_normal_facing (view s) v norm <= 0 ->
         (color_op_flatpoly p nv cst s = (Val cst, s)
          /\ draw_op_flatpoly p nv dst s = (Val dst, s)))
        /\ (0 < g3_check_normal_facing (view s) v norm ->
            forall c, w (p + 28) s = (Val c, s) ->
            color_op_flatpoly p nv cst s
            = (Val {| color := match build with
                               | DXX_BUILD_DESCENT_I => c
                               | DXX_BUILD_DESCENT_II => gr_find_closest_color_15bpp c
                               end |}, s)
            /\ (build = DXX_BUILD_DESCENT_II ->
                glow_value_is dst (-3) s = (Val true, s) ->
                draw_op_flatpoly p nv dst s = (Val dst, s))
            /\ ((build = DXX_BUILD_DESCENT_I
                 \/ glow_value_is dst (-3) s = (Val false, s)) ->
                forall pts, prepare_point_list nv p s = (Val pts, s) ->
                exists col,
                  draw_op_flatpoly p nv dst s
                  = (Val dst, set_canvas (g3_draw_poly nv pts col :: canvas s) s)))).
Proof.
  split.
  - intros p nv cst dst s Hmax.
    unfold color_op_flatpoly, draw_op_flatpoly.
    destruct (Z.gtb_spec nv MAX_POINTS_PER_POLY); [split; reflexivity|lia].
  - intros p nv cst dst s v norm Hmax Hv Hn.
    assert (Hgt : (nv >? MAX_POINTS_PER_POLY) = false)
      by (destruct (Z.gtb_spec nv MAX_POINTS_PER_POLY); [lia|reflexivity]).
    split.
    + intros Hdot.
      assert (Hf : (g3_check_normal_facing (view s) v norm >? 0) = false)
        by (destruct (Z.gtb_spec (g3_check_normal_facing (view s) v norm) 0);
            [lia|reflexivity]).
      unfold color_op_flatpoly, draw_op_flatpoly. rewrite Hgt.
      rewrite !(bind_val _ _ _ _ _ Hv), !(bind_val _ _ _ _ _ Hn).
      unfold bind at 1 3, gets. rewrite Hf. split; reflexivity.
    + intros Hdot c Hc.
      assert (Hf : (g3_check_normal_facing (view s) v norm >? 0) = true)
        by (destruct (Z.gtb_spec (g3_check_normal_facing (view s) v norm) 0);
            [reflexivity|lia]).
      split; [|split].
      * unfold color_op_flatpoly. rewrite Hgt.
        rewrite (bind_val _ _ _ _ _ Hv), (bind_val _ _ _ _ _ Hn).
        unfold bind at 1, gets. rewrite Hf.
        rewrite (bind_val _ _ _ _ _ Hc). reflexivity.
      * intros Hb Hhid. unfold draw_op_flatpoly. rewrite Hgt.
        rewrite (bind_val _ _ _ _ _ Hv), (bind_val _ _ _ _ _ Hn).
        unfold bind at 1, gets. rewrite Hf. rewrite Hb.
        rewrite (bind_val _ _ _ _ _ Hhid). reflexivity.
      * intros Hvis pts Hpts. unfold draw_op_flatpoly. rewrite Hgt.
        rewrite (bind_val _ _ _ _ _ Hv), (bind_val _ _ _ _ _ Hn).
        unfold bind at 1, gets. rewrite Hf.
        destruct build eqn:Eb.
        -- exists (c mod 256).
           unfold bind at 1. cbn [ret].
           rewrite (bind_val _ _ _ _ _ (bind_val _ _ _ _ _ Hc)). cbn [ret].
           rewrite (bind_val _ _ _ _ _ Hpts). reflexivity.
        -- destruct Hvis as [Hvis|Hvis]; [discriminate|].
           rewrite (bind_val _ _ _ _ _ Hvis). cbv beta iota.
           destruct (glow_value_is_total dst (-3) (-2) s false Hvis) as (wh & Hwh).
           exists (if wh then 255 else gr_find_closest_color_15bpp c mod 256).
           unfold bind. rewrite Hwh. cbv beta iota.
           destruct wh; cbn [ret].
           ++ rewrite Hpts. reflexivity.
           ++ rewrite Hc. cbn [ret]. rewrite Hpts. reflexivity.
Qed.

End Facing.

(** C9, the claim as worded fails: this triangle faces the viewer (the
    test gives 1), the colour probe records its colour 7, and the static
    renderer, given a glow table that holds -3 for surface 0, draws
    nothing. *)
Lemma facing_polygon_probed_but_not_drawn :
  @vp d2_config (4 + 4) hidden_flat_world
  = (Val {| vx := 0; vy := 0; vz := 1 |}, hidden_flat_world)
  /\ @vp d2_config (4 + 16) hidden_flat_world
     = (Val {| vx := 0; vy := 0; vz := 1 |}, hidden_flat_world)
  /\ @g3_check_normal_facing d2_config (view hidden_flat_world)
       {| vx := 0; vy := 0; vz := 1 |} {| vx := 0; vy := 0; vz := 1 |} = 1
  /\ @g3_poly_get_color d2_config 4 0 hidden_flat_world = (Val 7, hidden_flat_world)
  /\ @g3_draw_polygon_model d2_config sample_args 4 (Some [-3]) 0 hidden_flat_world
     = (Val tt, hidden_flat_world)
  /\ canvas hidden_flat_world = [].
Proof. repeat split; vm_compute; reflexivity. Qed.

Lemma flatpoly_facing_decision_witness :
  3 <= @MAX_POINTS_PER_POLY d2_config
  /\ @vp d2_config (0 + 4) back3_world
     = (Val {| vx := 0; vy := 0; vz := 1 |}, back3_world)
  /\ @vp d2_config (0 + 16) back3_world
     = (Val {| vx := 0; vy := 0; vz := -1 |}, back3_world)
  /\ @g3_check_normal_facing d2_config (view back3_world)
       {| vx := 0; vy := 0; vz := 1 |} {| vx := 0; vy := 0; vz := -1 |} <= 0
  /\ @color_op_flatpoly d2_config 0 3 {| color := 0 |} back3_world
     = (Val {| color := 0 |}, back3_world)
  /\ @draw_op_flatpoly d2_config 0 3 {| glow_values := None; glow_num := 0 |}
       back3_world
     = (Val {| glow_values := None; glow_num := 0 |}, back3_world).
Proof.
  assert (H1 : 3 <= @MAX_POINTS_PER_POLY d2_config) by (vm_compute; discriminate).
  assert (H2 : @vp d2_config (0 + 4) back3_world
               = (Val {| vx := 0; vy := 0; vz := 1 |}, back3_world))
    by (vm_compute; reflexivity).
  assert (H3 : @vp d2_config (0 + 16) back3_world
               = (Val {| vx := 0; vy := 0; vz := -1 |}, back3_world))
    by (vm_compute; reflexivity).
  assert (H4 : @g3_check_normal_facing d2_config (view back3_world)
                 {| vx := 0; vy := 0; vz := 1 |} {| vx := 0; vy := 0; vz := -1 |} <= 0)
    by (vm_compute; discriminate).
  split; [exact H1|split; [exact H2|split; [exact H3|split; [exact H4|]]]].
  exact (proj1 (proj2 (@flatpoly_facing_decision d2_config) 0 3
           {| color := 0 |} {| glow_values := None; glow_num := 0 |}
           back3_world _ _ H1 H2 H3) H4).
Defined.

(** ** The glow table *)

Section GlowSafety.
Context {C : Config}.

Lemma safe_ret {A} (a : A) : glow_table_safe (ret a).
Proof. intros s. discriminate. Qed.

Lemma safe_fail {A} e : e <> Fault OutOfGlowTable -> glow_table_safe (@fail C A e).
Proof. intros H s. cbn. congruence. Qed.

Lemma safe_bind {A B} (m : M A) (f : A -> M B) :
  glow_table_safe m -> (forall a, glow_table_safe (f a)) ->
  glow_table_safe (bind m f).
Proof.
  intros Hm Hf s. unfold bind. specialize (Hm s).
  destruct (m s) as [[a|e] s1]; [apply Hf|].
  cbn in *. intros E. apply Hm. congruence.
Qed.

Lemma safe_gets {A} (f : world -> A) : glow_table_safe (gets f).
Proof. intros s. discriminate. Qed.

Lemma safe_modify f : glow_table_safe (modify f).
Proof. intros s. discriminate. Qed.

Lemma safe_lift {A} f (o : option A) :
  f <> OutOfGlowTable -> glow_table_safe (lift f o).
Proof.
  intros H. destruct o; [apply safe_ret|apply safe_fail; congruence].
Qed.

Lemma safe_lift_some {A} f (o : option A) a :
  o = Some a -> glow_table_safe (lift f o).
Proof. intros ->. apply safe_ret. Qed.

End GlowSafety.

Ltac safe_step :=
  first
    [ apply safe_ret
    | apply safe_gets
    | apply safe_modify
    | apply safe_lift; discriminate
    | apply safe_fail; discriminate
    | apply safe_bind; [|intros ?] ].

Section GlowHandlers.
Context {C : Config}.

Lemma safe_w p : glow_table_safe (w p).
Proof. unfold w. repeat safe_step. Qed.

Lemma safe_fp p : glow_table_safe (fp p).
Proof. unfold fp. repeat safe_step. Qed.

Lemma safe_vp p : glow_table_safe (vp p).
Proof. unfold vp. repeat (safe_step || apply safe_fp). Qed.

Lemma safe_uvlp p : glow_table_safe (uvlp p).
Proof. unfold uvlp. repeat (safe_step || apply safe_fp). Qed.

Lemma safe_draw c : glow_table_safe (draw c).
Proof. unfold draw. repeat safe_step. Qed.

Lemma safe_prepare_point_list_from n : forall p i,
  glow_table_safe (prepare_point_list_from n p i).
Proof.
  induction n as [|n IH]; intros p i; cbn [prepare_point_list_from].
  - apply safe_ret.
  - repeat (safe_step || apply safe_w || apply IH).
Qed.

Lemma safe_uvl_list_from n : forall p nv i f,
  glow_table_safe (uvl_list_from n p nv i f).
Proof.
  induction n as [|n IH]; intros p nv i f; cbn [uvl_list_from].
  - apply safe_ret.
  - repeat (safe_step || apply safe_uvlp || apply IH).
Qed.

Lemma safe_rotate_point_list n : forall dest src k,
  (forall j, glow_table_safe (src j)) ->
  glow_table_safe (rotate_point_list n dest src k).
Proof.
  induction n as [|n IH]; intros dest src k Hsrc; cbn [rotate_point_list].
  - apply safe_ret.
  - repeat (safe_step || apply Hsrc || (apply IH; exact Hsrc)).
Qed.

Lemma safe_get_noglow_light args p : glow_table_safe (get_noglow_light args p).
Proof. unfold get_noglow_light. repeat (safe_step || apply safe_vp). Qed.

Lemma safe_get_sortnorm_offsets p : glow_table_safe (get_sortnorm_offsets p).
Proof.
  unfold get_sortnorm_offsets. repeat (safe_step || apply safe_vp || apply safe_w).
Qed.

Lemma at_index_some {A} (l : list A) i :
  0 <= i < Z.of_nat (length l) -> exists a, at_index l i = Some a.
Proof.
  intros H. unfold at_index.
  destruct (Z.ltb_spec i 0); [lia|].
  destruct (nth_error l (Z.to_nat i)) as [a|] eqn:E.
  - now exists a.
  - apply nth_error_None in E. lia.
Qed.

Lemma safe_glow_value_is st v :
  glow_num_unsigned st -> glow_table_safe (glow_value_is st v).
Proof.
  intros Hu. unfold glow_value_is.
  destruct (glow_values st) as [gv|]; [|apply safe_ret].
  destruct (Z.ltb_spec (glow_num st) (Z.of_nat (length gv))); [|apply safe_ret].
  destruct (at_index_some gv (glow_num st)) as (g & Hg);
    [unfold glow_num_unsigned in Hu; lia|].
  apply safe_bind; [exact (safe_lift_some _ _ g Hg)|intros ?; apply safe_ret].
Qed.

Lemma safe_draw_op_flatpoly p nv st :
  glow_num_unsigned st -> glow_table_safe (draw_op_flatpoly p nv st).
Proof.
  intros Hu. unfold draw_op_flatpoly.
  destruct (nv >? MAX_POINTS_PER_POLY); [apply safe_ret|].
  apply safe_bind; [apply safe_vp|intros v].
  apply safe_bind; [apply safe_vp|intros norm].
  apply safe_bind; [apply safe_gets|intros vw].
  destruct (g3_check_normal_facing vw v norm >? 0); [|apply safe_ret].
  apply safe_bind.
  { destruct build; [apply safe_ret|now apply safe_glow_value_is]. }
  intros [|]; [apply safe_ret|].
  apply safe_bind.
  { destruct build.
    - repeat (safe_step || apply safe_w).
    - apply safe_bind; [now apply safe_glow_value_is|].
      intros [|]; repeat (safe_step || apply safe_w). }
  intros col. unfold prepare_point_list.
  repeat (safe_step || apply safe_prepare_point_list_from || apply safe_draw).
Qed.

Lemma safe_draw_op_tmappoly args p nv st :
  glow_num_unsigned st -> glow_table_safe (draw_op_tmappoly args p nv st).
Proof.
  intros Hu. unfold draw_op_tmappoly.
  destruct (nv >? MAX_POINTS_PER_POLY); [apply safe_ret|].
  apply safe_bind; [apply safe_vp|intros v].
  apply safe_bind; [apply safe_vp|intros norm].
  apply safe_bind; [apply safe_gets|intros vw].
  destruct (negb (g3_check_normal_facing vw v norm >? 0)); [apply safe_ret|].
  apply safe_bind.
  { destruct (glow_values st) as [gv|].
    - destruct (Z.ltb_spec (glow_num st) (Z.of_nat (length gv))).
      + destruct (at_index_some gv (glow_num st)) as (g & Hg);
          [unfold glow_num_unsigned in Hu; lia|].
        apply safe_bind; [exact (safe_lift_some _ _ g Hg)|intros ?; apply safe_ret].
      + repeat (safe_step || apply safe_get_noglow_light).
    - repeat (safe_step || apply safe_get_noglow_light). }
  intros [light st']. unfold prepare_point_list.
  repeat (safe_step || apply safe_uvl_list_from || apply safe_w
          || apply safe_prepare_point_list_from || apply safe_draw).
Qed.

End GlowHandlers.

Section GlowTraversal.
Context {C : Config}.

Lemma safe_bind_val {A B} (m : M A) (f : A -> M B) :
  glow_table_safe m ->
  (forall s a s1, m s = (Val a, s1) -> fst (f a s1) <> Err (Fault OutOfGlowTable)) ->
  glow_table_safe (bind m f).
Proof.
  intros Hm Hf s. unfold bind. specialize (Hm s). specialize (Hf s).
  destruct (m s) as [[a|e] s1]; [now apply (Hf a s1)|].
  cbn in *. intros E. apply Hm. congruence.
Qed.

Lemma handler_safe_then {S} (I : S -> Prop) (m : M unit) (st : S) :
  I st -> glow_table_safe m -> handler_safe I (m ;;; ret st).
Proof.
  intros Hi Hm. split.
  - apply safe_bind; [exact Hm|intros ?; apply safe_ret].
  - intros s st' s' H. bind_inv H. exact Hi.
Qed.

Lemma dispatch_safe {S} (I : S -> Prop) (ops : State_ops S) p st op :
  ops_safe I ops -> I st ->
  glow_table_safe (dispatch_polymodel_op ops p st op)
  /\ (forall s sz st' s',
        dispatch_polymodel_op ops p st op s = (Val (sz, st'), s') -> I st').
Proof.
  intros (Ht & Hc & H1 & H2 & H3 & H4 & H5 & H6 & H7 & H8) Hi.
  unfold dispatch_polymodel_op.
  repeat match goal with
  | |- context [if ?a =? ?b then _ else _] => destruct (a =? b)
  end.
  all: split;
    [ repeat first
        [ apply safe_ret
        | apply safe_bind; [|intros ?]
        | apply Hc
        | apply (proj1 (H1 _ _ _ Hi)) | apply (proj1 (H2 _ _ _ Hi))
        | apply (proj1 (H3 _ _ _ Hi)) | apply (proj1 (H4 _ _ _ Hi))
        | apply (proj1 (H5 _ _ Hi)) | apply (proj1 (H6 _ _ Hi))
        | apply (proj1 (H7 _ _ Hi)) | apply (proj1 (H8 _ _ Hi))
        | unfold op_default; apply safe_fail; discriminate ]
    | intros s sz st' s' H; bind_inv H;
      try (unfold op_default, fail in *; discriminate);
      first [ eapply (proj2 (H1 _ _ _ Hi)); eassumption
            | eapply (proj2 (H2 _ _ _ Hi)); eassumption
            | eapply (proj2 (H3 _ _ _ Hi)); eassumption
            | eapply (proj2 (H4 _ _ _ Hi)); eassumption
            | eapply (proj2 (H5 _ _ Hi)); eassumption
            | eapply (proj2 (H6 _ _ Hi)); eassumption
            | eapply (proj2 (H7 _ _ Hi)); eassumption
            | eapply (proj2 (H8 _ _ Hi)); eassumption ] ].
Qed.

Lemma iterate_safe {S} (I : S -> Prop) (ops : State_ops S) :
  ops_safe I ops ->
  forall fuel p st, I st -> glow_table_safe (iterate_polymodel fuel ops p st).
Proof.
  intros Hops. induction fuel as [|fuel IH]; intros p st Hi.
  - cbn. apply safe_fail. discriminate.
  - cbn [iterate_polymodel]. apply safe_bind_val.
    + unfold iterate_step, get_raw_opcode.
      apply safe_bind; [repeat (safe_step || apply safe_w)|intros op].
      destruct (op =? OP_EOF); [apply safe_ret|].
      apply safe_bind; [apply (proj1 Hops)|intros op'].
      apply safe_bind; [apply (dispatch_safe I ops p st op' Hops Hi)|].
      intros [sz st']. apply safe_ret.
    + intros s r s1 Hstep. destruct r as [[p1 st1]|]; [|discriminate].
      apply IH. unfold iterate_step in Hstep.
      apply bind_val_inv in Hstep. destruct Hstep as (op & s2 & _ & Hstep).
      destruct (op =? OP_EOF); [bind_inv Hstep; discriminate|].
      apply bind_val_inv in Hstep. destruct Hstep as (op' & s3 & _ & Hstep).
      apply bind_val_inv in Hstep. destruct Hstep as ([sz st'] & s4 & Hd & Hstep).
      apply ret_val_inv in Hstep. destruct Hstep as [E _].
      injection E as _ <-.
      exact (proj2 (dispatch_safe I ops p st op' Hops Hi) _ _ _ _ Hd).
Qed.

Lemma to_uint32_nonneg z : 0 <= to_uint32 z.
Proof. unfold to_uint32. apply Z.mod_pos_bound. lia. Qed.

Lemma draw_op_flatpoly_state p nv st s st' s' :
  draw_op_flatpoly p nv st s = (Val st', s') -> st' = st.
Proof.
  unfold draw_op_flatpoly. intros H.
  destruct (nv >? MAX_POINTS_PER_POLY); [now bind_inv H|].
  apply bind_val_inv in H. destruct H as (v & s1 & _ & H).
  apply bind_val_inv in H. destruct H as (norm & s2 & _ & H).
  apply bind_val_inv in H. destruct H as (vw & s3 & _ & H).
  destruct (g3_check_normal_facing vw v norm >? 0); [|now bind_inv H].
  apply bind_val_inv in H. destruct H as (hid & s4 & _ & H).
  destruct hid; [now bind_inv H|].
  now bind_inv H.
Qed.

Lemma draw_op_tmappoly_state args p nv st s st' s' :
  glow_num_unsigned st ->
  draw_op_tmappoly args p nv st s = (Val st', s') -> glow_num_unsigned st'.
Proof.
  unfold draw_op_tmappoly. intros Hu H.
  destruct (nv >? MAX_POINTS_PER_POLY); [now bind_inv H|].
  apply bind_val_inv in H. destruct H as (v & s1 & _ & H).
  apply bind_val_inv in H. destruct H as (norm & s2 & _ & H).
  apply bind_val_inv in H. destruct H as (vw & s3 & _ & H).
  destruct (negb (g3_check_normal_facing vw v norm >? 0)); [now bind_inv H|].
  apply bind_val_inv in H. destruct H as ([light st1] & s4 & Hl & H).
  assert (H1 : glow_num_unsigned st1).
  { destruct (glow_values st) as [gv|].
    - destruct (glow_num st <? Z.of_nat (length gv)).
      + bind_inv Hl. apply to_uint32_nonneg.
      + now bind_inv Hl.
    - now bind_inv Hl. }
  now bind_inv H.
Qed.

Lemma safe_base_op_subcall args rec p gv :
  (forall g q, glow_table_safe (rec g q)) ->
  glow_table_safe (base_op_subcall args rec p gv).
Proof.
  intros Hrec. unfold base_op_subcall.
  apply safe_bind; [apply safe_vp|intros v].
  apply safe_bind.
  { destruct (anim_angles args).
    - apply safe_bind; [apply safe_w|intros i]. apply safe_lift. discriminate.
    - apply safe_ret. }
  intros ang.
  apply safe_bind; [apply safe_modify|intros _].
  apply safe_bind; [apply safe_w|intros off].
  apply safe_bind; [apply Hrec|intros _]. apply safe_modify.
Qed.

Lemma g3_draw_polygon_model_ops_safe args rec :
  (forall g q, glow_table_safe (rec g q)) ->
  ops_safe glow_num_unsigned (g3_draw_polygon_model_ops args rec).
Proof.
  intros Hrec. unfold ops_safe. cbn [g3_draw_polygon_model_ops translate_opcode
    get_op_subcount op_defpoints op_defp_start op_flatpoly op_tmappoly
    op_sortnorm op_rodbm op_subcall op_glow].
  split; [intros p op; apply safe_ret|].
  split; [intros p; unfold base_get_op_subcount;
          apply safe_bind; [apply safe_w|intros ?; apply safe_ret]|].
  split.
  { intros p n st H. apply handler_safe_then; [exact H|].
    apply safe_rotate_point_list. intros j. apply safe_vp. }
  split.
  { intros p n st H. apply handler_safe_then; [exact H|].
    unfold base_op_defp_start.
    apply safe_bind; [apply safe_w|intros i].
    apply safe_rotate_point_list. intros j. apply safe_vp. }
  split.
  { intros p n st H. split; [now apply safe_draw_op_flatpoly|].
    intros s st' s' Hh. apply draw_op_flatpoly_state in Hh. now subst. }
  split.
  { intros p n st H. split; [now apply safe_draw_op_tmappoly|].
    intros s st' s' Hh. now apply draw_op_tmappoly_state in Hh. }
  split.
  { intros p st H. split.
    - unfold draw_op_sortnorm.
      apply safe_bind; [apply safe_get_sortnorm_offsets|intros [a b]].
      apply safe_bind; [apply Hrec|intros _].
      apply safe_bind; [apply Hrec|intros _]. apply safe_ret.
    - intros s st' s' Hh. unfold draw_op_sortnorm in Hh.
      apply bind_val_inv in Hh. destruct Hh as ([a b] & s1 & _ & Hh).
      now bind_inv Hh. }
  split.
  { intros p st H. apply handler_safe_then; [exact H|].
    unfold base_op_rodbm.
    repeat (safe_step || apply safe_vp || apply safe_w || apply safe_draw). }
  split.
  { intros p st H. apply handler_safe_then; [exact H|].
    now apply safe_base_op_subcall. }
  intros p st H. split.
  - unfold draw_op_glow. apply safe_bind; [apply safe_w|intros ?; apply safe_ret].
  - intros s st' s' Hh. unfold draw_op_glow in Hh. bind_inv Hh.
    apply to_uint32_nonneg.
Qed.

Lemma g3_draw_polygon_model_safe args fuel :
  forall gv p, glow_table_safe (g3_draw_polygon_model args fuel gv p).
Proof.
  induction fuel as [|fuel IH]; intros gv p.
  - cbn. apply safe_fail. discriminate.
  - cbn [g3_draw_polygon_model].
    apply safe_bind; [|intros ?; apply safe_ret].
    apply (iterate_safe glow_num_unsigned).
    + now apply g3_draw_polygon_model_ops_safe.
    + apply to_uint32_nonneg.
Qed.

End GlowTraversal.

Section GlowBeyondTable.
Context {C : Config}.

(** C7.  The static renderer never indexes the glow table outside of it,
    in no traversal.  And when a glow record has set the glow cursor to an
    index that is not below the length of the table, a textured polygon that
    is drawn next is lit by [get_noglow_light], the light of its surface
    normal: that light on the colour channels of every point, the average
    of its three channels, added in 32 bits, as the light of every texture
    coordinate; and the cursor stays as it is. *)
Theorem glow_index_beyond_table :
  (forall args fuel gv p, glow_table_safe (g3_draw_polygon_model args fuel gv p))
  /\ (forall args q p nv st s idx gv v norm light uvls pts bm,
        glow_values st = Some gv ->
        w (q + 2) s = (Val idx, s) ->
        Z.of_nat (length gv) <= to_uint32 idx ->
        nv <= MAX_POINTS_PER_POLY ->
        vp (p + 4) s = (Val v, s) ->
        vp (p + 16) s = (Val norm, s) ->
        0 < g3_check_normal_facing (view s) v norm ->
        get_noglow_light args p s = (Val light, s) ->
        uvl_list_from (Z.to_nat nv) p nv 0
          (fun u => {| uvl_u := uvl_u u; uvl_v := uvl_v u;
                       uvl_l := Z.quot (fix_add (fix_add (lr light) (lg light))
                                          (lb light)) 3 |}) s
        = (Val uvls, s) ->
        prepare_point_list nv p s = (Val pts, s) ->
        w (p + 28) s = (Val bm, s) ->
        exists st1,
          draw_op_glow q st s = (Val st1, s)
          /\ glow_num st1 = to_uint32 idx
          /\ draw_op_tmappoly args p nv st1 s
             = (Val st1,
                set_canvas
                  (g3_draw_tmap nv pts uvls (repeat light (Z.to_nat nv)) bm
                   :: canvas s) s)).
Proof.
  split; [intros args fuel gv p; apply g3_draw_polygon_model_safe|].
  intros args q p nv st s idx gv v norm light uvls pts bm
    Hgv Hidx Hbig Hnv Hv Hn Hdot Hlight Huvl Hpts Hbm.
  exists {| glow_values := glow_values st; glow_num := to_uint32 idx |}.
  split; [|split; [reflexivity|]].
  - unfold draw_op_glow. rewrite (bind_val _ _ _ _ _ Hidx). reflexivity.
  - unfold draw_op_tmappoly. cbn [glow_values glow_num].
    destruct (Z.gtb_spec nv MAX_POINTS_PER_POLY); [lia|].
    rewrite (bind_val _ _ _ _ _ Hv), (bind_val _ _ _ _ _ Hn).
    unfold bind at 1, gets.
    destruct (Z.gtb_spec (g3_check_normal_facing (view s) v norm) 0); [|lia].
    cbn [negb]. rewrite Hgv.
    destruct (Z.ltb_spec (to_uint32 idx) (Z.of_nat (length gv))); [lia|].
    unfold bind. rewrite Hlight. cbn [ret]. rewrite Huvl, Hpts, Hbm.
    reflexivity.
Qed.

End GlowBeyondTable.

(** The light of the surface normal is computed in 32 bits: for the steep
    normal above [negdot] is 1310720000, [negdot * 3] wraps to -362807296,
    and the colour is [16384 + (-362807296) / 4]. *)
Lemma noglow_light_wraps :
  fst (@get_noglow_light d2_config sample_args 0 steep_normal_world)
  = Val {| lr := -90685440; lg := -90685440; lb := -90685440 |}.
Proof. vm_compute. reflexivity. Qed.

Lemma glow_index_beyond_table_witness :
  exists st1,
    @draw_op_glow d2_config 0
      {| glow_values := Some [100; 200]; glow_num := 4294967295 |} glow_tmap_world
    = (Val st1, glow_tmap_world)
    /\ glow_num st1 = to_uint32 5
    /\ @draw_op_tmappoly d2_config sample_args 4 3 st1 glow_tmap_world
       = (Val st1,
          set_canvas
            (@g3_draw_tmap d2_config 3
               [{| vx := 0; vy := 0; vz := 0 |}; {| vx := 1; vy := 0; vz := 0 |};
                {| vx := 2; vy := 0; vz := 0 |}]
               [{| uvl_u := 1; uvl_v := 2; uvl_l := 65536 |};
                {| uvl_u := 4; uvl_v := 5; uvl_l := 65536 |};
                {| uvl_u := 7; uvl_v := 8; uvl_l := 65536 |}]
               (repeat white_light 3) 2
             :: canvas glow_tmap_world) glow_tmap_world).
Proof.
  refine (proj2 (@glow_index_beyond_table d2_config) sample_args 0 4 3
            {| glow_values := Some [100; 200]; glow_num := 4294967295 |}
            glow_tmap_world 5 [100; 200]
            {| vx := 0; vy := 0; vz := 1 |} {| vx := 0; vy := 0; vz := 1 |}
            white_light _ _ 2 _ _ _ _ _ _ _ _ _ _ _);
    try (vm_compute; reflexivity); vm_compute; discriminate.
Defined.

(** ** Sub-model offsets that leave the buffer *)

Section WildOffsets.
Context {C : Config}.

Lemma at_index_outside {A} (l : list A) a :
  a < 0 \/ Z.of_nat (length l) <= a -> at_index l a = None.
Proof.
  intros H. unfold at_index. destruct (Z.ltb_spec a 0); [reflexivity|].
  apply nth_error_None. lia.
Qed.

Lemma load16_outside m a : outside m a -> load16 m a = None.
Proof.
  intros H. unfold load16. now rewrite (at_index_outside m a H).
Qed.

Lemma get_raw_opcode_outside a s :
  outside (mem s) a -> get_raw_opcode a s = (Err (Fault OutOfBuffer), s).
Proof.
  intros H. unfold get_raw_opcode, w, bind, gets, lift.
  now rewrite (load16_outside _ _ H).
Qed.

Lemma iterate_polymodel_outside {S} (ops : State_ops S) fuel a st s :
  outside (mem s) a ->
  iterate_polymodel (Datatypes.S fuel) ops a st s = (Err (Fault OutOfBuffer), s).
Proof.
  intros H. cbn [iterate_polymodel]. unfold iterate_step.
  erewrite bind_err; [reflexivity|].
  erewrite bind_err; [reflexivity|]. now apply get_raw_opcode_outside.
Qed.

Lemma g3_draw_polygon_model_outside args fuel gv a s :
  outside (mem s) a ->
  g3_draw_polygon_model args (2 + fuel) gv a s = (Err (Fault OutOfBuffer), s).
Proof.
  intros H. cbn [g3_draw_polygon_model Nat.add].
  erewrite bind_err; [reflexivity|]. now apply iterate_polymodel_outside.
Qed.

Lemma assert_bump_nest_count s :
  NDEBUG = true \/ nest_count s + 1 < 1000 ->
  Assert bump_nest_count s
  = (Val tt, if NDEBUG then s else set_nest_count (nest_count s + 1) s).
Proof.
  intros H. unfold Assert. destruct NDEBUG; [reflexivity|].
  destruct H as [H|H]; [discriminate|].
  unfold bind, bump_nest_count, gets, modify, ret. cbn.
  apply Z.ltb_lt in H. now rewrite H.
Qed.

Lemma init_model_sub_outside fuel a h s :
  outside (mem s) a ->
  NDEBUG = true \/ nest_count s + 1 < 1000 ->
  exists s', init_model_sub (2 + fuel) a h s = (Err (Fault OutOfBuffer), s')
             /\ mem s' = mem s.
Proof.
  intros H Hn. cbn [init_model_sub Nat.add].
  rewrite (bind_val _ _ _ _ _ (assert_bump_nest_count s Hn)).
  eexists. split.
  - erewrite bind_err; [reflexivity|]. apply iterate_polymodel_outside.
    destruct NDEBUG; exact H.
  - destruct NDEBUG; reflexivity.
Qed.

(** C5 (as amended).  No handler of SubmodelCall checks the offset.  When
    it leads outside the buffer, the nested traversal is entered at that
    position and its first read of a tag misses the buffer: the load-time
    scan and the renderers end in that fault, not in the exception
    "invalid polygon model". *)
Theorem subcall_offset_unchecked :
  forall p off s,
    w (p + 16) s = (Val off, s) ->
    outside (mem s) (p + off) ->
    (forall fuel st,
       NDEBUG = true \/ nest_count s + 1 < 1000 ->
       fst (init_op_subcall (init_model_sub (2 + fuel)) p st s)
       = Err (Fault OutOfBuffer))
    /\ (forall fuel args gv v,
          vp (p + 4) s = (Val v, s) ->
          anim_angles args = None ->
          fst (base_op_subcall args (g3_draw_polygon_model args (2 + fuel)) p gv s)
          = Err (Fault OutOfBuffer)).
Proof.
  intros p off s Hoff Hout. split.
  - intros fuel st Hn. unfold init_op_subcall.
    rewrite (bind_val _ _ _ _ _ Hoff).
    destruct (init_model_sub_outside fuel (p + off) (highest_texture_num st) s
                Hout Hn) as (s' & Hs & _).
    now rewrite (bind_err _ _ _ _ _ Hs).
  - intros fuel args gv v Hv Hang. unfold base_op_subcall.
    rewrite (bind_val _ _ _ _ _ Hv). rewrite Hang.
    assert (Hoff' : forall s', mem s' = mem s -> w (p + 16) s' = (Val off, s')).
    { intros s' Hm. apply w_val_inv in Hoff. destruct Hoff as [_ Hoff].
      apply w_short_at. now rewrite Hm. }
    unfold bind at 1. cbn [ret].
    unfold bind at 1, modify.
    erewrite bind_val; [|apply Hoff'; reflexivity].
    erewrite bind_err; [reflexivity|].
    apply g3_draw_polygon_model_outside. exact Hout.
Qed.

End WildOffsets.

(** C5, the claim as worded fails: the offset 1000 of this record leads
    out of a buffer of 22 bytes, and the scan and the renderer end in a read
    outside the buffer, not in the exception. *)
Lemma wild_subcall_reads_outside :
  @w d2_config (0 + 16) wild_subcall_world = (Val 1000, wild_subcall_world)
  /\ outside (mem wild_subcall_world) (0 + 1000)
  /\ fst (@g3_init_polygon_model d2_config 5 0 wild_subcall_world)
     = Err (Fault OutOfBuffer)
  /\ fst (@g3_draw_polygon_model d2_config sample_args 5 None 0 wild_subcall_world)
     = Err (Fault OutOfBuffer)
  /\ Err (Fault OutOfBuffer) <> @Err unit Throw.
Proof.
  split; [vm_compute; reflexivity|].
  split; [right; vm_compute; discriminate|].
  split; [vm_compute; reflexivity|].
  split; [vm_compute; reflexivity|discriminate].
Qed.

Lemma subcall_offset_unchecked_witness :
  @w d2_config (0 + 16) wild_subcall_world = (Val 1000, wild_subcall_world)
  /\ outside (mem wild_subcall_world) (0 + 1000)
  /\ fst (@init_op_subcall d2_config (@init_model_sub d2_config (2 + 0)) 0
            {| highest_texture_num := -1 |} wild_subcall_world)
     = Err (Fault OutOfBuffer).
Proof.
  assert (H1 : @w d2_config (0 + 16) wild_subcall_world
               = (Val 1000, wild_subcall_world)) by (vm_compute; reflexivity).
  assert (H2 : outside (mem wild_subcall_world) (0 + 1000))
    by (right; vm_compute; discriminate).
  split; [exact H1|split; [exact H2|]].
  exact (proj1 (@subcall_offset_unchecked d2_config 0 1000 wild_subcall_world H1 H2)
           0%nat {| highest_texture_num := -1 |} (or_introl eq_refl)).
Defined.

(** ** The byte-order pass *)

Section SwapFacts.
Context {C : Config}.

Lemma SWAPSHORT_involutive x : SWAPSHORT (SWAPSHORT x) = to_uint16 x.
Proof.
  unfold SWAPSHORT, to_uint16.
  pose proof (Z.mod_pos_bound x 65536 ltac:(lia)) as Hb.
  set (u := x mod 65536) in *.
  pose proof (Z.div_mod u 256 ltac:(lia)) as Hd.
  pose proof (Z.mod_pos_bound u 256 ltac:(lia)) as Hm.
  assert (Hq : 0 <= u / 256 < 256)
    by (split; [apply Z.div_pos; lia|apply Z.div_lt_upper_bound; lia]).
  set (lo := u mod 256) in *. set (hi := u / 256) in *.
  rewrite (Z.mod_small (lo * 256 + hi)) by lia.
  replace ((lo * 256 + hi) mod 256) with hi
    by (rewrite Z.add_comm, Z.mod_add by lia; now rewrite Z.mod_small by lia).
  replace ((lo * 256 + hi) / 256) with lo
    by (rewrite Z.add_comm, Z.div_add by lia; rewrite Z.div_small by lia; lia).
  lia.
Qed.

Lemma SWAPSHORT_opcode op : 1 <= op <= 8 -> SWAPSHORT op = op * 256.
Proof.
  intros H. unfold SWAPSHORT, to_uint16.
  rewrite (Z.mod_small op 65536) by lia.
  rewrite (Z.mod_small op 256) by lia.
  rewrite Z.div_small by lia. lia.
Qed.

Lemma put_index_at_index {A} (l : list A) i a b :
  at_index l i = Some a ->
  exists l', put_index l i b = Some l' /\ length l' = length l.
Proof.
  unfold at_index, put_index. destruct (Z.ltb_spec i 0); [discriminate|].
  intros Hn.
  assert (Hlt : (Z.to_nat i < length l)%nat)
    by (apply nth_error_Some; congruence).
  destruct (Z.leb_spec 0 i); [|lia].
  destruct (Z.ltb_spec i (Z.of_nat (length l))); [|lia].
  eexists. split; [reflexivity|].
  rewrite length_app. cbn [length]. rewrite length_firstn, length_skipn. lia.
Qed.

Lemma at_index_length {A} (l l' : list A) i a :
  length l' = length l -> at_index l i = Some a ->
  exists a', at_index l' i = Some a'.
Proof.
  unfold at_index. destruct (Z.ltb_spec i 0); [discriminate|].
  intros Hl Hn.
  assert (Hlt : (Z.to_nat i < length l')%nat)
    by (rewrite Hl; apply nth_error_Some; congruence).
  destruct (nth_error l' (Z.to_nat i)) as [a'|] eqn:E; [now exists a'|].
  apply nth_error_None in E. lia.
Qed.

Lemma store16_load16 m a v x :
  load16 m a = Some x -> exists m', store16 m a v = Some m'.
Proof.
  unfold load16, store16.
  destruct (at_index m a) as [b0|] eqn:E0; [|discriminate].
  destruct (at_index m (a + 1)) as [b1|] eqn:E1; [|discriminate].
  intros _. destruct (split16 v) as [c0 c1].
  destruct (put_index_at_index m a b0 c0 E0) as (m1 & -> & Hl).
  destruct (at_index_length m m1 (a + 1) b1 Hl E1) as (b1' & E1').
  destruct (put_index_at_index m1 (a + 1) b1' c1 E1') as (m2 & -> & _).
  now exists m2.
Qed.

Lemma iterate_polymodel_unknown {S} (ops : State_ops S) fuel p st s op op' s1 :
  get_raw_opcode p s = (Val op, s) ->
  op <> OP_EOF ->
  translate_opcode ops p op s = (Val op', s1) ->
  ~ (1 <= op' <= 8) ->
  iterate_polymodel (Datatypes.S fuel) ops p st s = (Err Throw, s1).
Proof.
  intros Hraw Hne Htr Hun.
  cbn [iterate_polymodel]. unfold iterate_step.
  erewrite bind_err; [reflexivity|].
  rewrite (bind_val _ _ _ _ _ Hraw).
  destruct (Z.eqb_spec op OP_EOF) as [E|_]; [contradiction|].
  rewrite (bind_val _ _ _ _ _ Htr).
  erewrite bind_err; [reflexivity|]. now apply dispatch_unknown.
Qed.

(** C6 (as amended).  The pass is not its own inverse.  On a big-endian
    host, a buffer whose first tag is the end tag is returned as it is.  A
    buffer whose first tag reads, in host order, as one of the opcodes 1..8,
    as it does after a first pass, has that tag byte-swapped in place and
    the pass ends there with "invalid polygon model": no other byte is
    written.  On 16-bit values SWAPSHORT is an involution. *)
Theorem swap_second_pass :
  (forall x, SWAPSHORT (SWAPSHORT x) = to_uint16 x)
  /\ (forall fuel data s op,
        DXX_WORDS_BIGENDIAN = true ->
        get_raw_opcode data s = (Val op, s) ->
        (op = OP_EOF -> swap_polygon_model_data (2 + fuel) data s = (Val tt, s))
        /\ (1 <= op <= 8 ->
            exists m',
              store16 (mem s) data (SWAPSHORT op) = Some m'
              /\ swap_polygon_model_data (2 + fuel) data s
                 = (Err Throw, set_mem m' s))).
Proof.
  split; [exact SWAPSHORT_involutive|].
  intros fuel data s op Hbe Hraw. split.
  - intros ->. cbn [swap_polygon_model_data Nat.add].
    rewrite (bind_val _ _ _ _ _ (iterate_polymodel_eof _ fuel data tt s Hraw)).
    reflexivity.
  - intros Hop.
    pose proof (get_raw_opcode_inv _ _ _ _ Hraw) as [_ Htag].
    unfold tag_at in Htag.
    destruct (load16 (mem s) data) as [x|] eqn:El; [|discriminate].
    destruct (store16_load16 (mem s) data (SWAPSHORT op) x El) as (m' & Hst).
    exists m'. split; [exact Hst|].
    cbn [swap_polygon_model_data Nat.add].
    erewrite bind_err; [reflexivity|].
    apply (iterate_polymodel_unknown _ fuel data tt s op (op * 256)).
    + exact Hraw.
    + unfold OP_EOF. lia.
    + cbn [swap_polygon_model_data_ops translate_opcode].
      unfold swap_translate_opcode, INTEL_SHORT. rewrite Hbe.
      unfold set_wp. unfold bind, gets, lift. rewrite Hst. cbn [ret modify].
      rewrite (SWAPSHORT_opcode op Hop).
      unfold to_uint_fast32, to_uint32, to_int16.
      rewrite (Z.mod_small (op * 256) 65536) by lia.
      destruct (Z.ltb_spec (op * 256) 32768); [|lia].
      rewrite Z.mod_small by lia. reflexivity.
    + lia.
Qed.

End SwapFacts.

(** C6, the claim as worded fails: the first pass over this buffer
    returns, the second ends with the exception, and the bytes it leaves
    are not those of the original. *)
Lemma swap_twice_does_not_restore :
  let first := @swap_polygon_model_data be_config 4 0 glow_only_world in
  let second := @swap_polygon_model_data be_config 4 0 (snd first) in
  mem glow_only_world = [8; 0; 5; 0; 0; 0]
  /\ fst first = Val tt
  /\ mem (snd first) = [0; 8; 0; 5; 0; 0]
  /\ fst second = Err Throw
  /\ mem (snd second) = [8; 0; 0; 5; 0; 0]
  /\ mem (snd second) <> mem glow_only_world.
Proof.
  cbv zeta.
  repeat split; try (vm_compute; reflexivity).
  vm_compute. discriminate.
Qed.

Lemma swap_second_pass_witness :
  @DXX_WORDS_BIGENDIAN be_config = true
  /\ @get_raw_opcode be_config 0
       (snd (@swap_polygon_model_data be_config 4 0 glow_only_world))
     = (Val 8, snd (@swap_polygon_model_data be_config 4 0 glow_only_world))
  /\ exists m',
       @store16 be_config
         (mem (snd (@swap_polygon_model_data be_config 4 0 glow_only_world)))
         0 (SWAPSHORT 8) = Some m'
       /\ @swap_polygon_model_data be_config (2 + 0) 0
            (snd (@swap_polygon_model_data be_config 4 0 glow_only_world))
          = (Err Throw,
             @set_mem be_config m'
               (snd (@swap_polygon_model_data be_config 4 0 glow_only_world))).
Proof.
  assert (H1 : @DXX_WORDS_BIGENDIAN be_config = true) by reflexivity.
  assert (H2 : @get_raw_opcode be_config 0
                 (snd (@swap_polygon_model_data be_config 4 0 glow_only_world))
               = (Val 8, snd (@swap_polygon_model_data be_config 4 0 glow_only_world)))
    by (vm_compute; reflexivity).
  split; [exact H1|split; [exact H2|]].
  exact (proj2 (proj2 (@swap_second_pass be_config) 0%nat 0 _ 8 H1 H2)
           ltac:(lia)).
Defined.

(** ** The load-time scan *)

Section ChangedOnly.
Context {C : Config}.

Lemma put_index_length {A} (l l' : list A) i a :
  put_index l i a = Some l' -> length l' = length l.
Proof.
  unfold put_index.
  destruct (Z.leb_spec 0 i) as [G0|G0]; [|discriminate].
  destruct (Z.ltb_spec i (Z.of_nat (length l))) as [G1|G1]; [|discriminate].
  cbn [andb]. intros E.
  assert (E' : firstn (Z.to_nat i) l ++ a :: skipn (Datatypes.S (Z.to_nat i)) l = l')
    by congruence.
  subst l'. rewrite length_app. cbn [length]. rewrite length_firstn, length_skipn. lia.
Qed.

Lemma at_index_put_index_other {A} (l l' : list A) i a j :
  put_index l i a = Some l' -> j <> i -> at_index l' j = at_index l j.
Proof.
  unfold put_index, at_index.
  destruct (Z.leb_spec 0 i) as [G0|G0]; [|discriminate].
  destruct (Z.ltb_spec i (Z.of_nat (length l))) as [G1|G1]; [|discriminate].
  cbn [andb]. intros E Hne.
  assert (E' : firstn (Z.to_nat i) l ++ a :: skipn (Datatypes.S (Z.to_nat i)) l = l')
    by congruence.
  subst l'.
  destruct (Z.ltb_spec j 0) as [G2|G2]; [reflexivity|].
  assert (Hn : Z.to_nat j <> Z.to_nat i) by lia.
  assert (Hi : (Z.to_nat i < length l)%nat) by lia.
  destruct (Nat.lt_ge_cases (Z.to_nat j) (Z.to_nat i)) as [Hlt|Hge].
  - rewrite nth_error_app1 by (rewrite length_firstn; lia).
    rewrite nth_error_firstn.
    destruct (Nat.ltb_spec (Z.to_nat j) (Z.to_nat i)); [reflexivity|lia].
  - rewrite nth_error_app2 by (rewrite length_firstn; lia).
    rewrite length_firstn.
    replace (Nat.min (Z.to_nat i) (length l)) with (Z.to_nat i) by lia.
    destruct (Z.to_nat j - Z.to_nat i)%nat as [|k] eqn:Ek; [lia|].
    cbn [nth_error]. rewrite nth_error_skipn. f_equal. lia.
Qed.

Lemma changed_only_refl W m : changed_only W m m.
Proof. split; [reflexivity|intros; reflexivity]. Qed.

Lemma changed_only_trans W1 W2 m1 m2 m3 :
  changed_only W1 m1 m2 -> changed_only W2 m2 m3 ->
  changed_only (W1 ++ W2) m1 m3.
Proof.
  intros [L1 H1] [L2 H2]. split; [congruence|].
  intros a Ha. rewrite in_app_iff in Ha.
  rewrite H2 by tauto. apply H1. tauto.
Qed.

Lemma changed_only_weaken W W' m m' :
  (forall a, In a W -> In a W') -> changed_only W m m' -> changed_only W' m m'.
Proof.
  intros Hi [L H]. split; [exact L|]. intros a Ha. apply H. auto.
Qed.

Lemma store16_changed_only m a v m' :
  store16 m a v = Some m' -> changed_only [a; a + 1] m m'.
Proof.
  unfold store16. destruct (split16 v) as [b0 b1].
  destruct (put_index m a b0) as [m1|] eqn:E1; [|discriminate].
  intros E2. split.
  - rewrite (put_index_length _ _ _ _ E2). exact (put_index_length _ _ _ _ E1).
  - intros j Hj. cbn [In] in Hj.
    rewrite (at_index_put_index_other _ _ _ _ j E2)
      by (intros ->; apply Hj; auto).
    apply (at_index_put_index_other _ _ _ _ j E1). intros ->. apply Hj. auto.
Qed.

Lemma load16_agree m m' a :
  at_index m' a = at_index m a -> at_index m' (a + 1) = at_index m (a + 1) ->
  load16 m' a = load16 m a.
Proof. intros H0 H1. unfold load16. now rewrite H0, H1. Qed.

Lemma tag_at_agree m m' a :
  at_index m' a = at_index m a -> at_index m' (a + 1) = at_index m (a + 1) ->
  tag_at m' a = tag_at m a.
Proof. intros H0 H1. unfold tag_at. now rewrite (load16_agree m m' a H0 H1). Qed.

Lemma short_at_agree m m' a :
  at_index m' a = at_index m a -> at_index m' (a + 1) = at_index m (a + 1) ->
  short_at m' a = short_at m a.
Proof. intros H0 H1. unfold short_at. now rewrite (load16_agree m m' a H0 H1). Qed.

(** A decoding depends on the bytes at [scan_reads] only. *)
Lemma decodes_frame m p t :
  decodes m p t ->
  forall m', (forall a, In a (scan_reads t p) -> at_index m' a = at_index m a) ->
  decodes m' p t.
Proof.
  induction 1; intros m' Hag; cbn [scan_reads] in Hag.
  all: repeat match goal with
       | IH : forall m', _ -> decodes m' ?q ?r |- _ =>
           let Hd := fresh "Hd" in
           assert (Hd : decodes m' q r)
             by (apply IH; intros a Ha; apply Hag;
                 rewrite ?in_app_iff; cbn [In]; rewrite ?in_app_iff; tauto);
           clear IH
       end.
  all: econstructor; try eassumption.
  all: match goal with
       | H : tag_at ?m0 ?q = Some ?v |- tag_at ?m1 ?q = Some ?v =>
           rewrite (tag_at_agree m0 m1 q); [exact H| |]
       | H : short_at ?m0 ?q = Some ?v |- short_at ?m1 ?q = Some ?v =>
           rewrite (short_at_agree m0 m1 q); [exact H| |]
       end.
  all: apply Hag; try (rewrite in_app_iff; left); cbn [In]; lia.
Qed.

End ChangedOnly.

Ltac dispatch_unfold :=
  unfold dispatch_polymodel_op;
  cbv [OP_EOF OP_DEFPOINTS OP_FLATPOLY OP_TMAPPOLY OP_SORTNORM
       OP_RODBM OP_SUBCALL OP_DEFP_START OP_GLOW Z.eqb Pos.eqb];
  cbv beta iota;
  cbn [init_model_sub_ops translate_opcode get_op_subcount op_defpoints
       op_defp_start op_flatpoly op_tmappoly op_sortnorm op_rodbm op_subcall
       op_glow].

Section InitScanFacts.
Context {C : Config}.

Lemma nested_calls_nonneg t : 0 <= nested_calls t.
Proof. induction t; cbn [nested_calls]; lia. Qed.

Lemma assert_ret b s :
  NDEBUG = true \/ b = true -> Assert (ret b) s = (Val tt, s).
Proof.
  intros H. unfold Assert. destruct NDEBUG; [reflexivity|].
  destruct H as [H|H]; [discriminate|]. subst b. reflexivity.
Qed.

Lemma nest_after_0 n : nest_after n 0 = n.
Proof. unfold nest_after. destruct NDEBUG; lia. Qed.

Lemma nest_after_add n a b : nest_after (nest_after n a) b = nest_after n (a + b).
Proof. unfold nest_after. destruct NDEBUG; lia. Qed.

(** One turn of the loop of a state class that takes the opcode as read. *)
Lemma iterate_polymodel_record {S} (ops : State_ops S) fuel p st s op sz st' s' :
  translate_opcode ops = base_translate_opcode ->
  get_raw_opcode p s = (Val op, s) ->
  op <> OP_EOF ->
  dispatch_polymodel_op ops p st op s = (Val (sz, st'), s') ->
  iterate_polymodel (Datatypes.S fuel) ops p st s
  = iterate_polymodel fuel ops (p + sz) st' s'.
Proof.
  intros Ht Hraw Hne Hd. apply iterate_polymodel_turn.
  unfold iterate_step. rewrite (bind_val _ _ _ _ _ Hraw).
  destruct (Z.eqb_spec op OP_EOF) as [E|_]; [contradiction|].
  rewrite Ht. unfold base_translate_opcode at 1.
  unfold bind at 1. cbn [ret].
  rewrite (bind_val _ _ _ _ _ Hd). reflexivity.
Qed.

Lemma call_scans_of_loop t : loop_scans t -> call_scans t.
Proof.
  intros Hl p fuel h s Hdec Hsep Ha Hf.
  destruct fuel as [|fuel]; [lia|].
  cbn [init_model_sub].
  assert (Hb : NDEBUG = true \/ nest_count s + 1 < 1000).
  { destruct Ha as [Ha|[_ Ha]]; [now left|right].
    pose proof (nested_calls_nonneg t). lia. }
  rewrite (bind_val _ _ _ _ _ (assert_bump_nest_count s Hb)).
  set (s1 := if NDEBUG then s else set_nest_count (nest_count s + 1) s).
  assert (Hm1 : mem s1 = mem s) by (subst s1; destruct NDEBUG; reflexivity).
  assert (Hn1 : nest_count s1 = nest_after (nest_count s) 1)
    by (subst s1; unfold nest_after; destruct NDEBUG; reflexivity).
  destruct (Hl p fuel fuel h s1) as (pend & s' & Hit & Hm' & Hn'); try lia.
  { rewrite Hm1. exact Hdec. }
  { exact Hsep. }
  { destruct Ha as [Ha|[Hp Ha]]; [now left|right]. split; [exact Hp|].
    rewrite Hn1. unfold nest_after. destruct NDEBUG; lia. }
  exists s'. split; [|split].
  - rewrite (bind_val _ _ _ _ _ Hit). reflexivity.
  - rewrite <- Hm1. exact Hm'.
  - rewrite Hn', Hn1. apply nest_after_add.
Qed.

(** The dispatcher on the records the scan ignores. *)
Lemma init_dispatch_ignored rec p st s o n :
  o = DefinePoints \/ o = DefinePointsWithStart \/ o = RodBitmap \/ o = Glow ->
  (if counted o then base_get_op_subcount p s = (Val n, s) else n = 0) ->
  dispatch_polymodel_op (init_model_sub_ops rec) p st (opcode_tag o) s
  = (Val (layout_length o n, st), s).
Proof.
  intros Ho Hn.
  destruct Ho as [-> | [-> | [-> | ->]]]; cbn [counted opcode_tag] in *;
    dispatch_unfold;
    try rewrite (bind_val _ _ _ _ _ Hn);
    unfold ignore_op2, ignore_op1, bind, ret, layout_length, sizeof_vms_vector;
    match goal with
    | |- (Val (?a, _), _) = (Val (?b, _), _) => replace a with b by lia
    end; reflexivity.
Qed.

Lemma tag_at_bounds m p v :
  tag_at m p = Some v -> 0 <= p /\ p + 1 < Z.of_nat (length m) /\ 0 <= v < 65536.
Proof.
  unfold tag_at, load16, at_index.
  destruct (Z.ltb_spec p 0); [discriminate|].
  destruct (nth_error m (Z.to_nat p)) eqn:E0; [|discriminate].
  destruct (Z.ltb_spec (p + 1) 0); [discriminate|].
  destruct (nth_error m (Z.to_nat (p + 1))) eqn:E1; [|discriminate].
  cbn [option_map]. intros E. injection E as <-.
  assert (Z.to_nat (p + 1) < length m)%nat by (apply nth_error_Some; congruence).
  repeat split; try lia; rewrite to_uint16_to_int16;
    apply Z.mod_pos_bound; lia.
Qed.

Lemma decodes_tag m p t : decodes m p t -> exists v, tag_at m p = Some v.
Proof. destruct 1; eauto. Qed.

Lemma at_index_in_bounds {A} (l : list A) a :
  0 <= a < Z.of_nat (length l) -> exists x, at_index l a = Some x.
Proof. apply at_index_some. Qed.

Lemma round_up_odd_pos n : 0 <= n -> 1 <= round_up_odd n.
Proof.
  unfold round_up_odd. intros H. destruct (Z.odd n) eqn:E; [|lia].
  destruct (Z.eq_dec n 0) as [->|]; [discriminate E|lia].
Qed.

(** The colour field of a flat polygon that is followed by a record lies
    in the buffer. *)
Lemma flatpoly_colour_readable m p nv rest :
  tag_at m p = Some OP_FLATPOLY -> tag_at m (p + 2) = Some nv ->
  decodes m (p + layout_length FlatPolygon nv) rest ->
  exists x, load16 m (p + 28) = Some x.
Proof.
  intros Ht Hn Hr.
  destruct (tag_at_bounds _ _ _ Ht) as (Hp & _ & _).
  destruct (tag_at_bounds _ _ _ Hn) as (_ & _ & Hnv).
  destruct (decodes_tag _ _ _ Hr) as (v & Hv).
  destruct (tag_at_bounds _ _ _ Hv) as (_ & Hl & _).
  pose proof (round_up_odd_pos nv ltac:(lia)) as Hr1.
  unfold layout_length in Hl.
  destruct (at_index_in_bounds m (p + 28)) as (b0 & E0); [lia|].
  destruct (at_index_in_bounds m (p + 28 + 1)) as (b1 & E1); [lia|].
  unfold load16. rewrite E0, E1. eauto.
Qed.

Lemma init_dispatch_flatpoly rec p st s nv rest :
  tag_at (mem s) p = Some OP_FLATPOLY ->
  tag_at (mem s) (p + 2) = Some nv ->
  decodes (mem s) (p + layout_length FlatPolygon nv) rest ->
  NDEBUG = true \/ 2 < nv ->
  exists s',
    dispatch_polymodel_op (init_model_sub_ops rec) p st OP_FLATPOLY s
    = (Val (layout_length FlatPolygon nv, st), s')
    /\ changed_only
         (match build with
          | DXX_BUILD_DESCENT_I => [p + 28; p + 29]
          | DXX_BUILD_DESCENT_II => []
          end) (mem s) (mem s')
    /\ nest_count s' = nest_count s.
Proof.
  intros Ht Hn Hr Ha.
  pose proof (base_get_op_subcount_tag_at p s nv Hn) as Hc.
  assert (Has : Assert (ret (nv >? 2)) s = (Val tt, s)).
  { apply assert_ret. destruct Ha as [Ha|Ha]; [now left|right].
    destruct (Z.gtb_spec nv 2); [reflexivity|lia]. }
  dispatch_unfold. rewrite (bind_val _ _ _ _ _ Hc).
  unfold init_op_flatpoly. unfold layout_length. rewrite <- land_lnot_1.
  destruct build.
  - destruct (flatpoly_colour_readable _ _ _ _ Ht Hn Hr) as (x & Hx).
    destruct (store16_load16 (mem s) (p + 28)
                (to_int16 (gr_find_closest_color_15bpp (to_int16 x))) x Hx)
      as (m' & Hst).
    exists (set_mem m' s). split; [|split; [|reflexivity]].
    + unfold bind at 1. unfold bind at 1. rewrite Has.
      unfold bind at 1. unfold w, set_wp, bind, gets, lift. rewrite Hx.
      cbn [option_map ret]. rewrite Hst. reflexivity.
    + cbn [set_mem mem]. replace (p + 29) with (p + 28 + 1) by lia.
      eapply store16_changed_only. exact Hst.
  - exists s. split; [|split; [apply changed_only_refl|reflexivity]].
    unfold bind at 1. unfold bind at 1. rewrite Has. reflexivity.
Qed.

Lemma init_dispatch_tmappoly rec p h s nv tex :
  tag_at (mem s) (p + 2) = Some nv ->
  short_at (mem s) (p + 28) = Some tex ->
  NDEBUG = true \/ 2 < nv ->
  dispatch_polymodel_op (init_model_sub_ops rec) p
    {| highest_texture_num := h |} OP_TMAPPOLY s
  = (Val (layout_length TexturedPolygon nv,
          {| highest_texture_num := Z.max h tex |}), s).
Proof.
  intros Hn Htex Ha.
  pose proof (base_get_op_subcount_tag_at p s nv Hn) as Hc.
  pose proof (w_short_at _ _ _ Htex) as Hw.
  assert (Has : Assert (ret (nv >? 2)) s = (Val tt, s)).
  { apply assert_ret. destruct Ha as [Ha|Ha]; [now left|right].
    destruct (Z.gtb_spec nv 2); [reflexivity|lia]. }
  dispatch_unfold. rewrite (bind_val _ _ _ _ _ Hc).
  unfold init_op_tmappoly. unfold layout_length. rewrite <- land_lnot_1.
  unfold bind at 1. unfold bind at 1. rewrite Has.
  unfold bind at 1. rewrite Hw. cbn [highest_texture_num].
  destruct (Z.gtb_spec tex h).
  - unfold bind at 1. rewrite Hw. unfold ret.
    replace (Z.max h tex) with tex by lia. reflexivity.
  - unfold ret. replace (Z.max h tex) with h by lia. reflexivity.
Qed.

End InitScanFacts.

Ltac in_solve :=
  cbn [scan_writes scan_reads]; intros;
  repeat rewrite in_app_iff in *; cbn [In] in *; tauto.

Section InitScanInduction.
Context {C : Config}.

Lemma nest_after_bounds n k : 0 <= k -> n <= nest_after n k <= n + k.
Proof. unfold nest_after. destruct NDEBUG; lia. Qed.

Lemma changed_agree W m m' (R : list Z) :
  changed_only W m m' ->
  (forall a, In a W -> ~ In a R) ->
  forall a, In a R -> at_index m' a = at_index m a.
Proof.
  intros [_ H] Hd a Ha. apply H. intros Hw. exact (Hd a Hw Ha).
Qed.

Lemma decodes_later t p t' p' m m' W :
  decodes m p' t' ->
  changed_only W m m' ->
  scan_separate t p ->
  (forall a, In a W -> In a (scan_writes t p)) ->
  (forall a, In a (scan_reads t' p') -> In a (scan_reads t p)) ->
  decodes m' p' t'.
Proof.
  intros Hd Hc Hsep Hw Hr.
  apply (decodes_frame m p' t' Hd).
  apply (changed_agree W m m' _ Hc).
  intros a Ha Hin. exact (Hsep a (Hw a Ha) (Hr a Hin)).
Qed.

Lemma short_at_later t p q m m' W v :
  short_at m q = Some v ->
  changed_only W m m' ->
  scan_separate t p ->
  (forall a, In a W -> In a (scan_writes t p)) ->
  In q (scan_reads t p) -> In (q + 1) (scan_reads t p) ->
  short_at m' q = Some v.
Proof.
  intros Hs Hc Hsep Hw H0 H1.
  rewrite (short_at_agree m m' q); [exact Hs| |];
    apply (proj2 Hc); intros Ha; exact (Hsep _ (Hw _ Ha) ltac:(assumption)).
Qed.

Lemma scan_separate_sub t p t' p' :
  scan_separate t p ->
  (forall a, In a (scan_writes t' p') -> In a (scan_writes t p)) ->
  (forall a, In a (scan_reads t' p') -> In a (scan_reads t p)) ->
  scan_separate t' p'.
Proof. intros Hsep Hw Hr a Ha Hin. exact (Hsep a (Hw a Ha) (Hr a Hin)). Qed.

Lemma scan_step rec p l h s op sz h1 s1 W1 W2 hr n2 :
  get_raw_opcode p s = (Val op, s) ->
  op <> OP_EOF ->
  dispatch_polymodel_op (init_model_sub_ops rec) p
    {| highest_texture_num := h |} op s
  = (Val (sz, {| highest_texture_num := h1 |}), s1) ->
  changed_only W1 (mem s) (mem s1) ->
  (exists pend s',
     iterate_polymodel l (init_model_sub_ops rec) (p + sz)
       {| highest_texture_num := h1 |} s1
     = (Val (pend, {| highest_texture_num := hr |}), s')
     /\ changed_only W2 (mem s1) (mem s')
     /\ nest_count s' = n2) ->
  exists pend s',
    iterate_polymodel (Datatypes.S l) (init_model_sub_ops rec) p
      {| highest_texture_num := h |} s
    = (Val (pend, {| highest_texture_num := hr |}), s')
    /\ changed_only (W1 ++ W2) (mem s) (mem s')
    /\ nest_count s' = n2.
Proof.
  intros Hraw Hne Hd Hc (pend & s' & Hit & Hc' & Hn).
  exists pend, s'. split; [|split; [|exact Hn]].
  - rewrite (iterate_polymodel_record (init_model_sub_ops rec) l p _ s op sz _ s1
               (eq_refl : translate_opcode (init_model_sub_ops rec)
                          = base_translate_opcode) Hraw Hne Hd).
    exact Hit.
  - exact (changed_only_trans _ _ _ _ _ Hc Hc').
Qed.

Lemma scan_result_app a b h :
  fold_left Z.max (a ++ b) h = fold_left Z.max b (fold_left Z.max a h).
Proof. apply fold_left_app. Qed.

End InitScanInduction.

Ltac ignored_counted IH Hsep Ha o l rec_fuel h s p n rest :=
  lazymatch goal with
  | Ht : tag_at _ p = Some _, Hn : tag_at _ (p + 2) = Some _,
    Hrest : decodes _ (p + _) rest |- _ =>
      let Hraw := fresh "Hraw" in
      let Hd := fresh "Hd" in
      pose proof (get_raw_opcode_tag_at _ _ _ Ht) as Hraw;
      pose proof (init_dispatch_ignored (init_model_sub rec_fuel) p
                    {| highest_texture_num := h |} s o n
                    ltac:(tauto)
                    (base_get_op_subcount_tag_at _ _ _ Hn)) as Hd;
      let pend := fresh "pend" in
      let s' := fresh "s'" in
      let Hit := fresh "Hit" in
      let Hch := fresh "Hch" in
      let Hn' := fresh "Hn'" in
      destruct (IH _ l rec_fuel h s Hrest) as (pend & s' & Hit & Hch & Hn');
        [ apply (scan_separate_sub _ _ _ _ Hsep); in_solve
        | destruct Ha as [Ha|[? Ha]]; [now left|right; split; assumption]
        | lia | lia | ];
      exact (scan_step _ p l h s _ _ _ s [] _ _ _ Hraw ltac:(discriminate) Hd
               (changed_only_refl _ _)
               (ex_intro _ pend (ex_intro _ s' (conj Hit (conj Hch Hn')))))
  end.

Ltac ignored_plain IH Hsep Ha o l rec_fuel h s p rest :=
  lazymatch goal with
  | Ht : tag_at _ p = Some _, Hrest : decodes _ (p + _) rest |- _ =>
      let Hraw := fresh "Hraw" in
      let Hd := fresh "Hd" in
      pose proof (get_raw_opcode_tag_at _ _ _ Ht) as Hraw;
      pose proof (init_dispatch_ignored (init_model_sub rec_fuel) p
                    {| highest_texture_num := h |} s o 0
                    ltac:(tauto) eq_refl) as Hd;
      let pend := fresh "pend" in
      let s' := fresh "s'" in
      let Hit := fresh "Hit" in
      let Hch := fresh "Hch" in
      let Hn' := fresh "Hn'" in
      destruct (IH _ l rec_fuel h s Hrest) as (pend & s' & Hit & Hch & Hn');
        [ apply (scan_separate_sub _ _ _ _ Hsep); in_solve
        | destruct Ha as [Ha|[? Ha]]; [now left|right; split; assumption]
        | lia | lia | ];
      exact (scan_step _ p l h s _ _ _ s [] _ _ _ Hraw ltac:(discriminate) Hd
               (changed_only_refl _ _)
               (ex_intro _ pend (ex_intro _ s' (conj Hit (conj Hch Hn')))))
  end.


Section InitScanMain.
Context {C : Config}.

Lemma loop_scans_all t : loop_scans t.
Proof.
  induction t as
    [ | n rest IH | n rest IH | nv rest IH | nv tex rest IH
    | fo bo front IHf back IHb rest IH | rest IH | off sub IHs rest IH | rest IH ];
    intros p loop_fuel rec_fuel h s Hdec Hsep Ha Hl Hr;
    inversion Hdec; subst; cbn [model_size] in Hl, Hr;
    (destruct loop_fuel as [|l]; [lia|]).
  - (* the end tag *)
    exists p, s. split; [|split].
    + apply iterate_polymodel_eof. now apply get_raw_opcode_tag_at.
    + apply changed_only_refl.
    + cbn [nested_calls]. now rewrite nest_after_0.
  - (* DefinePoints *)
    ignored_counted IH Hsep Ha DefinePoints l rec_fuel h s p n rest.
  - (* DefinePointsWithStart *)
    ignored_counted IH Hsep Ha DefinePointsWithStart l rec_fuel h s p n rest.
  - (* FlatPolygon *)
    lazymatch goal with
    | Ht : tag_at _ p = Some _, Hn : tag_at _ (p + 2) = Some _,
      Hrest : decodes _ (p + _) rest |- _ =>
        pose proof (get_raw_opcode_tag_at _ _ _ Ht) as Hraw;
        destruct (init_dispatch_flatpoly (init_model_sub rec_fuel) p
                    {| highest_texture_num := h |} s nv rest Ht Hn Hrest)
          as (s1 & Hd & Hc1 & Hn1);
          [ destruct Ha as [Ha|[[? ?] Ha]]; [now left|now right] | ];
        assert (Hrest1 : decodes (mem s1) (p + layout_length FlatPolygon nv) rest)
          by (apply (decodes_later (Flat_polygon nv rest) p _ _ _ _ _
                       Hrest Hc1 Hsep); in_solve)
    end.
    destruct (IH _ l rec_fuel h s1 Hrest1) as (pend & s' & Hit & Hch & Hn');
      [ apply (scan_separate_sub _ _ _ _ Hsep); in_solve
      | rewrite Hn1; destruct Ha as [Ha|[[? ?] Ha]];
          [now left|right; split; assumption]
      | lia | lia | ].
    rewrite Hn1 in Hn'.
    exact (scan_step _ p l h s _ _ _ s1 _ _ _ _ Hraw ltac:(discriminate) Hd Hc1
             (ex_intro _ pend (ex_intro _ s' (conj Hit (conj Hch Hn'))))).
  - (* TexturedPolygon *)
    lazymatch goal with
    | Ht : tag_at _ p = Some _, Hn : tag_at _ (p + 2) = Some _,
      Htex : short_at _ (p + 28) = Some _,
      Hrest : decodes _ (p + _) rest |- _ =>
        pose proof (get_raw_opcode_tag_at _ _ _ Ht) as Hraw;
        assert (Hd := init_dispatch_tmappoly (init_model_sub rec_fuel) p h s nv tex
                        Hn Htex
                        ltac:(destruct Ha as [Ha|[[? ?] Ha]]; [now left|now right]));
        destruct (IH _ l rec_fuel (Z.max h tex) s Hrest)
          as (pend & s' & Hit & Hch & Hn');
          [ apply (scan_separate_sub _ _ _ _ Hsep); in_solve
          | destruct Ha as [Ha|[[? ?] Ha]]; [now left|right; split; assumption]
          | lia | lia | ]
    end.
    exact (scan_step _ p l h s _ _ _ s [] _ _ _ Hraw ltac:(discriminate) Hd
             (changed_only_refl _ _)
             (ex_intro _ pend (ex_intro _ s' (conj Hit (conj Hch Hn'))))).
  - (* SortByNormal *)
    pose proof (nested_calls_nonneg front) as Nf.
    pose proof (nested_calls_nonneg back) as Nb.
    pose proof (nested_calls_nonneg rest) as Nr.
    unfold asserts_hold in Ha. cbn [nested_calls polygons_ok] in Ha.
    lazymatch goal with
    | Ht : tag_at _ p = Some _,
      Hfo : short_at _ (p + 28) = Some fo, Hbo : short_at _ (p + 30) = Some bo,
      Hf : decodes _ _ front, Hb : decodes _ _ back, Hrest : decodes _ _ rest |- _ =>
        pose proof (get_raw_opcode_tag_at _ _ _ Ht) as Hraw;
        destruct (call_scans_of_loop front IHf (p + fo) rec_fuel h s Hf)
          as (s1 & Hc1 & Hch1 & Hn1);
          [ apply (scan_separate_sub _ _ _ _ Hsep); in_solve
          | destruct Ha as [Ha|[(? & ? & ?) Ha]];
              [now left|right; split; [assumption|lia]]
          | lia | ];
        assert (Hbo1 : short_at (mem s1) (p + 30) = Some bo)
          by (apply (short_at_later (Sort_by_normal fo bo front back rest) p
                       _ _ _ _ _ Hbo Hch1 Hsep);
              [ in_solve
              | cbn [scan_reads]; rewrite in_app_iff; left; cbn [In]; lia
              | cbn [scan_reads]; rewrite in_app_iff; left; cbn [In]; lia ]);
        assert (Hb1 : decodes (mem s1) (p + bo) back)
          by (apply (decodes_later (Sort_by_normal fo bo front back rest) p
                       _ _ _ _ _ Hb Hch1 Hsep); in_solve);
        destruct (call_scans_of_loop back IHb (p + bo) rec_fuel
                    (scan_result front h) s1 Hb1)
          as (s2 & Hc2 & Hch2 & Hn2);
          [ apply (scan_separate_sub _ _ _ _ Hsep); in_solve
          | rewrite Hn1;
            pose proof (nest_after_bounds (nest_count s) (1 + nested_calls front)
                          ltac:(lia));
            destruct Ha as [Ha|[(? & ? & ?) Ha]];
              [now left|right; split; [assumption|lia]]
          | lia | ];
        pose proof (changed_only_trans _ _ _ _ _ Hch1 Hch2) as Hch12;
        assert (Hrest2 : decodes (mem s2) (p + layout_length SortByNormal 0) rest)
          by (apply (decodes_later (Sort_by_normal fo bo front back rest) p
                       _ _ _ _ _ Hrest Hch12 Hsep); in_solve);
        assert (Hd : dispatch_polymodel_op
                       (init_model_sub_ops (init_model_sub rec_fuel)) p
                       {| highest_texture_num := h |} OP_SORTNORM s
                     = (Val (layout_length SortByNormal 0,
                             {| highest_texture_num :=
                                  scan_result back (scan_result front h) |}), s2))
          by (dispatch_unfold;
              erewrite bind_val; [reflexivity|];
              unfold init_op_sortnorm;
              rewrite (bind_val _ _ _ _ _ (w_short_at _ _ _ Hfo));
              cbn [highest_texture_num];
              rewrite (bind_val _ _ _ _ _ Hc1);
              rewrite (bind_val _ _ _ _ _ (w_short_at _ _ _ Hbo1));
              rewrite (bind_val _ _ _ _ _ Hc2); reflexivity)
    end.
    destruct (IH _ l rec_fuel (scan_result back (scan_result front h)) s2 Hrest2)
      as (pend & s' & Hit & Hch & Hn');
      [ apply (scan_separate_sub _ _ _ _ Hsep); in_solve
      | rewrite Hn2, Hn1, nest_after_add;
        pose proof (nest_after_bounds (nest_count s)
                      (1 + nested_calls front + (1 + nested_calls back))
                      ltac:(lia));
        destruct Ha as [Ha|[(? & ? & ?) Ha]];
          [now left|right; split; [assumption|lia]]
      | lia | lia | ].
    destruct (scan_step _ p l h s _ _ _ s2 _ _ _ _ Hraw ltac:(discriminate) Hd
                Hch12 (ex_intro _ pend (ex_intro _ s' (conj Hit (conj Hch Hn')))))
      as (pend' & s'' & Hit' & Hch' & Hn'').
    exists pend', s''. split; [|split].
    + unfold scan_result at 1. cbn [texture_indices].
      rewrite !fold_left_app. exact Hit'.
    + eapply changed_only_weaken; [|exact Hch']. in_solve.
    + rewrite Hn'', Hn2, Hn1, !nest_after_add. f_equal.
      cbn [nested_calls]. lia.
  - (* RodBitmap *)
    ignored_plain IH Hsep Ha RodBitmap l rec_fuel h s p rest.
  - (* SubmodelCall *)
    pose proof (nested_calls_nonneg sub) as Ns.
    pose proof (nested_calls_nonneg rest) as Nr.
    unfold asserts_hold in Ha. cbn [nested_calls polygons_ok] in Ha.
    lazymatch goal with
    | Ht : tag_at _ p = Some _, Hoff : short_at _ (p + 16) = Some off,
      Hs : decodes _ _ sub, Hrest : decodes _ _ rest |- _ =>
        pose proof (get_raw_opcode_tag_at _ _ _ Ht) as Hraw;
        destruct (call_scans_of_loop sub IHs (p + off) rec_fuel h s Hs)
          as (s1 & Hc1 & Hch1 & Hn1);
          [ apply (scan_separate_sub _ _ _ _ Hsep); in_solve
          | destruct Ha as [Ha|[(? & ?) Ha]];
              [now left|right; split; [assumption|lia]]
          | lia | ];
        assert (Hrest1 : decodes (mem s1) (p + layout_length SubmodelCall 0) rest)
          by (apply (decodes_later (Submodel_call off sub rest) p
                       _ _ _ _ _ Hrest Hch1 Hsep); in_solve);
        assert (Hd : dispatch_polymodel_op
                       (init_model_sub_ops (init_model_sub rec_fuel)) p
                       {| highest_texture_num := h |} OP_SUBCALL s
                     = (Val (layout_length SubmodelCall 0,
                             {| highest_texture_num := scan_result sub h |}), s1))
          by (dispatch_unfold;
              erewrite bind_val; [reflexivity|];
              unfold init_op_subcall;
              rewrite (bind_val _ _ _ _ _ (w_short_at _ _ _ Hoff));
              cbn [highest_texture_num];
              rewrite (bind_val _ _ _ _ _ Hc1); reflexivity)
    end.
    destruct (IH _ l rec_fuel (scan_result sub h) s1 Hrest1)
      as (pend & s' & Hit & Hch & Hn');
      [ apply (scan_separate_sub _ _ _ _ Hsep); in_solve
      | rewrite Hn1;
        pose proof (nest_after_bounds (nest_count s) (1 + nested_calls sub)
                      ltac:(lia));
        destruct Ha as [Ha|[(? & ?) Ha]];
          [now left|right; split; [assumption|lia]]
      | lia | lia | ].
    destruct (scan_step _ p l h s _ _ _ s1 _ _ _ _ Hraw ltac:(discriminate) Hd
                Hch1 (ex_intro _ pend (ex_intro _ s' (conj Hit (conj Hch Hn')))))
      as (pend' & s'' & Hit' & Hch' & Hn'').
    exists pend', s''. split; [|split].
    + unfold scan_result at 1. cbn [texture_indices].
      rewrite !fold_left_app. exact Hit'.
    + exact Hch'.
    + rewrite Hn'', Hn1, !nest_after_add. f_equal.
  - (* Glow *)
    ignored_plain IH Hsep Ha Glow l rec_fuel h s p rest.
Qed.

Lemma fold_left_max_le l : forall h, h <= fold_left Z.max l h.
Proof.
  induction l as [|x l IH]; intros h; cbn [fold_left]; [lia|].
  specialize (IH (Z.max h x)). lia.
Qed.

Lemma fold_left_max_ge l : forall h x, In x l -> x <= fold_left Z.max l h.
Proof.
  induction l as [|y l IH]; intros h x Hx; cbn [fold_left]; [destruct Hx|].
  destruct Hx as [->|Hx].
  - pose proof (fold_left_max_le l (Z.max h x)). lia.
  - now apply IH.
Qed.

Lemma fold_left_max_in l : forall h,
  fold_left Z.max l h = h \/ In (fold_left Z.max l h) l.
Proof.
  induction l as [|y l IH]; intros h; cbn [fold_left]; [now left|].
  destruct (IH (Z.max h y)) as [E|Hin].
  - rewrite E. destruct (Z.max_spec h y) as [[_ ->]|[_ ->]];
      [right; now left|now left].
  - right. now right.
Qed.

Lemma fold_right_max_shift l : forall h x,
  fold_right Z.max (Z.max h x) l = Z.max x (fold_right Z.max h l).
Proof.
  induction l as [|y l IH]; intros h x; cbn [fold_right]; [lia|].
  rewrite IH. lia.
Qed.

Lemma scan_result_max t :
  scan_result t (-1) = max_texture_index t.
Proof.
  unfold scan_result, max_texture_index.
  generalize (texture_indices t) as l. intros l.
  generalize (-1) as h. induction l as [|x l IH]; intros h; cbn [fold_left fold_right];
    [reflexivity|].
  rewrite IH. apply fold_right_max_shift.
Qed.

End InitScanMain.

(** ** The highest texture index *)

Section HighestTexture.
Context {C : Config}.

Lemma scan_separateb_ok t p : scan_separateb t p = true -> scan_separate t p.
Proof.
  unfold scan_separateb, scan_separate. rewrite forallb_forall.
  intros H a Ha Hin. specialize (H a Ha).
  apply negb_true_iff in H.
  assert (E : existsb (Z.eqb a) (scan_reads t p) = true).
  { apply existsb_exists. exists a. split; [exact Hin|apply Z.eqb_refl]. }
  congruence.
Qed.

(** The load-time scan of a buffer that decodes as a hierarchy [t] returns
    the greatest of [-1] and the texture indices of the textured polygons
    of [t], through every SortByNormal branch and every sub-model: no index
    is above it, and it is one of them or [-1].
    It asks for a budget above the size of [t]; in a debug build for
    polygons of three points at least and fewer than 1000 calls; in the
    Descent I build, where the scan rewrites the colour fields of flat
    polygons, for records that do not overlap those fields.  The buffer is
    changed at those fields only. *)
Theorem init_scan_highest_texture :
  forall t p fuel s,
    decodes (mem s) p t ->
    scan_separate t p ->
    NDEBUG = true \/ (polygons_ok t /\ 1 + nested_calls t < 1000) ->
    (model_size t < fuel)%nat ->
    exists s',
      g3_init_polygon_model fuel p s = (Val (max_texture_index t), s')
      /\ changed_only (scan_writes t p) (mem s) (mem s')
      /\ (forall x, In x (texture_indices t) -> x <= max_texture_index t)
      /\ (max_texture_index t = -1
          \/ In (max_texture_index t) (texture_indices t)).
Proof.
  intros t p fuel s Hdec Hsep Ha Hf.
  set (s0 := if NDEBUG then s else set_nest_count 0 s).
  assert (Hm0 : mem s0 = mem s) by (subst s0; destruct NDEBUG; reflexivity).
  destruct (call_scans_of_loop t (loop_scans_all t) p fuel (-1) s0)
    as (s' & Hc & Hch & _); try assumption.
  { rewrite Hm0. exact Hdec. }
  { unfold entry_asserts_hold. destruct Ha as [Ha|[Hp Ha]]; [now left|].
    subst s0. destruct NDEBUG; [now left|right].
    split; [exact Hp|cbn [nest_count set_nest_count]; lia]. }
  exists s'. split; [|split; [|split]].
  - unfold g3_init_polygon_model.
    assert (H0 : (if NDEBUG then ret tt else modify (set_nest_count 0)) s
                 = (Val tt, s0))
      by (subst s0; destruct NDEBUG; reflexivity).
    rewrite (bind_val _ _ _ _ _ H0). rewrite Hc.
    now rewrite scan_result_max.
  - rewrite <- Hm0. exact Hch.
  - intros x Hx. rewrite <- scan_result_max. now apply fold_left_max_ge.
  - rewrite <- scan_result_max. unfold scan_result.
    apply fold_left_max_in.
Qed.

End HighestTexture.

Lemma nested_buffer_decodes :
  @decodes d2_debug_config nested_buffer 0 nested_model.
Proof.
  unfold nested_model.
  apply (@dec_sortnorm d2_debug_config); try reflexivity.
  - apply (@dec_tmappoly d2_debug_config); try reflexivity.
    apply (@dec_eof d2_debug_config). reflexivity.
  - apply (@dec_tmappoly d2_debug_config); try reflexivity.
    apply (@dec_eof d2_debug_config). reflexivity.
  - apply (@dec_subcall d2_debug_config); try reflexivity.
    + apply (@dec_tmappoly d2_debug_config); try reflexivity.
      apply (@dec_eof d2_debug_config). reflexivity.
    + apply (@dec_eof d2_debug_config). reflexivity.
Qed.

Section ReferencedMaximum.
Context {C : Config}.

(** C8 (as amended).  The load-time scan of a buffer that decodes as a
    hierarchy returns, and what it returns is the running maximum started
    at [-1] and carried through every record, both branches of every
    SortByNormal record and the sub-model of every SubmodelCall record:
    a value that is [-1] at least and below no texture index of the
    hierarchy; the highest texture index referenced, as soon as one
    TexturedPolygon record holds [-1] or more; and [-1] when there is no
    such record, that is when there is no TexturedPolygon record or when
    every texture field reads as a number below [-1].  The conditions are
    those of the scan: a budget above the size of the hierarchy, in a debug
    build polygons of three points at least and fewer than 1000 calls, in
    the Descent I build colour fields that lie over no field the scan
    reads. *)
Theorem init_scan_returns_maximum :
  forall t p fuel s,
    decodes (mem s) p t ->
    scan_separate t p ->
    NDEBUG = true \/ (polygons_ok t /\ 1 + nested_calls t < 1000) ->
    (model_size t < fuel)%nat ->
    exists r s',
      g3_init_polygon_model fuel p s = (Val r, s')
      /\ -1 <= r
      /\ (forall x, In x (texture_indices t) -> x <= r)
      /\ ((exists x, In x (texture_indices t) /\ -1 <= x) ->
          In r (texture_indices t))
      /\ ((forall x, In x (texture_indices t) -> x < -1) -> r = -1).
Proof.
  intros t p fuel s Hdec Hsep Ha Hf.
  set (s0 := if NDEBUG then s else set_nest_count 0 s).
  assert (Hm0 : mem s0 = mem s) by (subst s0; destruct NDEBUG; reflexivity).
  destruct (call_scans_of_loop t (loop_scans_all t) p fuel (-1) s0)
    as (s' & Hc & _ & _); try assumption.
  { rewrite Hm0. exact Hdec. }
  { unfold entry_asserts_hold. destruct Ha as [Ha|[Hp Ha]]; [now left|].
    subst s0. destruct NDEBUG; [now left|right].
    split; [exact Hp|cbn [nest_count set_nest_count]; lia]. }
  exists (scan_result t (-1)), s'.
  assert (Hlo : -1 <= scan_result t (-1)) by apply fold_left_max_le.
  assert (Hub : forall x, In x (texture_indices t) -> x <= scan_result t (-1))
    by (intros x Hx; now apply fold_left_max_ge).
  split; [|split; [exact Hlo|split; [exact Hub|split]]].
  - unfold g3_init_polygon_model.
    assert (H0 : (if NDEBUG then ret tt else modify (set_nest_count 0)) s
                 = (Val tt, s0))
      by (subst s0; destruct NDEBUG; reflexivity).
    rewrite (bind_val _ _ _ _ _ H0). exact Hc.
  - intros (x & Hx & Hx1).
    destruct (fold_left_max_in (texture_indices t) (-1)) as [E|Hin];
      [|exact Hin].
    fold (scan_result t (-1)) in E.
    pose proof (Hub x Hx) as Hle.
    assert (Ex : x = scan_result t (-1)) by lia.
    rewrite <- Ex. exact Hx.
  - intros Hall.
    destruct (fold_left_max_in (texture_indices t) (-1)) as [E|Hin];
      [exact E|].
    fold (scan_result t (-1)) in Hin.
    specialize (Hall _ Hin). lia.
Qed.

End ReferencedMaximum.

(** C8, the claim as worded fails: the only TexturedPolygon record of this
    buffer references the texture index [-5], and the scan returns [-1],
    an index no record holds. *)
Lemma negative_texture_scans_to_minus_one :
  @decodes d2_config (mem negative_texture_world) 0 negative_texture_model
  /\ texture_indices negative_texture_model = [-5]
  /\ fst (@g3_init_polygon_model d2_config 5 0 negative_texture_world) = Val (-1)
  /\ ~ In (-1) (texture_indices negative_texture_model).
Proof.
  split.
  { apply (@dec_tmappoly d2_config); try reflexivity.
    apply (@dec_eof d2_config). reflexivity. }
  split; [reflexivity|].
  split; [vm_compute; reflexivity|].
  cbn. intros [H|[]]. discriminate H.
Qed.

Lemma init_scan_returns_maximum_witness :
  @decodes d2_debug_config (mem nested_world) 0 nested_model
  /\ texture_indices nested_model = [3; 7; 1]
  /\ exists s',
       @g3_init_polygon_model d2_debug_config 10 0 nested_world = (Val 7, s').
Proof.
  assert (H1 : @decodes d2_debug_config (mem nested_world) 0 nested_model)
    by exact nested_buffer_decodes.
  split; [exact H1|split; [reflexivity|]].
  assert (H2 : @NDEBUG d2_debug_config = true
               \/ (polygons_ok nested_model /\ 1 + nested_calls nested_model < 1000))
    by (right; cbn; repeat split; lia).
  assert (H3 : (model_size nested_model < 10)%nat) by (cbn; lia).
  destruct (@init_scan_returns_maximum d2_debug_config nested_model 0 10
              nested_world H1
              (@scan_separateb_ok d2_debug_config nested_model 0 eq_refl) H2 H3)
    as (r & s' & Hs & _ & Hub & Hin & _).
  assert (Hr : In r [3; 7; 1]).
  { apply Hin. exists 3. split; [now left|lia]. }
  assert (H7 : 7 <= r) by (apply Hub; right; now left).
  assert (E : r = 7).
  { destruct Hr as [<-|[<-|[<-|[]]]]; [lia|reflexivity|lia]. }
  exists s'. rewrite <- E. exact Hs.
Defined.

Lemma init_scan_highest_texture_witness :
  @decodes d2_debug_config (mem nested_world) 0 nested_model
  /\ texture_indices nested_model = [3; 7; 1]
  /\ exists s',
       @g3_init_polygon_model d2_debug_config 10 0 nested_world = (Val 7, s')
       /\ changed_only [] (mem nested_world) (mem s').
Proof.
  assert (H1 : @decodes d2_debug_config (mem nested_world) 0 nested_model)
    by exact nested_buffer_decodes.
  split; [exact H1|split; [reflexivity|]].
  assert (H2 : @NDEBUG d2_debug_config = true
               \/ (polygons_ok nested_model /\ 1 + nested_calls nested_model < 1000))
    by (right; cbn; repeat split; lia).
  assert (H3 : (model_size nested_model < 10)%nat) by (cbn; lia).
  destruct (@init_scan_highest_texture d2_debug_config nested_model 0 10
              nested_world H1
              (@scan_separateb_ok d2_debug_config nested_model 0 eq_refl) H2 H3)
    as (s' & Hs & Hc & _).
  exists s'. split; [exact Hs|exact Hc].
Defined.

(** ** What a pass may touch *)

Section Respects.
Context {C : Config}.
Variable Q : world -> world -> Prop.
Hypothesis Q_refl : forall s, Q s s.
Hypothesis Q_trans : forall s1 s2 s3, Q s1 s2 -> Q s2 s3 -> Q s1 s3.

Lemma respects_ret {A} (a : A) : respects Q (ret a).
Proof. intros s. apply Q_refl. Qed.

Lemma respects_fail {A} e : respects Q (@fail C A e).
Proof. intros s. apply Q_refl. Qed.

Lemma respects_gets {A} (f : world -> A) : respects Q (gets f).
Proof. intros s. apply Q_refl. Qed.

Lemma respects_lift {A} f (o : option A) : respects Q (lift f o).
Proof. destruct o; [apply respects_ret|apply respects_fail]. Qed.

Lemma respects_modify f : (forall s, Q s (f s)) -> respects Q (modify f).
Proof. intros H s. apply H. Qed.

Lemma respects_bind {A B} (m : M A) (f : A -> M B) :
  respects Q m -> (forall a, respects Q (f a)) -> respects Q (bind m f).
Proof.
  intros Hm Hf s. unfold bind. specialize (Hm s).
  destruct (m s) as [[a|e] s1]; cbn [snd] in *.
  - exact (Q_trans _ _ _ Hm (Hf a s1)).
  - exact Hm.
Qed.

Lemma respects_w p : respects Q (w p).
Proof.
  unfold w. apply respects_bind; [apply respects_gets|intros ?; apply respects_lift].
Qed.

Lemma respects_fp p : respects Q (fp p).
Proof.
  unfold fp. apply respects_bind; [apply respects_gets|intros ?; apply respects_lift].
Qed.

Lemma respects_vp p : respects Q (vp p).
Proof.
  unfold vp.
  repeat (apply respects_bind; [apply respects_fp|intros ?]). apply respects_ret.
Qed.

Lemma respects_uvlp p : respects Q (uvlp p).
Proof.
  unfold uvlp.
  repeat (apply respects_bind; [apply respects_fp|intros ?]). apply respects_ret.
Qed.

Lemma respects_Assert c : respects Q c -> respects Q (Assert c).
Proof.
  intros Hc. unfold Assert. destruct NDEBUG; [apply respects_ret|].
  apply respects_bind; [exact Hc|].
  intros [|]; [apply respects_ret|apply respects_fail].
Qed.

Lemma respects_get_raw_opcode p : respects Q (get_raw_opcode p).
Proof.
  unfold get_raw_opcode.
  apply respects_bind; [apply respects_w|intros ?; apply respects_ret].
Qed.

Lemma respects_base_get_op_subcount p : respects Q (base_get_op_subcount p).
Proof. apply respects_get_raw_opcode. Qed.

Lemma respects_dispatch {S} (ops : State_ops S) p st op :
  ops_respect Q ops -> respects Q (dispatch_polymodel_op ops p st op).
Proof.
  intros (Ht & Hc & H1 & H2 & H3 & H4 & H5 & H6 & H7 & H8).
  unfold dispatch_polymodel_op.
  repeat match goal with
  | |- context [if ?a =? ?b then _ else _] => destruct (a =? b)
  end;
  repeat first
    [ apply respects_ret
    | apply respects_bind; [|intros ?]
    | apply Hc | apply H1 | apply H2 | apply H3 | apply H4
    | apply H5 | apply H6 | apply H7 | apply H8
    | unfold op_default; apply respects_fail ].
Qed.

Lemma respects_iterate {S} (ops : State_ops S) :
  ops_respect Q ops ->
  forall fuel p st, respects Q (iterate_polymodel fuel ops p st).
Proof.
  intros Hops. induction fuel as [|fuel IH]; intros p st.
  - apply respects_fail.
  - cbn [iterate_polymodel]. apply respects_bind.
    + unfold iterate_step.
      apply respects_bind; [apply respects_get_raw_opcode|intros op].
      destruct (op =? OP_EOF); [apply respects_ret|].
      apply respects_bind; [apply (proj1 Hops)|intros op'].
      apply respects_bind; [now apply respects_dispatch|].
      intros [sz st']. apply respects_ret.
    + intros [[p1 st1]|]; [apply IH|apply respects_ret].
Qed.

Lemma respects_prepare_point_list_from n : forall p i,
  respects Q (prepare_point_list_from n p i).
Proof.
  induction n as [|n IH]; intros p i; cbn [prepare_point_list_from].
  - apply respects_ret.
  - apply respects_bind; [apply respects_w|intros idx].
    apply respects_bind; [apply respects_gets|intros pl].
    apply respects_bind; [apply respects_lift|intros pt].
    apply respects_bind; [apply IH|intros rest]. apply respects_ret.
Qed.

Lemma respects_uvl_list_from n : forall p nv i f,
  respects Q (uvl_list_from n p nv i f).
Proof.
  induction n as [|n IH]; intros p nv i f; cbn [uvl_list_from].
  - apply respects_ret.
  - apply respects_bind; [apply respects_uvlp|intros u].
    apply respects_bind; [apply IH|intros rest]. apply respects_ret.
Qed.

Lemma respects_for_count n : forall i body,
  (forall j, respects Q (body j)) -> respects Q (for_count n i body).
Proof.
  induction n as [|n IH]; intros i body Hb; cbn [for_count].
  - apply respects_ret.
  - apply respects_bind; [apply Hb|intros _]. now apply IH.
Qed.

End Respects.

Ltac resp_step Hr Ht :=
  first
    [ apply (respects_ret _ Hr)
    | apply (respects_fail _ Hr)
    | apply (respects_gets _ Hr)
    | apply (respects_lift _ Hr)
    | apply (respects_w _ Hr Ht)
    | apply (respects_fp _ Hr Ht)
    | apply (respects_vp _ Hr Ht)
    | apply (respects_uvlp _ Hr Ht)
    | apply (respects_prepare_point_list_from _ Hr Ht)
    | apply (respects_uvl_list_from _ Hr Ht)
    | apply (respects_bind _ Ht); [|intros ?] ].

Ltac resp Hr Ht :=
  repeat first
    [ resp_step Hr Ht
    | match goal with
      | |- respects _ (if ?b then _ else _) => destruct b
      | |- respects _ (match ?x with _ => _ end) => destruct x
      end ].

Section ColorProbeFrame.
Context {C : Config}.

Lemma eq_world_trans (s1 s2 s3 : world) : s1 = s2 -> s2 = s3 -> s1 = s3.
Proof. congruence. Qed.

Lemma color_ops_respect rec :
  (forall q, respects eq (rec q)) -> ops_respect eq (g3_poly_get_color_ops rec).
Proof.
  intros Hrec.
  pose proof (fun s : world => eq_refl s) as Hr.
  pose proof eq_world_trans as Ht.
  unfold ops_respect.
  cbn [g3_poly_get_color_ops translate_opcode get_op_subcount op_defpoints
       op_defp_start op_flatpoly op_tmappoly op_sortnorm op_rodbm op_subcall
       op_glow].
  repeat split; intros;
    unfold ignore_op2, ignore_op1, base_translate_opcode, base_get_op_subcount,
      color_op_flatpoly, color_op_sortnorm, color_op_subcall;
    resp Hr Ht; apply Hrec.
Qed.

(** The colour probe reads only: whatever the buffer and whatever the
    outcome (a colour, the exception, a fault), the world is as before. *)
Theorem color_probe_reads_only :
  forall fuel p s, snd (g3_poly_get_color fuel p s) = s.
Proof.
  assert (H : forall fuel p, respects eq (g3_poly_get_color fuel p)).
  { pose proof (fun s : world => eq_refl s) as Hr.
    pose proof eq_world_trans as Ht.
    induction fuel as [|fuel IH]; intros p.
    - cbn. resp_step Hr Ht.
    - cbn [g3_poly_get_color].
      resp_step Hr Ht.
      + apply (respects_iterate _ Hr Ht). now apply color_ops_respect.
      + destruct a as [q st]. resp_step Hr Ht. }
  intros fuel p s. symmetry. apply H.
Qed.

End ColorProbeFrame.

Section RenderFrame.
Context {C : Config}.

Lemma drawn_only_refl s : drawn_only s s.
Proof. repeat split. now exists []. Qed.

Lemma drawn_only_trans s1 s2 s3 :
  drawn_only s1 s2 -> drawn_only s2 s3 -> drawn_only s1 s3.
Proof.
  intros (M1 & N1 & K1 & L1 & c1 & E1) (M2 & N2 & K2 & L2 & c2 & E2).
  repeat split; try congruence.
  exists (c2 ++ c1). rewrite E2, E1. apply app_assoc.
Qed.

Lemma respects_draw c : respects drawn_only (draw c).
Proof.
  intros s. unfold draw, modify. cbn [snd].
  repeat split. now exists [c].
Qed.

Lemma respects_set_view f :
  respects drawn_only (modify (fun s => set_view (f s) s)).
Proof. intros s. cbn. repeat split. now exists []. Qed.

Lemma respects_rotate_point_list n : forall dest src k,
  (forall j, respects drawn_only (src j)) ->
  respects drawn_only (rotate_point_list n dest src k).
Proof.
  induction n as [|n IH]; intros dest src k Hsrc; cbn [rotate_point_list].
  - intros s. apply drawn_only_refl.
  - apply (respects_bind _ drawn_only_trans); [apply Hsrc|intros v].
    intros s. unfold bind at 1, gets at 1. unfold bind at 1, gets at 1.
    unfold bind at 1.
    destruct (put_index (Interp_point_list s) (dest + k) (g3_rotate_point (view s) v))
      as [pl'|] eqn:E; cbn [lift ret fail].
    + unfold bind at 1, modify at 1.
      apply (drawn_only_trans _ (set_points pl' s)).
      * repeat split; [|now exists []].
        cbn. exact (put_index_length _ _ _ _ E).
      * apply IH. exact Hsrc.
    + apply drawn_only_refl.
Qed.

Lemma respects_get_noglow_light args p :
  respects drawn_only (get_noglow_light args p).
Proof.
  unfold get_noglow_light. resp drawn_only_refl drawn_only_trans.
Qed.

Lemma respects_get_sortnorm_offsets p :
  respects drawn_only (get_sortnorm_offsets p).
Proof.
  unfold get_sortnorm_offsets. resp drawn_only_refl drawn_only_trans.
Qed.

Lemma respects_base_op_rodbm p : respects drawn_only (base_op_rodbm p).
Proof.
  unfold base_op_rodbm. resp drawn_only_refl drawn_only_trans.
  apply respects_draw.
Qed.

Lemma respects_base_op_subcall args rec p gv :
  (forall g q, respects drawn_only (rec g q)) ->
  respects drawn_only (base_op_subcall args rec p gv).
Proof.
  intros Hrec. unfold base_op_subcall.
  resp drawn_only_refl drawn_only_trans;
    first [apply respects_set_view | apply Hrec].
Qed.

Lemma respects_vectors_at a j : respects drawn_only (vectors_at a j).
Proof. unfold vectors_at. resp drawn_only_refl drawn_only_trans. Qed.

Lemma respects_vectors_of np j : respects drawn_only (vectors_of np j).
Proof. unfold vectors_of. resp drawn_only_refl drawn_only_trans. Qed.

Lemma static_ops_respect args rec :
  (forall g q, respects drawn_only (rec g q)) ->
  ops_respect drawn_only (g3_draw_polygon_model_ops args rec).
Proof.
  intros Hrec.
  pose proof drawn_only_refl as Hr. pose proof drawn_only_trans as Ht.
  unfold ops_respect.
  cbn [g3_draw_polygon_model_ops translate_opcode get_op_subcount op_defpoints
       op_defp_start op_flatpoly op_tmappoly op_sortnorm op_rodbm op_subcall
       op_glow].
  repeat match goal with |- _ /\ _ => split end; intros;
    unfold base_translate_opcode, base_get_op_subcount, draw_op_defpoints,
      draw_op_defp_start, base_op_defpoints, base_op_defp_start, rotate,
      draw_op_flatpoly, draw_op_tmappoly, draw_op_sortnorm, draw_op_rodbm,
      draw_op_subcall, draw_op_glow, glow_value_is, prepare_point_list;
    resp Hr Ht;
    first [ apply respects_draw
          | apply respects_set_view
          | apply respects_rotate_point_list; apply respects_vectors_at
          | apply respects_get_noglow_light
          | apply respects_get_sortnorm_offsets
          | apply respects_base_op_rodbm
          | apply respects_base_op_subcall; exact Hrec
          | apply Hrec ].
Qed.

Lemma respects_static_draw args fuel :
  forall gv p, respects drawn_only (g3_draw_polygon_model args fuel gv p).
Proof.
  pose proof drawn_only_refl as Hr. pose proof drawn_only_trans as Ht.
  induction fuel as [|fuel IH]; intros gv p.
  - cbn. resp_step Hr Ht.
  - cbn [g3_draw_polygon_model]. resp_step Hr Ht; [|resp_step Hr Ht].
    apply (respects_iterate _ Hr Ht). now apply static_ops_respect.
Qed.

Lemma respects_morph_flatpoly_loop fuel : forall p color ntris i p0 p1,
  respects drawn_only (morph_flatpoly_loop fuel p color ntris i p0 p1).
Proof.
  pose proof drawn_only_refl as Hr. pose proof drawn_only_trans as Ht.
  induction fuel as [|fuel IH]; intros p color ntris i p0 p1;
    cbn [morph_flatpoly_loop]; destruct (ntris =? 0); resp Hr Ht;
    first [apply respects_draw | apply IH].
Qed.

Lemma morph_ops_respect args np fuel rec :
  (forall q, respects drawn_only (rec q)) ->
  ops_respect drawn_only (g3_draw_morphing_model_ops args np fuel rec).
Proof.
  intros Hrec.
  pose proof drawn_only_refl as Hr. pose proof drawn_only_trans as Ht.
  unfold ops_respect.
  cbn [g3_draw_morphing_model_ops translate_opcode get_op_subcount op_defpoints
       op_defp_start op_flatpoly op_tmappoly op_sortnorm op_rodbm op_subcall
       op_glow].
  repeat match goal with |- _ /\ _ => split end; intros;
    unfold base_translate_opcode, base_get_op_subcount, morph_op_defpoints,
      morph_op_defp_start, base_op_defpoints, base_op_defp_start, rotate,
      morph_op_flatpoly, morph_op_tmappoly, morph_op_sortnorm, morph_op_rodbm,
      morph_op_subcall, ignore_op1, prepare_point_list;
    resp Hr Ht;
    first [ apply respects_draw
          | apply respects_set_view
          | apply respects_rotate_point_list; apply respects_vectors_of
          | apply respects_get_noglow_light
          | apply respects_get_sortnorm_offsets
          | apply respects_base_op_rodbm
          | apply respects_base_op_subcall; intros; apply respects_static_draw
          | apply respects_static_draw
          | apply respects_morph_flatpoly_loop
          | apply Hrec ].
Qed.

(** The renderers never write to the model buffer, whatever the buffer
    holds and whatever the outcome: of the world they change the canvas, by
    adding calls in front of those it holds, the entries of the point list,
    whose length stays, and the view.  The nest counter and the chunk list
    are left alone. *)
Theorem renderers_draw_only :
  (forall args fuel gv p s,
     drawn_only s (snd (g3_draw_polygon_model args fuel gv p s)))
  /\ (forall args np fuel p s,
        drawn_only s (snd (g3_draw_morphing_model args np fuel p s))).
Proof.
  pose proof drawn_only_refl as Hr. pose proof drawn_only_trans as Ht.
  split.
  - intros args fuel gv p. apply respects_static_draw.
  - intros args np fuel. induction fuel as [|fuel IH]; intros p.
    + cbn. intros s. apply Hr.
    + cbn [g3_draw_morphing_model].
      apply (respects_bind _ Ht); [|intros ?; apply (respects_ret _ Hr)].
      apply (respects_iterate _ Hr Ht). apply morph_ops_respect. exact IH.
Qed.

End RenderFrame.

Section ScanFrame.
Context {C : Config}.

Lemma scanned_only_refl s : scanned_only s s.
Proof. repeat split. Qed.

Lemma scanned_only_trans s1 s2 s3 :
  scanned_only s1 s2 -> scanned_only s2 s3 -> scanned_only s1 s3.
Proof.
  intros (L1 & M1 & P1 & C1 & V1 & K1) (L2 & M2 & P2 & C2 & V2 & K2).
  repeat split; try congruence.
  intros Hb. rewrite (M2 Hb). exact (M1 Hb).
Qed.

Lemma store16_length m a v m' : store16 m a v = Some m' -> length m' = length m.
Proof. intros H. exact (proj1 (store16_changed_only m a v m' H)). Qed.

Lemma store32_length m a v m' : store32 m a v = Some m' -> length m' = length m.
Proof.
  unfold store32.
  destruct (if DXX_WORDS_BIGENDIAN
            then (to_uint32 v / 65536, to_uint32 v mod 65536)
            else (to_uint32 v mod 65536, to_uint32 v / 65536)) as [h0 h1].
  destruct (store16 m a h0) as [m1|] eqn:E1; [|discriminate].
  intros E2. rewrite (store16_length _ _ _ _ E2). exact (store16_length _ _ _ _ E1).
Qed.

Lemma respects_set_wp_descent_1 p v :
  build = DXX_BUILD_DESCENT_I -> respects scanned_only (set_wp p v).
Proof.
  intros Hb s. unfold set_wp, bind, gets, lift.
  destruct (store16 (mem s) p v) as [m'|] eqn:E; cbn.
  - repeat split. + exact (store16_length _ _ _ _ E). + congruence.
  - apply scanned_only_refl.
Qed.

Lemma respects_set_nest_count f :
  respects scanned_only (modify (fun s => set_nest_count (f s) s)).
Proof. intros s. cbn. repeat split. Qed.

Lemma respects_bump_nest_count : respects scanned_only bump_nest_count.
Proof.
  intros s. unfold bump_nest_count, bind, gets, modify, ret. cbn. repeat split.
Qed.

Lemma init_ops_respect rec :
  (forall q h, respects scanned_only (rec q h)) ->
  ops_respect scanned_only (init_model_sub_ops rec).
Proof.
  intros Hrec.
  pose proof scanned_only_refl as Hr. pose proof scanned_only_trans as Ht.
  unfold ops_respect.
  cbn [init_model_sub_ops translate_opcode get_op_subcount op_defpoints
       op_defp_start op_flatpoly op_tmappoly op_sortnorm op_rodbm op_subcall
       op_glow].
  repeat match goal with |- _ /\ _ => split end; intros;
    unfold base_translate_opcode, base_get_op_subcount, ignore_op2, ignore_op1,
      init_op_tmappoly, init_op_sortnorm, init_op_subcall;
    try (resp Hr Ht;
         first [ apply Hrec
               | apply (respects_Assert _ Hr Ht); apply (respects_ret _ Hr) ]).
  unfold init_op_flatpoly.
  apply (respects_bind _ Ht);
    [apply (respects_Assert _ Hr Ht); apply (respects_ret _ Hr)|intros _].
  destruct build eqn:Eb; [|apply (respects_ret _ Hr)].
  apply (respects_bind _ Ht); [apply (respects_w _ Hr Ht)|intros c].
  apply (respects_bind _ Ht); [|intros _; apply (respects_ret _ Hr)].
  now apply respects_set_wp_descent_1.
Qed.

Lemma respects_init_model_sub fuel :
  forall p h, respects scanned_only (init_model_sub fuel p h).
Proof.
  pose proof scanned_only_refl as Hr. pose proof scanned_only_trans as Ht.
  induction fuel as [|fuel IH]; intros p h.
  - cbn. apply (respects_fail _ Hr).
  - cbn [init_model_sub].
    apply (respects_bind _ Ht);
      [apply (respects_Assert _ Hr Ht); apply respects_bump_nest_count|intros _].
    apply (respects_bind _ Ht).
    + apply (respects_iterate _ Hr Ht). now apply init_ops_respect.
    + intros [q st]. apply (respects_ret _ Hr).
Qed.

(** Whatever the buffer and whatever the outcome, the load-time scan
    leaves point list, canvas, view and chunk list alone and the buffer at
    its length; in the Descent II build it does not write to the buffer at
    all. *)
Theorem init_scan_touches_colours_only :
  forall fuel p s, scanned_only s (snd (g3_init_polygon_model fuel p s)).
Proof.
  pose proof scanned_only_refl as Hr. pose proof scanned_only_trans as Ht.
  intros fuel p. unfold g3_init_polygon_model.
  apply (respects_bind _ Ht); [|intros _; apply respects_init_model_sub].
  destruct NDEBUG; [apply (respects_ret _ Hr)|].
  apply (respects_set_nest_count (fun _ => 0)).
Qed.

End ScanFrame.

Section ChunksFrame.
Context {C : Config}.
Variables data new_data : Z.

Lemma chunks_only_refl s : chunks_only data new_data s s.
Proof. repeat split. exists []. split; [now rewrite app_nil_r|constructor]. Qed.

Lemma chunks_only_trans s1 s2 s3 :
  chunks_only data new_data s1 s2 -> chunks_only data new_data s2 s3 ->
  chunks_only data new_data s1 s3.
Proof.
  intros (M1 & P1 & C1 & V1 & N1 & a1 & E1 & F1)
         (M2 & P2 & C2 & V2 & N2 & a2 & E2 & F2).
  repeat split; try congruence.
  exists (a1 ++ a2). split.
  - rewrite E2, E1. symmetry. apply app_assoc.
  - apply Forall_app. now split.
Qed.

Lemma respects_add_chunk p off :
  off = 16 \/ off = 28 \/ off = 30 ->
  respects (chunks_only data new_data) (add_chunk p (p - data + new_data) off).
Proof.
  intros Hoff.
  pose proof chunks_only_refl as Hr. pose proof chunks_only_trans as Ht.
  unfold add_chunk.
  apply (respects_bind _ Ht).
  - apply (respects_Assert _ Hr Ht). resp Hr Ht.
  - intros _ s. unfold modify. cbn [snd].
    repeat split. eexists. split; [reflexivity|].
    constructor; [|constructor].
    unfold chunk_of. cbn. repeat split; [exact Hoff|lia].
Qed.

(** Whatever the buffer and whatever the outcome, the relocation scan
    writes nothing but the chunk list: it keeps the chunks the list holds
    and appends chunks with correction 0, with the offset of a branch field
    (16 in a SubmodelCall record, 28 or 30 in a SortByNormal record) and
    with a new base that lies as far from the old one as [new_data] from
    [data]. *)
Theorem get_chunks_appends_chunks :
  forall fuel s,
    chunks_only data new_data s (snd (get_chunks fuel data new_data s)).
Proof.
  pose proof chunks_only_refl as Hr. pose proof chunks_only_trans as Ht.
  intros fuel. unfold get_chunks.
  apply (respects_bind _ Ht); [|intros [q st]; apply (respects_ret _ Hr)].
  apply (respects_iterate _ Hr Ht).
  unfold ops_respect.
  cbn [get_chunks_ops translate_opcode get_op_subcount op_defpoints
       op_defp_start op_flatpoly op_tmappoly op_sortnorm op_rodbm op_subcall
       op_glow].
  repeat match goal with |- _ /\ _ => split end; intros;
    unfold chunks_translate_opcode, chunks_get_op_subcount, GET_INTEL_SHORT,
      ignore_op2, ignore_op1, chunks_op_sortnorm, chunks_op_subcall;
    repeat first
      [ apply respects_add_chunk; tauto
      | resp_step Hr Ht
      | match goal with
        | |- respects _ (match ?x with _ => _ end) => destruct x
        end ].
Qed.

End ChunksFrame.

Section SwapFrame.
Context {C : Config}.

Lemma swapped_only_refl s : swapped_only s s.
Proof. repeat split. Qed.

Lemma swapped_only_trans s1 s2 s3 :
  swapped_only s1 s2 -> swapped_only s2 s3 -> swapped_only s1 s3.
Proof.
  intros (L1 & P1 & C1 & V1 & N1 & K1) (L2 & P2 & C2 & V2 & N2 & K2).
  repeat split; congruence.
Qed.

Lemma respects_set_wp p v : respects swapped_only (set_wp p v).
Proof.
  intros s. unfold set_wp, bind, gets, lift.
  destruct (store16 (mem s) p v) as [m'|] eqn:E; cbn.
  - repeat split. exact (store16_length _ _ _ _ E).
  - apply swapped_only_refl.
Qed.

Lemma respects_set_fp p v : respects swapped_only (set_fp p v).
Proof.
  intros s. unfold set_fp, bind, gets, lift.
  destruct (store32 (mem s) p v) as [m'|] eqn:E; cbn.
  - repeat split. exact (store32_length _ _ _ _ E).
  - apply swapped_only_refl.
Qed.

Lemma respects_short_swap a : respects swapped_only (short_swap a).
Proof.
  unfold short_swap.
  apply (respects_bind _ swapped_only_trans);
    [apply (respects_w _ swapped_only_refl swapped_only_trans)|intros v].
  apply respects_set_wp.
Qed.

Lemma respects_fix_swap a : respects swapped_only (fix_swap a).
Proof.
  unfold fix_swap.
  apply (respects_bind _ swapped_only_trans);
    [apply (respects_fp _ swapped_only_refl swapped_only_trans)|intros v].
  apply respects_set_fp.
Qed.

Lemma respects_vms_vector_swap a : respects swapped_only (vms_vector_swap a).
Proof.
  unfold vms_vector_swap.
  repeat (apply (respects_bind _ swapped_only_trans);
          [apply respects_fix_swap|intros _]).
  apply respects_fix_swap.
Qed.

Ltac swap_leaf :=
  first [ apply respects_set_wp | apply respects_short_swap
        | apply respects_fix_swap | apply respects_vms_vector_swap ].

Lemma swap_ops_respect rec :
  (forall q, respects swapped_only (rec q)) ->
  ops_respect swapped_only (swap_polygon_model_data_ops rec).
Proof.
  intros Hrec.
  pose proof swapped_only_refl as Hr. pose proof swapped_only_trans as Ht.
  unfold ops_respect.
  cbn [swap_polygon_model_data_ops translate_opcode get_op_subcount op_defpoints
       op_defp_start op_flatpoly op_tmappoly op_sortnorm op_rodbm op_subcall
       op_glow].
  repeat match goal with |- _ /\ _ => split end; intros;
    unfold swap_translate_opcode, swap_get_op_subcount, swap_op_defpoints,
      swap_op_defp_start, swap_op_flatpoly, swap_op_tmappoly, swap_op_sortnorm,
      swap_op_rodbm, swap_op_subcall, swap_op_glow, for_upto;
    repeat first
      [ swap_leaf
      | apply Hrec
      | apply (respects_for_count _ Hr Ht); intros ?
      | resp_step Hr Ht ].
Qed.

(** Whatever the buffer and whatever the outcome, the byte-order pass
    writes bytes of the buffer only and leaves the buffer at its length. *)
Theorem swap_touches_buffer_only :
  forall fuel data s, swapped_only s (snd (swap_polygon_model_data fuel data s)).
Proof.
  pose proof swapped_only_refl as Hr. pose proof swapped_only_trans as Ht.
  induction fuel as [|fuel IH]; intros data.
  - cbn. intros s. apply Hr.
  - cbn [swap_polygon_model_data].
    apply (respects_bind _ Ht); [|intros ?; apply (respects_ret _ Hr)].
    apply (respects_iterate _ Hr Ht). now apply swap_ops_respect.
Qed.

End SwapFrame.

(** ** The running maximum of the scan *)

Section StateInvariant.
Context {C : Config} {S : Type}.
Variable I : S -> Prop.
Variable ops : State_ops S.
Hypothesis Hops : ops_preserve I ops.

Lemma dispatch_preserves p st op s sz st' s' :
  I st ->
  dispatch_polymodel_op ops p st op s = (Val (sz, st'), s') -> I st'.
Proof.
  destruct Hops as (H1 & H2 & H3 & H4 & H5 & H6 & H7 & H8).
  intros Hi H. unfold dispatch_polymodel_op in H.
  repeat match type of H with
  | context [if ?a =? ?b then _ else _] => destruct (a =? b)
  end; bind_inv H;
  try (unfold op_default, fail in *; discriminate);
  first [ eapply (H1 _ _ _ Hi); eassumption
        | eapply (H2 _ _ _ Hi); eassumption
        | eapply (H3 _ _ _ Hi); eassumption
        | eapply (H4 _ _ _ Hi); eassumption
        | eapply (H5 _ _ Hi); eassumption
        | eapply (H6 _ _ Hi); eassumption
        | eapply (H7 _ _ Hi); eassumption
        | eapply (H8 _ _ Hi); eassumption ].
Qed.

Lemma iterate_preserves fuel : forall p st s pe st' s',
  I st ->
  iterate_polymodel fuel ops p st s = (Val (pe, st'), s') -> I st'.
Proof.
  induction fuel as [|fuel IH]; intros p st s pe st' s' Hi H.
  - discriminate.
  - cbn [iterate_polymodel] in H.
    apply bind_val_inv in H. destruct H as (r & s1 & Hstep & H).
    destruct r as [[p1 st1]|].
    + apply (IH p1 st1 s1 pe st' s'); [|exact H].
      unfold iterate_step in Hstep.
      apply bind_val_inv in Hstep. destruct Hstep as (op & s2 & _ & Hstep).
      destruct (op =? OP_EOF); [bind_inv Hstep; discriminate|].
      apply bind_val_inv in Hstep. destruct Hstep as (op' & s3 & _ & Hstep).
      apply bind_val_inv in Hstep. destruct Hstep as ([sz st2] & s4 & Hd & Hstep).
      apply ret_val_inv in Hstep. destruct Hstep as [E _].
      assert (st2 = st1) by congruence. subst st2.
      exact (dispatch_preserves _ _ _ _ _ _ _ Hi Hd).
    + apply ret_pair_inv in H. destruct H as (_ & <- & _). exact Hi.
Qed.

End StateInvariant.

Section ScanMonotone.
Context {C : Config}.

Lemma w_int16_range p s v s' : w p s = (Val v, s') -> -32768 <= v <= 32767.
Proof.
  intros H. apply w_val_inv in H. destruct H as [_ H].
  unfold short_at in H. destruct (load16 (mem s) p) as [x|]; [|discriminate].
  cbn in H. injection H as <-. unfold to_int16.
  pose proof (Z.mod_pos_bound x 65536 ltac:(lia)).
  destruct (x mod 65536 <? 32768) eqn:E; [apply Z.ltb_lt in E|apply Z.ltb_ge in E]; lia.
Qed.

Lemma init_ops_preserve h0 rec :
  (forall q h s r s', rec q h s = (Val r, s') -> h <= r <= Z.max h 32767) ->
  ops_preserve (highest_from h0) (init_model_sub_ops rec).
Proof.
  intros Hrec. unfold ops_preserve.
  cbn [init_model_sub_ops op_defpoints op_defp_start op_flatpoly op_tmappoly
       op_sortnorm op_rodbm op_subcall op_glow].
  repeat match goal with |- _ /\ _ => split end;
    intros; intros s st' s' Hrun; unfold highest_from in *.
  - unfold ignore_op2 in Hrun. now bind_inv Hrun.
  - unfold ignore_op2 in Hrun. now bind_inv Hrun.
  - unfold init_op_flatpoly in Hrun.
    apply bind_val_inv in Hrun. destruct Hrun as (? & ? & _ & Hrun).
    destruct build; now bind_inv Hrun.
  - unfold init_op_tmappoly in Hrun.
    apply bind_val_inv in Hrun. destruct Hrun as (? & ? & _ & Hrun).
    apply bind_val_inv in Hrun. destruct Hrun as (t & ? & Ht & Hrun).
    destruct (Z.gtb_spec t (highest_texture_num st)).
    + apply bind_val_inv in Hrun. destruct Hrun as (t' & ? & Ht' & Hrun).
      apply ret_val_inv in Hrun. destruct Hrun as [<- _]. cbn.
      pose proof (w_int16_range _ _ _ _ Ht).
      pose proof (w_int16_range _ _ _ _ Ht').
      apply w_val_inv in Ht. destruct Ht as [-> Ht].
      apply w_val_inv in Ht'. destruct Ht' as [_ Ht'].
      assert (t' = t) by congruence. lia.
    + now bind_inv Hrun.
  - unfold init_op_sortnorm in Hrun.
    apply bind_val_inv in Hrun. destruct Hrun as (fo & ? & _ & Hrun).
    apply bind_val_inv in Hrun. destruct Hrun as (h1 & ? & H1 & Hrun).
    apply bind_val_inv in Hrun. destruct Hrun as (bo & ? & _ & Hrun).
    apply bind_val_inv in Hrun. destruct Hrun as (h2 & ? & H2 & Hrun).
    apply ret_val_inv in Hrun. destruct Hrun as [<- _]. cbn.
    apply Hrec in H1. apply Hrec in H2. lia.
  - unfold ignore_op1 in Hrun. now bind_inv Hrun.
  - unfold init_op_subcall in Hrun.
    apply bind_val_inv in Hrun. destruct Hrun as (off & ? & _ & Hrun).
    apply bind_val_inv in Hrun. destruct Hrun as (h1 & ? & H1 & Hrun).
    apply ret_val_inv in Hrun. destruct Hrun as [<- _]. cbn.
    apply Hrec in H1. lia.
  - unfold ignore_op1 in Hrun. now bind_inv Hrun.
Qed.

Lemma init_model_sub_bounds fuel : forall p h s r s',
  init_model_sub fuel p h s = (Val r, s') -> h <= r <= Z.max h 32767.
Proof.
  induction fuel as [|fuel IH]; intros p h s r s' H; [discriminate|].
  cbn [init_model_sub] in H.
  apply bind_val_inv in H. destruct H as (? & s1 & _ & H).
  apply bind_val_inv in H. destruct H as ([pe st] & s2 & Hit & H).
  apply ret_val_inv in H. destruct H as [<- _].
  apply (iterate_preserves (highest_from h) _ (init_ops_preserve h _ IH)) in Hit.
  - exact Hit.
  - unfold highest_from. cbn. lia.
Qed.

(** Whatever the buffer holds, a scan that returns never lowers the
    running maximum it was entered with and raises it to a 16-bit value at
    most: the value [g3_init_polygon_model] returns lies between -1 and
    32767. *)
Theorem init_scan_result_bounds :
  (forall fuel p h s r s',
     init_model_sub fuel p h s = (Val r, s') -> h <= r <= Z.max h 32767)
  /\ (forall fuel p s r s',
        g3_init_polygon_model fuel p s = (Val r, s') -> -1 <= r <= 32767).
Proof.
  split; [exact init_model_sub_bounds|].
  intros fuel p s r s' H. unfold g3_init_polygon_model in H.
  apply bind_val_inv in H. destruct H as (? & s1 & _ & H).
  apply init_model_sub_bounds in H. lia.
Qed.

End ScanMonotone.

Lemma init_scan_result_bounds_witness :
  fst (@g3_init_polygon_model d2_debug_config 10 0 nested_world) = Val 7
  /\ -1 <= 7 <= 32767.
Proof.
  assert (H : fst (@g3_init_polygon_model d2_debug_config 10 0 nested_world) = Val 7)
    by reflexivity.
  split; [exact H|].
  destruct (@g3_init_polygon_model d2_debug_config 10 0 nested_world)
    as [r s'] eqn:E.
  cbn [fst] in H. subst r.
  exact (proj2 (@init_scan_result_bounds d2_debug_config) 10%nat 0 nested_world
           7 s' E).
Defined.

(** ** Runaway recursion and the Asserts of the scan *)

Section Runaway.
Context {C : Config}.

Lemma init_subcall_step rec p h s :
  tag_at (mem s) p = Some OP_SUBCALL ->
  short_at (mem s) (p + 16) = Some 0 ->
  forall fuel e s',
    rec p h s = (Err e, s') ->
    iterate_polymodel (Datatypes.S fuel) (init_model_sub_ops rec) p
      {| highest_texture_num := h |} s = (Err e, s').
Proof.
  intros Ht Ho fuel e s' Hrec.
  cbn [iterate_polymodel]. unfold iterate_step.
  erewrite bind_err; [reflexivity|].
  rewrite (bind_val _ _ _ _ _ (get_raw_opcode_tag_at _ _ _ Ht)).
  change (OP_SUBCALL =? OP_EOF) with false. cbv beta iota.
  cbn [init_model_sub_ops translate_opcode]. unfold base_translate_opcode at 1.
  unfold bind at 1. cbn [ret].
  erewrite bind_err; [reflexivity|].
  dispatch_unfold.
  erewrite bind_err; [reflexivity|].
  unfold init_op_subcall.
  rewrite (bind_val _ _ _ _ _ (w_short_at _ _ _ Ho)).
  cbn [highest_texture_num]. rewrite Z.add_0_r.
  erewrite bind_err; [reflexivity|exact Hrec].
Qed.

Lemma self_call_release p h :
  NDEBUG = true ->
  forall fuel s,
    tag_at (mem s) p = Some OP_SUBCALL ->
    short_at (mem s) (p + 16) = Some 0 ->
    init_model_sub fuel p h s = (Err OutOfFuel, s).
Proof.
  intros Hnd. induction fuel as [|fuel IH]; intros s Ht Ho; [reflexivity|].
  cbn [init_model_sub]. unfold Assert. rewrite Hnd.
  unfold bind at 1. cbn [ret].
  erewrite bind_err; [reflexivity|].
  destruct fuel as [|fuel']; [reflexivity|].
  apply init_subcall_step; [exact Ht|exact Ho|].
  now apply IH.
Qed.

Lemma self_call_debug p h :
  NDEBUG = false ->
  forall fuel s,
    tag_at (mem s) p = Some OP_SUBCALL ->
    short_at (mem s) (p + 16) = Some 0 ->
    1000 - nest_count s <= Z.of_nat fuel ->
    nest_count s < 1000 ->
    fst (init_model_sub fuel p h s) = Err AssertFail.
Proof.
  intros Hnd. induction fuel as [|fuel IH]; intros s Ht Ho Hf Hn; [lia|].
  cbn [init_model_sub]. unfold Assert. rewrite Hnd.
  unfold bind at 1 2. unfold bump_nest_count.
  unfold bind at 1, gets at 1. unfold bind at 1, modify at 1. cbn [ret].
  destruct (Z.ltb_spec (nest_count s + 1) 1000) as [Hlt|Hge]; [|reflexivity].
  cbn [fail ret].
  set (s1 := set_nest_count (nest_count s + 1) s).
  destruct (init_model_sub fuel p h s1) as [r s2] eqn:Er.
  assert (Hr : r = Err AssertFail).
  { change r with (fst (r, s2)). rewrite <- Er.
    apply IH; subst s1; cbn [set_nest_count mem nest_count]; try assumption; lia. }
  subst r.
  destruct fuel as [|fuel']; [lia|].
  erewrite bind_err; [reflexivity|].
  apply init_subcall_step; [exact Ht|exact Ho|exact Er].
Qed.

(** A SubmodelCall record whose branch offset is 0 calls itself.  The scan
    of a release build never returns from it: whatever the budget, the model
    runs out of it.  The scan of a debug build fails the Assert on
    [nest_count] once it has counted 1000 calls. *)
Theorem self_referential_submodel :
  forall p s,
    tag_at (mem s) p = Some OP_SUBCALL ->
    short_at (mem s) (p + 16) = Some 0 ->
    (NDEBUG = true ->
     forall fuel, fst (g3_init_polygon_model fuel p s) = Err OutOfFuel)
    /\ (NDEBUG = false ->
        forall fuel, (1000 <= fuel)%nat ->
        fst (g3_init_polygon_model fuel p s) = Err AssertFail).
Proof.
  intros p s Ht Ho. split; intros Hnd fuel.
  - unfold g3_init_polygon_model. rewrite Hnd.
    unfold bind at 1. cbn [ret].
    now rewrite (self_call_release p (-1) Hnd fuel s Ht Ho).
  - intros Hf. unfold g3_init_polygon_model. rewrite Hnd.
    unfold bind at 1, modify at 1.
    apply (self_call_debug p (-1) Hnd fuel (set_nest_count 0 s));
      cbn [set_nest_count mem nest_count]; try assumption; lia.
Qed.

End Runaway.

Lemma self_referential_submodel_witness :
  fst (@g3_init_polygon_model d2_config 50 0 self_call_world) = Err OutOfFuel
  /\ fst (@g3_init_polygon_model d2_debug_config 1000 0 self_call_debug_world)
     = Err AssertFail.
Proof.
  split.
  - exact (proj1 (@self_referential_submodel d2_config 0 self_call_world
                    eq_refl eq_refl) eq_refl 50%nat).
  - exact (proj2 (@self_referential_submodel d2_debug_config 0 self_call_debug_world
                    eq_refl eq_refl) eq_refl 1000%nat (le_n 1000)).
Defined.

(** ** The empty model *)

Section EmptyModel.
Context {C : Config}.

(** A model whose first tag is EndOfStream: the colour probe returns the
    colour 0, the two renderers return with the world as it was (nothing
    drawn, no point rotated), and the load-time scan returns -1, no texture,
    with the buffer as it was, having counted its one call in a debug
    build.  A budget of two is enough for each. *)
Theorem empty_model_is_noop :
  forall p s,
    tag_at (mem s) p = Some OP_EOF ->
    forall fuel args gv np,
      g3_poly_get_color (2 + fuel) p s = (Val 0, s)
      /\ g3_draw_polygon_model args (2 + fuel) gv p s = (Val tt, s)
      /\ g3_draw_morphing_model args np (2 + fuel) p s = (Val tt, s)
      /\ g3_init_polygon_model (2 + fuel) p s
         = (Val (-1), if NDEBUG then s else set_nest_count 1 s).
Proof.
  intros p s Ht fuel args gv np.
  pose proof (get_raw_opcode_tag_at _ _ _ Ht) as Hraw.
  repeat match goal with |- _ /\ _ => split end.
  - cbn [g3_poly_get_color Nat.add].
    rewrite (bind_val _ _ _ _ _ (iterate_polymodel_eof _ fuel p _ s Hraw)).
    reflexivity.
  - cbn [g3_draw_polygon_model Nat.add].
    rewrite (bind_val _ _ _ _ _ (iterate_polymodel_eof _ fuel p _ s Hraw)).
    reflexivity.
  - cbn [g3_draw_morphing_model Nat.add].
    rewrite (bind_val _ _ _ _ _ (iterate_polymodel_eof _ fuel p _ s Hraw)).
    reflexivity.
  - unfold g3_init_polygon_model. cbn [init_model_sub Nat.add].
    destruct NDEBUG eqn:E.
    + unfold bind at 1. cbn [ret].
      rewrite (bind_val _ _ _ _ _ (assert_bump_nest_count s (or_introl E))).
      rewrite E.
      rewrite (bind_val _ _ _ _ _ (iterate_polymodel_eof _ fuel p _ s Hraw)).
      reflexivity.
    + unfold bind at 1, modify at 1.
      set (s0 := set_nest_count 0 s).
      assert (Hn : NDEBUG = true \/ nest_count s0 + 1 < 1000)
        by (right; subst s0; cbn [set_nest_count nest_count]; lia).
      rewrite (bind_val _ _ _ _ _ (assert_bump_nest_count s0 Hn)).
      rewrite E.
      set (s1 := set_nest_count (nest_count s0 + 1) s0).
      assert (Hraw1 : get_raw_opcode p s1 = (Val OP_EOF, s1))
        by (apply get_raw_opcode_tag_at; exact Ht).
      rewrite (bind_val _ _ _ _ _ (iterate_polymodel_eof _ fuel p _ s1 Hraw1)).
      reflexivity.
Qed.

End EmptyModel.

Lemma empty_model_is_noop_witness :
  @g3_poly_get_color d2_config 2 36 flat3_world = (Val 0, flat3_world)
  /\ @g3_draw_polygon_model d2_config sample_args 2 None 36 flat3_world
     = (Val tt, flat3_world).
Proof.
  pose proof (@empty_model_is_noop d2_config 36 flat3_world eq_refl 0%nat
                sample_args None []) as (H1 & H2 & _).
  split; [exact H1|exact H2].
Defined.

(** ** The branches of a SortByNormal record *)

Section SortnormBranches.
Context {C : Config}.

Lemma get_sortnorm_offsets_val p s fo bo v n :
  short_at (mem s) (p + 28) = Some fo ->
  short_at (mem s) (p + 30) = Some bo ->
  vp (p + 16) s = (Val v, s) ->
  vp (p + 4) s = (Val n, s) ->
  get_sortnorm_offsets p s
  = (Val (if g3_check_normal_facing (view s) v n >? 0
          then (bo mod 65536, fo mod 65536)
          else (fo mod 65536, bo mod 65536)), s).
Proof.
  intros Hfo Hbo Hv Hn. unfold get_sortnorm_offsets.
  rewrite (bind_val _ _ _ _ _ (w_short_at _ _ _ Hbo)).
  rewrite (bind_val _ _ _ _ _ (w_short_at _ _ _ Hfo)).
  rewrite (bind_val _ _ _ _ _ Hv).
  rewrite (bind_val _ _ _ _ _ Hn).
  reflexivity.
Qed.

Lemma iterate_polymodel_fails {S} (ops : State_ops S) fuel p st s op e s1 :
  translate_opcode ops = base_translate_opcode ->
  get_raw_opcode p s = (Val op, s) ->
  op <> OP_EOF ->
  dispatch_polymodel_op ops p st op s = (Err e, s1) ->
  iterate_polymodel (Datatypes.S fuel) ops p st s = (Err e, s1).
Proof.
  intros Ht Hraw Hne Hd. cbn [iterate_polymodel]. unfold iterate_step.
  erewrite bind_err; [reflexivity|].
  rewrite (bind_val _ _ _ _ _ Hraw).
  destruct (Z.eqb_spec op OP_EOF) as [E|_]; [contradiction|].
  rewrite Ht. unfold base_translate_opcode at 1.
  unfold bind at 1. cbn [ret].
  erewrite bind_err; [reflexivity|exact Hd].
Qed.

Lemma negative_as_uint16 x : -32768 <= x < 0 -> x mod 65536 = x + 65536.
Proof.
  intros H. rewrite <- (Z.mod_add x 1 65536) by lia.
  apply Z.mod_small. lia.
Qed.

(** How the state classes follow the two branches of a SortByNormal
    record whose fields can be read, [fo] being the offset of the front
    branch and [bo] that of the back branch.  The two renderers enter the
    far branch first and then the near one: back, then front, when the
    plane faces the viewer, front, then back, when it does not; and they
    take the offsets as unsigned 16-bit values, so that a negative offset
    leads 65536 bytes further on.  The colour probe enters one branch
    only, the front one when the plane faces the viewer, and adds the
    signed offset. *)
Theorem sortnorm_branches :
  forall p s fo bo v n,
    short_at (mem s) (p + 28) = Some fo ->
    short_at (mem s) (p + 30) = Some bo ->
    vp (p + 16) s = (Val v, s) ->
    vp (p + 4) s = (Val n, s) ->
    let facing := g3_check_normal_facing (view s) v n >? 0 in
    let far := p + (if facing then bo else fo) mod 65536 in
    let near := p + (if facing then fo else bo) mod 65536 in
    (forall rec st,
       draw_op_sortnorm rec p st s
       = (rec (glow_values st) far ;;; rec (glow_values st) near ;;; ret st) s)
    /\ (forall rec st,
          morph_op_sortnorm rec p st s = (rec far ;;; rec near) s)
    /\ (forall rec st,
          color_op_sortnorm rec p st s
          = (c <- rec (p + (if facing then fo else bo)) ;;
             ret {| color := c |}) s).
Proof.
  intros p s fo bo v n Hfo Hbo Hv Hn facing far near.
  pose proof (get_sortnorm_offsets_val p s fo bo v n Hfo Hbo Hv Hn) as Ho.
  fold facing in Ho.
  repeat match goal with |- _ /\ _ => split end; intros rec st.
  - unfold draw_op_sortnorm. rewrite (bind_val _ _ _ _ _ Ho).
    subst far near. destruct facing; reflexivity.
  - unfold morph_op_sortnorm. rewrite (bind_val _ _ _ _ _ Ho).
    subst far near. destruct facing; reflexivity.
  - unfold color_op_sortnorm.
    rewrite (bind_val _ _ _ _ _ Hv).
    rewrite (bind_val _ _ _ _ _ Hn).
    unfold bind at 1, gets at 1. fold facing.
    destruct facing.
    + rewrite (bind_val _ _ _ _ _ (w_short_at _ _ _ Hfo)). reflexivity.
    + rewrite (bind_val _ _ _ _ _ (w_short_at _ _ _ Hbo)). reflexivity.
Qed.

(** A SortByNormal record both of whose offsets are negative, in a buffer
    that ends less than 32768 bytes behind the record: a renderer entered
    at the record looks for either branch behind the end of the buffer,
    where the scan and the colour probe would go back. *)
Theorem renderers_miss_backward_branches :
  forall args np gv fuel p s fo bo v n,
    tag_at (mem s) p = Some OP_SORTNORM ->
    short_at (mem s) (p + 28) = Some fo ->
    short_at (mem s) (p + 30) = Some bo ->
    vp (p + 16) s = (Val v, s) ->
    vp (p + 4) s = (Val n, s) ->
    fo < 0 -> bo < 0 ->
    Z.of_nat (length (mem s)) <= p + 32768 ->
    g3_draw_polygon_model args (3 + fuel) gv p s = (Err (Fault OutOfBuffer), s)
    /\ g3_draw_morphing_model args np (3 + fuel) p s
       = (Err (Fault OutOfBuffer), s).
Proof.
  intros args np gv fuel p s fo bo v n Ht Hfo Hbo Hv Hn Hf Hb Hlen.
  pose proof (get_raw_opcode_tag_at _ _ _ Ht) as Hraw.
  pose proof (w_int16_range _ _ _ _ (w_short_at _ _ _ Hfo)) as Rf.
  pose proof (w_int16_range _ _ _ _ (w_short_at _ _ _ Hbo)) as Rb.
  pose proof (negative_as_uint16 fo ltac:(lia)) as Ef.
  pose proof (negative_as_uint16 bo ltac:(lia)) as Eb.
  pose proof (get_sortnorm_offsets_val p s fo bo v n Hfo Hbo Hv Hn) as Ho.
  rewrite Ef, Eb in Ho.
  split.
  - cbn [g3_draw_polygon_model Nat.add].
    erewrite bind_err; [reflexivity|].
    apply (iterate_polymodel_fails _ _ p _ s OP_SORTNORM);
      [reflexivity|exact Hraw|discriminate|].
    unfold dispatch_polymodel_op.
    cbv [OP_EOF OP_DEFPOINTS OP_FLATPOLY OP_TMAPPOLY OP_SORTNORM
         OP_RODBM OP_SUBCALL OP_DEFP_START OP_GLOW Z.eqb Pos.eqb]. cbv beta iota.
    cbn [g3_draw_polygon_model_ops op_sortnorm].
    erewrite bind_err; [reflexivity|].
    unfold draw_op_sortnorm. rewrite (bind_val _ _ _ _ _ Ho).
    destruct (g3_check_normal_facing (view s) v n >? 0);
      (erewrite bind_err; [reflexivity|]);
      apply g3_draw_polygon_model_outside; right; lia.
  - cbn [g3_draw_morphing_model Nat.add].
    erewrite bind_err; [reflexivity|].
    apply (iterate_polymodel_fails _ _ p _ s OP_SORTNORM);
      [reflexivity|exact Hraw|discriminate|].
    unfold dispatch_polymodel_op.
    cbv [OP_EOF OP_DEFPOINTS OP_FLATPOLY OP_TMAPPOLY OP_SORTNORM
         OP_RODBM OP_SUBCALL OP_DEFP_START OP_GLOW Z.eqb Pos.eqb]. cbv beta iota.
    cbn [g3_draw_morphing_model_ops op_sortnorm].
    erewrite bind_err; [reflexivity|].
    unfold morph_op_sortnorm. rewrite (bind_val _ _ _ _ _ Ho).
    destruct (g3_check_normal_facing (view s) v n >? 0);
      (erewrite bind_err; [reflexivity|]);
      cbn [g3_draw_morphing_model];
      (erewrite bind_err; [reflexivity|]);
      apply iterate_polymodel_outside; right; lia.
Qed.

End SortnormBranches.

Lemma sortnorm_branches_witness :
  @draw_op_sortnorm d2_debug_config
    (fun _ q => draw (@g3_draw_poly d2_debug_config q [] 0)) 0
    {| glow_values := None; glow_num := 0 |} nested_world
  = (Val {| glow_values := None; glow_num := 0 |},
     set_canvas
       [@g3_draw_poly d2_debug_config 54 [] 0;
        @g3_draw_poly d2_debug_config 128 [] 0] nested_world).
Proof.
  exact (proj1 (@sortnorm_branches d2_debug_config 0 nested_world 54 128
                  {| vx := 0; vy := 0; vz := 1 |} {| vx := 0; vy := 0; vz := 1 |}
                  eq_refl eq_refl eq_refl eq_refl)
           (fun _ q => draw (@g3_draw_poly d2_debug_config q [] 0))
           {| glow_values := None; glow_num := 0 |}).
Defined.

Lemma renderers_miss_backward_branches_witness :
  @g3_draw_polygon_model d2_config sample_args 3 None 0 backward_sortnorm_world
  = (Err (Fault OutOfBuffer), backward_sortnorm_world).
Proof.
  refine (proj1 (@renderers_miss_backward_branches d2_config sample_args [] None
                   0%nat 0 backward_sortnorm_world (-4) (-2)
                   {| vx := 0; vy := 0; vz := 1 |} {| vx := 0; vy := 0; vz := 1 |}
                   eq_refl eq_refl eq_refl eq_refl eq_refl eq_refl eq_refl _)).
  cbv. discriminate.
Defined.

(** ** The glow cursor is spent by the polygon it lights *)

Section GlowSpent.
Context {C : Config}.

(** The glow cursor of the static renderer.  A textured polygon that is
    drawn while the cursor points into the glow table is lit by the value
    [g] found there: [g] on its three colour channels, and in its texture
    coordinates the third of [g + g + g] added in 32 bits, which is [g]
    itself as long as the sum fits 32 bits and the third of a wrapped sum
    beyond; the cursor is reset to [~0u], glow off, so the next polygon is
    not lit by it again.  A textured polygon that is not drawn, for its
    point count or because it faces away, leaves the cursor where it was,
    and so does every flat polygon: the glow waits for the next textured
    polygon that is drawn. *)
Theorem glow_lights_one_polygon :
  (forall args p nv st s gv g v norm uvls pts bm,
     glow_values st = Some gv ->
     at_index gv (glow_num st) = Some g ->
     nv <= MAX_POINTS_PER_POLY ->
     vp (p + 4) s = (Val v, s) ->
     vp (p + 16) s = (Val norm, s) ->
     0 < g3_check_normal_facing (view s) v norm ->
     uvl_list_from (Z.to_nat nv) p nv 0
       (fun u => {| uvl_u := uvl_u u; uvl_v := uvl_v u;
                    uvl_l := Z.quot (fix_add (fix_add g g) g) 3 |}) s
     = (Val uvls, s) ->
     prepare_point_list nv p s = (Val pts, s) ->
     w (p + 28) s = (Val bm, s) ->
     draw_op_tmappoly args p nv st s
     = (Val {| glow_values := Some gv; glow_num := 4294967295 |},
        set_canvas
          (g3_draw_tmap nv pts uvls (repeat (get_glow_light g) (Z.to_nat nv)) bm
           :: canvas s) s))
  /\ (forall args p nv st s v norm,
        vp (p + 4) s = (Val v, s) ->
        vp (p + 16) s = (Val norm, s) ->
        MAX_POINTS_PER_POLY < nv \/ g3_check_normal_facing (view s) v norm <= 0 ->
        draw_op_tmappoly args p nv st s = (Val st, s))
  /\ (forall p nv st s st' s',
        draw_op_flatpoly p nv st s = (Val st', s') -> st' = st)
  /\ (forall g, -715827882 <= g <= 715827882 ->
        Z.quot (fix_add (fix_add g g) g) 3 = g)
  /\ Z.quot (fix_add (fix_add 1000000000 1000000000) 1000000000) 3 = -431655765.
Proof.
  split; [|split; [|split; [|split]]].
  - intros args p nv st s gv g v norm uvls pts bm
      Hgv Hg Hnv Hv Hn Hdot Huvl Hpts Hbm.
    assert (Hlt : glow_num st < Z.of_nat (length gv)).
    { unfold at_index in Hg. destruct (Z.ltb_spec (glow_num st) 0); [discriminate|].
      assert (Hs : nth_error gv (Z.to_nat (glow_num st)) <> None) by congruence.
      apply nth_error_Some in Hs. lia. }
    unfold draw_op_tmappoly.
    destruct (Z.gtb_spec nv MAX_POINTS_PER_POLY); [lia|].
    rewrite (bind_val _ _ _ _ _ Hv), (bind_val _ _ _ _ _ Hn).
    unfold bind at 1, gets.
    destruct (Z.gtb_spec (g3_check_normal_facing (view s) v norm) 0); [|lia].
    cbn [negb]. rewrite Hgv.
    destruct (Z.ltb_spec (glow_num st) (Z.of_nat (length gv))); [|lia].
    rewrite Hg. unfold bind. cbn [lift ret get_glow_light lr lg lb].
    rewrite Huvl, Hpts, Hbm. reflexivity.
  - intros args p nv st s v norm Hv Hn Hskip.
    unfold draw_op_tmappoly.
    destruct (Z.gtb_spec nv MAX_POINTS_PER_POLY); [reflexivity|].
    rewrite (bind_val _ _ _ _ _ Hv), (bind_val _ _ _ _ _ Hn).
    unfold bind at 1, gets.
    destruct (Z.gtb_spec (g3_check_normal_facing (view s) v norm) 0); [lia|].
    reflexivity.
  - intros p nv st s st' s'. apply draw_op_flatpoly_state.
  - intros g Hg. unfold fix_add.
    rewrite (to_int32_small (g + g)) by lia.
    rewrite to_int32_small by lia.
    replace (g + g + g) with (g * 3) by lia.
    apply Z.quot_mul. lia.
  - reflexivity.
Qed.

End GlowSpent.

Lemma glow_lights_one_polygon_witness :
  @draw_op_tmappoly d2_config sample_args 4 3
    {| glow_values := Some [100; 200]; glow_num := 1 |} glow_tmap_world
  = (Val {| glow_values := Some [100; 200]; glow_num := 4294967295 |},
     set_canvas
       (@g3_draw_tmap d2_config 3
          [{| vx := 0; vy := 0; vz := 0 |}; {| vx := 1; vy := 0; vz := 0 |};
           {| vx := 2; vy := 0; vz := 0 |}]
          [{| uvl_u := 1; uvl_v := 2; uvl_l := 200 |};
           {| uvl_u := 4; uvl_v := 5; uvl_l := 200 |};
           {| uvl_u := 7; uvl_v := 8; uvl_l := 200 |}]
          (repeat {| lr := 200; lg := 200; lb := 200 |} 3) 2
        :: canvas glow_tmap_world) glow_tmap_world).
Proof.
  refine (proj1 (@glow_lights_one_polygon d2_config) sample_args 4 3
            {| glow_values := Some [100; 200]; glow_num := 1 |}
            glow_tmap_world [100; 200] 200
            {| vx := 0; vy := 0; vz := 1 |} {| vx := 0; vy := 0; vz := 1 |}
            _ _ 2 eq_refl eq_refl _ eq_refl eq_refl eq_refl eq_refl eq_refl eq_refl).
  cbv. discriminate.
Defined.

(** ** Point definitions *)

Section PointDefinitions.
Context {C : Config}.

Lemma at_index_put_index_same {A} (l l' : list A) i a :
  put_index l i a = Some l' -> at_index l' i = Some a.
Proof.
  unfold put_index, at_index.
  destruct (Z.leb_spec 0 i) as [G0|G0]; [|discriminate].
  destruct (Z.ltb_spec i (Z.of_nat (length l))) as [G1|G1]; [|discriminate].
  cbn [andb]. intros E.
  assert (E' : firstn (Z.to_nat i) l ++ a :: skipn (Datatypes.S (Z.to_nat i)) l = l')
    by congruence.
  subst l'.
  destruct (Z.ltb_spec i 0); [lia|].
  rewrite nth_error_app2 by (rewrite length_firstn; lia).
  rewrite length_firstn.
  replace (Z.to_nat i - Nat.min (Z.to_nat i) (length l))%nat with 0%nat by lia.
  reflexivity.
Qed.

Lemma put_index_in_range {A} (l : list A) i a :
  0 <= i < Z.of_nat (length l) -> exists l', put_index l i a = Some l'.
Proof.
  intros H. unfold put_index.
  destruct (Z.leb_spec 0 i); [|lia].
  destruct (Z.ltb_spec i (Z.of_nat (length l))); [|lia].
  eexists. reflexivity.
Qed.

Lemma put_index_out_of_range {A} (l : list A) i a :
  i < 0 \/ Z.of_nat (length l) <= i -> put_index l i a = None.
Proof.
  intros H. unfold put_index.
  destruct (Z.leb_spec 0 i); [|reflexivity].
  destruct (Z.ltb_spec i (Z.of_nat (length l))); [lia|reflexivity].
Qed.

(** The loop of [rotate_point_list] when every source vector can be read
    and the destination lies within the point list. *)
Lemma rotate_point_list_fills n : forall dest src k s vec,
  (forall j s', 0 <= j < Z.of_nat n ->
     mem s' = mem s -> src (k + j) s' = (Val (vec (k + j)), s')) ->
  0 <= dest + k ->
  dest + k + Z.of_nat n <= Z.of_nat (length (Interp_point_list s)) ->
  exists pl,
    rotate_point_list n dest src k s = (Val tt, set_points pl s)
    /\ length pl = length (Interp_point_list s)
    /\ (forall j, 0 <= j < Z.of_nat n ->
          at_index pl (dest + k + j)
          = Some (g3_rotate_point (view s) (vec (k + j))))
    /\ (forall x, ~ dest + k <= x < dest + k + Z.of_nat n ->
          at_index pl x = at_index (Interp_point_list s) x).
Proof.
  induction n as [|n IH]; intros dest src k s vec Hsrc Hlo Hhi.
  - exists (Interp_point_list s). cbn [rotate_point_list].
    split; [destruct s; reflexivity|]. split; [reflexivity|].
    split; [intros j Hj; cbn in Hj; lia|reflexivity].
  - cbn [rotate_point_list].
    pose proof (Hsrc 0 s ltac:(lia) eq_refl) as H0. rewrite Z.add_0_r in H0.
    rewrite (bind_val _ _ _ _ _ H0).
    unfold bind at 1, gets at 1. unfold bind at 1, gets at 1.
    destruct (put_index_in_range (Interp_point_list s) (dest + k)
                (g3_rotate_point (view s) (vec k)) ltac:(lia)) as (pl1 & Hput).
    rewrite Hput. unfold bind at 1. cbn [lift ret].
    unfold bind at 1, modify at 1.
    pose proof (put_index_length _ _ _ _ Hput) as Hlen1.
    destruct (IH dest src (k + 1) (set_points pl1 s) vec) as (pl & Hrun & Hlen & Hin & Hout).
    + intros j s' Hj Hm. replace (k + 1 + j) with (k + (1 + j)) by lia.
      apply Hsrc; [lia|exact Hm].
    + cbn [set_points Interp_point_list]. lia.
    + cbn [set_points Interp_point_list]. lia.
    + exists pl. cbn [set_points Interp_point_list view] in *.
      split; [exact Hrun|]. split; [lia|]. split.
      * intros j Hj. destruct (Z.eq_dec j 0) as [->|Hne].
        -- rewrite Z.add_0_r. rewrite Hout by lia.
           rewrite Z.add_0_r. exact (at_index_put_index_same _ _ _ _ Hput).
        -- replace (dest + k + j) with (dest + (k + 1) + (j - 1)) by lia.
           rewrite Hin by lia. do 3 f_equal. lia.
      * intros x Hx. rewrite Hout by lia.
        apply (at_index_put_index_other _ _ _ _ _ Hput). lia.
Qed.

Lemma rotate_fills i src n s vec :
  (forall j s', 0 <= j < n -> mem s' = mem s -> src j s' = (Val (vec j), s')) ->
  0 <= n -> 0 <= i ->
  i + n <= Z.of_nat (length (Interp_point_list s)) ->
  exists s', rotate i src n s = (Val tt, s') /\ points_defined i n vec s s'.
Proof.
  intros Hsrc Hn Hi Hlen. unfold rotate.
  destruct (rotate_point_list_fills (Z.to_nat n) i src 0 s vec)
    as (pl & Hrun & Hl & Hin & Hout).
  - intros j s' Hj Hm. cbn [Z.add]. apply Hsrc; [lia|exact Hm].
  - lia.
  - lia.
  - exists (set_points pl s). split; [exact Hrun|].
    exists pl. split; [reflexivity|]. split; [exact Hl|]. split.
    + intros j Hj. specialize (Hin j ltac:(lia)).
      rewrite Z.add_0_r in Hin. exact Hin.
    + intros x Hx. apply Hout. lia.
Qed.

Lemma fp_frame a s s' :
  mem s' = mem s -> fst (fp a s') = fst (fp a s).
Proof. unfold fp, bind, gets. intros ->. destruct (option_map _ _); reflexivity. Qed.

Lemma fp_world a s : snd (fp a s) = s.
Proof. unfold fp, bind, gets, lift. destruct (option_map _ _); reflexivity. Qed.

Lemma vp_frame a s s' v :
  vp a s = (Val v, s) -> mem s' = mem s -> vp a s' = (Val v, s').
Proof.
  unfold vp. intros H Hm.
  assert (F : forall b, fp b s' = (fst (fp b s), s')).
  { intros b. rewrite <- (fp_frame b s s' Hm).
    rewrite <- (fp_world b s') at 3. now destruct (fp b s'). }
  assert (G : forall b, fp b s = (fst (fp b s), s)).
  { intros b. rewrite <- (fp_world b s) at 3. now destruct (fp b s). }
  unfold bind in *. rewrite F. rewrite G in H.
  destruct (fst (fp a s)) as [x|]; [|discriminate].
  rewrite F. rewrite G in H.
  destruct (fst (fp (a + 4) s)) as [y|]; [|discriminate].
  rewrite F. rewrite G in H.
  destruct (fst (fp (a + 8) s)) as [z|]; [|discriminate].
  unfold ret in *. congruence.
Qed.

Lemma vectors_at_frame a j s s' v :
  vp (a + j * 12) s = (Val v, s) -> mem s' = mem s ->
  vectors_at a j s' = (Val v, s').
Proof. unfold vectors_at, sizeof_vms_vector. apply vp_frame. Qed.

(** DefinePoints and DefinePointsWithStart, for a count [n] and a
    destination within the point list.  The static renderer rotates the [n]
    vectors of the record into the entries [start .. start + n) of the point
    list (from 0 on for DefinePoints) and leaves every other entry and the
    rest of the world as they were.  The morphing renderer does the same
    with the first [n] vectors of [new_points], for DefinePointsWithStart
    too: the start index moves the destination only. *)
Theorem point_definitions_fill_range :
  forall n s vec,
    0 <= n ->
    (forall p st,
       n <= Z.of_nat (length (Interp_point_list s)) ->
       (forall j, 0 <= j < n -> vp (p + 4 + j * 12) s = (Val (vec j), s)) ->
       exists s', draw_op_defpoints p n st s = (Val st, s')
                  /\ points_defined 0 n vec s s')
    /\ (forall p st start,
          short_at (mem s) (p + 4) = Some start ->
          0 <= start ->
          start + n <= Z.of_nat (length (Interp_point_list s)) ->
          (forall j, 0 <= j < n -> vp (p + 8 + j * 12) s = (Val (vec j), s)) ->
          exists s', draw_op_defp_start p n st s = (Val st, s')
                     /\ points_defined start n vec s s')
    /\ (forall new_points p,
          n <= Z.of_nat (length (Interp_point_list s)) ->
          (forall j, 0 <= j < n -> at_index new_points j = Some (vec j)) ->
          exists s', morph_op_defpoints new_points p n tt s = (Val tt, s')
                     /\ points_defined 0 n vec s s')
    /\ (forall new_points p start,
          short_at (mem s) (p + 4) = Some start ->
          0 <= start ->
          start + n <= Z.of_nat (length (Interp_point_list s)) ->
          (forall j, 0 <= j < n -> at_index new_points j = Some (vec j)) ->
          exists s', morph_op_defp_start new_points p n tt s = (Val tt, s')
                     /\ points_defined start n vec s s').
Proof.
  intros n s vec Hn.
  repeat match goal with |- _ /\ _ => split end.
  - intros p st Hlen Hv.
    destruct (rotate_fills 0 (vectors_at (p + 4)) n s vec) as (s' & Hrun & Hdef);
      [|lia|lia|lia|].
    + intros j s' Hj Hm. apply (vectors_at_frame _ _ s); [now apply Hv|exact Hm].
    + exists s'. split; [|exact Hdef].
      unfold draw_op_defpoints, base_op_defpoints.
      rewrite (bind_val _ _ _ _ _ Hrun). reflexivity.
  - intros p st start Hs Hstart Hlen Hv.
    destruct (rotate_fills start (vectors_at (p + 8)) n s vec)
      as (s' & Hrun & Hdef); [|lia|lia|lia|].
    + intros j s' Hj Hm. apply (vectors_at_frame _ _ s); [now apply Hv|exact Hm].
    + exists s'. split; [|exact Hdef].
      unfold draw_op_defp_start, base_op_defp_start.
      erewrite bind_val; [reflexivity|].
      rewrite (bind_val _ _ _ _ _ (w_short_at _ _ _ Hs)). exact Hrun.
  - intros np p Hlen Hv.
    destruct (rotate_fills 0 (vectors_of np) n s vec) as (s' & Hrun & Hdef);
      [|lia|lia|lia|].
    + intros j s' Hj Hm. unfold vectors_of. now rewrite Hv.
    + exists s'. split; [exact Hrun|exact Hdef].
  - intros np p start Hs Hstart Hlen Hv.
    destruct (rotate_fills start (vectors_of np) n s vec) as (s' & Hrun & Hdef);
      [|lia|lia|lia|].
    + intros j s' Hj Hm. unfold vectors_of. now rewrite Hv.
    + exists s'. split; [|exact Hdef].
      unfold morph_op_defp_start, base_op_defp_start.
      rewrite (bind_val _ _ _ _ _ (w_short_at _ _ _ Hs)). exact Hrun.
Qed.

(** The loop of [rotate_point_list] when the destination does not lie
    within the point list. *)
Lemma rotate_point_list_overruns n : forall dest src k s vec,
  (forall j s', 0 <= j < Z.of_nat n ->
     mem s' = mem s -> src (k + j) s' = (Val (vec (k + j)), s')) ->
  (0 < n)%nat ->
  dest + k < 0
  \/ Z.of_nat (length (Interp_point_list s)) < dest + k + Z.of_nat n ->
  fst (rotate_point_list n dest src k s) = Err (Fault OutOfPointList).
Proof.
  induction n as [|n IH]; intros dest src k s vec Hsrc Hpos Hout; [lia|].
  cbn [rotate_point_list].
  pose proof (Hsrc 0 s ltac:(lia) eq_refl) as H0. rewrite Z.add_0_r in H0.
  rewrite (bind_val _ _ _ _ _ H0).
  unfold bind at 1, gets at 1. unfold bind at 1, gets at 1.
  destruct (put_index (Interp_point_list s) (dest + k)
              (g3_rotate_point (view s) (vec k))) as [pl1|] eqn:Hput.
  - unfold bind at 1. cbn [lift ret]. unfold bind at 1, modify at 1.
    pose proof (put_index_length _ _ _ _ Hput) as Hlen1.
    assert (Hin : 0 <= dest + k < Z.of_nat (length (Interp_point_list s))).
    { destruct (Z_lt_dec (dest + k) 0) as [G|G];
        [rewrite put_index_out_of_range in Hput by lia; discriminate|].
      destruct (Z_lt_dec (dest + k) (Z.of_nat (length (Interp_point_list s))))
        as [G'|G']; [lia|].
      rewrite put_index_out_of_range in Hput by lia. discriminate. }
    apply (IH dest src (k + 1) (set_points pl1 s) vec).
    + intros j s' Hj Hm. replace (k + 1 + j) with (k + (1 + j)) by lia.
      apply Hsrc; [lia|exact Hm].
    + lia.
    + cbn [set_points Interp_point_list]. lia.
  - reflexivity.
Qed.

(** The count and the start index of a point definition are not checked
    against the point list.  When there is a point to define and the range
    [start .. start + n) does not lie within the list, the handler writes
    the entries that do lie in it, if the range begins there, and then goes
    past the end of the list; a negative start index misses the list at
    once. *)
Theorem point_definitions_overrun_list :
  forall n s vec,
    0 < n ->
    (forall p st,
       Z.of_nat (length (Interp_point_list s)) < n ->
       (forall j, 0 <= j < n -> vp (p + 4 + j * 12) s = (Val (vec j), s)) ->
       fst (draw_op_defpoints p n st s) = Err (Fault OutOfPointList))
    /\ (forall p st start,
          short_at (mem s) (p + 4) = Some start ->
          start < 0 \/ Z.of_nat (length (Interp_point_list s)) < start + n ->
          (forall j, 0 <= j < n -> vp (p + 8 + j * 12) s = (Val (vec j), s)) ->
          fst (draw_op_defp_start p n st s) = Err (Fault OutOfPointList))
    /\ (forall new_points p start,
          short_at (mem s) (p + 4) = Some start ->
          start < 0 \/ Z.of_nat (length (Interp_point_list s)) < start + n ->
          (forall j, 0 <= j < n -> at_index new_points j = Some (vec j)) ->
          fst (morph_op_defp_start new_points p n tt s)
          = Err (Fault OutOfPointList)).
Proof.
  intros n s vec Hn.
  assert (R : forall i src,
             (forall j s', 0 <= j < n -> mem s' = mem s ->
                src j s' = (Val (vec j), s')) ->
             i < 0 \/ Z.of_nat (length (Interp_point_list s)) < i + n ->
             fst (rotate i src n s) = Err (Fault OutOfPointList)).
  { intros i src Hsrc Hout. unfold rotate.
    apply (rotate_point_list_overruns (Z.to_nat n) i src 0 s vec).
    - intros j s' Hj Hm. cbn [Z.add]. apply Hsrc; [lia|exact Hm].
    - lia.
    - lia. }
  repeat match goal with |- _ /\ _ => split end.
  - intros p st Hlen Hv.
    unfold draw_op_defpoints, base_op_defpoints, bind.
    specialize (R 0 (vectors_at (p + 4))).
    destruct (rotate 0 (vectors_at (p + 4)) n s) as [[u|e] s1]; cbn [fst] in *.
    + discriminate R; [|lia].
      intros j s' Hj Hm. apply (vectors_at_frame _ _ s); [now apply Hv|exact Hm].
    + assert (E : @Err unit e = Err (Fault OutOfPointList)); [|congruence].
      apply R; [|lia].
      intros j s' Hj Hm. apply (vectors_at_frame _ _ s); [now apply Hv|exact Hm].
  - intros p st start Hs Hout Hv.
    unfold draw_op_defp_start, base_op_defp_start.
    unfold bind at 1. rewrite (bind_val _ _ _ _ _ (w_short_at _ _ _ Hs)).
    specialize (R start (vectors_at (p + 8))).
    destruct (rotate start (vectors_at (p + 8)) n s) as [[u|e] s1]; cbn [fst] in *.
    + discriminate R; [|lia].
      intros j s' Hj Hm. apply (vectors_at_frame _ _ s); [now apply Hv|exact Hm].
    + assert (E : @Err unit e = Err (Fault OutOfPointList)); [|congruence].
      apply R; [|lia].
      intros j s' Hj Hm. apply (vectors_at_frame _ _ s); [now apply Hv|exact Hm].
  - intros np p start Hs Hout Hv.
    unfold morph_op_defp_start, base_op_defp_start.
    rewrite (bind_val _ _ _ _ _ (w_short_at _ _ _ Hs)).
    apply R; [|lia].
    intros j s' Hj Hm. unfold vectors_of. now rewrite Hv.
Qed.

End PointDefinitions.

Lemma two_vectors_at_start :
  forall j, 0 <= j < 2 ->
    @vp d2_config (0 + 8 + j * 12) defp_start_world
    = (Val (two_vectors j), defp_start_world).
Proof.
  intros j Hj. assert (E : j = 0 \/ j = 1) by lia.
  destruct E as [-> | ->]; reflexivity.
Qed.

Lemma two_vectors_at_overrun :
  forall j, 0 <= j < 2 ->
    @vp d2_config (0 + 8 + j * 12) defp_overrun_world
    = (Val (two_vectors j), defp_overrun_world).
Proof.
  intros j Hj. assert (E : j = 0 \/ j = 1) by lia.
  destruct E as [-> | ->]; reflexivity.
Qed.

Lemma point_definitions_fill_range_witness :
  exists s',
    @draw_op_defp_start d2_config 0 2
      {| glow_values := None; glow_num := 0 |} defp_start_world
    = (Val {| glow_values := None; glow_num := 0 |}, s')
    /\ points_defined 2 2 two_vectors defp_start_world s'.
Proof.
  refine (proj1 (proj2 (@point_definitions_fill_range d2_config 2 defp_start_world
                          two_vectors _))
            0 {| glow_values := None; glow_num := 0 |} 2 eq_refl _ _
            two_vectors_at_start);
    cbv; discriminate.
Defined.

Lemma point_definitions_overrun_list_witness :
  fst (@draw_op_defp_start d2_config 0 2
         {| glow_values := None; glow_num := 0 |} defp_overrun_world)
  = Err (Fault OutOfPointList).
Proof.
  refine (proj1 (proj2 (@point_definitions_overrun_list d2_config 2
                          defp_overrun_world two_vectors _))
            0 {| glow_values := None; glow_num := 0 |} 47 eq_refl _
            two_vectors_at_overrun).
  - reflexivity.
  - right. reflexivity.
Defined.

(** ** The triangle fan of the morphing renderer *)

Section MorphFan.
Context {C : Config}.

Lemma prepare_point_list_from_cons n p i s x xs s' :
  prepare_point_list_from (Datatypes.S n) p i s = (Val (x :: xs), s') ->
  exists idx,
    short_at (mem s) (p + 30 + i * 2) = Some idx
    /\ at_index (Interp_point_list s) idx = Some x
    /\ prepare_point_list_from n p (i + 1) s = (Val xs, s).
Proof.
  intros H. cbn [prepare_point_list_from] in H.
  apply bind_val_inv in H. destruct H as (idx & s1 & Hw & H).
  apply w_val_inv in Hw. destruct Hw as [-> Hidx].
  apply bind_val_inv in H. destruct H as (pl & s1 & Hg & H).
  apply gets_val_inv in Hg. destruct Hg as [-> ->].
  apply bind_val_inv in H. destruct H as (pt & s1 & Hl & H).
  apply lift_val_inv in Hl. destruct Hl as [Hpt ->].
  apply bind_val_inv in H. destruct H as (rest & s1 & Hr & H).
  pose proof (prepare_point_list_from_world _ _ _ _ _ _ Hr). subst s1.
  apply ret_val_inv in H. destruct H as [E _].
  exists idx. split; [exact Hidx|]. split; [congruence|].
  rewrite Hr. congruence.
Qed.

Lemma prepare_point_list_from_frame n : forall p i s s' l,
  prepare_point_list_from n p i s = (Val l, s) ->
  mem s' = mem s -> Interp_point_list s' = Interp_point_list s ->
  prepare_point_list_from n p i s' = (Val l, s').
Proof.
  induction n as [|n IH]; intros p i s s' l H Hm Hp.
  - cbn [prepare_point_list_from] in *. apply ret_val_inv in H.
    destruct H as [<- _]. reflexivity.
  - pose proof (prepare_point_list_from_length _ _ _ _ _ _ H) as Hlen.
    destruct l as [|x xs]; [discriminate|].
    apply prepare_point_list_from_cons in H.
    destruct H as (idx & Hidx & Hpt & Hr).
    cbn [prepare_point_list_from].
    rewrite <- Hm in Hidx.
    rewrite (bind_val _ _ _ _ _ (w_short_at _ _ _ Hidx)).
    unfold bind at 1, gets at 1. rewrite Hp, Hpt.
    unfold bind at 1. cbn [lift ret].
    rewrite (bind_val _ _ _ _ _ (IH _ _ _ _ _ Hr Hm Hp)). reflexivity.
Qed.

Lemma morph_flatpoly_loop_fan p color : forall rest fuel i p0 p1 s0 s,
  prepare_point_list_from (length rest) p i s0 = (Val rest, s0) ->
  mem s = mem s0 -> Interp_point_list s = Interp_point_list s0 ->
  (length rest <= fuel)%nat ->
  morph_flatpoly_loop fuel p color (Z.of_nat (length rest)) i p0 p1 s
  = (Val tt,
     set_canvas
       (rev (map (fun t => g3_check_and_draw_poly t color) (fan p0 p1 rest))
        ++ canvas s) s).
Proof.
  induction rest as [|p2 rest IH]; intros fuel i p0 p1 s0 s Hp Hm Hl Hf.
  - cbn [length Z.of_nat fan map rev app].
    destruct fuel; cbn [morph_flatpoly_loop]; change (0 =? 0) with true;
      cbv beta iota; destruct s; reflexivity.
  - cbn [length] in Hp, Hf. destruct fuel as [|fuel]; [lia|].
    apply prepare_point_list_from_cons in Hp.
    destruct Hp as (idx & Hidx & Hpt & Hr).
    cbn [morph_flatpoly_loop length].
    destruct (Z.eqb_spec (Z.of_nat (Datatypes.S (length rest))) 0) as [E|_]; [lia|].
    rewrite <- Hm in Hidx.
    rewrite (bind_val _ _ _ _ _ (w_short_at _ _ _ Hidx)).
    unfold bind at 1, gets at 1. rewrite Hl, Hpt.
    unfold bind at 1. cbn [lift ret].
    unfold bind at 1, draw at 1, modify at 1.
    replace (Z.of_nat (Datatypes.S (length rest)) - 1) with (Z.of_nat (length rest))
      by lia.
    rewrite (IH fuel (i + 1) p0 p2 s0); [|exact Hr|exact Hm|exact Hl|lia].
    cbn [set_canvas canvas mem Interp_point_list view nest_count chunk_list
         fan map rev].
    rewrite <- app_assoc. reflexivity.
Qed.

(** A flat polygon in the morphing renderer.  Where the static renderer
    would hand the points [p0; p1; rest] of the index table to the
    rasterizer as one polygon, the morphing renderer hands it the triangles
    of their fan, [p0 p1 p2], [p0 p2 p3] and so on, one call each and in
    this order, all with the low byte of the colour field as colour, and
    does nothing else.  There is no facing test and no test of the point
    count. *)
Theorem morph_flatpoly_draws_fan :
  forall fuel p nv s c p0 p1 rest,
    2 <= nv < 65536 ->
    w (p + 28) s = (Val c, s) ->
    prepare_point_list nv p s = (Val (p0 :: p1 :: rest), s) ->
    (length rest <= fuel)%nat ->
    morph_op_flatpoly fuel p nv tt s
    = (Val tt,
       set_canvas
         (rev (map (fun t => g3_check_and_draw_poly t (c mod 256))
                 (fan p0 p1 rest))
          ++ canvas s) s).
Proof.
  intros fuel p nv s c p0 p1 rest Hnv Hc Hp Hf.
  unfold prepare_point_list in Hp.
  pose proof (prepare_point_list_from_length _ _ _ _ _ _ Hp) as Hlen.
  cbn [length] in Hlen.
  destruct (Z.to_nat nv) as [|[|k]] eqn:Ek; try discriminate Hlen.
  assert (Hk : k = length rest) by lia. subst k.
  apply prepare_point_list_from_cons in Hp.
  destruct Hp as (i0 & Hi0 & Hp0 & Hp).
  apply prepare_point_list_from_cons in Hp.
  destruct Hp as (i1 & Hi1 & Hp1 & Hp).
  unfold morph_op_flatpoly.
  rewrite (bind_val _ _ _ _ _ Hc).
  assert (H2 : prepare_point_list 2 p s = (Val [p0; p1], s)).
  { assert (H1 : prepare_point_list_from 1 p (0 + 1) s = (Val [p1], s)).
    { cbn [prepare_point_list_from].
      rewrite (bind_val _ _ _ _ _ (w_short_at _ _ _ Hi1)).
      unfold bind at 1, gets at 1. rewrite Hp1. reflexivity. }
    unfold prepare_point_list. change (Z.to_nat 2) with 2%nat.
    change (prepare_point_list_from 2 p 0)
      with (idx <- w (p + 30 + 0 * 2) ;;
            pl <- gets Interp_point_list ;;
            pt <- lift OutOfPointList (at_index pl idx) ;;
            rest <- prepare_point_list_from 1 p (0 + 1) ;;
            ret (pt :: rest)).
    rewrite (bind_val _ _ _ _ _ (w_short_at _ _ _ Hi0)).
    unfold bind at 1, gets at 1. rewrite Hp0.
    unfold bind at 1. cbn [lift ret].
    rewrite (bind_val _ _ _ _ _ H1). reflexivity. }
  rewrite (bind_val _ _ _ _ _ H2).
  rewrite to_int32_small by lia.
  replace (nv - 2) with (Z.of_nat (length rest)) by lia.
  apply (morph_flatpoly_loop_fan p (c mod 256) rest fuel 2 p0 p1 s s);
    [exact Hp|reflexivity|reflexivity|exact Hf].
Qed.

End MorphFan.

Lemma morph_flatpoly_draws_fan_witness :
  @morph_op_flatpoly d2_config 1 0 3 tt flat3_world
  = (Val tt,
     set_canvas
       ([@g3_check_and_draw_poly d2_config
           [{| vx := 0; vy := 0; vz := 0 |}; {| vx := 1; vy := 0; vz := 0 |};
            {| vx := 2; vy := 0; vz := 0 |}] 7]
        ++ canvas flat3_world) flat3_world).
Proof.
  refine (@morph_flatpoly_draws_fan d2_config 1 0 3 flat3_world 7
            {| vx := 0; vy := 0; vz := 0 |} {| vx := 1; vy := 0; vz := 0 |}
            [{| vx := 2; vy := 0; vz := 0 |}] _ eq_refl eq_refl (le_n 1)).
  split; [cbv; discriminate|reflexivity].
Defined.

(** ** Flat polygons with too many points *)

Section OversizedFlat.
Context {C : Config}.

Lemma fan_length {A} (rest : list A) : forall p0 p1,
  length (fan p0 p1 rest) = length rest.
Proof.
  induction rest as [|p2 rest IH]; intros p0 p1; cbn [fan length];
    [reflexivity|now rewrite IH].
Qed.

(** C4 (as amended).  A flat polygon whose count exceeds
    MAX_POINTS_PER_POLY is skipped by the static renderer: its handler
    returns with state and world as they were, and the dispatcher returns
    the full record length.  The morphing renderer has no such test.
    Whatever the count [nv] of a flat polygon whose colour field and index
    table can be read, its dispatcher returns the full record length and
    has handed the [nv - 2] triangles of the fan to
    [g3_check_and_draw_poly], in this order, and has done nothing else.
    And whenever it returns from a flat polygon, the count is two at least
    and [count - 2] calls have been made. *)
Theorem oversized_flatpoly :
  (forall args rec p nv st s,
     base_get_op_subcount p s = (Val nv, s) ->
     MAX_POINTS_PER_POLY < nv ->
     draw_op_flatpoly p nv st s = (Val st, s)
     /\ dispatch_polymodel_op (g3_draw_polygon_model_ops args rec) p st
          OP_FLATPOLY s
        = (Val (layout_length FlatPolygon nv, st), s))
  /\ (forall args np fuel rec p nv st s c p0 p1 rest,
        base_get_op_subcount p s = (Val nv, s) ->
        w (p + 28) s = (Val c, s) ->
        prepare_point_list nv p s = (Val (p0 :: p1 :: rest), s) ->
        (length rest <= fuel)%nat ->
        dispatch_polymodel_op (g3_draw_morphing_model_ops args np fuel rec) p st
          OP_FLATPOLY s
        = (Val (layout_length FlatPolygon nv, st),
           set_canvas
             (rev (map (fun t => g3_check_and_draw_poly t (c mod 256))
                     (fan p0 p1 rest))
              ++ canvas s) s)
        /\ Z.of_nat (length (fan p0 p1 rest)) = nv - 2)
  /\ (forall args np fuel rec p nv st s sz st' s',
        base_get_op_subcount p s = (Val nv, s) ->
        dispatch_polymodel_op (g3_draw_morphing_model_ops args np fuel rec) p st
          OP_FLATPOLY s
        = (Val (sz, st'), s') ->
        sz = layout_length FlatPolygon nv
        /\ 2 <= nv
        /\ mem s' = mem s
        /\ Z.of_nat (length (canvas s'))
           = Z.of_nat (length (canvas s)) + (nv - 2)).
Proof.
  split; [|split].
  - intros args rec p nv st s Hn Hmax.
    assert (Hf : draw_op_flatpoly p nv st s = (Val st, s)).
    { unfold draw_op_flatpoly.
      destruct (Z.gtb_spec nv MAX_POINTS_PER_POLY); [reflexivity|lia]. }
    split; [exact Hf|].
    unfold dispatch_polymodel_op.
    cbv [OP_EOF OP_DEFPOINTS OP_FLATPOLY OP_TMAPPOLY OP_SORTNORM
         OP_RODBM OP_SUBCALL OP_DEFP_START OP_GLOW Z.eqb Pos.eqb]. cbv beta iota.
    cbn [g3_draw_polygon_model_ops get_op_subcount op_flatpoly].
    rewrite (bind_val _ _ _ _ _ Hn). rewrite (bind_val _ _ _ _ _ Hf).
    unfold ret, layout_length. rewrite land_lnot_1. reflexivity.
  - intros args np fuel rec p nv st s c p0 p1 rest Hn Hc Hp Hf.
    pose proof (base_get_op_subcount_range p s nv s Hn) as Hr.
    unfold prepare_point_list in Hp.
    pose proof (prepare_point_list_from_length _ _ _ _ _ _ Hp) as Hlen.
    cbn [length] in Hlen.
    assert (Hnv : nv = Z.of_nat (length rest) + 2) by lia.
    split; [|rewrite fan_length; lia].
    destruct (Z.to_nat nv) as [|[|k]] eqn:Ek; try discriminate Hlen.
    assert (Hk : k = length rest) by lia. subst k.
    apply prepare_point_list_from_cons in Hp.
    destruct Hp as (i0 & Hi0 & Hp0 & Hp).
    apply prepare_point_list_from_cons in Hp.
    destruct Hp as (i1 & Hi1 & Hp1 & Hp).
    assert (H2 : prepare_point_list 2 p s = (Val [p0; p1], s)).
    { assert (H1 : prepare_point_list_from 1 p (0 + 1) s = (Val [p1], s)).
      { cbn [prepare_point_list_from].
        rewrite (bind_val _ _ _ _ _ (w_short_at _ _ _ Hi1)).
        unfold bind at 1, gets at 1. rewrite Hp1. reflexivity. }
      unfold prepare_point_list. change (Z.to_nat 2) with 2%nat.
      change (prepare_point_list_from 2 p 0)
        with (idx <- w (p + 30 + 0 * 2) ;;
              pl <- gets Interp_point_list ;;
              pt <- lift OutOfPointList (at_index pl idx) ;;
              rest <- prepare_point_list_from 1 p (0 + 1) ;;
              ret (pt :: rest)).
      rewrite (bind_val _ _ _ _ _ (w_short_at _ _ _ Hi0)).
      unfold bind at 1, gets at 1. rewrite Hp0.
      unfold bind at 1. cbn [lift ret].
      rewrite (bind_val _ _ _ _ _ H1). reflexivity. }
    assert (Hm : morph_op_flatpoly fuel p nv st s
                 = (Val tt,
                    set_canvas
                      (rev (map (fun t => g3_check_and_draw_poly t (c mod 256))
                              (fan p0 p1 rest))
                       ++ canvas s) s)).
    { unfold morph_op_flatpoly.
      rewrite (bind_val _ _ _ _ _ Hc).
      rewrite (bind_val _ _ _ _ _ H2).
      rewrite to_int32_small by lia.
      replace (nv - 2) with (Z.of_nat (length rest)) by lia.
      apply (morph_flatpoly_loop_fan p (c mod 256) rest fuel 2 p0 p1 s s);
        [exact Hp|reflexivity|reflexivity|exact Hf]. }
    unfold dispatch_polymodel_op.
    cbv [OP_EOF OP_DEFPOINTS OP_FLATPOLY OP_TMAPPOLY OP_SORTNORM
         OP_RODBM OP_SUBCALL OP_DEFP_START OP_GLOW Z.eqb Pos.eqb]. cbv beta iota.
    cbn [g3_draw_morphing_model_ops get_op_subcount op_flatpoly].
    rewrite (bind_val _ _ _ _ _ Hn). rewrite (bind_val _ _ _ _ _ Hm).
    unfold ret, layout_length. rewrite land_lnot_1. destruct st. reflexivity.
  - intros args np fuel rec p nv st s sz st' s' Hn H.
    pose proof (base_get_op_subcount_range p s nv s Hn) as Hr.
    unfold dispatch_polymodel_op in H.
    cbv [OP_EOF OP_DEFPOINTS OP_FLATPOLY OP_TMAPPOLY OP_SORTNORM
         OP_RODBM OP_SUBCALL OP_DEFP_START OP_GLOW Z.eqb Pos.eqb] in H.
    cbv beta iota in H.
    cbn [g3_draw_morphing_model_ops get_op_subcount op_flatpoly] in H.
    rewrite (bind_val _ _ _ _ _ Hn) in H.
    apply bind_val_inv in H. destruct H as ([] & s1 & Hf & H).
    apply ret_pair_inv in H. destruct H as (<- & _ & <-).
    split; [unfold layout_length; now rewrite land_lnot_1|].
    unfold morph_op_flatpoly in Hf.
    apply bind_val_inv in Hf. destruct Hf as (c & s2 & Hw & Hf).
    apply w_val_inv in Hw. destruct Hw as [-> _].
    apply bind_val_inv in Hf. destruct Hf as (pts & s2 & Hp & Hf).
    pose proof (prepare_point_list_from_length _ _ _ _ _ _ Hp) as Hlen.
    apply prepare_point_list_from_world in Hp. subst s2.
    rewrite to_int32_small in Hf by lia.
    destruct pts as [|p0 [|p1 [|? ?]]]; try discriminate Hlen.
    apply morph_flatpoly_loop_val in Hf. destruct Hf as (H1 & H2 & H3).
    repeat split; [lia|exact H2|exact H3].
Qed.

End OversizedFlat.

(** C4, the claim as worded fails for the morphing renderer: of a flat
    polygon of 40 points, 15 more than MAX_POINTS_PER_POLY here, it draws
    the 38 triangles of the fan. *)
Lemma morph_draws_oversized_flatpoly :
  @MAX_POINTS_PER_POLY d2_config < 40
  /\ @base_get_op_subcount d2_config 0 big_flatpoly_world
     = (Val 40, big_flatpoly_world)
  /\ fst (@g3_draw_morphing_model d2_config sample_args [] 40 0 big_flatpoly_world)
     = Val tt
  /\ length (canvas (snd (@g3_draw_morphing_model d2_config sample_args [] 40 0
                            big_flatpoly_world))) = 38%nat.
Proof. repeat split; vm_compute; reflexivity. Qed.

Lemma oversized_flatpoly_witness :
  (@base_get_op_subcount d2_config 0 big_flatpoly_world = (Val 40, big_flatpoly_world)
   /\ @MAX_POINTS_PER_POLY d2_config < 40
   /\ @dispatch_polymodel_op d2_config _
        (@g3_draw_polygon_model_ops d2_config sample_args
           (@g3_draw_polygon_model d2_config sample_args 1))
        0 {| glow_values := None; glow_num := 0 |} OP_FLATPOLY big_flatpoly_world
      = (Val (layout_length FlatPolygon 40, {| glow_values := None; glow_num := 0 |}),
         big_flatpoly_world))
  /\ (exists p0 p1 rest,
        @prepare_point_list d2_config 40 0 big_flatpoly_world
        = (Val (p0 :: p1 :: rest), big_flatpoly_world)
        /\ length rest = 38%nat
        /\ @dispatch_polymodel_op d2_config _
             (@g3_draw_morphing_model_ops d2_config sample_args [] 38
                (@g3_draw_morphing_model d2_config sample_args [] 1))
             0 tt OP_FLATPOLY big_flatpoly_world
           = (Val (layout_length FlatPolygon 40, tt),
              set_canvas
                (rev (map (fun t => @g3_check_and_draw_poly d2_config t (7 mod 256))
                        (fan p0 p1 rest))
                 ++ canvas big_flatpoly_world) big_flatpoly_world)).
Proof.
  assert (H1 : @base_get_op_subcount d2_config 0 big_flatpoly_world
               = (Val 40, big_flatpoly_world)) by (vm_compute; reflexivity).
  assert (H2 : @MAX_POINTS_PER_POLY d2_config < 40) by (vm_compute; reflexivity).
  split.
  - split; [exact H1|split; [exact H2|]].
    exact (proj2 (proj1 (@oversized_flatpoly d2_config) sample_args
             (@g3_draw_polygon_model d2_config sample_args 1) 0 40
             {| glow_values := None; glow_num := 0 |} big_flatpoly_world H1 H2)).
  - assert (Hc : @w d2_config (0 + 28) big_flatpoly_world
                 = (Val 7, big_flatpoly_world)) by (vm_compute; reflexivity).
    eexists. eexists. eexists.
    split; [vm_compute; reflexivity|].
    split; [reflexivity|].
    refine (proj1 (proj1 (proj2 (@oversized_flatpoly d2_config)) sample_args [] 38%nat
              _ 0 40 tt big_flatpoly_world 7 _ _ _ H1 Hc _ _)).
    + vm_compute. reflexivity.
    + vm_compute. repeat constructor.
Defined.

(** ** The chunks of the relocation scan *)

Section ChunksCollected.
Context {C : Config}.

Lemma add_chunk_appends ob nb off s :
  NDEBUG = true \/ Z.of_nat (length (chunk_list s)) + 1 < MAX_CHUNKS ->
  add_chunk ob nb off s
  = (Val tt,
     set_chunk_list
       (chunk_list s ++ [{| old_base := ob; new_base := nb; offset := off;
                            correction := 0 |}]) s).
Proof.
  intros H. unfold add_chunk, Assert.
  destruct NDEBUG eqn:E.
  - reflexivity.
  - destruct H as [H|H]; [discriminate|].
    unfold bind, gets, ret, modify.
    apply Z.ltb_lt in H. rewrite H. reflexivity.
Qed.

Lemma set_chunk_list_nil s : set_chunk_list (chunk_list s ++ []) s = s.
Proof. rewrite app_nil_r. destruct s; reflexivity. Qed.

Lemma chunks_dispatch_collects data new_data o p n s :
  o <> EndOfStream ->
  (if counted o then chunks_get_op_subcount p s = (Val n, s) else n = 0) ->
  NDEBUG = true
  \/ Z.of_nat (length (chunk_list s))
     + Z.of_nat (length (record_chunks data new_data p o)) < MAX_CHUNKS ->
  dispatch_polymodel_op (get_chunks_ops data new_data) p tt (opcode_tag o) s
  = (Val (layout_length o n, tt),
     set_chunk_list (chunk_list s ++ record_chunks data new_data p o) s).
Proof.
  intros Ho Hn Hroom.
  destruct (Opcode_eq o SortByNormal) as [->|Hs];
    [|destruct (Opcode_eq o SubmodelCall) as [->|Hc]].
  - cbn [counted] in Hn. subst n. cbn [record_chunks length] in *.
    unfold dispatch_polymodel_op. cbn [opcode_tag].
    cbv [OP_EOF OP_DEFPOINTS OP_FLATPOLY OP_TMAPPOLY OP_SORTNORM
         OP_RODBM OP_SUBCALL OP_DEFP_START OP_GLOW Z.eqb Pos.eqb]. cbv beta iota.
    cbn [get_chunks_ops op_sortnorm]. unfold chunks_op_sortnorm.
    erewrite bind_val; [reflexivity|].
    rewrite (bind_val _ _ _ _ _ (add_chunk_appends _ _ 28 s
               ltac:(destruct Hroom; [now left|right; lia]))).
    rewrite add_chunk_appends.
    + cbn [set_chunk_list chunk_list mem Interp_point_list canvas view nest_count].
      rewrite <- app_assoc. reflexivity.
    + cbn [set_chunk_list chunk_list]. rewrite length_app. cbn [length].
      destruct Hroom; [now left|right; lia].
  - cbn [counted] in Hn. subst n. cbn [record_chunks length] in *.
    unfold dispatch_polymodel_op. cbn [opcode_tag].
    cbv [OP_EOF OP_DEFPOINTS OP_FLATPOLY OP_TMAPPOLY OP_SORTNORM
         OP_RODBM OP_SUBCALL OP_DEFP_START OP_GLOW Z.eqb Pos.eqb]. cbv beta iota.
    cbn [get_chunks_ops op_subcall]. unfold chunks_op_subcall.
    erewrite bind_val; [reflexivity|].
    apply add_chunk_appends. destruct Hroom; [now left|right; lia].
  - replace (record_chunks data new_data p o) with (@nil chunk)
      by (destruct o; try reflexivity; congruence).
    rewrite set_chunk_list_nil.
    now apply chunks_dispatch_ignored.
Qed.

Lemma chunks_traversal_collects data new_data m p rs :
  stream m p rs ->
  Forall byte m ->
  forall s, mem s = m ->
    NDEBUG = true
    \/ Z.of_nat (length (chunk_list s))
       + Z.of_nat (length (stream_chunks data new_data p rs)) < MAX_CHUNKS ->
    iterate_polymodel (Datatypes.S (length rs)) (get_chunks_ops data new_data)
      p tt s
    = (Val (p + stream_length rs, tt),
       set_chunk_list (chunk_list s ++ stream_chunks data new_data p rs) s).
Proof.
  induction 1 as [p H0 | p o n rs Htag Ho Hn Hrest IH];
    intros Hb s Hm Hroom.
  - destruct (chunks_tag m s p _ Hm Hb H0) as (r & Hraw & Hz & _).
    assert (r = 0) by (apply Hz; reflexivity). subst r.
    cbn [stream_chunks stream_length fold_right].
    rewrite set_chunk_list_nil, Z.add_0_r.
    now apply iterate_polymodel_eof.
  - destruct (chunks_tag m s p _ Hm Hb Htag) as (r & Hraw & Hz & Htr).
    assert (Hr : r <> 0).
    { intros E. apply Hz in E. destruct o; cbn in E; try discriminate.
      congruence. }
    assert (Hn' : if counted o then chunks_get_op_subcount p s = (Val n, s)
                  else n = 0).
    { destruct (counted o); [|exact Hn]. exact (chunks_count m s p n Hm Hb Hn). }
    cbn [stream_chunks] in Hroom. rewrite length_app in Hroom.
    pose proof (chunks_dispatch_collects data new_data o p n s Ho Hn'
                  ltac:(destruct Hroom; [now left|right; lia])) as Hd.
    cbn [length].
    rewrite (iterate_polymodel_turn _ _ p tt s (p + layout_length o n) tt
               (set_chunk_list (chunk_list s ++ record_chunks data new_data p o) s)).
    + rewrite IH; [|exact Hb|exact Hm|].
      * cbn [set_chunk_list chunk_list mem Interp_point_list canvas view
             nest_count stream_chunks stream_length fold_right fst snd].
        fold (stream_length rs). rewrite <- app_assoc.
        replace (p + layout_length o n + stream_length rs)
          with (p + (layout_length o n + stream_length rs)) by lia.
        reflexivity.
      * cbn [set_chunk_list chunk_list]. rewrite length_app.
        destruct Hroom; [now left|right; lia].
    + unfold iterate_step. rewrite (bind_val _ _ _ _ _ Hraw).
      destruct (Z.eqb_spec r OP_EOF) as [E|_]; [contradiction|].
      cbn [get_chunks_ops translate_opcode].
      rewrite (bind_val _ _ _ _ _ Htr).
      rewrite (bind_val _ _ _ _ _ Hd). reflexivity.
Qed.

(** What the relocation scan collects from a stream of records in file
    order: for every SortByNormal record two chunks, for its branch fields
    at the offsets 28 and 30, for every SubmodelCall record one chunk, for
    its branch field at offset 16, and none for any other record; each chunk
    with the address of its record as old base, the same address moved from
    [data] to [new_data] as new base, and correction 0.  They are appended
    to the list in the order of the records, and the length of the stream
    with its end tag is returned.  A debug build asks that the list stay
    below MAX_CHUNKS. *)
Theorem get_chunks_collects_branch_fields :
  forall data new_data rs s,
    Forall byte (mem s) ->
    stream (mem s) data rs ->
    NDEBUG = true
    \/ Z.of_nat (length (chunk_list s))
       + Z.of_nat (length (stream_chunks data new_data data rs)) < MAX_CHUNKS ->
    get_chunks (Datatypes.S (length rs)) data new_data s
    = (Val (stream_length rs + 2),
       set_chunk_list (chunk_list s ++ stream_chunks data new_data data rs) s).
Proof.
  intros data new_data rs s Hb Hst Hroom.
  unfold get_chunks.
  rewrite (bind_val _ _ _ _ _
             (chunks_traversal_collects data new_data (mem s) data rs Hst Hb s
                eq_refl Hroom)).
  unfold ret. do 2 f_equal. lia.
Qed.

End ChunksCollected.

Lemma nested_buffer_stream :
  stream nested_buffer 0 [(SortByNormal, 0); (SubmodelCall, 0)].
Proof.
  apply (stream_record _ 0 SortByNormal 0); [reflexivity|discriminate|reflexivity|].
  apply (stream_record _ _ SubmodelCall 0); [reflexivity|discriminate|reflexivity|].
  apply stream_eof. reflexivity.
Qed.

Lemma get_chunks_collects_branch_fields_witness :
  @get_chunks d2_debug_config 3 0 1000 nested_world
  = (Val 54,
     set_chunk_list
       [ {| old_base := 0; new_base := 1000; offset := 28; correction := 0 |};
         {| old_base := 0; new_base := 1000; offset := 30; correction := 0 |};
         {| old_base := 32; new_base := 1032; offset := 16; correction := 0 |} ]
       nested_world).
Proof.
  refine (@get_chunks_collects_branch_fields d2_debug_config 0 1000
            [(SortByNormal, 0); (SubmodelCall, 0)] nested_world
            (all_bytes_Forall nested_buffer eq_refl) nested_buffer_stream _).
  right. reflexivity.
Defined.

(** ** The field swaps of the byte-order pass *)

Section FieldSwaps.
Context {C : Config}.

Lemma div_mod_split k hi lo :
  0 < k -> 0 <= lo < k -> (hi * k + lo) / k = hi /\ (hi * k + lo) mod k = lo.
Proof.
  intros Hk Hlo. split.
  - rewrite Z.add_comm, Z.div_add by lia. rewrite Z.div_small by lia. lia.
  - rewrite Z.add_comm, Z.mod_add by lia. apply Z.mod_small. lia.
Qed.

Lemma to_uint32_to_int32 z : to_uint32 (to_int32 z) = z mod 4294967296.
Proof.
  unfold to_uint32, to_int32.
  pose proof (Z.mod_pos_bound z 4294967296 ltac:(lia)) as Hb.
  destruct (z mod 4294967296 <? 2147483648).
  - now rewrite Z.mod_mod by lia.
  - rewrite <- (Z.mod_add _ 1 4294967296) by lia.
    replace (z mod 4294967296 - 4294967296 + 1 * 4294967296)
      with (z mod 4294967296) by lia.
    now rewrite Z.mod_mod by lia.
Qed.

Lemma split16_join16 b0 b1 :
  byte b0 -> byte b1 -> split16 (join16 b0 b1) = (b0, b1).
Proof.
  unfold byte, split16, join16, to_uint16. intros H0 H1.
  destruct DXX_WORDS_BIGENDIAN.
  - rewrite (Z.mod_small (b0 * 256 + b1) 65536) by lia.
    destruct (div_mod_split 256 b0 b1 ltac:(lia) H1) as [-> ->]. reflexivity.
  - rewrite (Z.mod_small (b1 * 256 + b0) 65536) by lia.
    destruct (div_mod_split 256 b1 b0 ltac:(lia) H0) as [-> ->]. reflexivity.
Qed.

Lemma join16_range b0 b1 : byte b0 -> byte b1 -> 0 <= join16 b0 b1 < 65536.
Proof. unfold byte, join16. destruct DXX_WORDS_BIGENDIAN; lia. Qed.

Lemma SWAPSHORT_join16 b0 b1 :
  byte b0 -> byte b1 -> SWAPSHORT (to_int16 (join16 b0 b1)) = join16 b1 b0.
Proof.
  intros H0 H1. unfold SWAPSHORT. rewrite to_uint16_to_int16.
  rewrite (Z.mod_small (join16 b0 b1) 65536) by (apply join16_range; assumption).
  unfold byte, join16 in *. destruct DXX_WORDS_BIGENDIAN.
  - destruct (div_mod_split 256 b0 b1 ltac:(lia) H1) as [-> ->]. lia.
  - destruct (div_mod_split 256 b1 b0 ltac:(lia) H0) as [-> ->]. lia.
Qed.

(** The bytes a store leaves in the buffer. *)
Lemma store16_bytes m a v m' :
  store16 m a v = Some m' ->
  length m' = length m
  /\ at_index m' a = Some (fst (split16 v))
  /\ at_index m' (a + 1) = Some (snd (split16 v))
  /\ (forall x, x <> a -> x <> a + 1 -> at_index m' x = at_index m x).
Proof.
  unfold store16. destruct (split16 v) as [c0 c1]. cbn [fst snd].
  destruct (put_index m a c0) as [m1|] eqn:E1; [|discriminate].
  intros E2.
  split; [|split; [|split]].
  - rewrite (put_index_length _ _ _ _ E2). exact (put_index_length _ _ _ _ E1).
  - rewrite (at_index_put_index_other _ _ _ _ a E2) by lia.
    exact (at_index_put_index_same _ _ _ _ E1).
  - exact (at_index_put_index_same _ _ _ _ E2).
  - intros x Hx Hx'.
    rewrite (at_index_put_index_other _ _ _ _ x E2) by lia.
    exact (at_index_put_index_other _ _ _ _ x E1 Hx).
Qed.

Lemma store16_in_range m a v :
  0 <= a -> a + 2 <= Z.of_nat (length m) -> exists m', store16 m a v = Some m'.
Proof.
  intros Ha Hl. unfold store16. destruct (split16 v) as [c0 c1].
  destruct (put_index_in_range m a c0 ltac:(lia)) as (m1 & E1). rewrite E1.
  apply put_index_in_range. rewrite (put_index_length _ _ _ _ E1). lia.
Qed.

Lemma short_swap_reverses a s :
  Forall byte (mem s) ->
  0 <= a -> a + 2 <= Z.of_nat (length (mem s)) ->
  exists m',
    short_swap a s = (Val tt, set_mem m' s)
    /\ bytes_reversed a 2 (mem s) m'.
Proof.
  intros Hb Ha Hl.
  destruct (at_index_in_bounds (mem s) a ltac:(lia)) as (b0 & E0).
  destruct (at_index_in_bounds (mem s) (a + 1) ltac:(lia)) as (b1 & E1).
  pose proof (at_index_byte _ _ _ Hb E0) as B0.
  pose proof (at_index_byte _ _ _ Hb E1) as B1.
  destruct (store16_in_range (mem s) a (SWAPSHORT (to_int16 (join16 b0 b1))) Ha Hl)
    as (m' & Hst).
  exists m'. split.
  - unfold short_swap, w, set_wp, bind, gets, lift, load16.
    rewrite E0, E1. cbn [option_map ret]. rewrite Hst. reflexivity.
  - apply store16_bytes in Hst. destruct Hst as (L & A0 & A1 & Ao).
    rewrite (SWAPSHORT_join16 b0 b1 B0 B1) in A0, A1.
    rewrite (split16_join16 b1 b0 B1 B0) in A0, A1. cbn [fst snd] in A0, A1.
    split; [exact L|split].
    + intros i Hi. assert (Ei : i = 0 \/ i = 1) by lia.
      destruct Ei as [-> | ->].
      * rewrite Z.add_0_r. replace (a + (2 - 1 - 0)) with (a + 1) by lia. congruence.
      * replace (a + (2 - 1 - 1)) with a by lia. congruence.
    + intros x Hx. apply Ao; lia.
Qed.

(** A 32-bit value by its four bytes, the most significant first. *)
Lemma word_parts c3 c2 c1 c0 :
  byte c3 -> byte c2 -> byte c1 -> byte c0 ->
  let x := c3 * 16777216 + c2 * 65536 + c1 * 256 + c0 in
  0 <= x < 4294967296
  /\ x mod 256 = c0
  /\ (x / 256) mod 256 = c1
  /\ (x / 65536) mod 256 = c2
  /\ x / 16777216 = c3
  /\ x mod 65536 = c1 * 256 + c0
  /\ x / 65536 = c3 * 256 + c2.
Proof.
  intros H3 H2 H1 H0 x. unfold byte in *.
  assert (E1 : x = (c3 * 65536 + c2 * 256 + c1) * 256 + c0) by (subst x; lia).
  assert (E2 : x = (c3 * 256 + c2) * 65536 + (c1 * 256 + c0)) by (subst x; lia).
  assert (E3 : x = c3 * 16777216 + (c2 * 65536 + c1 * 256 + c0)) by (subst x; lia).
  destruct (div_mod_split 256 (c3 * 65536 + c2 * 256 + c1) c0 ltac:(lia) H0)
    as [D1 M1].
  destruct (div_mod_split 65536 (c3 * 256 + c2) (c1 * 256 + c0)
              ltac:(lia) ltac:(lia)) as [D2 M2].
  destruct (div_mod_split 16777216 c3 (c2 * 65536 + c1 * 256 + c0)
              ltac:(lia) ltac:(lia)) as [D3 M3].
  destruct (div_mod_split 256 (c3 * 256 + c2) c1 ltac:(lia) H1) as [_ M4].
  destruct (div_mod_split 256 c3 c2 ltac:(lia) H2) as [_ M5].
  rewrite <- E1 in D1, M1. rewrite <- E2 in D2, M2. rewrite <- E3 in D3.
  repeat match goal with |- _ /\ _ => split end;
    first
      [ lia
      | exact M1
      | rewrite D1;
        replace (c3 * 65536 + c2 * 256 + c1) with ((c3 * 256 + c2) * 256 + c1)
          by lia;
        exact M4
      | rewrite D2; exact M5
      | exact D3
      | exact M2
      | exact D2 ].
Qed.

Lemma SWAPINT_word c3 c2 c1 c0 :
  byte c3 -> byte c2 -> byte c1 -> byte c0 ->
  SWAPINT (to_int32 (c3 * 16777216 + c2 * 65536 + c1 * 256 + c0))
  = c0 * 16777216 + c1 * 65536 + c2 * 256 + c3.
Proof.
  intros H3 H2 H1 H0.
  destruct (word_parts c3 c2 c1 c0 H3 H2 H1 H0) as (R & P0 & P1 & P2 & P3 & _).
  unfold SWAPINT. rewrite to_uint32_to_int32.
  rewrite (Z.mod_small _ 4294967296) by exact R.
  rewrite P0, P1, P2, P3. reflexivity.
Qed.

Lemma store32_in_range m a v :
  0 <= a -> a + 4 <= Z.of_nat (length m) -> exists m', store32 m a v = Some m'.
Proof.
  intros Ha Hl. unfold store32.
  destruct (if DXX_WORDS_BIGENDIAN
            then (to_uint32 v / 65536, to_uint32 v mod 65536)
            else (to_uint32 v mod 65536, to_uint32 v / 65536)) as [h0 h1].
  destruct (store16_in_range m a h0 ltac:(lia) ltac:(lia)) as (m1 & E1).
  rewrite E1. apply store16_in_range; [lia|].
  rewrite (store16_length _ _ _ _ E1). lia.
Qed.

(** The two halves [store32] writes for the swapped value of the word
    whose bytes are [b0 b1 b2 b3] in the buffer. *)
Lemma swapped_halves b0 b1 b2 b3 :
  byte b0 -> byte b1 -> byte b2 -> byte b3 ->
  let v := SWAPINT (to_int32 (if DXX_WORDS_BIGENDIAN
                              then join16 b0 b1 * 65536 + join16 b2 b3
                              else join16 b2 b3 * 65536 + join16 b0 b1)) in
  (if DXX_WORDS_BIGENDIAN
   then (to_uint32 v / 65536, to_uint32 v mod 65536)
   else (to_uint32 v mod 65536, to_uint32 v / 65536))
  = (join16 b3 b2, join16 b1 b0).
Proof.
  intros H0 H1 H2 H3. unfold join16. destruct DXX_WORDS_BIGENDIAN; cbv zeta.
  - replace ((b0 * 256 + b1) * 65536 + (b2 * 256 + b3))
      with (b0 * 16777216 + b1 * 65536 + b2 * 256 + b3) by lia.
    rewrite (SWAPINT_word b0 b1 b2 b3 H0 H1 H2 H3).
    destruct (word_parts b3 b2 b1 b0 H3 H2 H1 H0) as (R & _ & _ & _ & _ & M & D).
    unfold to_uint32. rewrite (Z.mod_small _ 4294967296) by exact R.
    rewrite M, D. reflexivity.
  - replace ((b3 * 256 + b2) * 65536 + (b1 * 256 + b0))
      with (b3 * 16777216 + b2 * 65536 + b1 * 256 + b0) by lia.
    rewrite (SWAPINT_word b3 b2 b1 b0 H3 H2 H1 H0).
    destruct (word_parts b0 b1 b2 b3 H0 H1 H2 H3) as (R & _ & _ & _ & _ & M & D).
    unfold to_uint32. rewrite (Z.mod_small _ 4294967296) by exact R.
    rewrite M, D. reflexivity.
Qed.

Lemma fix_swap_reverses a s :
  Forall byte (mem s) ->
  0 <= a -> a + 4 <= Z.of_nat (length (mem s)) ->
  exists m',
    fix_swap a s = (Val tt, set_mem m' s)
    /\ bytes_reversed a 4 (mem s) m'.
Proof.
  intros Hb Ha Hl.
  destruct (at_index_in_bounds (mem s) a ltac:(lia)) as (b0 & E0).
  destruct (at_index_in_bounds (mem s) (a + 1) ltac:(lia)) as (b1 & E1).
  destruct (at_index_in_bounds (mem s) (a + 2) ltac:(lia)) as (b2 & E2).
  destruct (at_index_in_bounds (mem s) (a + 3) ltac:(lia)) as (b3 & E3).
  pose proof (at_index_byte _ _ _ Hb E0) as B0.
  pose proof (at_index_byte _ _ _ Hb E1) as B1.
  pose proof (at_index_byte _ _ _ Hb E2) as B2.
  pose proof (at_index_byte _ _ _ Hb E3) as B3.
  set (v := SWAPINT (to_int32 (if DXX_WORDS_BIGENDIAN
                               then join16 b0 b1 * 65536 + join16 b2 b3
                               else join16 b2 b3 * 65536 + join16 b0 b1))).
  destruct (store32_in_range (mem s) a v Ha Hl) as (m' & Hst).
  exists m'. split.
  - unfold fix_swap, fp, set_fp, bind, gets, lift, load32, load16.
    rewrite E0, E1. replace (a + 2 + 1) with (a + 3) by lia. rewrite E2, E3.
    cbn [option_map ret]. fold v. rewrite Hst. reflexivity.
  - unfold store32 in Hst.
    pose proof (swapped_halves b0 b1 b2 b3 B0 B1 B2 B3) as Hh.
    cbv zeta in Hh. fold v in Hh. rewrite Hh in Hst.
    destruct (store16 (mem s) a (join16 b3 b2)) as [m1|] eqn:S1; [|discriminate].
    apply store16_bytes in S1. destruct S1 as (L1 & A0 & A1 & Ao).
    apply store16_bytes in Hst. destruct Hst as (L2 & A2 & A3 & Ao').
    rewrite (split16_join16 b3 b2 B3 B2) in A0, A1.
    rewrite (split16_join16 b1 b0 B1 B0) in A2, A3.
    cbn [fst snd] in A0, A1, A2, A3.
    replace (a + 2 + 1) with (a + 3) in * by lia.
    split; [congruence|split].
    + intros i Hi. assert (Ei : i = 0 \/ i = 1 \/ i = 2 \/ i = 3) by lia.
      destruct Ei as [-> | [-> | [-> | ->]]].
      * rewrite Z.add_0_r. replace (a + (4 - 1 - 0)) with (a + 3) by lia.
        rewrite Ao' by lia. congruence.
      * replace (a + (4 - 1 - 1)) with (a + 2) by lia.
        rewrite Ao' by lia. congruence.
      * replace (a + (4 - 1 - 2)) with (a + 1) by lia. congruence.
      * replace (a + (4 - 1 - 3)) with a by lia. congruence.
    + intros x Hx. rewrite Ao' by lia. apply Ao; lia.
Qed.

Lemma at_index_ext (l l' : list Z) :
  (forall x, at_index l x = at_index l' x) -> l = l'.
Proof.
  intros H. apply nth_error_ext. intros n.
  specialize (H (Z.of_nat n)). unfold at_index in H.
  destruct (Z.ltb_spec (Z.of_nat n) 0); [lia|].
  now rewrite Nat2Z.id in H.
Qed.

Lemma set_mem_mem (s : world) m : set_mem (mem s) (set_mem m s) = s.
Proof. destruct s; reflexivity. Qed.

Lemma bytes_reversed_twice a n m m1 m2 :
  bytes_reversed a n m m1 -> bytes_reversed a n m1 m2 -> m2 = m.
Proof.
  intros (L1 & R1 & O1) (L2 & R2 & O2). apply at_index_ext. intros x.
  destruct (Z_le_dec a x) as [Hl|Hl]; [destruct (Z_lt_dec x (a + n)) as [Hu|Hu]|].
  - replace x with (a + (x - a)) at 1 by lia.
    rewrite R2 by lia. rewrite R1 by lia. f_equal; lia.
  - rewrite O2 by lia. apply O1. lia.
  - rewrite O2 by lia. apply O1. lia.
Qed.

Lemma bytes_reversed_bytes a n m m' :
  bytes_reversed a n m m' -> Forall byte m -> Forall byte m'.
Proof.
  intros (L & R & O) Hb. apply Forall_forall. intros b Hin.
  apply In_nth_error in Hin. destruct Hin as (k & Hk).
  assert (E : at_index m' (Z.of_nat k) = Some b).
  { unfold at_index. destruct (Z.ltb_spec (Z.of_nat k) 0); [lia|].
    now rewrite Nat2Z.id. }
  destruct (Z_le_dec a (Z.of_nat k)) as [Hl|Hl];
    [destruct (Z_lt_dec (Z.of_nat k) (a + n)) as [Hu|Hu]|].
  - replace (Z.of_nat k) with (a + (Z.of_nat k - a)) in E by lia.
    rewrite R in E by lia. exact (at_index_byte _ _ _ Hb E).
  - rewrite O in E by lia. exact (at_index_byte _ _ _ Hb E).
  - rewrite O in E by lia. exact (at_index_byte _ _ _ Hb E).
Qed.

(** The field swaps of the byte-order pass, on a buffer of bytes and a
    field that lies within it.  [short_swap] exchanges the two bytes of the
    field, [fix_swap] reverses its four bytes, [vms_vector_swap] reverses the
    bytes of each of the three words of the vector; nothing else is
    written, on a host of either byte order.  Swapping the same 16-bit or
    32-bit field again gives the buffer back. *)
Theorem field_swaps_reverse_bytes :
  forall a s,
    Forall byte (mem s) -> 0 <= a ->
    (a + 2 <= Z.of_nat (length (mem s)) ->
     exists m',
       short_swap a s = (Val tt, set_mem m' s)
       /\ bytes_reversed a 2 (mem s) m'
       /\ short_swap a (set_mem m' s) = (Val tt, s))
    /\ (a + 4 <= Z.of_nat (length (mem s)) ->
        exists m',
          fix_swap a s = (Val tt, set_mem m' s)
          /\ bytes_reversed a 4 (mem s) m'
          /\ fix_swap a (set_mem m' s) = (Val tt, s))
    /\ (a + 12 <= Z.of_nat (length (mem s)) ->
        exists m',
          vms_vector_swap a s = (Val tt, set_mem m' s)
          /\ words_reversed a 3 (mem s) m').
Proof.
  intros a s Hb Ha. split; [|split]; intros Hl.
  - destruct (short_swap_reverses a s Hb Ha Hl) as (m1 & Hrun & Hrev).
    exists m1. split; [exact Hrun|]. split; [exact Hrev|].
    destruct (short_swap_reverses a (set_mem m1 s)) as (m2 & Hrun2 & Hrev2).
    + exact (bytes_reversed_bytes _ _ _ _ Hrev Hb).
    + exact Ha.
    + cbn [set_mem mem]. rewrite (proj1 Hrev). exact Hl.
    + rewrite Hrun2. cbn [set_mem mem] in Hrev2.
      rewrite (bytes_reversed_twice _ _ _ _ _ Hrev Hrev2).
      f_equal. destruct s; reflexivity.
  - destruct (fix_swap_reverses a s Hb Ha Hl) as (m1 & Hrun & Hrev).
    exists m1. split; [exact Hrun|]. split; [exact Hrev|].
    destruct (fix_swap_reverses a (set_mem m1 s)) as (m2 & Hrun2 & Hrev2).
    + exact (bytes_reversed_bytes _ _ _ _ Hrev Hb).
    + exact Ha.
    + cbn [set_mem mem]. rewrite (proj1 Hrev). exact Hl.
    + rewrite Hrun2. cbn [set_mem mem] in Hrev2.
      rewrite (bytes_reversed_twice _ _ _ _ _ Hrev Hrev2).
      f_equal. destruct s; reflexivity.
  - destruct (fix_swap_reverses a s Hb Ha ltac:(lia)) as (m1 & Hrun1 & Hrev1).
    pose proof (bytes_reversed_bytes _ _ _ _ Hrev1 Hb) as Hb1.
    destruct (fix_swap_reverses (a + 4) (set_mem m1 s) Hb1 ltac:(lia))
      as (m2 & Hrun2 & Hrev2);
      [cbn [set_mem mem]; rewrite (proj1 Hrev1); lia|].
    cbn [set_mem mem] in Hrev2.
    pose proof (bytes_reversed_bytes _ _ _ _ Hrev2 Hb1) as Hb2.
    destruct (fix_swap_reverses (a + 8) (set_mem m2 s) Hb2 ltac:(lia))
      as (m3 & Hrun3 & Hrev3);
      [cbn [set_mem mem]; rewrite (proj1 Hrev2), (proj1 Hrev1); lia|].
    cbn [set_mem mem] in Hrev3.
    exists m3. split.
    + unfold vms_vector_swap.
      rewrite (bind_val _ _ _ _ _ Hrun1).
      assert (E2 : fix_swap (a + 4) (set_mem m1 s) = (Val tt, set_mem m2 s))
        by (rewrite Hrun2; reflexivity).
      rewrite (bind_val _ _ _ _ _ E2).
      rewrite Hrun3. reflexivity.
    + destruct Hrev1 as (L1 & R1 & O1), Hrev2 as (L2 & R2 & O2),
        Hrev3 as (L3 & R3 & O3).
      split; [congruence|split].
      * intros j i Hj Hi. assert (Ej : j = 0 \/ j = 1 \/ j = 2) by lia.
        destruct Ej as [-> | [-> | ->]].
        -- rewrite O3 by lia. rewrite O2 by lia.
           replace (a + 4 * 0 + i) with (a + i) by lia.
           rewrite R1 by lia. f_equal; lia.
        -- rewrite O3 by lia.
           replace (a + 4 * 1 + i) with (a + 4 + i) by lia.
           rewrite R2 by lia. rewrite O1 by lia. f_equal; lia.
        -- replace (a + 4 * 2 + i) with (a + 8 + i) by lia.
           rewrite R3 by lia. rewrite O2 by lia. rewrite O1 by lia. f_equal; lia.
      * intros x Hx. rewrite O3 by lia. rewrite O2 by lia. apply O1. lia.
Qed.

End FieldSwaps.

Lemma field_swaps_reverse_bytes_witness :
  exists m',
    @short_swap d2_config 0 flat3_world = (Val tt, @set_mem d2_config m' flat3_world)
    /\ bytes_reversed 0 2 (mem flat3_world) m'
    /\ @short_swap d2_config 0 (@set_mem d2_config m' flat3_world)
       = (Val tt, flat3_world).
Proof.
  refine (proj1 (@field_swaps_reverse_bytes d2_config 0 flat3_world
                   (all_bytes_Forall flat3_buffer eq_refl) (Z.le_refl 0)) _).
  cbv. discriminate.
Defined.

(** ** Polygons of fewer than three points *)

Section DebugRejects.
Context {C : Config}.
Hypothesis Hdbg : NDEBUG = false.

Lemma polygons_ok_dec t : {polygons_ok t} + {~ polygons_ok t}.
Proof.
  induction t as
    [ | n rest IH | n rest IH | nv rest IH | nv tex rest IH
    | fo bo front IHf back IHb rest IH | rest IH | off sub IHs rest IH | rest IH ];
    cbn [polygons_ok]; try assumption.
  - now left.
  - destruct (Z_lt_dec 2 nv); destruct IH; tauto.
  - destruct (Z_lt_dec 2 nv); destruct IH; tauto.
  - destruct IHf, IHb, IH; tauto.
  - destruct IHs, IH; tauto.
Qed.

Lemma fst_bind_err {A B} (m : M A) (f : A -> M B) s e :
  fst (m s) = Err e -> fst (bind m f s) = Err e.
Proof. unfold bind. destruct (m s) as [[a|e'] s1]; cbn; congruence. Qed.

Lemma nest_after_debug n k : nest_after n k = n + k.
Proof. unfold nest_after. now rewrite Hdbg. Qed.

Lemma reject_step rec p l h s op sz h1 s1 :
  get_raw_opcode p s = (Val op, s) ->
  op <> OP_EOF ->
  dispatch_polymodel_op (init_model_sub_ops rec) p
    {| highest_texture_num := h |} op s
  = (Val (sz, {| highest_texture_num := h1 |}), s1) ->
  fst (iterate_polymodel l (init_model_sub_ops rec) (p + sz)
         {| highest_texture_num := h1 |} s1) = Err AssertFail ->
  fst (iterate_polymodel (Datatypes.S l) (init_model_sub_ops rec) p
         {| highest_texture_num := h |} s) = Err AssertFail.
Proof.
  intros Hraw Hne Hd Hit.
  rewrite (iterate_polymodel_record (init_model_sub_ops rec) l p _ s op sz _ s1
             (eq_refl : translate_opcode (init_model_sub_ops rec)
                        = base_translate_opcode) Hraw Hne Hd).
  exact Hit.
Qed.

Lemma reject_here rec p l h s op :
  get_raw_opcode p s = (Val op, s) ->
  op <> OP_EOF ->
  fst (dispatch_polymodel_op (init_model_sub_ops rec) p
         {| highest_texture_num := h |} op s) = Err AssertFail ->
  fst (iterate_polymodel (Datatypes.S l) (init_model_sub_ops rec) p
         {| highest_texture_num := h |} s) = Err AssertFail.
Proof.
  intros Hraw Hne Hd.
  destruct (dispatch_polymodel_op (init_model_sub_ops rec) p
              {| highest_texture_num := h |} op s) as [[r|e] s1] eqn:E;
    [discriminate|].
  cbn [fst] in Hd. injection Hd as ->.
  rewrite (iterate_polymodel_fails (init_model_sub_ops rec) l p _ s op _ s1
             eq_refl Hraw Hne E).
  reflexivity.
Qed.

Lemma thin_assert_fails nv s :
  nv <= 2 -> Assert (ret (nv >? 2)) s = (Err AssertFail, s).
Proof.
  intros H. unfold Assert. rewrite Hdbg. unfold bind, ret.
  destruct (Z.gtb_spec nv 2); [lia|reflexivity].
Qed.

Lemma call_rejects_of_loop t : loop_rejects t -> call_rejects t.
Proof.
  intros Hl p fuel h s Hdec Hsep Hno Hn Hf.
  destruct fuel as [|fuel]; [lia|].
  cbn [init_model_sub].
  pose proof (nested_calls_nonneg t) as Nt.
  assert (Hb : NDEBUG = true \/ nest_count s + 1 < 1000) by (right; lia).
  rewrite (bind_val _ _ _ _ _ (assert_bump_nest_count s Hb)).
  rewrite Hdbg.
  apply fst_bind_err.
  apply Hl; try assumption;
    cbn [set_nest_count nest_count mem]; try assumption; lia.
Qed.

Lemma loop_rejects_all t : loop_rejects t.
Proof.
  induction t as
    [ | n rest IH | n rest IH | nv rest IH | nv tex rest IH
    | fo bo front IHf back IHb rest IH | rest IH | off sub IHs rest IH | rest IH ];
    intros p loop_fuel rec_fuel h s Hdec Hsep Hno Hn Hl Hr;
    inversion Hdec; subst; cbn [model_size] in Hl, Hr;
    cbn [polygons_ok] in Hno; cbn [nested_calls] in Hn;
    (destruct loop_fuel as [|l]; [lia|]);
    try match goal with H : tag_at _ p = Some _ |- _ => rename H into Ht end;
    try match goal with H : tag_at _ (p + 2) = Some _ |- _ => rename H into Hc end;
    try match goal with
        | H : decodes _ (p + layout_length _ _) rest |- _ => rename H into Hrest
        end;
    try pose proof (get_raw_opcode_tag_at _ _ _ Ht) as Hraw.
  - (* the end tag *)
    exfalso. apply Hno. exact I.
  - (* DefinePoints *)
    pose proof (init_dispatch_ignored (init_model_sub rec_fuel) p
                  {| highest_texture_num := h |} s DefinePoints n
                  ltac:(tauto) (base_get_op_subcount_tag_at _ _ _ Hc)) as Hd.
    apply (reject_step _ p l h s _ _ _ s Hraw ltac:(discriminate) Hd).
    apply IH; [exact Hrest| |exact Hno|exact Hn|lia|lia].
    apply (scan_separate_sub _ _ _ _ Hsep); in_solve.
  - (* DefinePointsWithStart *)
    pose proof (init_dispatch_ignored (init_model_sub rec_fuel) p
                  {| highest_texture_num := h |} s DefinePointsWithStart n
                  ltac:(tauto) (base_get_op_subcount_tag_at _ _ _ Hc)) as Hd.
    apply (reject_step _ p l h s _ _ _ s Hraw ltac:(discriminate) Hd).
    apply IH; [exact Hrest| |exact Hno|exact Hn|lia|lia].
    apply (scan_separate_sub _ _ _ _ Hsep); in_solve.
  - (* FlatPolygon *)
    destruct (Z_lt_dec 2 nv) as [Hnv|Hnv].
    + destruct (init_dispatch_flatpoly (init_model_sub rec_fuel) p
                  {| highest_texture_num := h |} s nv rest Ht Hc Hrest
                  (or_intror Hnv)) as (s1 & Hd & Hc1 & Hn1).
      assert (Hrest1 : decodes (mem s1) (p + layout_length FlatPolygon nv) rest)
        by (apply (decodes_later (Flat_polygon nv rest) p _ _ _ _ _
                     Hrest Hc1 Hsep); in_solve).
      apply (reject_step _ p l h s _ _ _ s1 Hraw ltac:(discriminate) Hd).
      apply IH; [exact Hrest1| |tauto|rewrite Hn1; exact Hn|lia|lia].
      apply (scan_separate_sub _ _ _ _ Hsep); in_solve.
    + apply (reject_here _ p l h s _ Hraw ltac:(discriminate)).
      dispatch_unfold.
      rewrite (bind_val _ _ _ _ _ (base_get_op_subcount_tag_at _ _ _ Hc)).
      apply fst_bind_err. unfold init_op_flatpoly. apply fst_bind_err.
      rewrite thin_assert_fails by lia. reflexivity.
  - (* TexturedPolygon *)
    match goal with H : short_at _ (p + 28) = Some tex |- _ => rename H into Htex end.
    destruct (Z_lt_dec 2 nv) as [Hnv|Hnv].
    + pose proof (init_dispatch_tmappoly (init_model_sub rec_fuel) p h s nv tex
                    Hc Htex (or_intror Hnv)) as Hd.
      apply (reject_step _ p l h s _ _ _ s Hraw ltac:(discriminate) Hd).
      apply IH; [exact Hrest| |tauto|exact Hn|lia|lia].
      apply (scan_separate_sub _ _ _ _ Hsep); in_solve.
    + apply (reject_here _ p l h s _ Hraw ltac:(discriminate)).
      dispatch_unfold.
      rewrite (bind_val _ _ _ _ _ (base_get_op_subcount_tag_at _ _ _ Hc)).
      apply fst_bind_err. unfold init_op_tmappoly. apply fst_bind_err.
      rewrite thin_assert_fails by lia. reflexivity.
  - (* SortByNormal *)
    pose proof (nested_calls_nonneg front) as Nf.
    pose proof (nested_calls_nonneg back) as Nb.
    pose proof (nested_calls_nonneg rest) as Nr.
    match goal with H : short_at _ (p + 28) = Some fo |- _ => rename H into Hfo end.
    match goal with H : short_at _ (p + 30) = Some bo |- _ => rename H into Hbo end.
    match goal with H : decodes _ (p + fo) front |- _ => rename H into Hf end.
    match goal with H : decodes _ (p + bo) back |- _ => rename H into Hb end.
    assert (Sf : scan_separate front (p + fo))
      by (apply (scan_separate_sub _ _ _ _ Hsep); in_solve).
    assert (Sb : scan_separate back (p + bo))
      by (apply (scan_separate_sub _ _ _ _ Hsep); in_solve).
    destruct (polygons_ok_dec front) as [Of|Of].
    + destruct (call_scans_of_loop front (loop_scans_all front) (p + fo) rec_fuel
                  h s Hf Sf) as (s1 & Hc1 & Hch1 & Hn1);
        [right; split; [exact Of|lia]|lia|].
      rewrite nest_after_debug in Hn1.
      assert (Hbo1 : short_at (mem s1) (p + 30) = Some bo)
        by (apply (short_at_later (Sort_by_normal fo bo front back rest) p
                     _ _ _ _ _ Hbo Hch1 Hsep);
            [ in_solve
            | cbn [scan_reads]; rewrite in_app_iff; left; cbn [In]; lia
            | cbn [scan_reads]; rewrite in_app_iff; left; cbn [In]; lia ]).
      assert (Hb1 : decodes (mem s1) (p + bo) back)
        by (apply (decodes_later (Sort_by_normal fo bo front back rest) p
                     _ _ _ _ _ Hb Hch1 Hsep); in_solve).
      destruct (polygons_ok_dec back) as [Ob|Ob].
      * destruct (call_scans_of_loop back (loop_scans_all back) (p + bo) rec_fuel
                    (scan_result front h) s1 Hb1 Sb) as (s2 & Hc2 & Hch2 & Hn2);
          [right; split; [exact Ob|lia]|lia|].
        rewrite nest_after_debug in Hn2.
        pose proof (changed_only_trans _ _ _ _ _ Hch1 Hch2) as Hch12.
        assert (Hrest2 : decodes (mem s2) (p + layout_length SortByNormal 0) rest)
          by (apply (decodes_later (Sort_by_normal fo bo front back rest) p
                       _ _ _ _ _ Hrest Hch12 Hsep); in_solve).
        assert (Hd : dispatch_polymodel_op
                       (init_model_sub_ops (init_model_sub rec_fuel)) p
                       {| highest_texture_num := h |} OP_SORTNORM s
                     = (Val (layout_length SortByNormal 0,
                             {| highest_texture_num :=
                                  scan_result back (scan_result front h) |}), s2))
          by (dispatch_unfold;
              erewrite bind_val; [reflexivity|];
              unfold init_op_sortnorm;
              rewrite (bind_val _ _ _ _ _ (w_short_at _ _ _ Hfo));
              cbn [highest_texture_num];
              rewrite (bind_val _ _ _ _ _ Hc1);
              rewrite (bind_val _ _ _ _ _ (w_short_at _ _ _ Hbo1));
              rewrite (bind_val _ _ _ _ _ Hc2); reflexivity).
        apply (reject_step _ p l h s _ _ _ s2 Hraw ltac:(discriminate) Hd).
        apply IH; [exact Hrest2| |tauto|lia|lia|lia].
        apply (scan_separate_sub _ _ _ _ Hsep); in_solve.
      * apply (reject_here _ p l h s _ Hraw ltac:(discriminate)).
        dispatch_unfold. apply fst_bind_err. unfold init_op_sortnorm.
        rewrite (bind_val _ _ _ _ _ (w_short_at _ _ _ Hfo)).
        cbn [highest_texture_num].
        rewrite (bind_val _ _ _ _ _ Hc1).
        rewrite (bind_val _ _ _ _ _ (w_short_at _ _ _ Hbo1)).
        apply fst_bind_err.
        apply (call_rejects_of_loop back IHb); [exact Hb1|exact Sb|exact Ob|lia|lia].
    + apply (reject_here _ p l h s _ Hraw ltac:(discriminate)).
      dispatch_unfold. apply fst_bind_err. unfold init_op_sortnorm.
      rewrite (bind_val _ _ _ _ _ (w_short_at _ _ _ Hfo)).
      cbn [highest_texture_num].
      apply fst_bind_err.
      apply (call_rejects_of_loop front IHf); [exact Hf|exact Sf|exact Of|lia|lia].
  - (* RodBitmap *)
    pose proof (init_dispatch_ignored (init_model_sub rec_fuel) p
                  {| highest_texture_num := h |} s RodBitmap 0
                  ltac:(tauto) eq_refl) as Hd.
    apply (reject_step _ p l h s _ _ _ s Hraw ltac:(discriminate) Hd).
    apply IH; [exact Hrest| |exact Hno|exact Hn|lia|lia].
    apply (scan_separate_sub _ _ _ _ Hsep); in_solve.
  - (* SubmodelCall *)
    pose proof (nested_calls_nonneg sub) as Ns.
    pose proof (nested_calls_nonneg rest) as Nr.
    match goal with H : short_at _ (p + 16) = Some off |- _ => rename H into Hoff end.
    match goal with H : decodes _ (p + off) sub |- _ => rename H into Hs end.
    assert (Ss : scan_separate sub (p + off))
      by (apply (scan_separate_sub _ _ _ _ Hsep); in_solve).
    destruct (polygons_ok_dec sub) as [Os|Os].
    + destruct (call_scans_of_loop sub (loop_scans_all sub) (p + off) rec_fuel
                  h s Hs Ss) as (s1 & Hc1 & Hch1 & Hn1);
        [right; split; [exact Os|lia]|lia|].
      rewrite nest_after_debug in Hn1.
      assert (Hrest1 : decodes (mem s1) (p + layout_length SubmodelCall 0) rest)
        by (apply (decodes_later (Submodel_call off sub rest) p
                     _ _ _ _ _ Hrest Hch1 Hsep); in_solve).
      assert (Hd : dispatch_polymodel_op
                     (init_model_sub_ops (init_model_sub rec_fuel)) p
                     {| highest_texture_num := h |} OP_SUBCALL s
                   = (Val (layout_length SubmodelCall 0,
                           {| highest_texture_num := scan_result sub h |}), s1))
        by (dispatch_unfold;
            erewrite bind_val; [reflexivity|];
            unfold init_op_subcall;
            rewrite (bind_val _ _ _ _ _ (w_short_at _ _ _ Hoff));
            cbn [highest_texture_num];
            rewrite (bind_val _ _ _ _ _ Hc1); reflexivity).
      apply (reject_step _ p l h s _ _ _ s1 Hraw ltac:(discriminate) Hd).
      apply IH; [exact Hrest1| |tauto|lia|lia|lia].
      apply (scan_separate_sub _ _ _ _ Hsep); in_solve.
    + apply (reject_here _ p l h s _ Hraw ltac:(discriminate)).
      dispatch_unfold. apply fst_bind_err. unfold init_op_subcall.
      rewrite (bind_val _ _ _ _ _ (w_short_at _ _ _ Hoff)).
      cbn [highest_texture_num].
      apply fst_bind_err.
      apply (call_rejects_of_loop sub IHs); [exact Hs|exact Ss|exact Os|lia|lia].
  - (* Glow *)
    pose proof (init_dispatch_ignored (init_model_sub rec_fuel) p
                  {| highest_texture_num := h |} s Glow 0
                  ltac:(tauto) eq_refl) as Hd.
    apply (reject_step _ p l h s _ _ _ s Hraw ltac:(discriminate) Hd).
    apply IH; [exact Hrest| |exact Hno|exact Hn|lia|lia].
    apply (scan_separate_sub _ _ _ _ Hsep); in_solve.
Qed.

End DebugRejects.

(** In a debug build the scan rejects every hierarchy that holds a flat
    or textured polygon of fewer than three points, wherever the polygon
    stands in it: the scan ends in the failed Assert on the point count.
    The hierarchy is one that decodes and whose records do not overlap, of
    a depth the Assert on [nest_count] lets pass.  A release build has
    neither Assert and scans the same hierarchy to its end. *)
Theorem debug_scan_rejects_thin_polygons :
  forall {C : Config} t p fuel s,
    NDEBUG = false ->
    decodes (mem s) p t ->
    scan_separate t p ->
    ~ polygons_ok t ->
    1 + nested_calls t < 1000 ->
    (model_size t < fuel)%nat ->
    fst (g3_init_polygon_model fuel p s) = Err AssertFail.
Proof.
  intros C t p fuel s Hdbg Hdec Hsep Hno Hn Hf.
  unfold g3_init_polygon_model. rewrite Hdbg.
  unfold bind at 1, modify at 1.
  apply (call_rejects_of_loop Hdbg t (loop_rejects_all Hdbg t));
    cbn [set_nest_count mem nest_count]; try assumption; lia.
Qed.

Lemma thin_flat_buffer_decodes :
  @decodes d2_debug_config thin_flat_buffer 0 (Flat_polygon 2 End_of_stream).
Proof.
  apply (@dec_flatpoly d2_debug_config); try reflexivity.
  apply (@dec_eof d2_debug_config). reflexivity.
Qed.

Lemma debug_scan_rejects_thin_polygons_witness :
  fst (@g3_init_polygon_model d2_debug_config 3 0 thin_flat_world) = Err AssertFail.
Proof.
  refine (@debug_scan_rejects_thin_polygons d2_debug_config
            (Flat_polygon 2 End_of_stream) 0 3 thin_flat_world eq_refl
            thin_flat_buffer_decodes
            (@scan_separateb_ok d2_debug_config (Flat_polygon 2 End_of_stream) 0 eq_refl)
            _ _ _).
  - cbn. lia.
  - cbn. lia.
  - cbn. lia.
Defined.

(** ** The byte-order pass on a stream of records *)

Section SwapFields.
Context {C : Config}.

Lemma fields_reversed_none m : fields_reversed no_field m m.
Proof.
  split; [reflexivity|]. split; [intros a w i []|reflexivity].
Qed.

Lemma fields_reversed_seq F1 F2 m m1 m2 :
  fields_reversed F1 m m1 -> fields_reversed F2 m1 m2 -> separated F1 F2 ->
  fields_reversed (both_fields F1 F2) m m2.
Proof.
  intros (L1 & R1 & O1) (L2 & R2 & O2) Hsep.
  split; [congruence|]. split.
  - intros a w i [Hf|Hf] Hi.
    + rewrite O2; [now apply R1|].
      intros a' w' Hf'. destruct (Hsep a w a' w' Hf Hf'); lia.
    + rewrite (R2 a w i Hf Hi). apply O1.
      intros a' w' Hf'. destruct (Hsep a' w' a w Hf' Hf); lia.
  - intros x Hx. rewrite O2; [apply O1|].
    + intros a w Hf. apply Hx. now left.
    + intros a w Hf. apply Hx. now right.
Qed.

Lemma fields_reversed_equiv F F' m m' :
  (forall a w, F a w <-> F' a w) -> fields_reversed F m m' -> fields_reversed F' m m'.
Proof.
  intros He (L & R & O). split; [exact L|]. split.
  - intros a w i Hf. apply R. now apply He.
  - intros x Hx. apply O. intros a w Hf. apply Hx. now apply He.
Qed.

Lemma bytes_reversed_fields a w m m' :
  bytes_reversed a w m m' -> fields_reversed (one_field a w) m m'.
Proof.
  intros (L & R & O). split; [exact L|]. split.
  - intros b v i [-> ->]. apply R.
  - intros x Hx. apply O. apply (Hx a w). now split.
Qed.

Lemma performs_ret : performs (ret tt) no_field.
Proof.
  intros s Hb _. exists (mem s). split; [|split; [apply fields_reversed_none|exact Hb]].
  unfold ret. f_equal. destruct s; reflexivity.
Qed.

Lemma performs_seq c1 c2 F1 F2 :
  performs c1 F1 -> performs c2 F2 -> separated F1 F2 ->
  performs (c1 ;;; c2) (both_fields F1 F2).
Proof.
  intros H1 H2 Hsep s Hb Hin.
  destruct (H1 s Hb) as (m1 & E1 & R1 & B1).
  { intros a w Hf. apply Hin. now left. }
  destruct (H2 (set_mem m1 s) B1) as (m2 & E2 & R2 & B2).
  { cbn [set_mem mem]. rewrite (proj1 R1). intros a w Hf. apply Hin. now right. }
  cbn [set_mem mem] in R2.
  exists m2. split; [|split; [exact (fields_reversed_seq _ _ _ _ _ R1 R2 Hsep)|exact B2]].
  rewrite (bind_val _ _ _ _ _ E1). rewrite E2. reflexivity.
Qed.

Lemma performs_equiv c F F' :
  (forall a w, F a w <-> F' a w) -> performs c F -> performs c F'.
Proof.
  intros He H s Hb Hin.
  destruct (H s Hb) as (m' & E & R & B).
  { intros a w Hf. apply Hin. now apply He. }
  exists m'. split; [exact E|]. split; [|exact B].
  exact (fields_reversed_equiv _ _ _ _ He R).
Qed.

Lemma performs_short_swap a : performs (short_swap a) (one_field a 2).
Proof.
  intros s Hb Hin. destruct (Hin a 2 (conj eq_refl eq_refl)) as [Ha Hl].
  destruct (short_swap_reverses a s Hb Ha Hl) as (m' & E & R).
  exists m'. split; [exact E|]. split.
  - now apply bytes_reversed_fields.
  - exact (bytes_reversed_bytes _ _ _ _ R Hb).
Qed.

Lemma performs_fix_swap a : performs (fix_swap a) (one_field a 4).
Proof.
  intros s Hb Hin. destruct (Hin a 4 (conj eq_refl eq_refl)) as [Ha Hl].
  destruct (fix_swap_reverses a s Hb Ha Hl) as (m' & E & R).
  exists m'. split; [exact E|]. split.
  - now apply bytes_reversed_fields.
  - exact (bytes_reversed_bytes _ _ _ _ R Hb).
Qed.

Lemma performs_vms_vector_swap a : performs (vms_vector_swap a) (vector_fields a).
Proof.
  unfold vms_vector_swap.
  apply (performs_equiv _
           (both_fields (one_field a 4)
              (both_fields (one_field (a + 4) 4) (one_field (a + 8) 4)))).
  - intros b w. unfold both_fields, one_field, vector_fields. intuition lia.
  - apply performs_seq; [apply performs_fix_swap| |].
    + apply performs_seq; [apply performs_fix_swap|apply performs_fix_swap|].
      intros b w b' w' [-> ->] [-> ->]. lia.
    + intros b w b' w' [-> ->] [[-> ->]|[-> ->]]; lia.
Qed.

Lemma performs_for_count n : forall i body (Fi : Z -> field_set),
  (forall j, i <= j < i + Z.of_nat n -> performs (body j) (Fi j)) ->
  (forall j j', i <= j < i + Z.of_nat n -> i <= j' < i + Z.of_nat n ->
     j < j' -> separated (Fi j) (Fi j')) ->
  performs (for_count n i body) (indexed_fields i (i + Z.of_nat n) Fi).
Proof.
  induction n as [|n IH]; intros i body Fi Hb Hs.
  - cbn [for_count]. apply (performs_equiv _ no_field); [|apply performs_ret].
    intros a w. unfold no_field, indexed_fields. split; [tauto|].
    intros (j & Hj & _). lia.
  - cbn [for_count].
    apply (performs_equiv _
             (both_fields (Fi i) (indexed_fields (i + 1) (i + 1 + Z.of_nat n) Fi))).
    + intros a w. unfold both_fields, indexed_fields. split.
      * intros [H|(j & Hj & H)]; [exists i; split; [lia|exact H]|].
        exists j. split; [lia|exact H].
      * intros (j & Hj & H). destruct (Z.eq_dec j i) as [->|Hne]; [now left|].
        right. exists j. split; [lia|exact H].
    + apply performs_seq.
      * apply Hb. lia.
      * apply IH.
        -- intros j Hj. apply Hb. lia.
        -- intros j j' Hj Hj'. apply Hs; lia.
      * intros a w a' w' H (j & Hj & H').
        apply (Hs i j ltac:(lia) ltac:(lia) ltac:(lia) a w a' w' H H').
Qed.

Lemma performs_for_upto n body (Fi : Z -> field_set) :
  0 <= n ->
  (forall j, 0 <= j < n -> performs (body j) (Fi j)) ->
  (forall j j', 0 <= j < n -> 0 <= j' < n -> j < j' -> separated (Fi j) (Fi j')) ->
  performs (for_upto n body) (indexed_fields 0 n Fi).
Proof.
  intros Hn Hb Hs. unfold for_upto.
  apply (performs_equiv _ (indexed_fields 0 (0 + Z.of_nat (Z.to_nat n)) Fi)).
  - intros a w. unfold indexed_fields.
    split; intros (j & Hj & H); exists j; (split; [lia|exact H]).
  - apply performs_for_count.
    + intros j Hj. apply Hb. lia.
    + intros j j' Hj Hj'. apply Hs; lia.
Qed.

End SwapFields.

Ltac sep_solve :=
  cbn [after_count_fields body_fields];
  unfold separated, both_fields, one_field, vector_fields, indexed_fields, no_field;
  intros;
  repeat match goal with
         | H : _ \/ _ |- _ => destruct H
         | H : _ /\ _ |- _ => destruct H
         | H : exists _, _ |- _ => destruct H
         | H : False |- _ => destruct H
         end;
  subst; lia.

Section SwapHandlers.
Context {C : Config}.
Hypothesis Hbe : DXX_WORDS_BIGENDIAN = true.

Lemma round_up_odd_ge n : n <= round_up_odd n.
Proof. unfold round_up_odd. destruct (Z.odd n); lia. Qed.

(** How the pass reads a 16-bit value of the file on the big-endian host,
    and what its store of the swapped value leaves in the buffer. *)
Lemma swapped_store a s v :
  Forall byte (mem s) ->
  file16 (mem s) a = Some v ->
  w a s = (Val (to_int16 (SWAPSHORT v)), s)
  /\ SWAPSHORT (to_int16 (SWAPSHORT v)) = v
  /\ 0 <= v < 65536
  /\ exists m',
       set_wp a v s = (Val tt, set_mem m' s)
       /\ fields_reversed (one_field a 2) (mem s) m'
       /\ Forall byte m'.
Proof.
  intros Hb. unfold file16.
  destruct (at_index (mem s) a) as [b0|] eqn:E0; [|discriminate].
  destruct (at_index (mem s) (a + 1)) as [b1|] eqn:E1; [|discriminate].
  intros Hv. injection Hv as <-.
  pose proof (at_index_byte _ _ _ Hb E0) as B0.
  pose proof (at_index_byte _ _ _ Hb E1) as B1.
  assert (Hj : forall x y, join16 x y = x * 256 + y)
    by (intros; unfold join16; now rewrite Hbe).
  assert (Hsw : SWAPSHORT (b1 * 256 + b0) = b0 * 256 + b1).
  { unfold SWAPSHORT, to_uint16. unfold byte in *.
    rewrite (Z.mod_small (b1 * 256 + b0) 65536) by lia.
    destruct (div_mod_split 256 b1 b0 ltac:(lia) B0) as [-> ->]. reflexivity. }
  assert (Hsw' : SWAPSHORT (to_int16 (b0 * 256 + b1)) = b1 * 256 + b0).
  { rewrite <- (Hj b0 b1), (SWAPSHORT_join16 b0 b1 B0 B1). apply Hj. }
  split; [|split; [|split]].
  - unfold w, bind, gets, lift, load16. rewrite E0, E1. cbn [option_map ret].
    rewrite Hj, Hsw. reflexivity.
  - rewrite Hsw. exact Hsw'.
  - unfold byte in *. lia.
  - assert (Ha : 0 <= a /\ a + 2 <= Z.of_nat (length (mem s))).
    { unfold at_index in E0, E1.
      destruct (Z.ltb_spec a 0); [discriminate|].
      destruct (Z.ltb_spec (a + 1) 0); [discriminate|].
      assert (Hn : nth_error (mem s) (Z.to_nat (a + 1)) <> None) by congruence.
      apply nth_error_Some in Hn. lia. }
    destruct (store16_in_range (mem s) a (b1 * 256 + b0) (proj1 Ha) (proj2 Ha))
      as (m' & Hst).
    exists m'. split; [|split].
    + unfold set_wp, bind, gets, lift. rewrite Hst. reflexivity.
    + apply store16_bytes in Hst. destruct Hst as (L & A0 & A1 & Ao).
      rewrite <- (Hj b1 b0) in A0, A1.
      rewrite (split16_join16 b1 b0 B1 B0) in A0, A1. cbn [fst snd] in A0, A1.
      split; [exact L|split].
      * intros b v i [-> ->] Hi. assert (Ei : i = 0 \/ i = 1) by lia.
        destruct Ei as [-> | ->].
        -- rewrite Z.add_0_r. replace (a + (2 - 1 - 0)) with (a + 1) by lia.
           congruence.
        -- replace (a + (2 - 1 - 1)) with a by lia. congruence.
      * intros x Hx. specialize (Hx a 2 (conj eq_refl eq_refl)). apply Ao; lia.
    + apply store16_bytes in Hst. destruct Hst as (L & A0 & A1 & Ao).
      rewrite <- (Hj b1 b0) in A0, A1.
      rewrite (split16_join16 b1 b0 B1 B0) in A0, A1. cbn [fst snd] in A0, A1.
      apply Forall_forall. intros b Hin.
      apply In_nth_error in Hin. destruct Hin as (k & Hk).
      assert (E : at_index m' (Z.of_nat k) = Some b).
      { unfold at_index. destruct (Z.ltb_spec (Z.of_nat k) 0); [lia|].
        now rewrite Nat2Z.id. }
      destruct (Z.eq_dec (Z.of_nat k) a) as [Ek|Ek].
      { rewrite Ek in E. assert (Eb : b = b1) by congruence.
        rewrite Eb. exact B1. }
      destruct (Z.eq_dec (Z.of_nat k) (a + 1)) as [Ek'|Ek'].
      { rewrite Ek' in E. assert (Eb : b = b0) by congruence.
        rewrite Eb. exact B0. }
      rewrite Ao in E by assumption. exact (at_index_byte _ _ _ Hb E).
Qed.

Lemma performs_seq_at c1 c2 F1 F2 s m1 :
  c1 s = (Val tt, set_mem m1 s) ->
  fields_reversed F1 (mem s) m1 ->
  Forall byte m1 ->
  performs c2 F2 ->
  separated F1 F2 ->
  (forall a w, F2 a w -> 0 <= a /\ a + w <= Z.of_nat (length (mem s))) ->
  exists m2,
    (c1 ;;; c2) s = (Val tt, set_mem m2 s)
    /\ fields_reversed (both_fields F1 F2) (mem s) m2
    /\ Forall byte m2.
Proof.
  intros E1 R1 B1 H2 Hsep Hin.
  destruct (H2 (set_mem m1 s) B1) as (m2 & E2 & R2 & B2).
  { cbn [set_mem mem]. rewrite (proj1 R1). exact Hin. }
  cbn [set_mem mem] in R2.
  exists m2. split; [|split; [exact (fields_reversed_seq _ _ _ _ _ R1 R2 Hsep)|exact B2]].
  rewrite (bind_val _ _ _ _ _ E1). rewrite E2. reflexivity.
Qed.

Lemma performs_after_count p o n :
  0 <= n -> counted o = true ->
  performs (after_count p o n) (after_count_fields p o n).
Proof.
  intros Hn Hc. pose proof (round_up_odd_ge n) as Hr.
  destruct o; try discriminate Hc; cbn [after_count after_count_fields];
    unfold sizeof_vms_vector, sizeof_g3s_uvl; rewrite ?land_lnot_1.
  - apply (performs_for_upto n _ (fun i => vector_fields (p + 4 + i * 12)) Hn).
    + intros j Hj. apply performs_vms_vector_swap.
    + intros j j' Hj Hj' Hlt. sep_solve.
  - apply performs_seq; [apply performs_short_swap| |sep_solve].
    apply (performs_for_upto n _ (fun i => vector_fields (p + 8 + i * 12)) Hn).
    + intros j Hj. apply performs_vms_vector_swap.
    + intros j j' Hj Hj' Hlt. sep_solve.
  - apply performs_seq; [apply performs_vms_vector_swap| |sep_solve].
    apply performs_seq; [apply performs_vms_vector_swap| |sep_solve].
    apply performs_seq; [apply performs_short_swap| |sep_solve].
    apply (performs_for_upto n _ (fun i => one_field (p + 30 + i * 2) 2) Hn).
    + intros j Hj. apply performs_short_swap.
    + intros j j' Hj Hj' Hlt. sep_solve.
  - apply performs_seq; [apply performs_vms_vector_swap| |sep_solve].
    apply performs_seq; [apply performs_vms_vector_swap| |sep_solve].
    apply performs_seq; [| |sep_solve].
    + apply (performs_for_upto n _
               (fun i => both_fields
                           (one_field (p + 30 + round_up_odd n * 2 + i * 12) 4)
                           (one_field (p + 30 + round_up_odd n * 2 + i * 12 + 4) 4))
               Hn).
      * intros j Hj. cbv zeta.
        apply performs_seq; [apply performs_fix_swap|apply performs_fix_swap|sep_solve].
      * intros j j' Hj Hj' Hlt. sep_solve.
    + apply performs_seq; [apply performs_short_swap| |sep_solve].
      apply (performs_for_upto n _ (fun i => one_field (p + 30 + i * 2) 2) Hn).
      * intros j Hj. apply performs_short_swap.
      * intros j j' Hj Hj' Hlt. sep_solve.
Qed.

Lemma performs_rodbm p : performs (swap_op_rodbm p tt) (body_fields p RodBitmap 0).
Proof.
  unfold swap_op_rodbm. cbn [body_fields].
  apply performs_seq; [apply performs_vms_vector_swap| |sep_solve].
  apply performs_seq; [apply performs_vms_vector_swap| |sep_solve].
  apply performs_seq; [apply performs_short_swap| |sep_solve].
  apply performs_seq; [apply performs_fix_swap|apply performs_fix_swap|sep_solve].
Qed.

Lemma performs_glow p : performs (swap_op_glow p tt) (body_fields p Glow 0).
Proof. apply performs_short_swap. Qed.

Lemma SWAPSHORT_to_uint16 x : SWAPSHORT (to_uint16 x) = SWAPSHORT x.
Proof. unfold SWAPSHORT, to_uint16. now rewrite Z.mod_mod by lia. Qed.

Lemma file16_range m a v : Forall byte m -> file16 m a = Some v -> 0 <= v < 65536.
Proof.
  intros Hb. unfold file16.
  destruct (at_index m a) as [b0|] eqn:E0; [|discriminate].
  destruct (at_index m (a + 1)) as [b1|] eqn:E1; [|discriminate].
  intros Hv. injection Hv as <-.
  pose proof (at_index_byte _ _ _ Hb E0). pose proof (at_index_byte _ _ _ Hb E1).
  unfold byte in *. lia.
Qed.

Lemma file16_bounds m a v :
  file16 m a = Some v -> 0 <= a /\ a + 2 <= Z.of_nat (length m).
Proof.
  unfold file16, at_index.
  destruct (Z.ltb_spec a 0); [discriminate|].
  destruct (nth_error m (Z.to_nat a)); [|discriminate].
  destruct (Z.ltb_spec (a + 1) 0); [discriminate|].
  destruct (nth_error m (Z.to_nat (a + 1))) eqn:E; [|discriminate].
  intros _. assert (Hn : nth_error m (Z.to_nat (a + 1)) <> None) by congruence.
  apply nth_error_Some in Hn. lia.
Qed.

Lemma file16_agree m m' a :
  at_index m' a = at_index m a -> at_index m' (a + 1) = at_index m (a + 1) ->
  file16 m' a = file16 m a.
Proof. intros H0 H1. unfold file16. now rewrite H0, H1. Qed.

Lemma body_fields_within p o n a w :
  0 <= n -> body_fields p o n a w ->
  p + 2 <= a /\ a + w <= p + layout_length o n.
Proof.
  intros Hn H. pose proof (round_up_odd_ge n) as Hr.
  destruct o; cbn [body_fields layout_length] in *;
    unfold both_fields, one_field, vector_fields, indexed_fields, no_field in H;
    repeat match goal with
           | H : _ \/ _ |- _ => destruct H
           | H : _ /\ _ |- _ => destruct H
           | H : exists _, _ |- _ => destruct H
           | H : False |- _ => destruct H
           end;
    subst; lia.
Qed.

Lemma record_fields_within p o n a w :
  0 <= n -> o <> EndOfStream -> record_fields p o n a w ->
  p <= a /\ a + w <= p + layout_length o n.
Proof.
  intros Hn Ho [[-> ->]|H].
  - pose proof (round_up_odd_ge n).
    destruct o; cbn [layout_length]; try congruence; lia.
  - pose proof (body_fields_within p o n a w Hn H). lia.
Qed.

(** One turn of the loop of the pass on a record that branches to no
    other. *)
Lemma swap_record rec p o n s :
  Forall byte (mem s) ->
  file16 (mem s) p = Some (opcode_tag o) ->
  o <> EndOfStream -> o <> SortByNormal -> o <> SubmodelCall ->
  (if counted o then file16 (mem s) (p + 2) = Some n else n = 0) ->
  p + layout_length o n <= Z.of_nat (length (mem s)) ->
  exists m',
    iterate_step (swap_polygon_model_data_ops rec) p tt s
    = (Val (Some (p + layout_length o n, tt)), set_mem m' s)
    /\ fields_reversed (record_fields p o n) (mem s) m'
    /\ Forall byte m'.
Proof.
  intros Hb Htag Ho Hs Hc Hn Hlen.
  destruct (swapped_store p s (opcode_tag o) Hb Htag)
    as (Hw & Hsw & _ & m1 & Hst & R1 & B1).
  pose proof (file16_bounds _ _ _ Htag) as [Hp _].
  assert (Hn0 : 0 <= n).
  { destruct (counted o); [|lia]. pose proof (file16_range _ _ _ Hb Hn). lia. }
  assert (Htagr : 1 <= opcode_tag o <= 8)
    by (destruct o; try congruence;
        cbv [opcode_tag OP_DEFPOINTS OP_FLATPOLY OP_TMAPPOLY OP_SORTNORM
             OP_RODBM OP_SUBCALL OP_DEFP_START OP_GLOW]; lia).
  set (raw := to_uint16 (to_int16 (SWAPSHORT (opcode_tag o)))).
  assert (Hraw : get_raw_opcode p s = (Val raw, s)).
  { unfold get_raw_opcode. rewrite (bind_val _ _ _ _ _ Hw). reflexivity. }
  assert (Hv : INTEL_SHORT raw = opcode_tag o).
  { unfold INTEL_SHORT. rewrite Hbe. subst raw.
    rewrite SWAPSHORT_to_uint16. exact Hsw. }
  assert (Hraw0 : (raw =? OP_EOF) = false).
  { apply Z.eqb_neq. intros E. rewrite E in Hv.
    unfold INTEL_SHORT in Hv. rewrite Hbe in Hv.
    change (SWAPSHORT OP_EOF) with 0 in Hv. lia. }
  assert (Htr : swap_translate_opcode p raw s = (Val (opcode_tag o), set_mem m1 s)).
  { unfold swap_translate_opcode. cbv zeta. rewrite Hv.
    rewrite (bind_val _ _ _ _ _ Hst). unfold ret. do 2 f_equal.
    unfold to_uint_fast32, to_uint32, to_int16.
    rewrite (Z.mod_small (opcode_tag o) 65536) by lia.
    destruct (Z.ltb_spec (opcode_tag o) 32768); [|lia].
    apply Z.mod_small. lia. }
  set (s1 := set_mem m1 s).
  assert (Hfar : forall x, p + 2 <= x -> at_index m1 x = at_index (mem s) x).
  { intros x Hx. apply (proj2 (proj2 R1)). intros a w [-> ->]. lia. }
  assert (Hin1 : forall a w, body_fields p o n a w ->
                   0 <= a /\ a + w <= Z.of_nat (length (mem s1))).
  { intros a w H. pose proof (body_fields_within p o n a w Hn0 H).
    subst s1. cbn [set_mem mem]. rewrite (proj1 R1). lia. }
  assert (Hbody : exists m2,
             dispatch_polymodel_op (swap_polygon_model_data_ops rec) p tt
               (opcode_tag o) s1
             = (Val (layout_length o n, tt), set_mem m2 s1)
             /\ fields_reversed (body_fields p o n) (mem s1) m2
             /\ Forall byte m2).
  { destruct o; try congruence; cbn [counted] in Hn;
      unfold dispatch_polymodel_op; cbn [opcode_tag];
      cbv [OP_EOF OP_DEFPOINTS OP_FLATPOLY OP_TMAPPOLY OP_SORTNORM
           OP_RODBM OP_SUBCALL OP_DEFP_START OP_GLOW Z.eqb Pos.eqb];
      cbv beta iota;
      cbn [swap_polygon_model_data_ops get_op_subcount op_defpoints op_defp_start
           op_flatpoly op_tmappoly op_rodbm op_glow].
    all: try (
      assert (Hn1 : file16 (mem s1) (p + 2) = Some n)
        by (rewrite <- Hn; apply file16_agree; apply Hfar; lia);
      destruct (swapped_store (p + 2) s1 n B1 Hn1)
        as (Hw2 & Hsw2 & _ & m2 & Hst2 & R2 & B2);
      assert (Hcnt : swap_get_op_subcount p s1 = (Val n, s1))
        by (unfold swap_get_op_subcount; rewrite (bind_val _ _ _ _ _ Hw2);
            unfold ret; now rewrite Hsw2);
      rewrite (bind_val _ _ _ _ _ Hcnt)).
    - destruct (performs_seq_at _ (after_count p DefinePoints n) _ _ s1 m2 Hst2 R2 B2
                  (performs_after_count p DefinePoints n Hn0 eq_refl))
        as (m3 & E3 & R3 & B3); [sep_solve| |].
      { intros a w H. apply Hin1. cbn [body_fields]. right. exact H. }
      exists m3. split; [|split; [exact R3|exact B3]].
      cbn [after_count] in E3. unfold swap_op_defpoints.
      rewrite (bind_val _ _ _ _ _ E3). unfold ret, layout_length, sizeof_vms_vector.
      do 3 f_equal. lia.
    - destruct (performs_seq_at _ (after_count p DefinePointsWithStart n) _ _ s1 m2
                  Hst2 R2 B2
                  (performs_after_count p DefinePointsWithStart n Hn0 eq_refl))
        as (m3 & E3 & R3 & B3); [sep_solve| |].
      { intros a w H. apply Hin1. cbn [body_fields]. right. exact H. }
      exists m3. split; [|split; [exact R3|exact B3]].
      cbn [after_count] in E3. unfold swap_op_defp_start.
      rewrite (bind_val _ _ _ _ _ E3). unfold ret, layout_length, sizeof_vms_vector.
      do 3 f_equal. lia.
    - destruct (performs_seq_at _ (after_count p FlatPolygon n) _ _ s1 m2 Hst2 R2 B2
                  (performs_after_count p FlatPolygon n Hn0 eq_refl))
        as (m3 & E3 & R3 & B3); [sep_solve| |].
      { intros a w H. apply Hin1. cbn [body_fields]. right. exact H. }
      exists m3. split; [|split; [exact R3|exact B3]].
      cbn [after_count] in E3. unfold swap_op_flatpoly.
      rewrite (bind_val _ _ _ _ _ E3). unfold ret, layout_length.
      rewrite land_lnot_1. reflexivity.
    - destruct (performs_seq_at _ (after_count p TexturedPolygon n) _ _ s1 m2 Hst2 R2 B2
                  (performs_after_count p TexturedPolygon n Hn0 eq_refl))
        as (m3 & E3 & R3 & B3);
        [pose proof (round_up_odd_ge n); sep_solve| |].
      { intros a w H. apply Hin1. cbn [body_fields]. right. exact H. }
      exists m3. split; [|split; [exact R3|exact B3]].
      cbn [after_count] in E3. unfold swap_op_tmappoly.
      rewrite (bind_val _ _ _ _ _ E3). unfold ret, layout_length.
      rewrite land_lnot_1. reflexivity.
    - subst n.
      destruct (performs_rodbm p s1 B1 Hin1) as (m2 & E2 & R2 & B2).
      exists m2. split; [|split; [exact R2|exact B2]].
      rewrite (bind_val _ _ _ _ _ E2). reflexivity.
    - subst n.
      destruct (performs_glow p s1 B1 Hin1) as (m2 & E2 & R2 & B2).
      exists m2. split; [|split; [exact R2|exact B2]].
      rewrite (bind_val _ _ _ _ _ E2). reflexivity. }
  destruct Hbody as (m2 & Hd & R2 & B2).
  subst s1. cbn [set_mem mem] in Hd, R2.
  exists m2. split; [|split; [|exact B2]].
  - unfold iterate_step. rewrite (bind_val _ _ _ _ _ Hraw). rewrite Hraw0.
    cbn [swap_polygon_model_data_ops translate_opcode].
    rewrite (bind_val _ _ _ _ _ Htr).
    rewrite (bind_val _ _ _ _ _ Hd). reflexivity.
  - apply (fields_reversed_seq _ _ _ _ _ R1 R2).
    intros a w a' w' [-> ->] H.
    pose proof (body_fields_within p o n a' w' Hn0 H). lia.
Qed.

Lemma layout_length_nonneg o n : 0 <= n -> 0 <= layout_length o n.
Proof.
  intros Hn. pose proof (round_up_odd_ge n).
  destruct o; cbn [layout_length]; lia.
Qed.

Lemma stream_count_nonneg m p o n :
  Forall byte m ->
  (if counted o then file16 m (p + 2) = Some n else n = 0) -> 0 <= n.
Proof.
  intros Hb H. destruct (counted o); [|lia].
  pose proof (file16_range _ _ _ Hb H). lia.
Qed.

Lemma stream_frame m m' : forall rs q,
  Forall byte m ->
  stream m q rs ->
  (forall x, q <= x -> at_index m' x = at_index m x) ->
  stream m' q rs.
Proof.
  induction rs as [|[o n] rs IH]; intros q Hb Hst Hfar; inversion Hst; subst.
  - apply stream_eof.
    match goal with H : file16 m q = _ |- _ => rewrite <- H end.
    apply file16_agree; apply Hfar; lia.
  - match goal with
    | Ht : file16 m q = _, Hn : if counted o then _ else _,
      Hr : stream m _ rs |- _ =>
        pose proof (stream_count_nonneg m q o n Hb Hn) as Hn0;
        pose proof (layout_length_nonneg o n Hn0) as Hl;
        apply stream_record;
          [ rewrite <- Ht; apply file16_agree; apply Hfar; lia
          | assumption
          | destruct (counted o);
              [rewrite <- Hn; apply file16_agree; apply Hfar; lia|exact Hn]
          | apply IH; [exact Hb|exact Hr|intros x Hx; apply Hfar; lia] ]
    end.
Qed.

Lemma stream_fields_from m : forall rs q a w,
  Forall byte m -> stream m q rs -> stream_fields q rs a w -> q <= a.
Proof.
  induction rs as [|[o n] rs IH]; intros q a w Hb Hst H; inversion Hst; subst.
  - destruct H.
  - match goal with
    | Hn : if counted o then _ else _, Hr : stream m _ rs, Ho : o <> EndOfStream |- _ =>
        pose proof (stream_count_nonneg m q o n Hb Hn) as Hn0;
        pose proof (layout_length_nonneg o n Hn0) as Hl;
        destruct H as [H|H];
          [ pose proof (record_fields_within q o n a w Hn0 Ho H); lia
          | pose proof (IH _ a w Hb Hr H); lia ]
    end.
Qed.

Lemma stream_readable m q rs : stream m q rs -> exists v, file16 m q = Some v.
Proof. intros H. inversion H; eauto. Qed.

(** The loop of the pass over a stream of records that branch to no
    other. *)
Lemma swap_stream rec : forall rs p s,
  Forall byte (mem s) ->
  stream (mem s) p rs ->
  Forall leaf_record rs ->
  exists m',
    iterate_polymodel (Datatypes.S (length rs)) (swap_polygon_model_data_ops rec)
      p tt s
    = (Val (p + stream_length rs, tt), set_mem m' s)
    /\ fields_reversed (stream_fields p rs) (mem s) m'
    /\ Forall byte m'.
Proof.
  induction rs as [|[o n] rs IH]; intros p s Hb Hst Hleaf; inversion Hst; subst.
  - exists (mem s). split; [|split; [apply fields_reversed_none|exact Hb]].
    match goal with
    | H : file16 (mem s) p = Some OP_EOF |- _ =>
        destruct (swapped_store p s OP_EOF Hb H) as (Hw & _)
    end.
    cbn [stream_length fold_right]. rewrite Z.add_0_r.
    replace (set_mem (mem s) s) with s by (destruct s; reflexivity).
    apply iterate_polymodel_eof.
    unfold get_raw_opcode. rewrite (bind_val _ _ _ _ _ Hw). reflexivity.
  - match goal with
    | Ht : file16 (mem s) p = _, Hn : if counted o then _ else _,
      Hr : stream (mem s) _ rs, Ho : o <> EndOfStream |- _ =>
        rename Ht into Htag; rename Hn into Hcnt; rename Hr into Hrest;
        rename Ho into Hne
    end.
    inversion Hleaf as [|r rs' [Hs Hc] Hleaf']; subst. cbn [fst] in Hs, Hc.
    pose proof (stream_count_nonneg _ p o n Hb Hcnt) as Hn0.
    destruct (stream_readable _ _ _ Hrest) as (v & Hv).
    pose proof (file16_bounds _ _ _ Hv) as [_ Hend].
    destruct (swap_record rec p o n s Hb Htag Hne Hs Hc Hcnt ltac:(lia))
      as (m1 & E1 & R1 & B1).
    assert (Hrest1 : stream m1 (p + layout_length o n) rs).
    { apply (stream_frame (mem s)); [exact Hb|exact Hrest|].
      intros x Hx. apply (proj2 (proj2 R1)). intros a w H.
      pose proof (record_fields_within p o n a w Hn0 Hne H). lia. }
    destruct (IH (p + layout_length o n) (set_mem m1 s) B1 Hrest1 Hleaf')
      as (m2 & E2 & R2 & B2).
    cbn [set_mem mem] in E2, R2.
    exists m2. split; [|split; [|exact B2]].
    + cbn [length].
      rewrite (iterate_polymodel_turn _ _ p tt s _ _ _ E1). rewrite E2.
      cbn [stream_length fold_right fst snd]. fold (stream_length rs).
      do 3 f_equal. lia.
    + cbn [stream_fields]. apply (fields_reversed_seq _ _ _ _ _ R1 R2).
      intros a w a' w' H H'.
      pose proof (record_fields_within p o n a w Hn0 Hne H).
      pose proof (stream_fields_from m1 rs _ a' w' B1 Hrest1 H'). lia.
Qed.

Lemma fields_reversed_host F m m' :
  fields_reversed F m m' -> host_reads_file F m m'.
Proof.
  intros (_ & R & _).
  assert (H16 : forall a, F a 2 -> load16 m' a = file16 m a).
  { intros a Hf.
    pose proof (R a 2 0 Hf ltac:(lia)) as R0.
    pose proof (R a 2 1 Hf ltac:(lia)) as R1.
    rewrite Z.add_0_r in R0. replace (a + (2 - 1 - 0)) with (a + 1) in R0 by lia.
    replace (a + (2 - 1 - 1)) with a in R1 by lia.
    unfold load16, file16, join16. rewrite R0, R1, Hbe.
    destruct (at_index m (a + 1)), (at_index m a); reflexivity. }
  split; [exact H16|].
  intros a Hf.
  pose proof (R a 4 0 Hf ltac:(lia)) as R0.
  pose proof (R a 4 1 Hf ltac:(lia)) as R1.
  pose proof (R a 4 2 Hf ltac:(lia)) as R2.
  pose proof (R a 4 3 Hf ltac:(lia)) as R3.
  rewrite Z.add_0_r in R0. replace (a + (4 - 1 - 0)) with (a + 3) in R0 by lia.
  replace (a + (4 - 1 - 1)) with (a + 2) in R1 by lia.
  replace (a + (4 - 1 - 2)) with (a + 1) in R2 by lia.
  replace (a + (4 - 1 - 3)) with a in R3 by lia.
  unfold load32, file32, load16, file16, join16.
  replace (a + 2 + 1) with (a + 3) by lia.
  rewrite R0, R1, R2, R3, Hbe.
  destruct (at_index m (a + 3)), (at_index m (a + 2)), (at_index m (a + 1)),
    (at_index m a); reflexivity.
Qed.

End SwapHandlers.

(** The byte-order pass on a big-endian host, run on a buffer of bytes
    that holds, in the byte order of the files, a stream of records that
    branch to no other (no SortByNormal, no SubmodelCall) and then the end
    tag.  The pass returns; it has reversed the bytes of every multi-byte
    field of every record (tag, count, vectors, colour or texture index,
    index table, the [u] and [v] of the texture coordinates, the widths of
    a rod) and has written no other byte: the padding entry of an index
    table and the [l] of a texture coordinate are as in the file.  Every
    field it swapped now reads on the host as the file has it. *)
Theorem swap_pass_converts_fields :
  forall {C : Config} p rs s,
    DXX_WORDS_BIGENDIAN = true ->
    Forall byte (mem s) ->
    stream (mem s) p rs ->
    Forall leaf_record rs ->
    exists m',
      swap_polygon_model_data (2 + length rs) p s = (Val tt, set_mem m' s)
      /\ fields_reversed (stream_fields p rs) (mem s) m'
      /\ host_reads_file (stream_fields p rs) (mem s) m'.
Proof.
  intros C p rs s Hbe Hb Hst Hleaf.
  cbn [swap_polygon_model_data Nat.add].
  destruct (swap_stream Hbe (swap_polygon_model_data (Datatypes.S (length rs)))
              rs p s Hb Hst Hleaf) as (m' & E & R & _).
  exists m'. split; [|split; [exact R|exact (fields_reversed_host Hbe _ _ _ R)]].
  rewrite (bind_val _ _ _ _ _ E). reflexivity.
Qed.

Lemma two_record_buffer_stream :
  stream two_record_buffer 0 [(Glow, 0); (FlatPolygon, 3)].
Proof.
  apply (stream_record _ 0 Glow 0); [reflexivity|discriminate|reflexivity|].
  apply (stream_record _ _ FlatPolygon 3); [reflexivity|discriminate|reflexivity|].
  apply stream_eof. reflexivity.
Qed.

Lemma swap_pass_converts_fields_witness :
  exists m',
    @swap_polygon_model_data be_config 4 0 two_record_be_world
    = (Val tt, @set_mem be_config m' two_record_be_world)
    /\ fields_reversed (stream_fields 0 [(Glow, 0); (FlatPolygon, 3)])
         two_record_buffer m'
    /\ @host_reads_file be_config (stream_fields 0 [(Glow, 0); (FlatPolygon, 3)])
         two_record_buffer m'.
Proof.
  refine (@swap_pass_converts_fields be_config 0 [(Glow, 0); (FlatPolygon, 3)]
            two_record_be_world eq_refl
            (all_bytes_Forall two_record_buffer eq_refl) two_record_buffer_stream _).
  repeat constructor; cbn; discriminate.
Defined.

(** ** The byte-order pass on a hierarchy *)

Section SwapHierarchy.
Context {C : Config}.
Hypothesis Hbe : DXX_WORDS_BIGENDIAN = true.

Lemma apart_app l1 l2 :
  apart (l1 ++ l2) ->
  apart l1 /\ apart l2
  /\ forall x y, In x l1 -> In y l2 -> extents_apart x y.
Proof.
  induction l1 as [|a l1 IH]; cbn [app apart].
  - intros H. split; [exact I|]. split; [exact H|]. intros x y [].
  - intros [Hf Ha]. apply Forall_app in Hf. destruct Hf as [Hf1 Hf2].
    destruct (IH Ha) as (H1 & H2 & Hx).
    split; [split; assumption|]. split; [exact H2|].
    intros x y [<-|Hin] Hy.
    + rewrite Forall_forall in Hf2. now apply Hf2.
    + now apply Hx.
Qed.

Lemma apartb_ok l : apartb l = true -> apart l.
Proof.
  induction l as [|x l IH]; cbn [apartb apart]; [trivial|].
  intros H. apply andb_prop in H. destruct H as [Hf Ha].
  split; [|now apply IH].
  apply Forall_forall. intros y Hy.
  rewrite forallb_forall in Hf. specialize (Hf y Hy).
  apply orb_prop in Hf. unfold extents_apart.
  destruct Hf as [Hf|Hf]; apply Z.leb_le in Hf; lia.
Qed.

Lemma held_apart_separated (F1 F2 : field_set) l1 l2 :
  (forall a w, F1 a w -> held l1 a w) ->
  (forall a w, F2 a w -> held l2 a w) ->
  (forall x y, In x l1 -> In y l2 -> extents_apart x y) ->
  separated F1 F2.
Proof.
  intros H1 H2 Ha a w a' w' Hf Hf'.
  destruct (H1 a w Hf) as (e & He & B1 & B2).
  destruct (H2 a' w' Hf') as (e' & He' & B1' & B2').
  pose proof (Ha e e' He He') as Hd. unfold extents_apart in Hd. lia.
Qed.

Lemma held_here e l a w :
  fst e <= a -> a + w <= fst e + snd e -> held (e :: l) a w.
Proof. intros H1 H2. exists e. split; [now left|lia]. Qed.

Lemma held_later e l a w : held l a w -> held (e :: l) a w.
Proof. intros (x & Hx & H). exists x. split; [now right|exact H]. Qed.

Lemma held_app_l l1 l2 a w : held l1 a w -> held (l1 ++ l2) a w.
Proof.
  intros (x & Hx & H). exists x. split; [apply in_or_app; now left|exact H].
Qed.

Lemma held_app_r l1 l2 a w : held l2 a w -> held (l1 ++ l2) a w.
Proof.
  intros (x & Hx & H). exists x. split; [apply in_or_app; now right|exact H].
Qed.

Lemma covered_here e l x : fst e <= x < fst e + snd e -> covered (e :: l) x.
Proof. intros H. exists e. split; [now left|exact H]. Qed.

Lemma covered_later e l x : covered l x -> covered (e :: l) x.
Proof. intros (y & Hy & H). exists y. split; [now right|exact H]. Qed.

Lemma covered_app_l l1 l2 x : covered l1 x -> covered (l1 ++ l2) x.
Proof.
  intros (y & Hy & H). exists y. split; [apply in_or_app; now left|exact H].
Qed.

Lemma covered_app_r l1 l2 x : covered l2 x -> covered (l1 ++ l2) x.
Proof.
  intros (y & Hy & H). exists y. split; [apply in_or_app; now right|exact H].
Qed.

Lemma file_short_bounds m a v :
  file_short m a = Some v -> 0 <= a /\ a + 2 <= Z.of_nat (length m).
Proof.
  unfold file_short. destruct (file16 m a) as [x|] eqn:E; [|discriminate].
  intros _. exact (file16_bounds _ _ _ E).
Qed.

(** The fields of a hierarchy lie within the extents of its records. *)
Lemma tree_fields_held m p t :
  Forall byte m -> file_decodes m p t ->
  forall a w, tree_fields p t a w -> held (tree_extents p t) a w.
Proof.
  intros Hb Hd. induction Hd; intros a w Hq; cbn [tree_fields tree_extents] in *.
  - destruct Hq.
  - destruct Hq as [Hq|Hq]; [|apply held_later; now apply IHHd].
    match goal with Hn : file16 m (p + 2) = Some n |- _ =>
      pose proof (file16_range _ _ _ Hb Hn) end.
    pose proof (record_fields_within p DefinePoints n a w ltac:(lia)
                  ltac:(discriminate) Hq).
    apply held_here; cbn [fst snd]; lia.
  - destruct Hq as [Hq|Hq]; [|apply held_later; now apply IHHd].
    match goal with Hn : file16 m (p + 2) = Some n |- _ =>
      pose proof (file16_range _ _ _ Hb Hn) end.
    pose proof (record_fields_within p DefinePointsWithStart n a w ltac:(lia)
                  ltac:(discriminate) Hq).
    apply held_here; cbn [fst snd]; lia.
  - destruct Hq as [Hq|Hq]; [|apply held_later; now apply IHHd].
    match goal with Hn : file16 m (p + 2) = Some nv |- _ =>
      pose proof (file16_range _ _ _ Hb Hn) end.
    pose proof (record_fields_within p FlatPolygon nv a w ltac:(lia)
                  ltac:(discriminate) Hq).
    apply held_here; cbn [fst snd]; lia.
  - destruct Hq as [Hq|Hq]; [|apply held_later; now apply IHHd].
    match goal with Hn : file16 m (p + 2) = Some nv |- _ =>
      pose proof (file16_range _ _ _ Hb Hn) end.
    pose proof (record_fields_within p TexturedPolygon nv a w ltac:(lia)
                  ltac:(discriminate) Hq).
    apply held_here; cbn [fst snd]; lia.
  - destruct Hq as [Hq|[Hq|[Hq|Hq]]].
    + pose proof (record_fields_within p SortByNormal 0 a w ltac:(lia)
                    ltac:(discriminate) Hq).
      apply held_here; cbn [fst snd]; lia.
    + apply held_later, held_app_l. now apply IHHd1.
    + apply held_later, held_app_r, held_app_l. now apply IHHd2.
    + apply held_later, held_app_r, held_app_r. now apply IHHd3.
  - destruct Hq as [Hq|Hq]; [|apply held_later; now apply IHHd].
    pose proof (record_fields_within p RodBitmap 0 a w ltac:(lia)
                  ltac:(discriminate) Hq).
    apply held_here; cbn [fst snd]; lia.
  - destruct Hq as [Hq|[Hq|Hq]].
    + pose proof (record_fields_within p SubmodelCall 0 a w ltac:(lia)
                    ltac:(discriminate) Hq).
      apply held_here; cbn [fst snd]; lia.
    + apply held_later, held_app_l. now apply IHHd1.
    + apply held_later, held_app_r. now apply IHHd2.
  - destruct Hq as [Hq|Hq]; [|apply held_later; now apply IHHd].
    pose proof (record_fields_within p Glow 0 a w ltac:(lia)
                  ltac:(discriminate) Hq).
    apply held_here; cbn [fst snd]; lia.
Qed.

Lemma file_short_agree m m' a :
  at_index m' a = at_index m a -> at_index m' (a + 1) = at_index m (a + 1) ->
  file_short m' a = file_short m a.
Proof. intros H0 H1. unfold file_short. now rewrite (file16_agree m m' a H0 H1). Qed.

(** A decoding depends on the bytes within the extents only. *)
Lemma file_decodes_frame m m' p t :
  Forall byte m -> file_decodes m p t ->
  (forall x, covered (tree_extents p t) x -> at_index m' x = at_index m x) ->
  file_decodes m' p t.
Proof.
  intros Hb Hd. induction Hd; intros Hc; cbn [tree_extents] in Hc;
    try match goal with Hn : file16 m (p + 2) = Some ?n |- _ =>
          pose proof (file16_range _ _ _ Hb Hn) as Hn0;
          pose proof (round_up_odd_ge n) as Hr
        end.
  - apply fdec_eof.
    rewrite (file16_agree m m' p); [assumption| |];
      apply Hc, covered_here; cbn [fst snd]; lia.
  - apply fdec_defpoints;
      [ rewrite (file16_agree m m' p); [assumption| |];
          apply Hc, covered_here; cbn [fst snd layout_length]; lia
      | rewrite (file16_agree m m' (p + 2)); [assumption| |];
          apply Hc, covered_here; cbn [fst snd layout_length]; lia
      | apply IHHd; intros x Hx; apply Hc, covered_later, Hx ].
  - apply fdec_defp_start;
      [ rewrite (file16_agree m m' p); [assumption| |];
          apply Hc, covered_here; cbn [fst snd layout_length]; lia
      | rewrite (file16_agree m m' (p + 2)); [assumption| |];
          apply Hc, covered_here; cbn [fst snd layout_length]; lia
      | apply IHHd; intros x Hx; apply Hc, covered_later, Hx ].
  - apply fdec_flatpoly;
      [ rewrite (file16_agree m m' p); [assumption| |];
          apply Hc, covered_here; cbn [fst snd layout_length]; lia
      | rewrite (file16_agree m m' (p + 2)); [assumption| |];
          apply Hc, covered_here; cbn [fst snd layout_length]; lia
      | apply IHHd; intros x Hx; apply Hc, covered_later, Hx ].
  - apply fdec_tmappoly;
      [ rewrite (file16_agree m m' p); [assumption| |];
          apply Hc, covered_here; cbn [fst snd layout_length]; lia
      | rewrite (file16_agree m m' (p + 2)); [assumption| |];
          apply Hc, covered_here; cbn [fst snd layout_length]; lia
      | rewrite (file_short_agree m m' (p + 28)); [assumption| |];
          apply Hc, covered_here; cbn [fst snd layout_length]; lia
      | apply IHHd; intros x Hx; apply Hc, covered_later, Hx ].
  - apply fdec_sortnorm;
      [ rewrite (file16_agree m m' p); [assumption| |];
          apply Hc, covered_here; cbn [fst snd layout_length]; lia
      | rewrite (file_short_agree m m' (p + 28)); [assumption| |];
          apply Hc, covered_here; cbn [fst snd layout_length]; lia
      | rewrite (file_short_agree m m' (p + 30)); [assumption| |];
          apply Hc, covered_here; cbn [fst snd layout_length]; lia
      | apply IHHd1; intros x Hx; apply Hc, covered_later, covered_app_l, Hx
      | apply IHHd2; intros x Hx;
          apply Hc, covered_later, covered_app_r, covered_app_l, Hx
      | apply IHHd3; intros x Hx;
          apply Hc, covered_later, covered_app_r, covered_app_r, Hx ].
  - apply fdec_rodbm;
      [ rewrite (file16_agree m m' p); [assumption| |];
          apply Hc, covered_here; cbn [fst snd layout_length]; lia
      | apply IHHd; intros x Hx; apply Hc, covered_later, Hx ].
  - apply fdec_subcall;
      [ rewrite (file16_agree m m' p); [assumption| |];
          apply Hc, covered_here; cbn [fst snd layout_length]; lia
      | rewrite (file_short_agree m m' (p + 16)); [assumption| |];
          apply Hc, covered_here; cbn [fst snd layout_length]; lia
      | apply IHHd1; intros x Hx; apply Hc, covered_later, covered_app_l, Hx
      | apply IHHd2; intros x Hx; apply Hc, covered_later, covered_app_r, Hx ].
  - apply fdec_glow;
      [ rewrite (file16_agree m m' p); [assumption| |];
          apply Hc, covered_here; cbn [fst snd layout_length]; lia
      | apply IHHd; intros x Hx; apply Hc, covered_later, Hx ].
Qed.

(** Swaps of fields held in [l1] leave the bytes of [l2] alone when no
    extent of [l1] overlaps one of [l2]. *)
Lemma reversed_elsewhere (F : field_set) l1 l2 m m' :
  fields_reversed F m m' ->
  (forall a w, F a w -> held l1 a w) ->
  (forall x y, In x l1 -> In y l2 -> extents_apart x y) ->
  forall x, covered l2 x -> at_index m' x = at_index m x.
Proof.
  intros (_ & _ & O) Hh Ha x (e & He & Hx). apply O.
  intros a w Hf (B1 & B2).
  destruct (Hh a w Hf) as (e' & He' & B1' & B2').
  pose proof (Ha e' e He' He) as Hd. unfold extents_apart in Hd. lia.
Qed.

Lemma file_decodes_readable m p t :
  file_decodes m p t -> exists v, file16 m p = Some v.
Proof. intros H. inversion H; eauto. Qed.

Lemma call_converts_of_loop t : loop_converts t -> call_converts t.
Proof.
  intros Hl p fuel s Hb Hd Ha Hf.
  destruct fuel as [|fuel]; [lia|].
  destruct (Hl p fuel fuel s Hb Hd Ha ltac:(lia) ltac:(lia))
    as (pend & m' & E & R & B & D).
  exists m'. split; [|split; [|split]; assumption].
  cbn [swap_polygon_model_data]. rewrite (bind_val _ _ _ _ _ E). reflexivity.
Qed.

(** The head of a turn of the loop: the tag is read, swapped in place and
    dispatched on. *)
Lemma swap_tag_turn rec p s tag :
  1 <= tag <= 8 ->
  Forall byte (mem s) ->
  file16 (mem s) p = Some tag ->
  exists m1,
    iterate_step (swap_polygon_model_data_ops rec) p tt s
    = ('(sz, st') <- dispatch_polymodel_op (swap_polygon_model_data_ops rec) p tt tag ;;
       ret (Some (p + sz, st'))) (set_mem m1 s)
    /\ fields_reversed (one_field p 2) (mem s) m1
    /\ Forall byte m1.
Proof.
  intros Htagr Hb Htag.
  destruct (swapped_store Hbe p s tag Hb Htag) as (Hw & Hsw & _ & m1 & Hst & R1 & B1).
  exists m1. split; [|split; assumption].
  set (raw := to_uint16 (to_int16 (SWAPSHORT tag))).
  assert (Hraw : get_raw_opcode p s = (Val raw, s)).
  { unfold get_raw_opcode. rewrite (bind_val _ _ _ _ _ Hw). reflexivity. }
  assert (Hv : INTEL_SHORT raw = tag).
  { unfold INTEL_SHORT. rewrite Hbe. subst raw.
    rewrite SWAPSHORT_to_uint16. exact Hsw. }
  assert (Hraw0 : (raw =? OP_EOF) = false).
  { apply Z.eqb_neq. intros E. rewrite E in Hv.
    unfold INTEL_SHORT in Hv. rewrite Hbe in Hv.
    change (SWAPSHORT OP_EOF) with 0 in Hv. lia. }
  assert (Htr : swap_translate_opcode p raw s = (Val tag, set_mem m1 s)).
  { unfold swap_translate_opcode. cbv zeta. rewrite Hv.
    rewrite (bind_val _ _ _ _ _ Hst). unfold ret. do 2 f_equal.
    unfold to_uint_fast32, to_uint32, to_int16.
    rewrite (Z.mod_small tag 65536) by lia.
    destruct (Z.ltb_spec tag 32768); [|lia].
    apply Z.mod_small. lia. }
  unfold iterate_step. rewrite (bind_val _ _ _ _ _ Hraw). rewrite Hraw0.
  cbn [swap_polygon_model_data_ops translate_opcode].
  rewrite (bind_val _ _ _ _ _ Htr). reflexivity.
Qed.

Lemma seq_assoc {A} (c1 c2 : M unit) (K : M A) s :
  (c1 ;;; c2 ;;; K) s = ((c1 ;;; c2) ;;; K) s.
Proof.
  unfold bind. destruct (c1 s) as [[[]|e] s1]; [|reflexivity].
  destruct (c2 s1) as [[[]|e] s2]; reflexivity.
Qed.

(** The host reads a 16-bit field the pass has swapped as the file has
    it, also after swaps elsewhere. *)
Lemma swapped_short (F : field_set) m m' a v s :
  fields_reversed F m m' -> F a 2 ->
  file_short m a = Some v ->
  mem s = m' ->
  w a s = (Val v, s).
Proof.
  intros R Hf Hv Hm. apply w_short_at. rewrite Hm. unfold short_at.
  rewrite (proj1 (fields_reversed_host Hbe _ _ _ R) a Hf). exact Hv.
Qed.

Lemma host_tag (F : field_set) m m' a v :
  Forall byte m -> fields_reversed F m m' -> F a 2 ->
  file16 m a = Some v -> tag_at m' a = Some v.
Proof.
  intros Hb R Hf Hv. unfold tag_at.
  rewrite (proj1 (fields_reversed_host Hbe _ _ _ R) a Hf), Hv. cbn [option_map].
  rewrite to_uint16_to_int16. f_equal. apply Z.mod_small.
  exact (file16_range _ _ _ Hb Hv).
Qed.

Lemma host_short (F : field_set) m m' a v :
  fields_reversed F m m' -> F a 2 ->
  file_short m a = Some v -> short_at m' a = Some v.
Proof.
  intros R Hf Hv. unfold short_at.
  rewrite (proj1 (fields_reversed_host Hbe _ _ _ R) a Hf). exact Hv.
Qed.

Lemma end_tag_host m p :
  Forall byte m -> file16 m p = Some OP_EOF -> tag_at m p = Some OP_EOF.
Proof.
  intros Hb. unfold file16, tag_at, load16.
  destruct (at_index m p) as [b0|] eqn:E0; [|discriminate].
  destruct (at_index m (p + 1)) as [b1|] eqn:E1; [|discriminate].
  pose proof (at_index_byte _ _ _ Hb E0) as B0.
  pose proof (at_index_byte _ _ _ Hb E1) as B1.
  unfold byte, OP_EOF in *. intros H. injection H as H.
  assert (b0 = 0) by lia. assert (b1 = 0) by lia. subst.
  unfold join16. destruct DXX_WORDS_BIGENDIAN; reflexivity.
Qed.

Lemma cross_sym l1 l2 : cross l1 l2 -> cross l2 l1.
Proof.
  intros H x y Hx Hy. specialize (H y x Hy Hx). unfold extents_apart in *. lia.
Qed.

(** The scan reads within the extents of the records. *)
Lemma scan_reads_covered m p t :
  Forall byte m -> file_decodes m p t ->
  forall a, In a (scan_reads t p) -> covered (tree_extents p t) a.
Proof.
  intros Hb Hd. induction Hd; intros a Hin;
    cbn [scan_reads tree_extents] in *;
    try match goal with Hn : file16 m (p + 2) = Some ?n |- _ =>
          pose proof (file16_range _ _ _ Hb Hn) as Hn0;
          pose proof (round_up_odd_ge n) as Hr
        end;
    repeat (apply in_app_or in Hin; destruct Hin as [Hin|Hin]);
    try (cbn [In] in Hin;
         apply covered_here; cbn [fst snd layout_length]; lia).
  - apply covered_later. now apply IHHd.
  - apply covered_later. now apply IHHd.
  - apply covered_later. now apply IHHd.
  - apply covered_later. now apply IHHd.
  - apply covered_later, covered_app_l. now apply IHHd1.
  - apply covered_later, covered_app_r, covered_app_l. now apply IHHd2.
  - apply covered_later, covered_app_r, covered_app_r. now apply IHHd3.
  - apply covered_later. now apply IHHd.
  - apply covered_later, covered_app_l. now apply IHHd1.
  - apply covered_later, covered_app_r. now apply IHHd2.
  - apply covered_later. now apply IHHd.
Qed.

(** A host-order decoding survives swaps of fields held elsewhere. *)
Lemma decodes_elsewhere (F : field_set) l1 m0 m m' p t :
  Forall byte m0 -> file_decodes m0 p t ->
  decodes m p t ->
  fields_reversed F m m' ->
  (forall a w, F a w -> held l1 a w) ->
  cross l1 (tree_extents p t) ->
  decodes m' p t.
Proof.
  intros Hb Hfd Hd R Hh Hx.
  apply (decodes_frame m p t Hd).
  intros a Hin.
  apply (reversed_elsewhere _ _ _ _ _ R Hh Hx).
  exact (scan_reads_covered m0 p t Hb Hfd a Hin).
Qed.

Lemma leaf_turn rec o n rest p l s :
  o <> EndOfStream -> o <> SortByNormal -> o <> SubmodelCall ->
  Forall byte (mem s) ->
  file16 (mem s) p = Some (opcode_tag o) ->
  (if counted o then file16 (mem s) (p + 2) = Some n else n = 0) ->
  file_decodes (mem s) (p + layout_length o n) rest ->
  apart ((p, layout_length o n) :: tree_extents (p + layout_length o n) rest) ->
  (forall s1,
     Forall byte (mem s1) ->
     file_decodes (mem s1) (p + layout_length o n) rest ->
     exists pend m',
       iterate_polymodel l (swap_polygon_model_data_ops rec)
         (p + layout_length o n) tt s1
       = (Val (pend, tt), set_mem m' s1)
       /\ fields_reversed (tree_fields (p + layout_length o n) rest) (mem s1) m'
       /\ Forall byte m'
       /\ decodes m' (p + layout_length o n) rest) ->
  exists pend m',
    iterate_polymodel (Datatypes.S l) (swap_polygon_model_data_ops rec) p tt s
    = (Val (pend, tt), set_mem m' s)
    /\ fields_reversed
         (both_fields (record_fields p o n)
            (tree_fields (p + layout_length o n) rest)) (mem s) m'
    /\ Forall byte m'
    /\ tag_at m' p = Some (opcode_tag o)
    /\ (if counted o then tag_at m' (p + 2) = Some n else n = 0)
    /\ (forall a v, record_fields p o n a 2 -> file_short (mem s) a = Some v ->
          short_at m' a = Some v)
    /\ decodes m' (p + layout_length o n) rest.
Proof.
  intros Hne Hs Hc Hb Htag Hcnt Hrest Ha IH.
  cbn [apart] in Ha. destruct Ha as [Hcross _].
  pose proof (stream_count_nonneg _ p o n Hb Hcnt) as Hn0.
  destruct (file_decodes_readable _ _ _ Hrest) as (v & Hv).
  pose proof (file16_bounds _ _ _ Hv) as [_ Hend].
  destruct (swap_record Hbe rec p o n s Hb Htag Hne Hs Hc Hcnt ltac:(lia))
    as (m1 & E1 & R1 & B1).
  assert (Hheld : forall a w, record_fields p o n a w ->
                    held [(p, layout_length o n)] a w).
  { intros a w H. pose proof (record_fields_within p o n a w Hn0 Hne H).
    apply held_here; cbn [fst snd]; lia. }
  assert (Hx : forall x y, In x [(p, layout_length o n)] ->
                 In y (tree_extents (p + layout_length o n) rest) ->
                 extents_apart x y).
  { intros x y [<-|[]] Hy. rewrite Forall_forall in Hcross. now apply Hcross. }
  assert (Hrest1 : file_decodes m1 (p + layout_length o n) rest).
  { apply (file_decodes_frame (mem s)); [exact Hb|exact Hrest|].
    exact (reversed_elsewhere _ _ _ _ _ R1 Hheld Hx). }
  destruct (IH (set_mem m1 s) B1 Hrest1) as (pend & m2 & E2 & R2 & B2 & D2).
  cbn [set_mem mem] in E2, R2.
  assert (R : fields_reversed
                (both_fields (record_fields p o n)
                   (tree_fields (p + layout_length o n) rest)) (mem s) m2).
  { apply (fields_reversed_seq _ _ _ _ _ R1 R2).
    apply (held_apart_separated _ _ _ _ Hheld
             (tree_fields_held m1 _ _ B1 Hrest1) Hx). }
  exists pend, m2.
  split; [|split; [exact R|split; [exact B2|split; [|split; [|split; [|exact D2]]]]]].
  - rewrite (iterate_polymodel_turn _ _ p tt s _ _ _ E1). exact E2.
  - apply (host_tag _ (mem s) m2 p _ Hb R); [|exact Htag].
    left. left. split; reflexivity.
  - destruct o; cbn [counted] in *; try exact Hcnt;
      (apply (host_tag _ (mem s) m2 (p + 2) _ Hb R); [|exact Hcnt]);
      left; right; cbn [body_fields]; left; split; reflexivity.
  - intros a x Hf Hx'. apply (host_short _ (mem s) m2 a x R); [|exact Hx'].
    left. exact Hf.
Qed.

Lemma cross_single e l : Forall (extents_apart e) l -> cross [e] l.
Proof.
  intros H x y [<-|[]] Hy. rewrite Forall_forall in H. now apply H.
Qed.

Lemma cross_app_l l1 l2 l : cross l1 l -> cross l2 l -> cross (l1 ++ l2) l.
Proof.
  intros H1 H2 x y Hx Hy. apply in_app_or in Hx.
  destruct Hx; [now apply H1|now apply H2].
Qed.

Lemma cross_app_r l l1 l2 : cross l l1 -> cross l l2 -> cross l (l1 ++ l2).
Proof.
  intros H1 H2 x y Hx Hy. apply in_app_or in Hy.
  destruct Hy; [now apply H1|now apply H2].
Qed.

Lemma cross_left l l1 l2 : cross l (l1 ++ l2) -> cross l l1.
Proof. intros H x y Hx Hy. apply H; [exact Hx|apply in_or_app; now left]. Qed.

Lemma cross_right l l1 l2 : cross l (l1 ++ l2) -> cross l l2.
Proof. intros H x y Hx Hy. apply H; [exact Hx|apply in_or_app; now right]. Qed.

Lemma both_held (F1 F2 : field_set) l1 l2 :
  (forall a w, F1 a w -> held l1 a w) ->
  (forall a w, F2 a w -> held l2 a w) ->
  forall a w, both_fields F1 F2 a w -> held (l1 ++ l2) a w.
Proof.
  intros H1 H2 a w [H|H]; [apply held_app_l; now apply H1|].
  apply held_app_r. now apply H2.
Qed.

Lemma seq4_assoc {A} (c1 c2 c3 c4 : M unit) (K : M A) s :
  (c1 ;;; c2 ;;; c3 ;;; c4 ;;; K) s = ((c1 ;;; c2 ;;; c3 ;;; c4) ;;; K) s.
Proof.
  unfold bind. destruct (c1 s) as [[[]|e] s1]; [|reflexivity].
  destruct (c2 s1) as [[[]|e] s2]; [|reflexivity].
  destruct (c3 s2) as [[[]|e] s3]; [|reflexivity].
  destruct (c4 s3) as [[[]|e] s4]; reflexivity.
Qed.

Lemma seq3_assoc {A} (c1 c2 c3 : M unit) (K : M A) s :
  (c1 ;;; c2 ;;; c3 ;;; K) s = ((c1 ;;; c2 ;;; c3) ;;; K) s.
Proof.
  unfold bind. destruct (c1 s) as [[[]|e] s1]; [|reflexivity].
  destruct (c2 s1) as [[[]|e] s2]; [|reflexivity].
  destruct (c3 s2) as [[[]|e] s3]; reflexivity.
Qed.

Lemma performs_sortnorm_fields p :
  performs (vms_vector_swap (p + 4) ;;; vms_vector_swap (p + 16) ;;;
            short_swap (p + 28) ;;; short_swap (p + 30))
    (body_fields p SortByNormal 0).
Proof.
  cbn [body_fields].
  apply performs_seq; [apply performs_vms_vector_swap| |sep_solve].
  apply performs_seq; [apply performs_vms_vector_swap| |sep_solve].
  apply performs_seq; [apply performs_short_swap|apply performs_short_swap|sep_solve].
Qed.

Lemma performs_subcall_fields p :
  performs (short_swap (p + 2) ;;; vms_vector_swap (p + 4) ;;; short_swap (p + 16))
    (body_fields p SubmodelCall 0).
Proof.
  cbn [body_fields].
  apply performs_seq; [apply performs_short_swap| |sep_solve].
  apply performs_seq; [apply performs_vms_vector_swap|apply performs_short_swap|sep_solve].
Qed.

(** The tag and the fields of a branching record, swapped at the head of
    its turn. *)
Lemma branch_record_swapped rec p o s (c : M unit) :
  o = SortByNormal \/ o = SubmodelCall ->
  performs c (body_fields p o 0) ->
  Forall byte (mem s) ->
  file16 (mem s) p = Some (opcode_tag o) ->
  p + layout_length o 0 <= Z.of_nat (length (mem s)) ->
  exists m1 m2,
    iterate_step (swap_polygon_model_data_ops rec) p tt s
    = ('(sz, st') <- dispatch_polymodel_op (swap_polygon_model_data_ops rec) p tt
                       (opcode_tag o) ;;
       ret (Some (p + sz, st'))) (set_mem m1 s)
    /\ c (set_mem m1 s) = (Val tt, set_mem m2 s)
    /\ fields_reversed (record_fields p o 0) (mem s) m2
    /\ Forall byte m2.
Proof.
  intros Ho Hc Hb Htag Hlen.
  assert (Htagr : 1 <= opcode_tag o <= 8)
    by (destruct Ho; subst o; cbv [opcode_tag OP_SORTNORM OP_SUBCALL]; lia).
  destruct (swap_tag_turn rec p s (opcode_tag o) Htagr Hb Htag)
    as (m1 & Estep & R1 & B1).
  pose proof (file16_bounds _ _ _ Htag) as [Hp _].
  destruct (Hc (set_mem m1 s) B1) as (m2 & E2 & R2 & B2).
  { intros a w H. pose proof (body_fields_within p o 0 a w ltac:(lia) H).
    cbn [set_mem mem]. rewrite (proj1 R1). lia. }
  cbn [set_mem mem] in E2, R2.
  exists m1, m2. split; [exact Estep|]. split; [exact E2|]. split; [|exact B2].
  apply (fields_reversed_seq _ _ _ _ _ R1 R2).
  intros a w a' w' [-> ->] H.
  pose proof (body_fields_within p o 0 a' w' ltac:(lia) H). lia.
Qed.

Lemma loop_converts_all t : loop_converts t.
Proof.
  induction t as
    [ | n rest IH | n rest IH | nv rest IH | nv tex rest IH
    | fo bo front IHf back IHb rest IH | rest IH | off sub IHs rest IH | rest IH ];
    intros p loop_fuel rec_fuel s Hb Hdec Ha Hl Hr;
    inversion Hdec; subst; cbn [model_size] in Hl, Hr;
    cbn [tree_extents] in Ha;
    (destruct loop_fuel as [|l]; [lia|]); cbn [tree_fields];
    try match goal with H : file16 _ p = Some _ |- _ => rename H into Htag end;
    try match goal with H : file16 _ (p + 2) = Some _ |- _ => rename H into Hcnt end;
    try match goal with
        | H : file_decodes _ (p + layout_length _ _) rest |- _ => rename H into Hrest
        end.
  - (* the end tag *)
    exists p, (mem s).
    split; [|split; [apply fields_reversed_none|split; [exact Hb|]]].
    + destruct (swapped_store Hbe p s OP_EOF Hb Htag) as (Hw & _).
      replace (set_mem (mem s) s) with s by (destruct s; reflexivity).
      apply iterate_polymodel_eof.
      unfold get_raw_opcode. rewrite (bind_val _ _ _ _ _ Hw). reflexivity.
    + apply dec_eof. exact (end_tag_host _ _ Hb Htag).
  - (* DefinePoints *)
    destruct (leaf_turn (swap_polygon_model_data rec_fuel) DefinePoints n rest p l s)
      as (pend & m' & E & R & B & Dt & Dc & Ds & Dr);
      try discriminate; try assumption; try reflexivity.
    { intros s1 Hb1 Hd1. apply IH; [exact Hb1|exact Hd1|exact (proj2 Ha)|lia|lia]. }
    exists pend, m'. split; [exact E|]. split; [exact R|]. split; [exact B|].
    apply dec_defpoints; assumption.
  - (* DefinePointsWithStart *)
    destruct (leaf_turn (swap_polygon_model_data rec_fuel) DefinePointsWithStart n rest p l s)
      as (pend & m' & E & R & B & Dt & Dc & Ds & Dr);
      try discriminate; try assumption; try reflexivity.
    { intros s1 Hb1 Hd1. apply IH; [exact Hb1|exact Hd1|exact (proj2 Ha)|lia|lia]. }
    exists pend, m'. split; [exact E|]. split; [exact R|]. split; [exact B|].
    apply dec_defp_start; assumption.
  - (* FlatPolygon *)
    destruct (leaf_turn (swap_polygon_model_data rec_fuel) FlatPolygon nv rest p l s)
      as (pend & m' & E & R & B & Dt & Dc & Ds & Dr);
      try discriminate; try assumption; try reflexivity.
    { intros s1 Hb1 Hd1. apply IH; [exact Hb1|exact Hd1|exact (proj2 Ha)|lia|lia]. }
    exists pend, m'. split; [exact E|]. split; [exact R|]. split; [exact B|].
    apply dec_flatpoly; assumption.
  - (* TexturedPolygon *)
    destruct (leaf_turn (swap_polygon_model_data rec_fuel) TexturedPolygon nv rest p l s)
      as (pend & m' & E & R & B & Dt & Dc & Ds & Dr);
      try discriminate; try assumption; try reflexivity.
    { intros s1 Hb1 Hd1. apply IH; [exact Hb1|exact Hd1|exact (proj2 Ha)|lia|lia]. }
    exists pend, m'. split; [exact E|]. split; [exact R|]. split; [exact B|].
    apply dec_tmappoly; try assumption.
    match goal with H : file_short _ (p + 28) = Some tex |- _ =>
      apply (Ds (p + 28) tex); [|exact H] end.
    right. cbn [body_fields]. unfold both_fields, one_field. tauto.
  - (* SortByNormal *)
    match goal with H : file_short _ (p + 28) = Some fo |- _ => rename H into Hfo end.
    match goal with H : file_short _ (p + 30) = Some bo |- _ => rename H into Hbo end.
    match goal with H : file_decodes _ (p + fo) front |- _ => rename H into Hf end.
    match goal with H : file_decodes _ (p + bo) back |- _ => rename H into Hbk end.
    cbn [apart] in Ha. destruct Ha as [Hcross Ha].
    apply cross_single in Hcross.
    destruct (apart_app _ _ Ha) as (Af & Ha' & Xf).
    destruct (apart_app _ _ Ha') as (Ab & Ar & Xbr).
    fold (cross (tree_extents (p + fo) front)
            (tree_extents (p + bo) back
             ++ tree_extents (p + layout_length SortByNormal 0) rest)) in Xf.
    fold (cross (tree_extents (p + bo) back)
            (tree_extents (p + layout_length SortByNormal 0) rest)) in Xbr.
    set (e0 := (p, layout_length SortByNormal 0)) in *.
    set (ef := tree_extents (p + fo) front) in *.
    set (eb := tree_extents (p + bo) back) in *.
    set (er := tree_extents (p + layout_length SortByNormal 0) rest) in *.
    pose proof (tree_fields_held _ _ _ Hb Hf) as Tf.
    pose proof (tree_fields_held _ _ _ Hb Hbk) as Tb.
    pose proof (tree_fields_held _ _ _ Hb Hrest) as Tr.
    fold ef in Tf. fold eb in Tb. fold er in Tr.
    destruct (file_decodes_readable _ _ _ Hrest) as (v & Hv).
    pose proof (file16_bounds _ _ _ Hv) as [_ Hend].
    destruct (branch_record_swapped (swap_polygon_model_data rec_fuel) p
                SortByNormal s _ (or_introl eq_refl) (performs_sortnorm_fields p)
                Hb Htag ltac:(lia)) as (m1 & m2 & Estep & E2 & R2 & B2).
    assert (T0 : forall a w, record_fields p SortByNormal 0 a w -> held [e0] a w).
    { intros a w H.
      pose proof (record_fields_within p SortByNormal 0 a w ltac:(lia)
                    ltac:(discriminate) H).
      apply held_here; subst e0; cbn [fst snd]; lia. }
    (* the front branch *)
    assert (Wf : w (p + 28) (set_mem m2 s) = (Val fo, set_mem m2 s)).
    { apply (swapped_short _ (mem s) m2 (p + 28) fo _ R2); [|exact Hfo|reflexivity].
      right. cbn [body_fields]. unfold both_fields, one_field. tauto. }
    assert (Hf2 : file_decodes m2 (p + fo) front).
    { apply (file_decodes_frame (mem s)); [exact Hb|exact Hf|].
      apply (reversed_elsewhere _ [e0] _ _ _ R2 T0).
      exact (cross_left _ _ _ Hcross). }
    destruct (call_converts_of_loop front IHf (p + fo) rec_fuel (set_mem m2 s)
                B2 Hf2 Af ltac:(lia)) as (m3 & E3 & R3 & B3 & D3).
    cbn [set_mem mem] in E3, R3.
    assert (R13 : fields_reversed
                    (both_fields (record_fields p SortByNormal 0)
                       (tree_fields (p + fo) front)) (mem s) m3).
    { apply (fields_reversed_seq _ _ _ _ _ R2 R3).
      apply (held_apart_separated _ _ _ _ T0 Tf). exact (cross_left _ _ _ Hcross). }
    pose proof (both_held _ _ _ _ T0 Tf) as T13.
    (* the back branch *)
    assert (Wb : w (p + 30) (set_mem m3 s) = (Val bo, set_mem m3 s)).
    { apply (swapped_short _ (mem s) m3 (p + 30) bo _ R13); [|exact Hbo|reflexivity].
      left. right. cbn [body_fields]. unfold both_fields, one_field. tauto. }
    assert (X13b : cross ([e0] ++ ef) eb).
    { apply cross_app_l.
      - exact (cross_left _ _ _ (cross_right _ _ _ Hcross)).
      - exact (cross_left _ _ _ Xf). }
    assert (Hb3 : file_decodes m3 (p + bo) back).
    { apply (file_decodes_frame (mem s)); [exact Hb|exact Hbk|].
      exact (reversed_elsewhere _ _ _ _ _ R13 T13 X13b). }
    destruct (call_converts_of_loop back IHb (p + bo) rec_fuel (set_mem m3 s)
                B3 Hb3 Ab ltac:(lia)) as (m4 & E4 & R4 & B4 & D4).
    cbn [set_mem mem] in E4, R4.
    assert (R14 : fields_reversed
                    (both_fields
                       (both_fields (record_fields p SortByNormal 0)
                          (tree_fields (p + fo) front))
                       (tree_fields (p + bo) back)) (mem s) m4).
    { apply (fields_reversed_seq _ _ _ _ _ R13 R4).
      exact (held_apart_separated _ _ _ _ T13 Tb X13b). }
    pose proof (both_held _ _ _ _ T13 Tb) as T14.
    assert (X14r : cross (([e0] ++ ef) ++ eb) er).
    { apply cross_app_l; [apply cross_app_l|].
      - exact (cross_right _ _ _ (cross_right _ _ _ Hcross)).
      - exact (cross_right _ _ _ Xf).
      - exact Xbr. }
    assert (Hrest4 : file_decodes m4 (p + layout_length SortByNormal 0) rest).
    { apply (file_decodes_frame (mem s)); [exact Hb|exact Hrest|].
      exact (reversed_elsewhere _ _ _ _ _ R14 T14 X14r). }
    assert (Hd : dispatch_polymodel_op
                   (swap_polygon_model_data_ops (swap_polygon_model_data rec_fuel))
                   p tt (opcode_tag SortByNormal) (set_mem m1 s)
                 = (Val (layout_length SortByNormal 0, tt), set_mem m4 s)).
    { unfold dispatch_polymodel_op. cbn [opcode_tag].
      cbv [OP_EOF OP_DEFPOINTS OP_FLATPOLY OP_TMAPPOLY OP_SORTNORM
           OP_RODBM OP_SUBCALL OP_DEFP_START OP_GLOW Z.eqb Pos.eqb]. cbv beta iota.
      cbn [swap_polygon_model_data_ops op_sortnorm].
      erewrite bind_val; [reflexivity|].
      unfold swap_op_sortnorm. rewrite seq4_assoc.
      rewrite (bind_val _ _ _ _ _ E2).
      rewrite (bind_val _ _ _ _ _ Wf).
      rewrite (bind_val _ _ _ _ _ E3).
      rewrite (bind_val _ _ _ _ _ Wb).
      exact E4. }
    destruct (IH (p + layout_length SortByNormal 0) l rec_fuel (set_mem m4 s)
                B4 Hrest4 Ar ltac:(lia) ltac:(lia))
      as (pend & m5 & E5 & R5 & B5 & D5).
    cbn [set_mem mem] in E5, R5.
    assert (R45 : fields_reversed
                    (both_fields (tree_fields (p + bo) back)
                       (tree_fields (p + layout_length SortByNormal 0) rest))
                    m3 m5).
    { apply (fields_reversed_seq _ _ _ _ _ R4 R5).
      exact (held_apart_separated _ _ _ _ Tb Tr Xbr). }
    assert (R : fields_reversed
                  (both_fields (record_fields p SortByNormal 0)
                     (both_fields (tree_fields (p + fo) front)
                        (both_fields (tree_fields (p + bo) back)
                           (tree_fields (p + layout_length SortByNormal 0) rest))))
                  (mem s) m5).
    { apply (fields_reversed_seq _ _ _ _ _ R2).
      - apply (fields_reversed_seq _ _ _ _ _ R3 R45).
        exact (held_apart_separated _ _ _ _ Tf (both_held _ _ _ _ Tb Tr) Xf).
      - exact (held_apart_separated _ _ _ _ T0
                 (both_held _ _ _ _ Tf (both_held _ _ _ _ Tb Tr)) Hcross). }
    exists pend, m5. split; [|split; [exact R|split; [exact B5|]]].
    + rewrite (iterate_polymodel_turn _ _ p tt s
                 (p + layout_length SortByNormal 0) tt (set_mem m4 s)); [exact E5|].
      rewrite Estep. rewrite (bind_val _ _ _ _ _ Hd). reflexivity.
    + apply dec_sortnorm.
      * apply (host_tag _ (mem s) m5 p _ Hb R); [|exact Htag].
        left. left. split; reflexivity.
      * apply (host_short _ (mem s) m5 (p + 28) fo R); [|exact Hfo].
        left. right. cbn [body_fields]. unfold both_fields, one_field. tauto.
      * apply (host_short _ (mem s) m5 (p + 30) bo R); [|exact Hbo].
        left. right. cbn [body_fields]. unfold both_fields, one_field. tauto.
      * apply (decodes_elsewhere _ (eb ++ er) (mem s) m3 m5 _ _ Hb Hf D3 R45
                 (both_held _ _ _ _ Tb Tr)).
        exact (cross_sym _ _ Xf).
      * apply (decodes_elsewhere _ er (mem s) m4 m5 _ _ Hb Hbk D4 R5 Tr).
        exact (cross_sym _ _ Xbr).
      * exact D5.
  - (* RodBitmap *)
    destruct (leaf_turn (swap_polygon_model_data rec_fuel) RodBitmap 0 rest p l s)
      as (pend & m' & E & R & B & Dt & Dc & Ds & Dr);
      try discriminate; try assumption; try reflexivity.
    { intros s1 Hb1 Hd1. apply IH; [exact Hb1|exact Hd1|exact (proj2 Ha)|lia|lia]. }
    exists pend, m'. split; [exact E|]. split; [exact R|]. split; [exact B|].
    apply dec_rodbm; assumption.
  - (* SubmodelCall *)
    match goal with H : file_short _ (p + 16) = Some off |- _ => rename H into Hoff end.
    match goal with H : file_decodes _ (p + off) sub |- _ => rename H into Hs end.
    cbn [apart] in Ha. destruct Ha as [Hcross Ha].
    apply cross_single in Hcross.
    destruct (apart_app _ _ Ha) as (As & Ar & Xsr).
    fold (cross (tree_extents (p + off) sub)
            (tree_extents (p + layout_length SubmodelCall 0) rest)) in Xsr.
    set (e0 := (p, layout_length SubmodelCall 0)) in *.
    set (es := tree_extents (p + off) sub) in *.
    set (er := tree_extents (p + layout_length SubmodelCall 0) rest) in *.
    pose proof (tree_fields_held _ _ _ Hb Hs) as Ts.
    pose proof (tree_fields_held _ _ _ Hb Hrest) as Tr.
    fold es in Ts. fold er in Tr.
    destruct (file_decodes_readable _ _ _ Hrest) as (v & Hv).
    pose proof (file16_bounds _ _ _ Hv) as [_ Hend].
    destruct (branch_record_swapped (swap_polygon_model_data rec_fuel) p
                SubmodelCall s _ (or_intror eq_refl) (performs_subcall_fields p)
                Hb Htag ltac:(lia)) as (m1 & m2 & Estep & E2 & R2 & B2).
    assert (T0 : forall a w, record_fields p SubmodelCall 0 a w -> held [e0] a w).
    { intros a w H.
      pose proof (record_fields_within p SubmodelCall 0 a w ltac:(lia)
                    ltac:(discriminate) H).
      apply held_here; subst e0; cbn [fst snd]; lia. }
    assert (Wo : w (p + 16) (set_mem m2 s) = (Val off, set_mem m2 s)).
    { apply (swapped_short _ (mem s) m2 (p + 16) off _ R2); [|exact Hoff|reflexivity].
      right. cbn [body_fields]. unfold both_fields, one_field. tauto. }
    assert (Hs2 : file_decodes m2 (p + off) sub).
    { apply (file_decodes_frame (mem s)); [exact Hb|exact Hs|].
      apply (reversed_elsewhere _ [e0] _ _ _ R2 T0).
      exact (cross_left _ _ _ Hcross). }
    destruct (call_converts_of_loop sub IHs (p + off) rec_fuel (set_mem m2 s)
                B2 Hs2 As ltac:(lia)) as (m3 & E3 & R3 & B3 & D3).
    cbn [set_mem mem] in E3, R3.
    assert (R13 : fields_reversed
                    (both_fields (record_fields p SubmodelCall 0)
                       (tree_fields (p + off) sub)) (mem s) m3).
    { apply (fields_reversed_seq _ _ _ _ _ R2 R3).
      apply (held_apart_separated _ _ _ _ T0 Ts). exact (cross_left _ _ _ Hcross). }
    pose proof (both_held _ _ _ _ T0 Ts) as T13.
    assert (X13r : cross ([e0] ++ es) er).
    { apply cross_app_l; [exact (cross_right _ _ _ Hcross)|exact Xsr]. }
    assert (Hrest3 : file_decodes m3 (p + layout_length SubmodelCall 0) rest).
    { apply (file_decodes_frame (mem s)); [exact Hb|exact Hrest|].
      exact (reversed_elsewhere _ _ _ _ _ R13 T13 X13r). }
    assert (Hd : dispatch_polymodel_op
                   (swap_polygon_model_data_ops (swap_polygon_model_data rec_fuel))
                   p tt (opcode_tag SubmodelCall) (set_mem m1 s)
                 = (Val (layout_length SubmodelCall 0, tt), set_mem m3 s)).
    { unfold dispatch_polymodel_op. cbn [opcode_tag].
      cbv [OP_EOF OP_DEFPOINTS OP_FLATPOLY OP_TMAPPOLY OP_SORTNORM
           OP_RODBM OP_SUBCALL OP_DEFP_START OP_GLOW Z.eqb Pos.eqb]. cbv beta iota.
      cbn [swap_polygon_model_data_ops op_subcall].
      erewrite bind_val; [reflexivity|].
      unfold swap_op_subcall. rewrite seq3_assoc.
      rewrite (bind_val _ _ _ _ _ E2).
      rewrite (bind_val _ _ _ _ _ Wo).
      exact E3. }
    destruct (IH (p + layout_length SubmodelCall 0) l rec_fuel (set_mem m3 s)
                B3 Hrest3 Ar ltac:(lia) ltac:(lia))
      as (pend & m4 & E4 & R4 & B4 & D4).
    cbn [set_mem mem] in E4, R4.
    assert (R : fields_reversed
                  (both_fields (record_fields p SubmodelCall 0)
                     (both_fields (tree_fields (p + off) sub)
                        (tree_fields (p + layout_length SubmodelCall 0) rest)))
                  (mem s) m4).
    { apply (fields_reversed_seq _ _ _ _ _ R2).
      - apply (fields_reversed_seq _ _ _ _ _ R3 R4).
        exact (held_apart_separated _ _ _ _ Ts Tr Xsr).
      - exact (held_apart_separated _ _ _ _ T0 (both_held _ _ _ _ Ts Tr) Hcross). }
    exists pend, m4. split; [|split; [exact R|split; [exact B4|]]].
    + rewrite (iterate_polymodel_turn _ _ p tt s
                 (p + layout_length SubmodelCall 0) tt (set_mem m3 s)); [exact E4|].
      rewrite Estep. rewrite (bind_val _ _ _ _ _ Hd). reflexivity.
    + apply dec_subcall.
      * apply (host_tag _ (mem s) m4 p _ Hb R); [|exact Htag].
        left. left. split; reflexivity.
      * apply (host_short _ (mem s) m4 (p + 16) off R); [|exact Hoff].
        left. right. cbn [body_fields]. unfold both_fields, one_field. tauto.
      * apply (decodes_elsewhere _ er (mem s) m3 m4 _ _ Hb Hs D3 R4 Tr).
        exact (cross_sym _ _ Xsr).
      * exact D4.
  - (* Glow *)
    destruct (leaf_turn (swap_polygon_model_data rec_fuel) Glow 0 rest p l s)
      as (pend & m' & E & R & B & Dt & Dc & Ds & Dr);
      try discriminate; try assumption; try reflexivity.
    { intros s1 Hb1 Hd1. apply IH; [exact Hb1|exact Hd1|exact (proj2 Ha)|lia|lia]. }
    exists pend, m'. split; [exact E|]. split; [exact R|]. split; [exact B|].
    apply dec_glow; assumption.
Qed.

End SwapHierarchy.

(** The byte-order pass on a big-endian host, run on a buffer of bytes
    that holds a whole hierarchy in the byte order of the files: records of
    every opcode, the branches of SortByNormal and SubmodelCall records at
    their signed offsets, every stream ended by its end tag, and no two
    records or end tags overlapping.  The pass returns; it has reversed the
    bytes of the multi-byte fields of every record of the hierarchy, each
    once, and has written no other byte; every field then reads on the host
    as the file has it, and the buffer decodes in host order as the same
    hierarchy, as the renderers and the load-time scan expect it. *)
Theorem swap_pass_converts_hierarchy :
  forall {C : Config} t p fuel s,
    DXX_WORDS_BIGENDIAN = true ->
    Forall byte (mem s) ->
    file_decodes (mem s) p t ->
    apart (tree_extents p t) ->
    (model_size t < fuel)%nat ->
    exists m',
      swap_polygon_model_data fuel p s = (Val tt, set_mem m' s)
      /\ fields_reversed (tree_fields p t) (mem s) m'
      /\ host_reads_file (tree_fields p t) (mem s) m'
      /\ decodes m' p t.
Proof.
  intros C t p fuel s Hbe Hb Hd Ha Hf.
  destruct (call_converts_of_loop t (loop_converts_all Hbe t) p fuel s Hb Hd Ha Hf)
    as (m' & E & R & _ & D).
  exists m'. split; [exact E|]. split; [exact R|]. split; [|exact D].
  exact (fields_reversed_host Hbe _ _ _ R).
Qed.

Lemma nested_buffer_file_decodes : file_decodes nested_buffer 0 nested_model.
Proof.
  unfold nested_model.
  apply fdec_sortnorm; try reflexivity.
  - apply fdec_tmappoly; try reflexivity. apply fdec_eof. reflexivity.
  - apply fdec_tmappoly; try reflexivity. apply fdec_eof. reflexivity.
  - apply fdec_subcall; try reflexivity.
    + apply fdec_tmappoly; try reflexivity. apply fdec_eof. reflexivity.
    + apply fdec_eof. reflexivity.
Qed.

Lemma swap_pass_converts_hierarchy_witness :
  exists m',
    @swap_polygon_model_data be_config 10 0 nested_be_world
    = (Val tt, @set_mem be_config m' nested_be_world)
    /\ fields_reversed (tree_fields 0 nested_model) nested_buffer m'
    /\ @host_reads_file be_config (tree_fields 0 nested_model) nested_buffer m'
    /\ @decodes be_config m' 0 nested_model.
Proof.
  refine (@swap_pass_converts_hierarchy be_config nested_model 0 10
            nested_be_world eq_refl (all_bytes_Forall nested_buffer eq_refl)
            nested_buffer_file_decodes
            (apartb_ok (tree_extents 0 nested_model) eq_refl) _).
  cbn. lia.
Defined.

(** ** The pass and the scan, one after the other *)

(** Loading a model on a big-endian host: the byte-order pass, then the
    load-time scan of the buffer it leaves.  For a buffer of bytes that
    holds a hierarchy in the byte order of the files, no two records
    overlapping, the pass returns, and the scan of what it leaves returns
    [max_texture_index], the greatest of [-1] and the texture indices of
    the hierarchy as the file holds them.  The scan asks what it asks of any buffer: in a debug build
    polygons of three points at least and fewer than 1000 calls, in the
    Descent I build colour fields that lie over no field it reads. *)
Theorem swapped_hierarchy_scans :
  forall {C : Config} t p fuel s,
    DXX_WORDS_BIGENDIAN = true ->
    Forall byte (mem s) ->
    file_decodes (mem s) p t ->
    apart (tree_extents p t) ->
    scan_separate t p ->
    NDEBUG = true \/ (polygons_ok t /\ 1 + nested_calls t < 1000) ->
    (model_size t < fuel)%nat ->
    exists s1 s2,
      swap_polygon_model_data fuel p s = (Val tt, s1)
      /\ g3_init_polygon_model fuel p s1 = (Val (max_texture_index t), s2).
Proof.
  intros C t p fuel s Hbe Hb Hd Hap Hsep Ha Hf.
  destruct (call_converts_of_loop t (loop_converts_all Hbe t) p fuel s Hb Hd Hap Hf)
    as (m' & E & _ & _ & D).
  set (s1 := set_mem m' s) in *.
  set (s0 := if NDEBUG then s1 else set_nest_count 0 s1).
  assert (Hm0 : mem s0 = m') by (subst s0 s1; destruct NDEBUG; reflexivity).
  destruct (call_scans_of_loop t (loop_scans_all t) p fuel (-1) s0)
    as (s2 & Hc & _); try assumption.
  { rewrite Hm0. exact D. }
  { unfold entry_asserts_hold. destruct Ha as [Ha|[Hp Ha]]; [now left|].
    subst s0. destruct NDEBUG; [now left|right].
    split; [exact Hp|cbn [nest_count set_nest_count]; lia]. }
  exists s1, s2. split; [exact E|].
  unfold g3_init_polygon_model.
  assert (H0 : (if NDEBUG then ret tt else modify (set_nest_count 0)) s1
               = (Val tt, s0))
    by (subst s0; destruct NDEBUG; reflexivity).
  rewrite (bind_val _ _ _ _ _ H0). rewrite Hc.
  now rewrite scan_result_max.
Qed.

Lemma swapped_hierarchy_scans_witness :
  exists s1 s2,
    @swap_polygon_model_data be_config 10 0 nested_be_world = (Val tt, s1)
    /\ @g3_init_polygon_model be_config 10 0 s1 = (Val 7, s2).
Proof.
  refine (@swapped_hierarchy_scans be_config nested_model 0 10 nested_be_world
            eq_refl (all_bytes_Forall nested_buffer eq_refl)
            nested_buffer_file_decodes
            (apartb_ok (tree_extents 0 nested_model) eq_refl)
            (@scan_separateb_ok be_config nested_model 0 eq_refl) _ _).
  - left. reflexivity.
  - cbn. lia.
Defined.

(** ** The cursor a traversal returns *)

Section CursorAtEndTag.
Context {C : Config}.








End CursorAtEndTag.


